(** * The normal IPC process of rlite: the DTP/DTCP data-transfer core

    A shallow embedding of [kernel/normal.c].  The per-flow protocol
    state ([struct dtp]) is a record, every function that runs under the DTP
    lock is a pure function from the state before to the state after, and what
    the C code does to the outside world (freeing a buffer, handing a PDU to
    the RMT, delivering an SDU upwards) is returned as a list of events in
    program order.  What the outside world decides (the clock, the allocator,
    the lower flow) is an argument of the function that asks for it. *)

From Stdlib Require Import ZArith List Bool Lia Sorted.
Import ListNotations.
Open Scope Z_scope.

(** ** Machine integers *)

(** [uint64_t] and [unsigned long] arithmetic wraps at 2^64, [unsigned int]
    arithmetic at 2^32. *)
Definition u64 (x : Z) : Z := x mod 2 ^ 64.
Definition u32 (x : Z) : Z := x mod 2 ^ 32.

Definition U64_MAX : Z := 2 ^ 64 - 1.

(** The errno values the file returns (negated, as the kernel does). *)
Definition EAGAIN : Z := 11.
Definition ENOMEM : Z := 12.
Definition EINVAL : Z := 22.
Definition ENOSPC : Z := 28.
Definition EHOSTUNREACH : Z := 113.

(** ** Protocol control information *)

(** Modelled from the spec: the [PDU_T_*] constants are declared in a header
    that is not part of the sources at hand.  The spec fixes their meaning
    ([pdu_type] is a bitmap over CTRL, ACK_BIT and FC_BIT plus an ACK subtype
    among ACK, NACK, SACK and SNACK); the values below are the ones of the
    rlite wire format.  The values matter only where a PDU type is built or
    told apart: in the lemmas on the control PDU [sdu_rx_sv_update] builds
    and on management PDUs on the receive path, and in the examples. *)
Definition PDU_T_MGMT : Z := 0x40.
Definition PDU_T_DT : Z := 0x80.
Definition PDU_T_CTRL_MASK : Z := 0xC0.
Definition PDU_T_ACK_BIT : Z := 0x04.
Definition PDU_T_FC_BIT : Z := 0x08.
Definition PDU_T_ACK_MASK : Z := 0x03.
Definition PDU_T_ACK : Z := 0.
Definition PDU_T_NACK : Z := 1.
Definition PDU_T_SACK : Z := 2.
Definition PDU_T_SNACK : Z := 3.

(** [struct rina_pci], with [conn_id] flattened. *)
Record rina_pci := {
  dst_addr : Z;
  src_addr : Z;
  qos_id : Z;
  dst_cep : Z;
  src_cep : Z;
  pdu_type : Z;
  pdu_flags : Z;
  pdu_len : Z;
  seqnum : Z
}.

(** [struct rina_pci_ctrl]: the base PCI followed by the control fields. *)
Record rina_pci_ctrl := {
  base : rina_pci;
  pcic_last_ctrl_seq_num_rcvd : Z;
  ack_nack_seq_num : Z;
  new_rwe : Z;
  new_lwe : Z;
  my_rwe : Z;
  my_lwe : Z
}.

(** ** PDU buffers *)

(** Modelled from the spec: [struct rlite_buf] and its helpers
    ([rlite_buf_pci_push], [rlite_buf_pci_pop], [rlite_buf_clone]) live in a
    header outside the sources at hand.  A buffer has an identity (its
    address, which is what the C code compares when it compares buffer
    pointers), a head reserve [rb_room] in bytes, a length, the header its
    [pci] pointer designates (read as a control PCI when the code casts it),
    the retransmission deadline and the flow recorded for a deferred send. *)
Record rlite_buf := {
  rb_addr : Z;
  rb_room : Z;
  len : Z;
  pcic : rina_pci_ctrl;
  rtx_jiffies : Z;
  tx_compl_flow : option Z
}.

Definition RLITE_BUF_PCI (rb : rlite_buf) : rina_pci := base (pcic rb).
Definition RLITE_BUF_PCI_CTRL (rb : rlite_buf) : rina_pci_ctrl := pcic rb.

(** Modelled from the spec: the size of [struct rina_pci] on the wire. *)
Definition RINA_PCI_SIZE : Z := 40.

Definition with_pci (p : rina_pci) (rb : rlite_buf) : rlite_buf :=
  {| rb_addr := rb_addr rb; rb_room := rb_room rb; len := len rb;
     pcic := {| base := p;
                pcic_last_ctrl_seq_num_rcvd := pcic_last_ctrl_seq_num_rcvd (pcic rb);
                ack_nack_seq_num := ack_nack_seq_num (pcic rb);
                new_rwe := new_rwe (pcic rb); new_lwe := new_lwe (pcic rb);
                my_rwe := my_rwe (pcic rb); my_lwe := my_lwe (pcic rb) |};
     rtx_jiffies := rtx_jiffies rb; tx_compl_flow := tx_compl_flow rb |}.

Definition with_pcic (p : rina_pci_ctrl) (rb : rlite_buf) : rlite_buf :=
  {| rb_addr := rb_addr rb; rb_room := rb_room rb; len := len rb; pcic := p;
     rtx_jiffies := rtx_jiffies rb; tx_compl_flow := tx_compl_flow rb |}.

Definition with_rtx_jiffies (j : Z) (rb : rlite_buf) : rlite_buf :=
  {| rb_addr := rb_addr rb; rb_room := rb_room rb; len := len rb; pcic := pcic rb;
     rtx_jiffies := j; tx_compl_flow := tx_compl_flow rb |}.

Definition with_tx_compl_flow (f : option Z) (rb : rlite_buf) : rlite_buf :=
  {| rb_addr := rb_addr rb; rb_room := rb_room rb; len := len rb; pcic := pcic rb;
     rtx_jiffies := rtx_jiffies rb; tx_compl_flow := f |}.

(** Modelled from the spec: [push_pci] moves the logical start of the buffer
    backwards over one PCI and fails when the reserve is exhausted. *)
Definition rlite_buf_pci_push (rb : rlite_buf) : option rlite_buf :=
  if rb_room rb <? RINA_PCI_SIZE then None
  else Some {| rb_addr := rb_addr rb; rb_room := rb_room rb - RINA_PCI_SIZE;
               len := len rb + RINA_PCI_SIZE; pcic := pcic rb;
               rtx_jiffies := rtx_jiffies rb; tx_compl_flow := tx_compl_flow rb |}.

(** Modelled from the spec: [pop_pci] moves the logical start forwards over
    one PCI and fails when the payload underflows. *)
Definition rlite_buf_pci_pop (rb : rlite_buf) : option rlite_buf :=
  if len rb <? RINA_PCI_SIZE then None
  else Some {| rb_addr := rb_addr rb; rb_room := rb_room rb + RINA_PCI_SIZE;
               len := len rb - RINA_PCI_SIZE; pcic := pcic rb;
               rtx_jiffies := rtx_jiffies rb; tx_compl_flow := tx_compl_flow rb |}.

(** Modelled from the spec: a clone is an independent copy; the allocator
    chooses its address. *)
Definition rlite_buf_clone (a : Z) (rb : rlite_buf) : rlite_buf :=
  {| rb_addr := a; rb_room := rb_room rb; len := len rb; pcic := pcic rb;
     rtx_jiffies := rtx_jiffies rb; tx_compl_flow := tx_compl_flow rb |}.

(** What the code does to the world outside the DTP state, in program
    order. *)
Inductive event :=
| ev_free (rb : rlite_buf)
| ev_rmt_tx (remote_addr : Z) (rb : rlite_buf) (maysleep : bool)
| ev_sdu_rx_flow (rb : rlite_buf) (qlimit : bool)
| ev_lower_write (lower_flow : Z) (rb : rlite_buf) (ret : Z)
| ev_loopback (rb : rlite_buf)
| ev_write_restart.

(** ** Flow configuration, DTP state, flows *)

(** Modelled from the spec: the flow-control type of a flow is [Window] or
    [None]. *)
Inductive fc_type_t := RLITE_FC_T_NONE | RLITE_FC_T_WIN.

Definition is_win (t : fc_type_t) : bool :=
  match t with RLITE_FC_T_WIN => true | RLITE_FC_T_NONE => false end.

(** [struct flow_config] with the nested [dtcp], [fc] and [rtx] structures
    flattened. *)
Record flow_config := {
  dtcp_present : bool;
  in_order_delivery : bool;
  max_sdu_gap : Z;
  flow_control : bool;
  fc_type : fc_type_t;
  w_max_cwq_len : Z;
  w_initial_credit : Z;
  rtx_control : bool;
  initial_tr : Z;
  data_rxms_max : Z;
  initial_a : Z
}.

(** [struct dtp].  A timer is [Some expiry] while it is pending;
    [rtx_tmr_next] holds the address of a buffer of [rtxq] or is NULL. *)
Record dtp := {
  set_drf : bool;
  next_seq_num_to_send : Z;
  snd_lwe : Z;
  snd_rwe : Z;
  last_seq_num_sent : Z;
  cwq : list rlite_buf;
  cwq_len : Z;
  max_cwq_len : Z;
  rtxq : list rlite_buf;
  rtxq_len : Z;
  max_rtxq_len : Z;
  rtx_tmr_next : option Z;
  rtx_tmr : option Z;
  rtx_tmr_int : Z;
  rcv_lwe : Z;
  rcv_lwe_priv : Z;
  rcv_rwe : Z;
  max_seq_num_rcvd : Z;
  last_snd_data_ack : Z;
  seqq : list rlite_buf;
  seqq_len : Z;
  next_snd_ctl_seq : Z;
  last_ctrl_seq_num_rcvd : Z;
  snd_inact_tmr : option Z;
  rcv_inact_tmr : option Z;
  mpl_r_a : Z
}.

Definition with_set_drf (v : bool) (d : dtp) : dtp :=
  {| set_drf := v; next_seq_num_to_send := next_seq_num_to_send d; snd_lwe :=
     snd_lwe d; snd_rwe := snd_rwe d; last_seq_num_sent := last_seq_num_sent d;
     cwq := cwq d; cwq_len := cwq_len d; max_cwq_len := max_cwq_len d; rtxq :=
     rtxq d; rtxq_len := rtxq_len d; max_rtxq_len := max_rtxq_len d; rtx_tmr_next
     := rtx_tmr_next d; rtx_tmr := rtx_tmr d; rtx_tmr_int := rtx_tmr_int d;
     rcv_lwe := rcv_lwe d; rcv_lwe_priv := rcv_lwe_priv d; rcv_rwe := rcv_rwe d;
     max_seq_num_rcvd := max_seq_num_rcvd d; last_snd_data_ack :=
     last_snd_data_ack d; seqq := seqq d; seqq_len := seqq_len d;
     next_snd_ctl_seq := next_snd_ctl_seq d; last_ctrl_seq_num_rcvd :=
     last_ctrl_seq_num_rcvd d; snd_inact_tmr := snd_inact_tmr d; rcv_inact_tmr :=
     rcv_inact_tmr d; mpl_r_a := mpl_r_a d |}.
Definition with_next_seq_num_to_send (v : Z) (d : dtp) : dtp :=
  {| set_drf := set_drf d; next_seq_num_to_send := v; snd_lwe := snd_lwe d;
     snd_rwe := snd_rwe d; last_seq_num_sent := last_seq_num_sent d; cwq := cwq
     d; cwq_len := cwq_len d; max_cwq_len := max_cwq_len d; rtxq := rtxq d;
     rtxq_len := rtxq_len d; max_rtxq_len := max_rtxq_len d; rtx_tmr_next :=
     rtx_tmr_next d; rtx_tmr := rtx_tmr d; rtx_tmr_int := rtx_tmr_int d; rcv_lwe
     := rcv_lwe d; rcv_lwe_priv := rcv_lwe_priv d; rcv_rwe := rcv_rwe d;
     max_seq_num_rcvd := max_seq_num_rcvd d; last_snd_data_ack :=
     last_snd_data_ack d; seqq := seqq d; seqq_len := seqq_len d;
     next_snd_ctl_seq := next_snd_ctl_seq d; last_ctrl_seq_num_rcvd :=
     last_ctrl_seq_num_rcvd d; snd_inact_tmr := snd_inact_tmr d; rcv_inact_tmr :=
     rcv_inact_tmr d; mpl_r_a := mpl_r_a d |}.
Definition with_snd_lwe (v : Z) (d : dtp) : dtp :=
  {| set_drf := set_drf d; next_seq_num_to_send := next_seq_num_to_send d;
     snd_lwe := v; snd_rwe := snd_rwe d; last_seq_num_sent := last_seq_num_sent
     d; cwq := cwq d; cwq_len := cwq_len d; max_cwq_len := max_cwq_len d; rtxq :=
     rtxq d; rtxq_len := rtxq_len d; max_rtxq_len := max_rtxq_len d; rtx_tmr_next
     := rtx_tmr_next d; rtx_tmr := rtx_tmr d; rtx_tmr_int := rtx_tmr_int d;
     rcv_lwe := rcv_lwe d; rcv_lwe_priv := rcv_lwe_priv d; rcv_rwe := rcv_rwe d;
     max_seq_num_rcvd := max_seq_num_rcvd d; last_snd_data_ack :=
     last_snd_data_ack d; seqq := seqq d; seqq_len := seqq_len d;
     next_snd_ctl_seq := next_snd_ctl_seq d; last_ctrl_seq_num_rcvd :=
     last_ctrl_seq_num_rcvd d; snd_inact_tmr := snd_inact_tmr d; rcv_inact_tmr :=
     rcv_inact_tmr d; mpl_r_a := mpl_r_a d |}.
Definition with_snd_rwe (v : Z) (d : dtp) : dtp :=
  {| set_drf := set_drf d; next_seq_num_to_send := next_seq_num_to_send d;
     snd_lwe := snd_lwe d; snd_rwe := v; last_seq_num_sent := last_seq_num_sent
     d; cwq := cwq d; cwq_len := cwq_len d; max_cwq_len := max_cwq_len d; rtxq :=
     rtxq d; rtxq_len := rtxq_len d; max_rtxq_len := max_rtxq_len d; rtx_tmr_next
     := rtx_tmr_next d; rtx_tmr := rtx_tmr d; rtx_tmr_int := rtx_tmr_int d;
     rcv_lwe := rcv_lwe d; rcv_lwe_priv := rcv_lwe_priv d; rcv_rwe := rcv_rwe d;
     max_seq_num_rcvd := max_seq_num_rcvd d; last_snd_data_ack :=
     last_snd_data_ack d; seqq := seqq d; seqq_len := seqq_len d;
     next_snd_ctl_seq := next_snd_ctl_seq d; last_ctrl_seq_num_rcvd :=
     last_ctrl_seq_num_rcvd d; snd_inact_tmr := snd_inact_tmr d; rcv_inact_tmr :=
     rcv_inact_tmr d; mpl_r_a := mpl_r_a d |}.
Definition with_last_seq_num_sent (v : Z) (d : dtp) : dtp :=
  {| set_drf := set_drf d; next_seq_num_to_send := next_seq_num_to_send d;
     snd_lwe := snd_lwe d; snd_rwe := snd_rwe d; last_seq_num_sent := v; cwq :=
     cwq d; cwq_len := cwq_len d; max_cwq_len := max_cwq_len d; rtxq := rtxq d;
     rtxq_len := rtxq_len d; max_rtxq_len := max_rtxq_len d; rtx_tmr_next :=
     rtx_tmr_next d; rtx_tmr := rtx_tmr d; rtx_tmr_int := rtx_tmr_int d; rcv_lwe
     := rcv_lwe d; rcv_lwe_priv := rcv_lwe_priv d; rcv_rwe := rcv_rwe d;
     max_seq_num_rcvd := max_seq_num_rcvd d; last_snd_data_ack :=
     last_snd_data_ack d; seqq := seqq d; seqq_len := seqq_len d;
     next_snd_ctl_seq := next_snd_ctl_seq d; last_ctrl_seq_num_rcvd :=
     last_ctrl_seq_num_rcvd d; snd_inact_tmr := snd_inact_tmr d; rcv_inact_tmr :=
     rcv_inact_tmr d; mpl_r_a := mpl_r_a d |}.
Definition with_cwq (v : list rlite_buf) (d : dtp) : dtp :=
  {| set_drf := set_drf d; next_seq_num_to_send := next_seq_num_to_send d;
     snd_lwe := snd_lwe d; snd_rwe := snd_rwe d; last_seq_num_sent :=
     last_seq_num_sent d; cwq := v; cwq_len := cwq_len d; max_cwq_len :=
     max_cwq_len d; rtxq := rtxq d; rtxq_len := rtxq_len d; max_rtxq_len :=
     max_rtxq_len d; rtx_tmr_next := rtx_tmr_next d; rtx_tmr := rtx_tmr d;
     rtx_tmr_int := rtx_tmr_int d; rcv_lwe := rcv_lwe d; rcv_lwe_priv :=
     rcv_lwe_priv d; rcv_rwe := rcv_rwe d; max_seq_num_rcvd := max_seq_num_rcvd
     d; last_snd_data_ack := last_snd_data_ack d; seqq := seqq d; seqq_len :=
     seqq_len d; next_snd_ctl_seq := next_snd_ctl_seq d; last_ctrl_seq_num_rcvd
     := last_ctrl_seq_num_rcvd d; snd_inact_tmr := snd_inact_tmr d; rcv_inact_tmr
     := rcv_inact_tmr d; mpl_r_a := mpl_r_a d |}.
Definition with_cwq_len (v : Z) (d : dtp) : dtp :=
  {| set_drf := set_drf d; next_seq_num_to_send := next_seq_num_to_send d;
     snd_lwe := snd_lwe d; snd_rwe := snd_rwe d; last_seq_num_sent :=
     last_seq_num_sent d; cwq := cwq d; cwq_len := v; max_cwq_len := max_cwq_len
     d; rtxq := rtxq d; rtxq_len := rtxq_len d; max_rtxq_len := max_rtxq_len d;
     rtx_tmr_next := rtx_tmr_next d; rtx_tmr := rtx_tmr d; rtx_tmr_int :=
     rtx_tmr_int d; rcv_lwe := rcv_lwe d; rcv_lwe_priv := rcv_lwe_priv d; rcv_rwe
     := rcv_rwe d; max_seq_num_rcvd := max_seq_num_rcvd d; last_snd_data_ack :=
     last_snd_data_ack d; seqq := seqq d; seqq_len := seqq_len d;
     next_snd_ctl_seq := next_snd_ctl_seq d; last_ctrl_seq_num_rcvd :=
     last_ctrl_seq_num_rcvd d; snd_inact_tmr := snd_inact_tmr d; rcv_inact_tmr :=
     rcv_inact_tmr d; mpl_r_a := mpl_r_a d |}.
Definition with_rtxq (v : list rlite_buf) (d : dtp) : dtp :=
  {| set_drf := set_drf d; next_seq_num_to_send := next_seq_num_to_send d;
     snd_lwe := snd_lwe d; snd_rwe := snd_rwe d; last_seq_num_sent :=
     last_seq_num_sent d; cwq := cwq d; cwq_len := cwq_len d; max_cwq_len :=
     max_cwq_len d; rtxq := v; rtxq_len := rtxq_len d; max_rtxq_len :=
     max_rtxq_len d; rtx_tmr_next := rtx_tmr_next d; rtx_tmr := rtx_tmr d;
     rtx_tmr_int := rtx_tmr_int d; rcv_lwe := rcv_lwe d; rcv_lwe_priv :=
     rcv_lwe_priv d; rcv_rwe := rcv_rwe d; max_seq_num_rcvd := max_seq_num_rcvd
     d; last_snd_data_ack := last_snd_data_ack d; seqq := seqq d; seqq_len :=
     seqq_len d; next_snd_ctl_seq := next_snd_ctl_seq d; last_ctrl_seq_num_rcvd
     := last_ctrl_seq_num_rcvd d; snd_inact_tmr := snd_inact_tmr d; rcv_inact_tmr
     := rcv_inact_tmr d; mpl_r_a := mpl_r_a d |}.
Definition with_rtxq_len (v : Z) (d : dtp) : dtp :=
  {| set_drf := set_drf d; next_seq_num_to_send := next_seq_num_to_send d;
     snd_lwe := snd_lwe d; snd_rwe := snd_rwe d; last_seq_num_sent :=
     last_seq_num_sent d; cwq := cwq d; cwq_len := cwq_len d; max_cwq_len :=
     max_cwq_len d; rtxq := rtxq d; rtxq_len := v; max_rtxq_len := max_rtxq_len
     d; rtx_tmr_next := rtx_tmr_next d; rtx_tmr := rtx_tmr d; rtx_tmr_int :=
     rtx_tmr_int d; rcv_lwe := rcv_lwe d; rcv_lwe_priv := rcv_lwe_priv d; rcv_rwe
     := rcv_rwe d; max_seq_num_rcvd := max_seq_num_rcvd d; last_snd_data_ack :=
     last_snd_data_ack d; seqq := seqq d; seqq_len := seqq_len d;
     next_snd_ctl_seq := next_snd_ctl_seq d; last_ctrl_seq_num_rcvd :=
     last_ctrl_seq_num_rcvd d; snd_inact_tmr := snd_inact_tmr d; rcv_inact_tmr :=
     rcv_inact_tmr d; mpl_r_a := mpl_r_a d |}.
Definition with_rtx_tmr_next (v : option Z) (d : dtp) : dtp :=
  {| set_drf := set_drf d; next_seq_num_to_send := next_seq_num_to_send d;
     snd_lwe := snd_lwe d; snd_rwe := snd_rwe d; last_seq_num_sent :=
     last_seq_num_sent d; cwq := cwq d; cwq_len := cwq_len d; max_cwq_len :=
     max_cwq_len d; rtxq := rtxq d; rtxq_len := rtxq_len d; max_rtxq_len :=
     max_rtxq_len d; rtx_tmr_next := v; rtx_tmr := rtx_tmr d; rtx_tmr_int :=
     rtx_tmr_int d; rcv_lwe := rcv_lwe d; rcv_lwe_priv := rcv_lwe_priv d; rcv_rwe
     := rcv_rwe d; max_seq_num_rcvd := max_seq_num_rcvd d; last_snd_data_ack :=
     last_snd_data_ack d; seqq := seqq d; seqq_len := seqq_len d;
     next_snd_ctl_seq := next_snd_ctl_seq d; last_ctrl_seq_num_rcvd :=
     last_ctrl_seq_num_rcvd d; snd_inact_tmr := snd_inact_tmr d; rcv_inact_tmr :=
     rcv_inact_tmr d; mpl_r_a := mpl_r_a d |}.
Definition with_rtx_tmr (v : option Z) (d : dtp) : dtp :=
  {| set_drf := set_drf d; next_seq_num_to_send := next_seq_num_to_send d;
     snd_lwe := snd_lwe d; snd_rwe := snd_rwe d; last_seq_num_sent :=
     last_seq_num_sent d; cwq := cwq d; cwq_len := cwq_len d; max_cwq_len :=
     max_cwq_len d; rtxq := rtxq d; rtxq_len := rtxq_len d; max_rtxq_len :=
     max_rtxq_len d; rtx_tmr_next := rtx_tmr_next d; rtx_tmr := v; rtx_tmr_int :=
     rtx_tmr_int d; rcv_lwe := rcv_lwe d; rcv_lwe_priv := rcv_lwe_priv d; rcv_rwe
     := rcv_rwe d; max_seq_num_rcvd := max_seq_num_rcvd d; last_snd_data_ack :=
     last_snd_data_ack d; seqq := seqq d; seqq_len := seqq_len d;
     next_snd_ctl_seq := next_snd_ctl_seq d; last_ctrl_seq_num_rcvd :=
     last_ctrl_seq_num_rcvd d; snd_inact_tmr := snd_inact_tmr d; rcv_inact_tmr :=
     rcv_inact_tmr d; mpl_r_a := mpl_r_a d |}.
Definition with_rcv_lwe (v : Z) (d : dtp) : dtp :=
  {| set_drf := set_drf d; next_seq_num_to_send := next_seq_num_to_send d;
     snd_lwe := snd_lwe d; snd_rwe := snd_rwe d; last_seq_num_sent :=
     last_seq_num_sent d; cwq := cwq d; cwq_len := cwq_len d; max_cwq_len :=
     max_cwq_len d; rtxq := rtxq d; rtxq_len := rtxq_len d; max_rtxq_len :=
     max_rtxq_len d; rtx_tmr_next := rtx_tmr_next d; rtx_tmr := rtx_tmr d;
     rtx_tmr_int := rtx_tmr_int d; rcv_lwe := v; rcv_lwe_priv := rcv_lwe_priv d;
     rcv_rwe := rcv_rwe d; max_seq_num_rcvd := max_seq_num_rcvd d;
     last_snd_data_ack := last_snd_data_ack d; seqq := seqq d; seqq_len :=
     seqq_len d; next_snd_ctl_seq := next_snd_ctl_seq d; last_ctrl_seq_num_rcvd
     := last_ctrl_seq_num_rcvd d; snd_inact_tmr := snd_inact_tmr d; rcv_inact_tmr
     := rcv_inact_tmr d; mpl_r_a := mpl_r_a d |}.
Definition with_rcv_lwe_priv (v : Z) (d : dtp) : dtp :=
  {| set_drf := set_drf d; next_seq_num_to_send := next_seq_num_to_send d;
     snd_lwe := snd_lwe d; snd_rwe := snd_rwe d; last_seq_num_sent :=
     last_seq_num_sent d; cwq := cwq d; cwq_len := cwq_len d; max_cwq_len :=
     max_cwq_len d; rtxq := rtxq d; rtxq_len := rtxq_len d; max_rtxq_len :=
     max_rtxq_len d; rtx_tmr_next := rtx_tmr_next d; rtx_tmr := rtx_tmr d;
     rtx_tmr_int := rtx_tmr_int d; rcv_lwe := rcv_lwe d; rcv_lwe_priv := v;
     rcv_rwe := rcv_rwe d; max_seq_num_rcvd := max_seq_num_rcvd d;
     last_snd_data_ack := last_snd_data_ack d; seqq := seqq d; seqq_len :=
     seqq_len d; next_snd_ctl_seq := next_snd_ctl_seq d; last_ctrl_seq_num_rcvd
     := last_ctrl_seq_num_rcvd d; snd_inact_tmr := snd_inact_tmr d; rcv_inact_tmr
     := rcv_inact_tmr d; mpl_r_a := mpl_r_a d |}.
Definition with_rcv_rwe (v : Z) (d : dtp) : dtp :=
  {| set_drf := set_drf d; next_seq_num_to_send := next_seq_num_to_send d;
     snd_lwe := snd_lwe d; snd_rwe := snd_rwe d; last_seq_num_sent :=
     last_seq_num_sent d; cwq := cwq d; cwq_len := cwq_len d; max_cwq_len :=
     max_cwq_len d; rtxq := rtxq d; rtxq_len := rtxq_len d; max_rtxq_len :=
     max_rtxq_len d; rtx_tmr_next := rtx_tmr_next d; rtx_tmr := rtx_tmr d;
     rtx_tmr_int := rtx_tmr_int d; rcv_lwe := rcv_lwe d; rcv_lwe_priv :=
     rcv_lwe_priv d; rcv_rwe := v; max_seq_num_rcvd := max_seq_num_rcvd d;
     last_snd_data_ack := last_snd_data_ack d; seqq := seqq d; seqq_len :=
     seqq_len d; next_snd_ctl_seq := next_snd_ctl_seq d; last_ctrl_seq_num_rcvd
     := last_ctrl_seq_num_rcvd d; snd_inact_tmr := snd_inact_tmr d; rcv_inact_tmr
     := rcv_inact_tmr d; mpl_r_a := mpl_r_a d |}.
Definition with_max_seq_num_rcvd (v : Z) (d : dtp) : dtp :=
  {| set_drf := set_drf d; next_seq_num_to_send := next_seq_num_to_send d;
     snd_lwe := snd_lwe d; snd_rwe := snd_rwe d; last_seq_num_sent :=
     last_seq_num_sent d; cwq := cwq d; cwq_len := cwq_len d; max_cwq_len :=
     max_cwq_len d; rtxq := rtxq d; rtxq_len := rtxq_len d; max_rtxq_len :=
     max_rtxq_len d; rtx_tmr_next := rtx_tmr_next d; rtx_tmr := rtx_tmr d;
     rtx_tmr_int := rtx_tmr_int d; rcv_lwe := rcv_lwe d; rcv_lwe_priv :=
     rcv_lwe_priv d; rcv_rwe := rcv_rwe d; max_seq_num_rcvd := v;
     last_snd_data_ack := last_snd_data_ack d; seqq := seqq d; seqq_len :=
     seqq_len d; next_snd_ctl_seq := next_snd_ctl_seq d; last_ctrl_seq_num_rcvd
     := last_ctrl_seq_num_rcvd d; snd_inact_tmr := snd_inact_tmr d; rcv_inact_tmr
     := rcv_inact_tmr d; mpl_r_a := mpl_r_a d |}.
Definition with_last_snd_data_ack (v : Z) (d : dtp) : dtp :=
  {| set_drf := set_drf d; next_seq_num_to_send := next_seq_num_to_send d;
     snd_lwe := snd_lwe d; snd_rwe := snd_rwe d; last_seq_num_sent :=
     last_seq_num_sent d; cwq := cwq d; cwq_len := cwq_len d; max_cwq_len :=
     max_cwq_len d; rtxq := rtxq d; rtxq_len := rtxq_len d; max_rtxq_len :=
     max_rtxq_len d; rtx_tmr_next := rtx_tmr_next d; rtx_tmr := rtx_tmr d;
     rtx_tmr_int := rtx_tmr_int d; rcv_lwe := rcv_lwe d; rcv_lwe_priv :=
     rcv_lwe_priv d; rcv_rwe := rcv_rwe d; max_seq_num_rcvd := max_seq_num_rcvd
     d; last_snd_data_ack := v; seqq := seqq d; seqq_len := seqq_len d;
     next_snd_ctl_seq := next_snd_ctl_seq d; last_ctrl_seq_num_rcvd :=
     last_ctrl_seq_num_rcvd d; snd_inact_tmr := snd_inact_tmr d; rcv_inact_tmr :=
     rcv_inact_tmr d; mpl_r_a := mpl_r_a d |}.
Definition with_seqq (v : list rlite_buf) (d : dtp) : dtp :=
  {| set_drf := set_drf d; next_seq_num_to_send := next_seq_num_to_send d;
     snd_lwe := snd_lwe d; snd_rwe := snd_rwe d; last_seq_num_sent :=
     last_seq_num_sent d; cwq := cwq d; cwq_len := cwq_len d; max_cwq_len :=
     max_cwq_len d; rtxq := rtxq d; rtxq_len := rtxq_len d; max_rtxq_len :=
     max_rtxq_len d; rtx_tmr_next := rtx_tmr_next d; rtx_tmr := rtx_tmr d;
     rtx_tmr_int := rtx_tmr_int d; rcv_lwe := rcv_lwe d; rcv_lwe_priv :=
     rcv_lwe_priv d; rcv_rwe := rcv_rwe d; max_seq_num_rcvd := max_seq_num_rcvd
     d; last_snd_data_ack := last_snd_data_ack d; seqq := v; seqq_len := seqq_len
     d; next_snd_ctl_seq := next_snd_ctl_seq d; last_ctrl_seq_num_rcvd :=
     last_ctrl_seq_num_rcvd d; snd_inact_tmr := snd_inact_tmr d; rcv_inact_tmr :=
     rcv_inact_tmr d; mpl_r_a := mpl_r_a d |}.
Definition with_seqq_len (v : Z) (d : dtp) : dtp :=
  {| set_drf := set_drf d; next_seq_num_to_send := next_seq_num_to_send d;
     snd_lwe := snd_lwe d; snd_rwe := snd_rwe d; last_seq_num_sent :=
     last_seq_num_sent d; cwq := cwq d; cwq_len := cwq_len d; max_cwq_len :=
     max_cwq_len d; rtxq := rtxq d; rtxq_len := rtxq_len d; max_rtxq_len :=
     max_rtxq_len d; rtx_tmr_next := rtx_tmr_next d; rtx_tmr := rtx_tmr d;
     rtx_tmr_int := rtx_tmr_int d; rcv_lwe := rcv_lwe d; rcv_lwe_priv :=
     rcv_lwe_priv d; rcv_rwe := rcv_rwe d; max_seq_num_rcvd := max_seq_num_rcvd
     d; last_snd_data_ack := last_snd_data_ack d; seqq := seqq d; seqq_len := v;
     next_snd_ctl_seq := next_snd_ctl_seq d; last_ctrl_seq_num_rcvd :=
     last_ctrl_seq_num_rcvd d; snd_inact_tmr := snd_inact_tmr d; rcv_inact_tmr :=
     rcv_inact_tmr d; mpl_r_a := mpl_r_a d |}.
Definition with_next_snd_ctl_seq (v : Z) (d : dtp) : dtp :=
  {| set_drf := set_drf d; next_seq_num_to_send := next_seq_num_to_send d;
     snd_lwe := snd_lwe d; snd_rwe := snd_rwe d; last_seq_num_sent :=
     last_seq_num_sent d; cwq := cwq d; cwq_len := cwq_len d; max_cwq_len :=
     max_cwq_len d; rtxq := rtxq d; rtxq_len := rtxq_len d; max_rtxq_len :=
     max_rtxq_len d; rtx_tmr_next := rtx_tmr_next d; rtx_tmr := rtx_tmr d;
     rtx_tmr_int := rtx_tmr_int d; rcv_lwe := rcv_lwe d; rcv_lwe_priv :=
     rcv_lwe_priv d; rcv_rwe := rcv_rwe d; max_seq_num_rcvd := max_seq_num_rcvd
     d; last_snd_data_ack := last_snd_data_ack d; seqq := seqq d; seqq_len :=
     seqq_len d; next_snd_ctl_seq := v; last_ctrl_seq_num_rcvd :=
     last_ctrl_seq_num_rcvd d; snd_inact_tmr := snd_inact_tmr d; rcv_inact_tmr :=
     rcv_inact_tmr d; mpl_r_a := mpl_r_a d |}.
Definition with_last_ctrl_seq_num_rcvd (v : Z) (d : dtp) : dtp :=
  {| set_drf := set_drf d; next_seq_num_to_send := next_seq_num_to_send d;
     snd_lwe := snd_lwe d; snd_rwe := snd_rwe d; last_seq_num_sent :=
     last_seq_num_sent d; cwq := cwq d; cwq_len := cwq_len d; max_cwq_len :=
     max_cwq_len d; rtxq := rtxq d; rtxq_len := rtxq_len d; max_rtxq_len :=
     max_rtxq_len d; rtx_tmr_next := rtx_tmr_next d; rtx_tmr := rtx_tmr d;
     rtx_tmr_int := rtx_tmr_int d; rcv_lwe := rcv_lwe d; rcv_lwe_priv :=
     rcv_lwe_priv d; rcv_rwe := rcv_rwe d; max_seq_num_rcvd := max_seq_num_rcvd
     d; last_snd_data_ack := last_snd_data_ack d; seqq := seqq d; seqq_len :=
     seqq_len d; next_snd_ctl_seq := next_snd_ctl_seq d; last_ctrl_seq_num_rcvd
     := v; snd_inact_tmr := snd_inact_tmr d; rcv_inact_tmr := rcv_inact_tmr d;
     mpl_r_a := mpl_r_a d |}.
Definition with_snd_inact_tmr (v : option Z) (d : dtp) : dtp :=
  {| set_drf := set_drf d; next_seq_num_to_send := next_seq_num_to_send d;
     snd_lwe := snd_lwe d; snd_rwe := snd_rwe d; last_seq_num_sent :=
     last_seq_num_sent d; cwq := cwq d; cwq_len := cwq_len d; max_cwq_len :=
     max_cwq_len d; rtxq := rtxq d; rtxq_len := rtxq_len d; max_rtxq_len :=
     max_rtxq_len d; rtx_tmr_next := rtx_tmr_next d; rtx_tmr := rtx_tmr d;
     rtx_tmr_int := rtx_tmr_int d; rcv_lwe := rcv_lwe d; rcv_lwe_priv :=
     rcv_lwe_priv d; rcv_rwe := rcv_rwe d; max_seq_num_rcvd := max_seq_num_rcvd
     d; last_snd_data_ack := last_snd_data_ack d; seqq := seqq d; seqq_len :=
     seqq_len d; next_snd_ctl_seq := next_snd_ctl_seq d; last_ctrl_seq_num_rcvd
     := last_ctrl_seq_num_rcvd d; snd_inact_tmr := v; rcv_inact_tmr :=
     rcv_inact_tmr d; mpl_r_a := mpl_r_a d |}.
Definition with_rcv_inact_tmr (v : option Z) (d : dtp) : dtp :=
  {| set_drf := set_drf d; next_seq_num_to_send := next_seq_num_to_send d;
     snd_lwe := snd_lwe d; snd_rwe := snd_rwe d; last_seq_num_sent :=
     last_seq_num_sent d; cwq := cwq d; cwq_len := cwq_len d; max_cwq_len :=
     max_cwq_len d; rtxq := rtxq d; rtxq_len := rtxq_len d; max_rtxq_len :=
     max_rtxq_len d; rtx_tmr_next := rtx_tmr_next d; rtx_tmr := rtx_tmr d;
     rtx_tmr_int := rtx_tmr_int d; rcv_lwe := rcv_lwe d; rcv_lwe_priv :=
     rcv_lwe_priv d; rcv_rwe := rcv_rwe d; max_seq_num_rcvd := max_seq_num_rcvd
     d; last_snd_data_ack := last_snd_data_ack d; seqq := seqq d; seqq_len :=
     seqq_len d; next_snd_ctl_seq := next_snd_ctl_seq d; last_ctrl_seq_num_rcvd
     := last_ctrl_seq_num_rcvd d; snd_inact_tmr := snd_inact_tmr d; rcv_inact_tmr
     := v; mpl_r_a := mpl_r_a d |}.

(** [struct rl_flow_stats]. *)
Record rl_flow_stats := {
  tx_pkt : Z;
  tx_byte : Z;
  tx_err : Z;
  rx_pkt : Z;
  rx_byte : Z;
  rx_err : Z
}.

(** The part of [struct flow_entry] the normal IPCP reads and writes.
    [upper_ipcp] tells whether [flow->upper.ipcp] is set. *)
Record flow_entry := {
  cfg : flow_config;
  flow_dtp : dtp;
  stats : rl_flow_stats;
  remote_addr : Z;
  remote_cep : Z;
  local_cep : Z;
  upper_ipcp : bool
}.

Definition with_dtp (d : dtp) (f : flow_entry) : flow_entry :=
  {| cfg := cfg f; flow_dtp := d; stats := stats f; remote_addr := remote_addr f;
     remote_cep := remote_cep f; local_cep := local_cep f;
     upper_ipcp := upper_ipcp f |}.

Definition with_stats (s : rl_flow_stats) (f : flow_entry) : flow_entry :=
  {| cfg := cfg f; flow_dtp := flow_dtp f; stats := s; remote_addr := remote_addr f;
     remote_cep := remote_cep f; local_cep := local_cep f;
     upper_ipcp := upper_ipcp f |}.

Definition with_cfg (c : flow_config) (f : flow_entry) : flow_entry :=
  {| cfg := c; flow_dtp := flow_dtp f; stats := stats f; remote_addr := remote_addr f;
     remote_cep := remote_cep f; local_cep := local_cep f;
     upper_ipcp := upper_ipcp f |}.

(** The counter updates of the file, on [uint64_t] counters. *)
Definition tx_sent (n : Z) (s : rl_flow_stats) : rl_flow_stats :=
  {| tx_pkt := u64 (tx_pkt s + 1); tx_byte := u64 (tx_byte s + n); tx_err := tx_err s;
     rx_pkt := rx_pkt s; rx_byte := rx_byte s; rx_err := rx_err s |}.

Definition tx_unsent (n : Z) (s : rl_flow_stats) : rl_flow_stats :=
  {| tx_pkt := u64 (tx_pkt s - 1); tx_byte := u64 (tx_byte s - n); tx_err := tx_err s;
     rx_pkt := rx_pkt s; rx_byte := rx_byte s; rx_err := rx_err s |}.

Definition tx_failed (s : rl_flow_stats) : rl_flow_stats :=
  {| tx_pkt := tx_pkt s; tx_byte := tx_byte s; tx_err := u64 (tx_err s + 1);
     rx_pkt := rx_pkt s; rx_byte := rx_byte s; rx_err := rx_err s |}.

Definition rx_received (n : Z) (s : rl_flow_stats) : rl_flow_stats :=
  {| tx_pkt := tx_pkt s; tx_byte := tx_byte s; tx_err := tx_err s;
     rx_pkt := u64 (rx_pkt s + 1); rx_byte := u64 (rx_byte s + n); rx_err := rx_err s |}.

Definition rx_failed (s : rl_flow_stats) : rl_flow_stats :=
  {| tx_pkt := tx_pkt s; tx_byte := tx_byte s; tx_err := tx_err s;
     rx_pkt := rx_pkt s; rx_byte := rx_byte s; rx_err := u64 (rx_err s + 1) |}.

(** Kernel timers: [mod_timer], [del_timer], [timer_pending]. *)
Definition mod_timer (expires : Z) : option Z := Some expires.
Definition del_timer : option Z := None.
Definition timer_pending (t : option Z) : bool :=
  match t with Some _ => true | None => false end.

(** Equality of a nullable buffer pointer with the address of a buffer. *)
Definition ptr_is (p : option Z) (rb : rlite_buf) : bool :=
  match p with Some a => a =? rb_addr rb | None => false end.

(** ** The PDU forwarding table and the RMT *)

(** The N-1 flow a PDUFT entry designates, with the IPCP that serves it
    ([lower_flow->txrx.ipcp]). *)
Record lower_flow_t := {
  lf_id : Z;
  txrx_ipcp : Z
}.

Record pduft_entry := {
  address : Z;
  pe_flow : lower_flow_t
}.

(** The deferred-send queue of a lower IPCP. *)
Record rmt_queue := {
  rmtq : list rlite_buf;
  rmtq_len : Z
}.

(** What [rmt_tx] can see of the system: the PDUFT of the IPCP and the
    deferred-send queue of every IPCP, by IPCP identifier. *)
Record rmt_world := {
  pdu_ft : list pduft_entry;
  rmt_queues : Z -> rmt_queue
}.

(** [pduft_lookup_internal]: the hash table, read as the list of its
    entries; the first entry for the address is the one found. *)
Fixpoint pduft_lookup_internal (ft : list pduft_entry) (dest_addr : Z)
  : option pduft_entry :=
  match ft with
  | [] => None
  | entry :: rest =>
      if address entry =? dest_addr then Some entry
      else pduft_lookup_internal rest dest_addr
  end.

Definition pduft_lookup (ft : list pduft_entry) (dest_addr : Z)
  : option lower_flow_t :=
  match pduft_lookup_internal ft dest_addr with
  | Some entry => Some (pe_flow entry)
  | None => None
  end.

Definition RMTQ_MAX_LEN : Z := 64.

Definition set_rmt_queue (i : Z) (q : rmt_queue) (w : rmt_world) : rmt_world :=
  {| pdu_ft := pdu_ft w;
     rmt_queues := fun j => if j =? i then q else rmt_queues w j |}.

(** The loop of [rmt_tx].  [writes] lists the values the successive calls of
    the lower IPCP's [sdu_write] return; the run is undetermined ([None])
    when the caller still sleeps after the last of them. *)
Fixpoint rmt_tx_loop (w : rmt_world) (lower_flow : lower_flow_t)
    (rb : rlite_buf) (maysleep : bool) (writes : list Z) (evs : list event)
  : option (rmt_world * list event * Z) :=
  match writes with
  | [] => None
  | ret :: writes' =>
      let evs := evs ++ [ev_lower_write (lf_id lower_flow) rb ret] in
      if ret =? - EAGAIN then
        if negb maysleep then
          let q := rmt_queues w (txrx_ipcp lower_flow) in
          if rmtq_len q <? RMTQ_MAX_LEN then
            let rb' := with_tx_compl_flow (Some (lf_id lower_flow)) rb in
            let q' := {| rmtq := rmtq q ++ [rb']; rmtq_len := u32 (rmtq_len q + 1) |} in
            Some (set_rmt_queue (txrx_ipcp lower_flow) q' w, evs, ret)
          else
            Some (w, evs ++ [ev_free rb], ret)
        else
          rmt_tx_loop w lower_flow rb maysleep writes' evs
      else
        Some (w, evs, ret)
  end.

(** [rmt_tx].  [self_addr] is [ipcp->addr]; [loop_ret] is what
    [ipcp->ops.sdu_rx] returns for a PDU looped back to this IPCP. *)
Definition rmt_tx (self_addr : Z) (w : rmt_world) (writes : list Z) (loop_ret : Z)
    (remote_addr : Z) (rb : rlite_buf) (maysleep : bool)
  : option (rmt_world * list event * Z) :=
  match pduft_lookup (pdu_ft w) remote_addr with
  | None =>
      if negb (remote_addr =? self_addr) then
        Some (w, [ev_free rb], - EHOSTUNREACH)
      else
        Some (w, [ev_loopback rb], loop_ret)
  | Some lower_flow => rmt_tx_loop w lower_flow rb maysleep writes []
  end.

(** ** The send path *)

(** [rlite_rtxq_push], called under the DTP lock.  [clone] is what
    [rlite_buf_clone] returns: the address of the copy, or NULL. *)
Definition rlite_rtxq_push (jiffies : Z) (clone : option Z) (d : dtp)
    (rb : rlite_buf) : dtp * Z :=
  match clone with
  | None => (d, - ENOMEM)
  | Some a =>
      let crb := with_rtx_jiffies (u64 (jiffies + rtx_tmr_int d))
                                  (rlite_buf_clone a rb) in
      let d := with_rtxq (rtxq d ++ [crb]) d in
      let d := with_rtxq_len (u32 (rtxq_len d + 1)) d in
      let d := if negb (timer_pending (rtx_tmr d)) then
                 with_rtx_tmr (mod_timer (rtx_jiffies crb))
                   (with_rtx_tmr_next (Some (rb_addr crb)) d)
               else d in
      (d, 0)
  end.

(** How [rlite_normal_sdu_write] ends: with a return value of its own, or by
    returning what [rmt_tx (ipcp, flow->remote_addr, rb, maysleep)] returns. *)
Inductive write_end :=
| we_return (ret : Z)
| we_rmt_tx (rb : rlite_buf).

(** The admission test of [rlite_normal_sdu_write]. *)
Definition sdu_write_blocked (flow : flow_entry) : bool :=
  let d := flow_dtp flow in
  (is_win (fc_type (cfg flow))
   && (next_seq_num_to_send d >? snd_rwe d)
   && (cwq_len d >=? max_cwq_len d))
  || (rtx_control (cfg flow) && (rtxq_len d >=? max_rtxq_len d)).

(** The PCI [rlite_normal_sdu_write] stamps on the buffer. *)
Definition dt_pci (self_addr : Z) (flow : flow_entry) (rb : rlite_buf) : rina_pci :=
  {| dst_addr := remote_addr flow;
     src_addr := self_addr;
     qos_id := 0;
     dst_cep := remote_cep flow;
     src_cep := local_cep flow;
     pdu_type := PDU_T_DT;
     pdu_flags := if set_drf (flow_dtp flow) then 1 else 0;
     pdu_len := len rb;
     seqnum := next_seq_num_to_send (flow_dtp flow) |}.

(** The sender inactivity timer is re-armed on every write on a flow with
    DTCP. *)
Definition snd_inact_rearm (jiffies : Z) (flow : flow_entry) : flow_entry :=
  let d := flow_dtp flow in
  with_dtp (if dtcp_present (cfg flow) then
              with_snd_inact_tmr (mod_timer (u64 (jiffies + 3 * mpl_r_a d))) d
            else d) flow.

(** [rlite_normal_sdu_write] from the stamping of the PCI to the release of
    the lock, for a PDU that passed admission and whose PCI has been pushed. *)
Definition sdu_write_send (self_addr jiffies : Z) (clone : option Z)
    (flow : flow_entry) (rb : rlite_buf)
  : flow_entry * list event * write_end :=
  let d := flow_dtp flow in
  let rb := with_pci (dt_pci self_addr flow rb) rb in
  let seq := seqnum (RLITE_BUF_PCI rb) in
  let d := with_next_seq_num_to_send (u64 (next_seq_num_to_send d + 1)) d in
  let flow := with_stats (tx_sent (len rb) (stats flow)) flow in
  let d := with_set_drf false d in
  if negb (dtcp_present (cfg flow)) then
    let d := with_snd_lwe (next_seq_num_to_send d) d in
    let d := with_last_seq_num_sent seq d in
    (with_dtp d flow, [], we_rmt_tx rb)
  else
    let '(d, owned) :=
      if is_win (fc_type (cfg flow)) then
        if seq >? snd_rwe d then
          (with_cwq_len (u32 (cwq_len d + 1)) (with_cwq (cwq d ++ [rb]) d),
           false)
        else
          (with_last_seq_num_sent seq
             (with_snd_lwe (next_seq_num_to_send d) d), true)
      else (d, true) in
    if owned && rtx_control (cfg flow) then
      let '(d, ret) := rlite_rtxq_push jiffies clone d rb in
      if negb (ret =? 0) then
        let s := tx_failed (tx_unsent (len rb) (stats flow)) in
        (with_stats s (with_dtp d flow), [ev_free rb], we_return ret)
      else
        (with_dtp d flow, [], we_rmt_tx rb)
    else if owned then
      (with_dtp d flow, [], we_rmt_tx rb)
    else
      (with_dtp d flow, [], we_return 0).

(** [rlite_normal_sdu_write] up to its last statement. *)
Definition sdu_write_locked (self_addr jiffies : Z) (clone : option Z)
    (flow : flow_entry) (rb : rlite_buf)
  : flow_entry * list event * write_end :=
  let flow := snd_inact_rearm jiffies flow in
  if sdu_write_blocked flow then
    (flow, [], we_return (- EAGAIN))
  else
    match rlite_buf_pci_push rb with
    | None =>
        (with_stats (tx_failed (stats flow)) flow, [ev_free rb],
         we_return (- ENOSPC))
    | Some rb => sdu_write_send self_addr jiffies clone flow rb
    end.

(** [rlite_normal_sdu_write]. *)
Definition rlite_normal_sdu_write (self_addr jiffies : Z) (clone : option Z)
    (w : rmt_world) (writes : list Z) (loop_ret : Z)
    (flow : flow_entry) (rb : rlite_buf) (maysleep : bool)
  : option (flow_entry * rmt_world * list event * Z) :=
  match sdu_write_locked self_addr jiffies clone flow rb with
  | (flow', evs, we_return ret) => Some (flow', w, evs, ret)
  | (flow', evs, we_rmt_tx rb') =>
      match rmt_tx self_addr w writes loop_ret (remote_addr flow') rb' maysleep with
      | Some (w', evs', ret) => Some (flow', w', evs ++ evs', ret)
      | None => None
      end
  end.

(** ** Control PDUs *)

(** [ctrl_pdu_alloc].  [alloc] is what [rlite_buf_alloc_ctrl] returns: a
    fresh buffer, or NULL.  The control sequence number is consumed only when
    the buffer was allocated. *)
Definition ctrl_pdu_alloc (self_addr : Z) (alloc : option rlite_buf)
    (flow : flow_entry) (pdu_type : Z) (ack_nack_seq_num : Z)
  : flow_entry * option rlite_buf :=
  match alloc with
  | None => (flow, None)
  | Some rb =>
      let d := flow_dtp flow in
      let pcic :=
        {| base := {| dst_addr := remote_addr flow;
                      src_addr := self_addr;
                      qos_id := 0;
                      dst_cep := remote_cep flow;
                      src_cep := local_cep flow;
                      pdu_type := pdu_type;
                      pdu_flags := 0;
                      pdu_len := len rb;
                      seqnum := next_snd_ctl_seq d |};
           pcic_last_ctrl_seq_num_rcvd := last_ctrl_seq_num_rcvd d;
           ack_nack_seq_num := ack_nack_seq_num;
           new_rwe := rcv_rwe d;
           new_lwe := rcv_lwe d;
           my_rwe := snd_rwe d;
           my_lwe := snd_lwe d |} in
      let d := with_next_snd_ctl_seq (u64 (next_snd_ctl_seq d + 1)) d in
      (with_dtp d flow, Some (with_pcic pcic rb))
  end.

(** [sdu_rx_sv_update], called under the DTP lock after [rcv_lwe] has been
    updated. *)
Definition sdu_rx_sv_update (self_addr : Z) (alloc : option rlite_buf)
    (flow : flow_entry) : flow_entry * option rlite_buf :=
  let c := cfg flow in
  let flow :=
    if flow_control c && is_win (fc_type c) then
      with_dtp (with_rcv_rwe (u64 (rcv_lwe (flow_dtp flow) + w_initial_credit c))
                             (flow_dtp flow)) flow
    else flow in
  let '(pdu_type, ack_nack_seq_num) :=
    if rtx_control c then
      (let t := Z.lor (Z.lor PDU_T_CTRL_MASK PDU_T_ACK_BIT) PDU_T_ACK in
       if flow_control c then Z.lor t (Z.lor PDU_T_CTRL_MASK PDU_T_FC_BIT) else t,
       u64 (rcv_lwe (flow_dtp flow) - 1))
    else if flow_control c then
      (Z.lor PDU_T_CTRL_MASK PDU_T_FC_BIT, 0)
    else (0, 0) in
  if negb (pdu_type =? 0) then
    ctrl_pdu_alloc self_addr alloc flow pdu_type ack_nack_seq_num
  else (flow, None).

(** ** The sequencing queue *)

Definition SEQQ_MAX_LEN : Z := 64.

(** The scan of [seqq_push]: the queue with [rb] inserted right before the
    first buffer with a larger sequence number, or [None] when a buffer with
    the same sequence number is met first. *)
Fixpoint seqq_insert (rb : rlite_buf) (q : list rlite_buf)
  : option (list rlite_buf) :=
  match q with
  | [] => Some [rb]
  | cur :: q' =>
      if seqnum (RLITE_BUF_PCI rb) <? seqnum (RLITE_BUF_PCI cur) then
        Some (rb :: cur :: q')
      else if seqnum (RLITE_BUF_PCI rb) =? seqnum (RLITE_BUF_PCI cur) then
        None
      else
        match seqq_insert rb q' with
        | Some q'' => Some (cur :: q'')
        | None => None
        end
  end.

(** [seqq_push]: takes the ownership of [rb]. *)
Definition seqq_push (d : dtp) (rb : rlite_buf) : dtp * list event :=
  if seqq_len d >=? SEQQ_MAX_LEN then (d, [ev_free rb])
  else
    match seqq_insert rb (seqq d) with
    | None => (d, [ev_free rb])
    | Some q => (with_seqq_len (u32 (seqq_len d + 1)) (with_seqq q d), [])
    end.

(** The scan of [seqq_pop_many] over the buffers [q] not yet visited;
    returns the buffers left in place, the buffers popped, and the state with
    [seqq_len] and [rcv_lwe_priv] updated. *)
Fixpoint seqq_pop_scan (max_sdu_gap : Z) (q : list rlite_buf) (d : dtp)
  : list rlite_buf * list rlite_buf * dtp :=
  match q with
  | [] => ([], [], d)
  | qrb :: q' =>
      let s := seqnum (RLITE_BUF_PCI qrb) in
      if u64 (s - rcv_lwe_priv d) <=? max_sdu_gap then
        let d := with_seqq_len (u32 (seqq_len d - 1)) d in
        let d := with_rcv_lwe_priv (u64 (s + 1)) d in
        let '(kept, qrbs, d) := seqq_pop_scan max_sdu_gap q' d in
        (kept, qrb :: qrbs, d)
      else
        let '(kept, qrbs, d) := seqq_pop_scan max_sdu_gap q' d in
        (qrb :: kept, qrbs, d)
  end.

(** [seqq_pop_many]. *)
Definition seqq_pop_many (d : dtp) (max_sdu_gap : Z) : dtp * list rlite_buf :=
  let '(kept, qrbs, d) := seqq_pop_scan max_sdu_gap (seqq d) d in
  (with_seqq kept d, qrbs).

(** ** Receiving a control PDU *)

(** One turn of the drain of the closed-window queue: the head buffer is
    unlinked ([rest] is what remains of [cwq]) and the window edge moves,
    [dtp->last_seq_num_sent = dtp->snd_lwe++]. *)
Definition cwq_pop_head (rest : list rlite_buf) (d : dtp) : dtp :=
  let d := with_cwq rest d in
  let d := with_cwq_len (u32 (cwq_len d - 1)) d in
  with_snd_lwe (u64 (snd_lwe d + 1)) (with_last_seq_num_sent (snd_lwe d) d).

(** The drain of the closed-window queue in [sdu_rx_ctrl], over the buffers
    [q] of [cwq] not yet visited.  [clone n] is what the [n]-th call of
    [rlite_buf_clone] returns; the result of [rlite_rtxq_push] is ignored,
    as in the source. *)
Fixpoint cwq_drain (rtx : bool) (jiffies : Z) (clone : nat -> option Z)
    (n : nat) (q : list rlite_buf) (d : dtp) : dtp * list rlite_buf :=
  match q with
  | [] => (d, [])
  | qrb :: q' =>
      if snd_lwe d >=? snd_rwe d then (d, [])
      else
        let d := cwq_pop_head q' d in
        let step :=
          if rtx then (fst (rlite_rtxq_push jiffies (clone n) d qrb), S n)
          else (d, n) in
        let r := cwq_drain rtx jiffies clone (snd step) q' (fst step) in
        (fst r, qrb :: snd r)
  end.

(** The window update of [sdu_rx_ctrl] (the [PDU_T_FC_BIT] branch). *)
Definition ctrl_fc (rtx : bool) (jiffies : Z) (clone : nat -> option Z)
    (pcic : rina_pci_ctrl) (d : dtp) : dtp * list rlite_buf :=
  if new_rwe pcic <? snd_rwe d then (d, [])
  else
    let d := with_snd_rwe (new_rwe pcic) d in
    cwq_drain rtx jiffies clone 0%nat (cwq d) d.

(** The scan of the retransmission queue on an ACK, over the buffers [q] of
    [rtxq] not yet visited. *)
Fixpoint rtxq_ack_scan (ack : Z) (q : list rlite_buf) (d : dtp)
  : dtp * list event :=
  match q with
  | [] => (d, [])
  | cur :: q' =>
      if seqnum (RLITE_BUF_PCI cur) <=? ack then
        let d := with_rtxq q' d in
        let d := with_rtxq_len (u32 (rtxq_len d - 1)) d in
        let d := if ptr_is (rtx_tmr_next d) cur then with_rtx_tmr_next None d
                 else d in
        let '(d, evs) := rtxq_ack_scan ack q' d in
        (d, ev_free cur :: evs)
      else
        let d := match rtx_tmr_next d with
                 | None => with_rtx_tmr (mod_timer (rtx_jiffies cur))
                             (with_rtx_tmr_next (Some (rb_addr cur)) d)
                 | Some _ => d
                 end in
        (d, [])
  end.

(** The acknowledgement processing of [sdu_rx_ctrl] (the [PDU_T_ACK_BIT]
    branch); NACK, SACK and SNACK are logged and ignored. *)
Definition ctrl_ack (pcic : rina_pci_ctrl) (d : dtp) : dtp * list event :=
  if Z.land (pdu_type (base pcic)) PDU_T_ACK_MASK =? PDU_T_ACK then
    let '(d, evs) := rtxq_ack_scan (ack_nack_seq_num pcic) (rtxq d) d in
    let d := match rtxq d with
             | [] => with_rtx_tmr del_timer d
             | _ :: _ => d
             end in
    (d, evs)
  else (d, []).

(** The two tests on the control sequence number. *)
Definition ctrl_seq_lost (pcic : rina_pci_ctrl) (d : dtp) : bool :=
  seqnum (base pcic) >? u64 (last_ctrl_seq_num_rcvd d + 1).

Definition ctrl_seq_duplicate (pcic : rina_pci_ctrl) (d : dtp) : bool :=
  negb (ctrl_seq_lost pcic d)
  && negb (last_ctrl_seq_num_rcvd d =? 0)
  && (seqnum (base pcic) <=? last_ctrl_seq_num_rcvd d).

Definition is_ctrl_pdu (pcic : rina_pci_ctrl) : bool :=
  Z.land (pdu_type (base pcic)) PDU_T_CTRL_MASK =? PDU_T_CTRL_MASK.

Definition has_bit (pcic : rina_pci_ctrl) (bit : Z) : bool :=
  negb (Z.land (pdu_type (base pcic)) bit =? 0).

(** The first part of [sdu_rx_ctrl] for a PDU that is not a duplicate: the
    control sequence number is recorded and the window update, if the PDU
    carries one, is applied. *)
Definition ctrl_accept (rtx : bool) (jiffies : Z) (clone : nat -> option Z)
    (pcic : rina_pci_ctrl) (d : dtp) : dtp * list rlite_buf :=
  let d := with_last_ctrl_seq_num_rcvd (seqnum (base pcic)) d in
  if has_bit pcic PDU_T_FC_BIT then ctrl_fc rtx jiffies clone pcic d
  else (d, []).

(** [sdu_rx_ctrl] between [spin_lock_bh] and [spin_unlock_bh]: the new
    state, the buffers freed and the buffers popped out of [cwq]. *)
Definition sdu_rx_ctrl_locked (rtx : bool) (jiffies : Z)
    (clone : nat -> option Z) (pcic : rina_pci_ctrl) (d : dtp)
  : dtp * list event * list rlite_buf :=
  if ctrl_seq_duplicate pcic d then (d, [], [])
  else
    let '(d, qrbs) := ctrl_accept rtx jiffies clone pcic d in
    let '(d, evs) :=
      if has_bit pcic PDU_T_ACK_BIT then ctrl_ack pcic d else (d, []) in
    (d, evs, qrbs).

(** [sdu_rx_ctrl]. *)
Definition sdu_rx_ctrl (jiffies : Z) (clone : nat -> option Z)
    (flow : flow_entry) (rb : rlite_buf) : flow_entry * list event * Z :=
  let pcic := RLITE_BUF_PCI_CTRL rb in
  if negb (is_ctrl_pdu pcic) then (flow, [ev_free rb], 0)
  else
    let '(d, evs, qrbs) :=
      sdu_rx_ctrl_locked (rtx_control (cfg flow)) jiffies clone pcic
                         (flow_dtp flow) in
    (with_dtp d flow,
     evs ++ [ev_free rb]
         ++ map (fun qrb => ev_rmt_tx (dst_addr (RLITE_BUF_PCI qrb)) qrb false) qrbs
         ++ [ev_write_restart],
     0).

(** ** Receiving a data PDU *)

(** Modelled from the spec: the value [rlite_buf_pci_pop] returns when it
    fails (the helper is outside the sources at hand). *)
Definition PCI_POP_ERR : Z := -1.

(** The events of a delivery: the PCI is popped and the SDU passed up with
    [rlite_sdu_rx_flow], or the buffer is freed when the pop fails. *)
Definition deliver_up (qlimit : bool) (rb : rlite_buf) : event :=
  match rlite_buf_pci_pop rb with
  | None => ev_free rb
  | Some rb' => ev_sdu_rx_flow rb' qlimit
  end.

(** The value the delivery of a list of buffers leaves in [ret]; [up] is
    what [rlite_sdu_rx_flow] returns for a buffer. *)
Definition deliver_ret (up : rlite_buf -> Z) (rb : rlite_buf) : option Z :=
  match rlite_buf_pci_pop rb with
  | None => None
  | Some rb' => Some (up rb')
  end.

Fixpoint deliver_many_ret (up : rlite_buf -> Z) (qrbs : list rlite_buf) (ret : Z)
  : Z :=
  match qrbs with
  | [] => ret
  | qrb :: rest =>
      match deliver_ret up qrb with
      | None => deliver_many_ret up rest ret
      | Some r => deliver_many_ret up rest (Z.lor ret r)
      end
  end.

(** The three ways [rlite_normal_sdu_rx] disposes of a data PDU that is
    neither a run start nor below [rcv_lwe_priv]; the local variable [a] of
    the source is the constant 0. *)
Definition a_timer : Z := 0.

Definition rx_gap (flow : flow_entry) (seqnum : Z) : Z :=
  u64 (seqnum - rcv_lwe_priv (flow_dtp flow)).

Definition rx_drop (flow : flow_entry) (seqnum : Z) : bool :=
  (in_order_delivery (cfg flow) || dtcp_present (cfg flow))
  && (a_timer =? 0)
  && negb (rtx_control (cfg flow))
  && (rx_gap flow seqnum >? max_sdu_gap (cfg flow)).

Definition rx_deliver (flow : flow_entry) (seqnum : Z) : bool :=
  negb (rx_drop flow seqnum) && (rx_gap flow seqnum <=? max_sdu_gap (cfg flow)).

Definition opt_rmt_tx (remote : Z) (crb : option rlite_buf) : list event :=
  match crb with
  | Some b => [ev_rmt_tx remote b false]
  | None => []
  end.

(** The receiver inactivity timer is re-armed on every data PDU of a flow
    with DTCP. *)
Definition rcv_inact_rearm (jiffies : Z) (flow : flow_entry) : flow_entry :=
  let d := flow_dtp flow in
  with_dtp (if dtcp_present (cfg flow) then
              with_rcv_inact_tmr (mod_timer (u64 (jiffies + 2 * mpl_r_a d))) d
            else d) flow.

(** [max_seq_num_rcvd] is raised to the sequence number of the PDU. *)
Definition max_seq_raise (seqnum : Z) (flow : flow_entry) : flow_entry :=
  let d := flow_dtp flow in
  with_dtp (if seqnum >? max_seq_num_rcvd d then with_max_seq_num_rcvd seqnum d
            else d) flow.

(** The branch of [rlite_normal_sdu_rx] for a PDU with the DRF flag: either
    the first PDU or a new run. *)
Definition sdu_rx_drf (self_addr : Z) (alloc : option rlite_buf)
    (up : rlite_buf -> Z) (flow : flow_entry) (rb : rlite_buf)
  : flow_entry * list event * Z :=
  let seqnum := seqnum (RLITE_BUF_PCI rb) in
  let qlimit := negb (flow_control (cfg flow)) in
  let d := flow_dtp flow in
  let d := with_rcv_lwe (u64 (seqnum + 1))
             (with_rcv_lwe_priv (u64 (seqnum + 1)) d) in
  let d := with_max_seq_num_rcvd seqnum d in
  let '(flow, crb) := sdu_rx_sv_update self_addr alloc (with_dtp d flow) in
  let flow := with_stats (rx_received (len rb) (stats flow)) flow in
  (flow,
   deliver_up qlimit rb :: opt_rmt_tx (remote_addr flow) crb,
   match deliver_ret up rb with Some r => r | None => PCI_POP_ERR end).

(** The branch for a PDU below [rcv_lwe_priv]: a duplicate. *)
Definition sdu_rx_duplicate (self_addr : Z) (alloc : option rlite_buf)
    (flow : flow_entry) (rb : rlite_buf) : flow_entry * list event * Z :=
  let d := flow_dtp flow in
  let flow := with_stats (rx_failed (stats flow)) flow in
  let '(flow, crb) :=
    if flow_control (cfg flow) && (rcv_lwe d >=? last_snd_data_ack d) then
      let '(flow, crb) :=
        ctrl_pdu_alloc self_addr alloc flow
          (Z.lor (Z.lor (Z.lor PDU_T_CTRL_MASK PDU_T_ACK_BIT) PDU_T_ACK)
                 PDU_T_FC_BIT)
          (rcv_lwe d) in
      match crb with
      | Some _ =>
          (with_dtp (with_last_snd_data_ack (rcv_lwe (flow_dtp flow))
                                            (flow_dtp flow)) flow, crb)
      | None => (flow, crb)
      end
    else (flow, None) in
  (flow, ev_free rb :: opt_rmt_tx (remote_addr flow) crb, 0).

(** The branch taken when [deliver] holds. *)
Definition sdu_rx_deliver (self_addr : Z) (alloc : option rlite_buf)
    (up : rlite_buf -> Z) (flow : flow_entry) (rb : rlite_buf)
  : flow_entry * list event * Z :=
  let seqnum := seqnum (RLITE_BUF_PCI rb) in
  let qlimit := negb (flow_control (cfg flow)) in
  let d := with_rcv_lwe_priv (u64 (seqnum + 1)) (flow_dtp flow) in
  let '(d, qrbs) := seqq_pop_many d (max_sdu_gap (cfg flow)) in
  let '(flow, crb) :=
    if upper_ipcp flow then
      sdu_rx_sv_update self_addr alloc
        (with_dtp (with_rcv_lwe (rcv_lwe_priv d) d) flow)
    else (with_dtp d flow, None) in
  let flow := with_stats (rx_received (len rb) (stats flow)) flow in
  match rlite_buf_pci_pop rb with
  | None =>
      (flow, ev_free rb :: opt_rmt_tx (remote_addr flow) crb, PCI_POP_ERR)
  | Some rb' =>
      (flow,
       ev_sdu_rx_flow rb' qlimit :: map (deliver_up qlimit) qrbs
         ++ opt_rmt_tx (remote_addr flow) crb,
       deliver_many_ret up qrbs (up rb'))
  end.

(** The branch taken when [drop] holds. *)
Definition sdu_rx_dropped (self_addr : Z) (alloc : option rlite_buf)
    (flow : flow_entry) (rb : rlite_buf) : flow_entry * list event * Z :=
  let flow := with_stats (rx_failed (stats flow)) flow in
  let '(flow, crb) := sdu_rx_sv_update self_addr alloc flow in
  (flow, ev_free rb :: opt_rmt_tx (remote_addr flow) crb, 0).

(** What is neither dropped nor delivered goes to the sequencing queue. *)
Definition sdu_rx_hold (self_addr : Z) (alloc : option rlite_buf)
    (flow : flow_entry) (rb : rlite_buf) : flow_entry * list event * Z :=
  let '(d, evs) := seqq_push (flow_dtp flow) rb in
  let flow := with_stats (rx_received (len rb) (stats flow)) (with_dtp d flow) in
  let '(flow, crb) := sdu_rx_sv_update self_addr alloc flow in
  (flow, evs ++ opt_rmt_tx (remote_addr flow) crb, 0).

(** The data-transfer part of [rlite_normal_sdu_rx], for a PDU addressed to
    this IPCP whose flow has been found.  [alloc] is what the one call of
    [rlite_buf_alloc_ctrl] on the path returns. *)
Definition sdu_rx_data (self_addr jiffies : Z) (alloc : option rlite_buf)
    (up : rlite_buf -> Z) (flow : flow_entry) (rb : rlite_buf)
  : flow_entry * list event * Z :=
  let pci := RLITE_BUF_PCI rb in
  let seqnum := seqnum pci in
  let flow := rcv_inact_rearm jiffies flow in
  if Z.testbit (pdu_flags pci) 0 then
    sdu_rx_drf self_addr alloc up flow rb
  else if seqnum <? rcv_lwe_priv (flow_dtp flow) then
    sdu_rx_duplicate self_addr alloc flow rb
  else
    let flow := max_seq_raise seqnum flow in
    if rx_deliver flow seqnum then sdu_rx_deliver self_addr alloc up flow rb
    else if rx_drop flow seqnum then sdu_rx_dropped self_addr alloc flow rb
    else sdu_rx_hold self_addr alloc flow rb.

(** [rlite_normal_sdu_rx] once the flow has been found: a PDU that is not a
    data-transfer PDU goes to [sdu_rx_ctrl]. *)
Definition sdu_rx_on_flow (self_addr jiffies : Z) (clone : nat -> option Z)
    (alloc : option rlite_buf) (up : rlite_buf -> Z)
    (flow : flow_entry) (rb : rlite_buf) : flow_entry * list event * Z :=
  if negb (pdu_type (RLITE_BUF_PCI rb) =? PDU_T_DT) then
    sdu_rx_ctrl jiffies clone flow rb
  else sdu_rx_data self_addr jiffies alloc up flow rb.

(** [rlite_normal_sdu_rx].  [flow_get_by_cep] is the flow table of the
    kernel, which the function only reads; the result names the flow that was
    updated, if any. *)
Definition rlite_normal_sdu_rx (self_addr jiffies : Z)
    (flow_get_by_cep : Z -> option flow_entry)
    (clone : nat -> option Z) (alloc : option rlite_buf) (up : rlite_buf -> Z)
    (rb : rlite_buf) : option flow_entry * list event * Z :=
  let pci := RLITE_BUF_PCI rb in
  if negb (dst_addr pci =? self_addr) then
    (None, [ev_rmt_tx (dst_addr pci) rb false], 0)
  else
    match flow_get_by_cep (dst_cep pci) with
    | None => (None, [ev_free rb], 0)
    | Some flow =>
        let '(flow', evs, ret) :=
          sdu_rx_on_flow self_addr jiffies clone alloc up flow rb in
        (Some flow', evs, ret)
    end.

(** [rlite_normal_sdu_rx_consumed]. *)
Definition rlite_normal_sdu_rx_consumed (self_addr : Z) (alloc : option rlite_buf)
    (flow : flow_entry) (rb : rlite_buf) : flow_entry * list event * Z :=
  let d := with_rcv_lwe (u64 (seqnum (RLITE_BUF_PCI rb) + 1)) (flow_dtp flow) in
  let '(flow, crb) := sdu_rx_sv_update self_addr alloc (with_dtp d flow) in
  (flow, opt_rmt_tx (remote_addr flow) crb, 0).

(** ** Timers and initialisation *)

(** [snd_inact_tmr_cb]; the timer that fired is no longer pending. *)
Definition snd_inact_tmr_cb (flow : flow_entry) : flow_entry :=
  let d := with_snd_inact_tmr None (flow_dtp flow) in
  with_dtp (with_set_drf true d) flow.

(** [rcv_inact_tmr_cb] only logs. *)
Definition rcv_inact_tmr_cb (flow : flow_entry) : flow_entry :=
  with_dtp (with_rcv_inact_tmr None (flow_dtp flow)) flow.

Definition RTX_MSECS_DEFAULT : Z := 1000.
Definition DATA_RXMS_MAX_DEFAULT : Z := 10.

(** Modelled from the spec: [MPL_MSECS_DEFAULT] is defined outside the
    sources at hand; the spec gives 10000 ms. *)
Definition MPL_MSECS_DEFAULT : Z := 10000.

(** [rlite_normal_flow_init].  [msecs_to_jiffies] is the kernel's conversion
    and [dif_mpl] the [max_pdu_life] of the DIF, when the IPCP has one.  The
    queues and their lengths are set up by the caller and are taken from the
    flow as it is. *)
Definition rlite_normal_flow_init (msecs_to_jiffies : Z -> Z)
    (dif_mpl : option Z) (flow : flow_entry) : flow_entry :=
  let c := cfg flow in
  let d := flow_dtp flow in
  let mpl := match dif_mpl with Some m => msecs_to_jiffies m | None => 0 end in
  let mpl := if mpl =? 0 then msecs_to_jiffies MPL_MSECS_DEFAULT else mpl in
  let tr := if rtx_control c && (initial_tr c =? 0) then RTX_MSECS_DEFAULT
            else initial_tr c in
  let rxms := if rtx_control c && (data_rxms_max c =? 0) then DATA_RXMS_MAX_DEFAULT
              else data_rxms_max c in
  let c' := {| dtcp_present := dtcp_present c;
               in_order_delivery := in_order_delivery c;
               max_sdu_gap := max_sdu_gap c;
               flow_control := flow_control c;
               fc_type := fc_type c;
               w_max_cwq_len := w_max_cwq_len c;
               w_initial_credit := w_initial_credit c;
               rtx_control := rtx_control c;
               initial_tr := tr;
               data_rxms_max := rxms;
               initial_a := initial_a c |} in
  let r := u64 (msecs_to_jiffies tr * rxms) in
  let win := is_win (fc_type c) in
  with_cfg c'
    (with_dtp
       {| set_drf := true;
          next_seq_num_to_send := 0;
          snd_lwe := 0;
          snd_rwe := if win then u64 (0 + w_initial_credit c) else 0;
          last_seq_num_sent := u64 (-1);
          cwq := cwq d;
          cwq_len := cwq_len d;
          max_cwq_len := if win then w_max_cwq_len c else max_cwq_len d;
          rtxq := rtxq d;
          rtxq_len := rtxq_len d;
          max_rtxq_len := if rtx_control c then 64 else max_rtxq_len d;
          rtx_tmr_next := None;
          rtx_tmr := rtx_tmr d;
          rtx_tmr_int := msecs_to_jiffies tr;
          rcv_lwe := 0;
          rcv_lwe_priv := 0;
          rcv_rwe := if win then u64 (0 + w_initial_credit c) else 0;
          max_seq_num_rcvd := u64 (-1);
          last_snd_data_ack := 0;
          seqq := seqq d;
          seqq_len := seqq_len d;
          next_snd_ctl_seq := 0;
          last_ctrl_seq_num_rcvd := 0;
          snd_inact_tmr := snd_inact_tmr d;
          rcv_inact_tmr := rcv_inact_tmr d;
          mpl_r_a := u64 (mpl + r + msecs_to_jiffies (initial_a c)) |}
       flow).

(** Modelled from the spec: the flow as the kernel hands it to
    [rlite_normal_flow_init], with empty queues, no timer pending and zeroed
    counters (the allocation of [struct flow_entry] is outside the sources at
    hand). *)
Definition blank_dtp : dtp :=
  {| set_drf := false; next_seq_num_to_send := 0; snd_lwe := 0; snd_rwe := 0;
     last_seq_num_sent := 0; cwq := []; cwq_len := 0; max_cwq_len := 0;
     rtxq := []; rtxq_len := 0; max_rtxq_len := 0; rtx_tmr_next := None;
     rtx_tmr := None; rtx_tmr_int := 0; rcv_lwe := 0; rcv_lwe_priv := 0;
     rcv_rwe := 0; max_seq_num_rcvd := 0; last_snd_data_ack := 0; seqq := [];
     seqq_len := 0; next_snd_ctl_seq := 0; last_ctrl_seq_num_rcvd := 0;
     snd_inact_tmr := None; rcv_inact_tmr := None; mpl_r_a := 0 |}.

Definition blank_stats : rl_flow_stats :=
  {| tx_pkt := 0; tx_byte := 0; tx_err := 0; rx_pkt := 0; rx_byte := 0; rx_err := 0 |}.

Definition blank_flow (c : flow_config) (raddr rcep lcep : Z) (upper : bool)
  : flow_entry :=
  {| cfg := c; flow_dtp := blank_dtp; stats := blank_stats; remote_addr := raddr;
     remote_cep := rcep; local_cep := lcep; upper_ipcp := upper |}.

(** ** The retransmission timer *)

(** The buffer of [q] at position [i], with its deadline moved forward. *)
Fixpoint bump_deadline (i : nat) (int : Z) (q : list rlite_buf) : list rlite_buf :=
  match q, i with
  | [], _ => []
  | rb :: q', O => with_rtx_jiffies (u64 (rtx_jiffies rb + int)) rb :: q'
  | rb :: q', S i' => rb :: bump_deadline i' int q'
  end.

(** The position in [q] of the buffer at address [a]. *)
Fixpoint index_of (a : Z) (q : list rlite_buf) : option nat :=
  match q with
  | [] => None
  | rb :: q' =>
      if rb_addr rb =? a then Some O
      else match index_of a q' with Some i => Some (S i) | None => None end
  end.

(** The successor of a position on the circular list: positions
    [0 .. n-1] are the buffers of [rtxq], position [n] is the list head. *)
Definition ring_next (n cur : nat) : nat :=
  if Nat.eqb cur n then O else S cur.

(** The loop of [rtx_tmr_cb].  [start] is the position of [rtx_tmr_next],
    [cur] the cursor, [k] the number of clones asked for so far.  The loop
    has no bound of its own; [fuel] bounds the number of iterations the model
    follows. *)
Fixpoint rtx_scan (fuel : nat) (jiffies : Z) (clone : nat -> option Z)
    (start cur k : nat) (d : dtp) (rrbq : list rlite_buf)
  : option (dtp * list rlite_buf) :=
  match fuel with
  | O => None
  | S fuel' =>
      let n := length (rtxq d) in
      match nth_error (rtxq d) cur with
      | None =>
          (* the list head: skip it *)
          rtx_scan fuel' jiffies clone start (ring_next n cur) k d rrbq
      | Some rb =>
          if jiffies >=? rtx_jiffies rb then
            let d := with_rtxq (bump_deadline cur (rtx_tmr_int d) (rtxq d)) d in
            let rb := with_rtx_jiffies (u64 (rtx_jiffies rb + rtx_tmr_int d)) rb in
            let rrbq := match clone k with
                        | Some a => rrbq ++ [rlite_buf_clone a rb]
                        | None => rrbq
                        end in
            if Nat.eqb (ring_next n cur) start then Some (d, rrbq)
            else rtx_scan fuel' jiffies clone start (ring_next n cur) (S k) d rrbq
          else
            let d := if negb (Nat.eqb cur start) then
                       with_rtx_tmr (mod_timer (rtx_jiffies rb))
                         (with_rtx_tmr_next (Some (rb_addr rb)) d)
                     else d in
            Some (d, rrbq)
      end
  end.

(** [rtx_tmr_cb]; the timer that fired is no longer pending.  The run is
    undetermined when [rtx_tmr_next] designates no buffer of [rtxq] or when
    the fuel runs out. *)
Definition rtx_tmr_cb (fuel : nat) (jiffies : Z) (clone : nat -> option Z)
    (self_addr : Z) (flow : flow_entry) : option (flow_entry * list event) :=
  let d := with_rtx_tmr None (flow_dtp flow) in
  match rtx_tmr_next d with
  | None => Some (with_dtp d flow, [])
  | Some a =>
      match index_of a (rtxq d) with
      | None => None
      | Some start =>
          match rtx_scan fuel jiffies clone start start O d [] with
          | None => None
          | Some (d, rrbq) =>
              Some (with_dtp d flow,
                    map (fun crb => ev_rmt_tx (dst_addr (RLITE_BUF_PCI crb)) crb false)
                        rrbq)
          end
      end
  end.

(** ** Runs of a flow *)

(** The operations that change the state of a flow, with what the
    environment contributes to each. *)
Inductive flow_op :=
| op_sdu_write (jiffies : Z) (clone : option Z) (rb : rlite_buf)
| op_sdu_rx (jiffies : Z) (clone : nat -> option Z) (alloc : option rlite_buf)
            (rb : rlite_buf)
| op_sdu_rx_consumed (alloc : option rlite_buf) (rb : rlite_buf)
| op_snd_inact_tmr
| op_rcv_inact_tmr
| op_rtx_tmr (fuel : nat) (jiffies : Z) (clone : nat -> option Z).

Definition flow_step (self_addr : Z) (flow : flow_entry) (op : flow_op)
  : option flow_entry :=
  match op with
  | op_sdu_write jiffies clone rb =>
      Some (fst (fst (sdu_write_locked self_addr jiffies clone flow rb)))
  | op_sdu_rx jiffies clone alloc rb =>
      Some (fst (fst (sdu_rx_on_flow self_addr jiffies clone alloc (fun _ => 0)
                                     flow rb)))
  | op_sdu_rx_consumed alloc rb =>
      Some (fst (fst (rlite_normal_sdu_rx_consumed self_addr alloc flow rb)))
  | op_snd_inact_tmr => Some (snd_inact_tmr_cb flow)
  | op_rcv_inact_tmr => Some (rcv_inact_tmr_cb flow)
  | op_rtx_tmr fuel jiffies clone =>
      match rtx_tmr_cb fuel jiffies clone self_addr flow with
      | Some (flow', _) => Some flow'
      | None => None
      end
  end.

Fixpoint flow_run (self_addr : Z) (flow : flow_entry) (ops : list flow_op)
  : option flow_entry :=
  match ops with
  | [] => Some flow
  | op :: ops' =>
      match flow_step self_addr flow op with
      | Some flow' => flow_run self_addr flow' ops'
      | None => None
      end
  end.

(** ** Predicates used in the statements *)

(** The value is representable in a [uint64_t]. *)
Definition is_u64 (x : Z) : Prop := 0 <= x < 2 ^ 64.

(** The admission rule of the send path as the specification words it:
    window flow control is configured, the next sequence number is beyond
    the right window edge and the closed-window queue is full; or
    retransmission control is configured and the retransmission queue is
    full. *)
Definition admission_refused (flow : flow_entry) : Prop :=
  (fc_type (cfg flow) = RLITE_FC_T_WIN
   /\ next_seq_num_to_send (flow_dtp flow) > snd_rwe (flow_dtp flow)
   /\ cwq_len (flow_dtp flow) >= max_cwq_len (flow_dtp flow))
  \/ (rtx_control (cfg flow) = true
      /\ rtxq_len (flow_dtp flow) >= max_rtxq_len (flow_dtp flow)).

(** The sequence number of a buffer. *)
Definition rb_seq (rb : rlite_buf) : Z := seqnum (RLITE_BUF_PCI rb).

(** The drop rule and the deliver rule of the receive path as the
    specification words them, for a PDU [gap] sequence numbers ahead of
    [rcv_lwe_priv]; the A timer is the constant 0 of the source. *)
Definition drop_rule (c : flow_config) (gap : Z) : Prop :=
  (in_order_delivery c = true \/ dtcp_present c = true)
  /\ a_timer = 0
  /\ rtx_control c = false
  /\ gap > max_sdu_gap c.

Definition deliver_rule (c : flow_config) (gap : Z) : Prop :=
  ~ drop_rule c gap /\ gap <= max_sdu_gap c.

(** The state in which the receive path evaluates the two rules: the
    receiver inactivity timer re-armed and [max_seq_num_rcvd] raised. *)
Definition rx_entry (jiffies : Z) (flow : flow_entry) (rb : rlite_buf)
  : flow_entry :=
  max_seq_raise (rb_seq rb) (rcv_inact_rearm jiffies flow).

(** Popping from the sequencing queue as the specification words it: walk
    the queue in order; a buffer whose sequence number minus the current
    [rcv_lwe_priv] is at most [max_sdu_gap] is popped and moves the frontier
    just past itself, any other buffer stays.
    [pops gap p q popped kept p'] relates the frontier [p] and the queue [q]
    before with the popped buffers, the buffers kept and the frontier
    after. *)
Inductive pops (gap : Z) : Z -> list rlite_buf -> list rlite_buf ->
                            list rlite_buf -> Z -> Prop :=
| pops_done : forall p, pops gap p [] [] [] p
| pops_take : forall p b q popped kept p',
    u64 (rb_seq b - p) <= gap ->
    pops gap (u64 (rb_seq b + 1)) q popped kept p' ->
    pops gap p (b :: q) (b :: popped) kept p'
| pops_keep : forall p b q popped kept p',
    u64 (rb_seq b - p) > gap ->
    pops gap p q popped kept p' ->
    pops gap p (b :: q) popped (b :: kept) p'.

(** The sequence numbers of a queue are strictly ascending. *)
Definition seq_sorted (q : list rlite_buf) : Prop :=
  StronglySorted Z.lt (map rb_seq q).

(** The sequence numbers of the SDUs an event list passes upwards, in
    order. *)
Fixpoint delivered_seqs (evs : list event) : list Z :=
  match evs with
  | [] => []
  | ev_sdu_rx_flow rb _ :: evs' => rb_seq rb :: delivered_seqs evs'
  | _ :: evs' => delivered_seqs evs'
  end.

(** ** Worked examples *)

(** A flow with DTCP and retransmission control, strict ordering
    ([max_sdu_gap = 0]) and no flow control, as [rlite_normal_flow_init]
    leaves it. *)
Definition ex_cfg_rtx : flow_config :=
  {| dtcp_present := true; in_order_delivery := true; max_sdu_gap := 0;
     flow_control := false; fc_type := RLITE_FC_T_NONE; w_max_cwq_len := 0;
     w_initial_credit := 0; rtx_control := true; initial_tr := 100;
     data_rxms_max := 10; initial_a := 0 |}.

(** A flow with window flow control (credit 2, [cwq] of 4) and
    retransmission control. *)
Definition ex_cfg_win : flow_config :=
  {| dtcp_present := true; in_order_delivery := true; max_sdu_gap := 0;
     flow_control := true; fc_type := RLITE_FC_T_WIN; w_max_cwq_len := 4;
     w_initial_credit := 2; rtx_control := true; initial_tr := 100;
     data_rxms_max := 10; initial_a := 0 |}.

Definition ex_flow (c : flow_config) : flow_entry :=
  rlite_normal_flow_init (fun m => m) None (blank_flow c 2 20 10 false).

Definition ex_pcic (t flags s ack rwe : Z) : rina_pci_ctrl :=
  {| base := {| dst_addr := 1; src_addr := 2; qos_id := 0; dst_cep := 10;
                src_cep := 20; pdu_type := t; pdu_flags := flags;
                pdu_len := 100; seqnum := s |};
     pcic_last_ctrl_seq_num_rcvd := 0; ack_nack_seq_num := ack;
     new_rwe := rwe; new_lwe := 0; my_rwe := 0; my_lwe := 0 |}.

(** A data PDU at address [a] with sequence number [s]. *)
Definition ex_data (a s flags : Z) : rlite_buf :=
  {| rb_addr := a; rb_room := 0; len := 100;
     pcic := ex_pcic PDU_T_DT flags s 0 0;
     rtx_jiffies := 0; tx_compl_flow := None |}.

(** A control PDU at address [a] with control sequence number [s]. *)
Definition ex_ctrl (a t s ack rwe : Z) : rlite_buf :=
  {| rb_addr := a; rb_room := 0; len := 88;
     pcic := ex_pcic t 0 s ack rwe;
     rtx_jiffies := 0; tx_compl_flow := None |}.

(** An SDU handed to the send path, with head room for one PCI. *)
Definition ex_sdu (a : Z) : rlite_buf :=
  {| rb_addr := a; rb_room := 40; len := 60;
     pcic := ex_pcic 0 0 0 0 0;
     rtx_jiffies := 0; tx_compl_flow := None |}.

(** Receiving a data PDU on a flow, keeping the state only. *)
Definition ex_rx (flow : flow_entry) (rb : rlite_buf) : flow_entry :=
  fst (fst (sdu_rx_data 1 0 None (fun _ => 0) flow rb)).

(** The flow after the data PDUs with sequence numbers [s], [s+1], ...
    ([n] of them, at addresses [s], [s+1], ...) were received. *)
Fixpoint ex_rx_many (n : nat) (s : Z) (flow : flow_entry) : flow_entry :=
  match n with
  | O => flow
  | S n' => ex_rx_many n' (s + 1) (ex_rx flow (ex_data s s 0))
  end.

(** ** Invariants *)

(** The sequence numbers of a queue are [start], [start + 1], ... *)
Fixpoint contiguous_from (start : Z) (q : list rlite_buf) : Prop :=
  match q with
  | [] => True
  | b :: q' => rb_seq b = start /\ contiguous_from (start + 1) q'
  end.

(** The invariant of the sender side that the drain of [cwq] maintains:
    with [N = next_seq_num_to_send] and [L] the length of [cwq], at most
    [bound] sequence numbers have been assigned, [cwq] holds the sequence
    numbers [N - L .. N - 1] in order, is empty unless the flow has DTCP with
    window flow control, in which case [snd_lwe = N - L], and [rtxq] is
    strictly ascending with every sequence number below [N - L]. *)
Definition drain_inv (win : bool) (bound : Z) (d : dtp) : Prop :=
  let N := next_seq_num_to_send d in
  let L := Z.of_nat (length (cwq d)) in
  0 <= N <= bound
  /\ 0 <= N - L
  /\ contiguous_from (N - L) (cwq d)
  /\ (cwq d <> [] -> win = true)
  /\ (win = true -> snd_lwe d = N - L)
  /\ seq_sorted (rtxq d)
  /\ Forall (fun b => rb_seq b < N - L) (rtxq d).

(** The invariant of the sender side between operations: moreover a
    non-empty [cwq] means the next sequence number is beyond the right window
    edge. *)
Definition snd_inv (bound : Z) (flow : flow_entry) : Prop :=
  let d := flow_dtp flow in
  drain_inv (is_win (fc_type (cfg flow)) && dtcp_present (cfg flow)) bound d
  /\ (cwq d <> [] -> snd_rwe d < next_seq_num_to_send d).

(** A flow fresh from [rlite_normal_flow_init]. *)
Definition fresh_flow (msecs_to_jiffies : Z -> Z) (dif_mpl : option Z)
    (c : flow_config) (raddr rcep lcep : Z) (upper : bool) : flow_entry :=
  rlite_normal_flow_init msecs_to_jiffies dif_mpl
                         (blank_flow c raddr rcep lcep upper).

(** The states a flow goes through: what a run of fewer than 2^64
    operations makes of a fresh flow. *)
Definition reachable (self_addr : Z) (flow : flow_entry) : Prop :=
  exists msecs_to_jiffies dif_mpl c raddr rcep lcep upper ops,
    Z.of_nat (length ops) < 2 ^ 64
    /\ flow_run self_addr
         (fresh_flow msecs_to_jiffies dif_mpl c raddr rcep lcep upper) ops
       = Some flow.

(** The clones that enter [rtxq] when the buffers [qrbs] are pushed in turn
    at time [jiffies]: one for each buffer the allocator grants a clone,
    [clone n] answering the [n]-th request. *)
Fixpoint granted_clones (jiffies int : Z) (clone : nat -> option Z) (n : nat)
    (qrbs : list rlite_buf) : list rlite_buf :=
  match qrbs with
  | [] => []
  | qrb :: rest =>
      match clone n with
      | Some a =>
          with_rtx_jiffies (u64 (jiffies + int)) (rlite_buf_clone a qrb)
            :: granted_clones jiffies int clone (S n) rest
      | None => granted_clones jiffies int clone (S n) rest
      end
  end.

(** The number of buffers a window update lets out of a closed-window queue
    of [len] buffers: one for each sequence number between [snd_lwe] and the
    new right window edge, as far as the queue goes. *)
Definition drain_count (len : nat) (snd_lwe new_rwe : Z) : nat :=
  Nat.min len (Z.to_nat (new_rwe - snd_lwe)).

(** The fields of the sender side that only the send path and the window
    update write, and the fields of the receiver side. *)
Definition snd_fields (d : dtp) :=
  (next_seq_num_to_send d, snd_lwe d, snd_rwe d, last_seq_num_sent d, cwq d,
   rtx_tmr_int d, last_ctrl_seq_num_rcvd d).

Definition rcv_fields (d : dtp) :=
  (rcv_lwe d, rcv_lwe_priv d, seqq d, seqq_len d).

(** Whether [rtx_tmr_next] is NULL once the buffers [removed] have been
    unlinked from [rtxq]: it was NULL already, or one of them was the buffer
    it designated. *)
Definition tmr_cleared (next : option Z) (removed : list rlite_buf) : bool :=
  match next with
  | None => true
  | Some _ => existsb (ptr_is next) removed
  end.

(** The second flow has the configuration, the sender fields and the
    retransmission queue of the first. *)
Definition snd_frame (f f' : flow_entry) : Prop :=
  cfg f' = cfg f
  /\ upper_ipcp f' = upper_ipcp f
  /\ snd_fields (flow_dtp f') = snd_fields (flow_dtp f)
  /\ rtxq (flow_dtp f') = rtxq (flow_dtp f).

(** The invariant of the receiver side: the advertised left window edge
    does not exceed the private one, both are representable, and every
    buffer held in the sequencing queue has a sequence number above
    [max_sdu_gap] and below 2^64 - 1. *)
Definition seqq_ok (c : flow_config) (b : rlite_buf) : Prop :=
  0 <= rb_seq b /\ max_sdu_gap c < rb_seq b /\ rb_seq b < 2 ^ 64 - 1.

Definition rx_inv (flow : flow_entry) : Prop :=
  let d := flow_dtp flow in
  0 <= rcv_lwe d
  /\ rcv_lwe d <= rcv_lwe_priv d
  /\ rcv_lwe_priv d < 2 ^ 64
  /\ Forall (seqq_ok (cfg flow)) (seqq d).

(** The operation is the reception of a data PDU that starts a run (its DRF
    flag is set). *)
Definition run_start (op : flow_op) : bool :=
  match op with
  | op_sdu_rx _ _ _ rb =>
      (pdu_type (RLITE_BUF_PCI rb) =? PDU_T_DT)
      && Z.testbit (pdu_flags (RLITE_BUF_PCI rb)) 0
  | _ => false
  end.

(** What is asked of the environment for the receiver invariant: a data
    PDU carries a sequence number below 2^64 - 1, and the upper layer
    consumes a buffer whose sequence number [s] satisfies
    [rcv_lwe <= s + 1 <= rcv_lwe_priv]. *)
Definition rx_op_ok (flow : flow_entry) (op : flow_op) : Prop :=
  match op with
  | op_sdu_rx _ _ _ rb =>
      pdu_type (RLITE_BUF_PCI rb) = PDU_T_DT -> 0 <= rb_seq rb < 2 ^ 64 - 1
  | op_sdu_rx_consumed _ rb =>
      rcv_lwe (flow_dtp flow) <= rb_seq rb + 1 <= rcv_lwe_priv (flow_dtp flow)
  | _ => True
  end.

(** The sequence numbers of the PDUs an event list hands to the RMT, in
    order. *)
Fixpoint dispatched_seqs (evs : list event) : list Z :=
  match evs with
  | [] => []
  | ev_rmt_tx _ rb _ :: evs' => rb_seq rb :: dispatched_seqs evs'
  | _ :: evs' => dispatched_seqs evs'
  end.

(** ** More worked examples *)

(** An IPCP whose PDUFT routes address 7 to the N-1 flow 3 of IPCP 5; the
    deferred-send queue of IPCP 5 holds [n] buffers. *)
Definition ex_lower : lower_flow_t := {| lf_id := 3; txrx_ipcp := 5 |}.

Definition ex_world (n : nat) : rmt_world :=
  {| pdu_ft := [{| address := 7; pe_flow := ex_lower |}];
     rmt_queues := fun _ => {| rmtq := repeat (ex_data 0 0 0) n;
                               rmtq_len := Z.of_nat n |} |}.

(** Sending the SDU at address [a] on a flow at time 0, the clone being
    granted at address [a + 100]; and sending [n] SDUs at addresses [a],
    [a + 1], ... *)
Definition ex_write (flow : flow_entry) (a : Z) : flow_entry :=
  fst (fst (sdu_write_locked 1 0 (Some (a + 100)) flow (ex_sdu a))).

Fixpoint ex_write_many (n : nat) (a : Z) (flow : flow_entry) : flow_entry :=
  match n with
  | O => flow
  | S n' => ex_write_many n' (a + 1) (ex_write flow a)
  end.

(** The same as a run of operations. *)
Fixpoint ex_write_ops (n : nat) (a : Z) : list flow_op :=
  match n with
  | O => []
  | S n' => op_sdu_write 0 (Some (a + 100)) (ex_sdu a) :: ex_write_ops n' (a + 1)
  end.

(** Control PDU types: a window update, and an acknowledgement of subtype
    ACK. *)
Definition ex_t_fc : Z := Z.lor PDU_T_CTRL_MASK PDU_T_FC_BIT.
Definition ex_t_ack : Z := Z.lor (Z.lor PDU_T_CTRL_MASK PDU_T_ACK_BIT) PDU_T_ACK.

(** An allocator that grants the [n]-th clone at address [200 + n], and one
    that grants none. *)
Definition ex_clone_ok (n : nat) : option Z := Some (200 + Z.of_nat n).
Definition ex_clone_fail (n : nat) : option Z := None.

(** A flow with window flow control and retransmission control on which
    four SDUs were written: 0, 1 and 2 went through the window, 3 waits in
    the closed-window queue. *)
Definition ex_sent : flow_entry := ex_write_many 4 0 (ex_flow ex_cfg_win).

(** A flow with retransmission control whose sequencing queue is full: the
    PDUs 2 to 65 were received while 0 and 1 are missing. *)
Definition ex_seqq_full : flow_entry := ex_rx_many 64 2 (ex_flow ex_cfg_rtx).

(** A flow with retransmission control that received 0 and 2. *)
Definition ex_gap : flow_entry :=
  ex_rx (ex_rx (ex_flow ex_cfg_rtx) (ex_data 1 0 0)) (ex_data 2 2 0).
(** ** Runs of the receive path *)



(** The sequence numbers [p], [p + 1], ... ([n] of them). *)
Fixpoint consecutive (p : Z) (n : nat) : list Z :=
  match n with
  | O => []
  | S n' => p :: consecutive (p + 1) n'
  end.



(** The sequencing queue is strictly ascending, [seqq_len] is its length,
    and the length is at most [SEQQ_MAX_LEN]. *)
Definition seqq_inv (flow : flow_entry) : Prop :=
  let d := flow_dtp flow in
  seq_sorted (seqq d)
  /\ seqq_len d = Z.of_nat (length (seqq d))
  /\ seqq_len d <= SEQQ_MAX_LEN.

(** The reception at time 0 of data PDUs with the sequence numbers [l]
    (the PDU with sequence number [s] at address [s]), as a run of
    operations. *)
Definition ex_rx_ops (l : list Z) : list flow_op :=
  map (fun s => op_sdu_rx 0 ex_clone_fail None (ex_data s s 0)) l.

(** ** The RMT *)

(** The deferred-send queue of every IPCP holds as many buffers as its
    counter says, and at most [RMTQ_MAX_LEN]. *)
Definition rmtq_ok (w : rmt_world) : Prop :=
  forall i,
    rmtq_len (rmt_queues w i) = Z.of_nat (length (rmtq (rmt_queues w i)))
    /\ rmtq_len (rmt_queues w i) <= RMTQ_MAX_LEN.

(** The attempts of [rmt_tx] to write [rb] on the lower flow, which
    returned the values [rets] in turn. *)
Definition lower_writes (lower_flow : lower_flow_t) (rb : rlite_buf)
    (rets : list Z) : list event :=
  map (ev_lower_write (lf_id lower_flow) rb) rets.

(** ** The retransmission timer *)

(** A buffer with its retransmission deadline moved forward by [int]. *)
Definition bump1 (int : Z) (rb : rlite_buf) : rlite_buf :=
  with_rtx_jiffies (u64 (rtx_jiffies rb + int)) rb.

(** The clones [rtx_tmr_cb] makes of the buffers [l] in turn, [clone k]
    answering the first request: one for each buffer the allocator grants a
    clone. *)
Fixpoint rtx_clones (clone : nat -> option Z) (k : nat) (l : list rlite_buf)
  : list rlite_buf :=
  match l with
  | [] => []
  | rb :: l' =>
      match clone k with
      | Some a => rlite_buf_clone a rb :: rtx_clones clone (S k) l'
      | None => rtx_clones clone (S k) l'
      end
  end.

(** Two buffers that differ at most in their retransmission deadline. *)
Definition same_pdu (b b' : rlite_buf) : Prop :=
  rb_addr b' = rb_addr b /\ rb_room b' = rb_room b /\ len b' = len b
  /\ pcic b' = pcic b /\ tx_compl_flow b' = tx_compl_flow b.

(** The number of times deadlines of [q] have to be moved forward by [int]
    before none of them has passed at time [jiffies]. *)
Fixpoint overdue (jiffies int : Z) (q : list rlite_buf) : nat :=
  match q with
  | [] => O
  | rb :: q' =>
      Nat.add (if rtx_jiffies rb <=? jiffies
               then Z.to_nat ((jiffies - rtx_jiffies rb) / int + 1) else O)
              (overdue jiffies int q')
  end.

(** The buffers of [q] in the order of the circular list, starting at
    position [start]. *)
Definition ring_from (start : nat) (q : list rlite_buf) : list rlite_buf :=
  skipn start q ++ firstn start q.

(** The retransmission of a clone. *)
Definition ev_rtx (crb : rlite_buf) : event :=
  ev_rmt_tx (dst_addr (RLITE_BUF_PCI crb)) crb false.

(** The queue with the deadlines of the [n] buffers from position [c] on
    moved forward by [int]. *)
Fixpoint bump_range (c n : nat) (int : Z) (q : list rlite_buf)
  : list rlite_buf :=
  match n with
  | O => q
  | S n' => bump_range (S c) n' int (bump_deadline c int q)
  end.

(** ** The PDU forwarding table, with its buckets and its lock *)

Definition PDUFT_HASHTABLE_BITS : Z := 3.

(** The indices of the buckets of the table. *)
Definition pduft_buckets : list Z :=
  map Z.of_nat (seq 0 (Z.to_nat (2 ^ PDUFT_HASHTABLE_BITS))).

(** [struct rlite_normal]: the chain of every bucket of [pdu_ft], first
    entry first, and whether [pduft_lock] is held. *)
Record rlite_normal := {
  pdu_ft_chain : Z -> list pduft_entry;
  pduft_lock : bool
}.

(** What the functions of the table read and write: the private data of
    the IPCP and the list [pduft_entries] of every lower flow, by flow
    identifier, in list order. *)
Record pduft_world := {
  priv : rlite_normal;
  pduft_entries : Z -> list pduft_entry
}.

(** Two entries are the same object.  The table holds at most one entry
    for an address, so that an entry of the table is known by its fields. *)
Definition pduft_entry_eqb (e e' : pduft_entry) : bool :=
  (address e =? address e')
  && (lf_id (pe_flow e) =? lf_id (pe_flow e'))
  && (txrx_ipcp (pe_flow e) =? txrx_ipcp (pe_flow e')).

(** [hash_del] and [list_del]: the entry is unlinked from the list it is
    in. *)
Fixpoint unlink (e : pduft_entry) (l : list pduft_entry) : list pduft_entry :=
  match l with
  | [] => []
  | x :: l' => if pduft_entry_eqb x e then l' else x :: unlink e l'
  end.

(** [entry->flow = flow] on the entry of the chain for [dest_addr]. *)
Fixpoint chain_set_flow (dest_addr : Z) (flow : lower_flow_t)
    (l : list pduft_entry) : list pduft_entry :=
  match l with
  | [] => []
  | x :: l' =>
      if address x =? dest_addr
      then {| address := dest_addr; pe_flow := flow |} :: l'
      else x :: chain_set_flow dest_addr flow l'
  end.

(** [rlite_normal_create]: the private data of a new IPCP, or NULL when
    [kzalloc] fails. *)
Definition rlite_normal_create (kzalloc : bool) : option rlite_normal :=
  if kzalloc then Some {| pdu_ft_chain := fun _ => []; pduft_lock := false |}
  else None.

Section Pduft.

(** The hash function of the kernel, [hash_min (dest_addr, HASH_BITS
    (pdu_ft))], which is not part of the sources at hand. *)
Variable hash_min : Z -> Z.

(** [pduft_lookup_internal] on the private data: the scan of the bucket of
    the address.  The caller holds the lock. *)
Definition priv_lookup_internal (p : rlite_normal) (dest_addr : Z)
  : option pduft_entry :=
  pduft_lookup_internal (pdu_ft_chain p (hash_min dest_addr)) dest_addr.

(** [pduft_lookup] on the private data.  A function that takes the lock
    does not return ([None]) when the lock is held: in a run of one
    operation after the other, a lock that is held at the start of an
    operation was left held by an earlier one and is never released. *)
Definition priv_pduft_lookup (p : rlite_normal) (dest_addr : Z)
  : option (option lower_flow_t) :=
  if pduft_lock p then None
  else Some (match priv_lookup_internal p dest_addr with
             | Some entry => Some (pe_flow entry)
             | None => None
             end).

(** [rlite_normal_pduft_set].  [kmalloc] tells whether the allocation of a
    new entry succeeds.  When it fails the function returns without
    releasing the lock. *)
Definition rlite_normal_pduft_set (kmalloc : bool) (w : pduft_world)
    (dest_addr : Z) (flow : lower_flow_t) : option (pduft_world * Z) :=
  let p := priv w in
  if pduft_lock p then None
  else
    let new := {| address := dest_addr; pe_flow := flow |} in
    match priv_lookup_internal p dest_addr with
    | None =>
        if negb kmalloc then
          Some ({| priv := {| pdu_ft_chain := pdu_ft_chain p;
                              pduft_lock := true |};
                   pduft_entries := pduft_entries w |}, - ENOMEM)
        else
          Some ({| priv :=
                     {| pdu_ft_chain :=
                          fun b => if b =? hash_min dest_addr
                                   then new :: pdu_ft_chain p b
                                   else pdu_ft_chain p b;
                        pduft_lock := false |};
                   pduft_entries :=
                     fun f => if f =? lf_id flow
                              then pduft_entries w f ++ [new]
                              else pduft_entries w f |}, 0)
    | Some entry =>
        Some ({| priv :=
                   {| pdu_ft_chain :=
                        fun b => if b =? hash_min dest_addr
                                 then chain_set_flow dest_addr flow
                                                     (pdu_ft_chain p b)
                                 else pdu_ft_chain p b;
                      pduft_lock := false |};
                 pduft_entries :=
                   fun f => if f =? lf_id flow
                            then unlink entry (pduft_entries w f) ++ [new]
                            else unlink entry (pduft_entries w f) |}, 0)
    end.

(** [rlite_normal_pduft_flush]: every entry of every bucket is unlinked
    from the list of its flow and from its chain, and freed. *)
Definition rlite_normal_pduft_flush (w : pduft_world)
  : option (pduft_world * Z) :=
  let p := priv w in
  if pduft_lock p then None
  else
    let entries := flat_map (pdu_ft_chain p) pduft_buckets in
    Some ({| priv :=
               {| pdu_ft_chain :=
                    fun b => if existsb (Z.eqb b) pduft_buckets then []
                             else pdu_ft_chain p b;
                  pduft_lock := false |};
             pduft_entries :=
               fun f => fold_left (fun l e => unlink e l) entries
                                  (pduft_entries w f) |}, 0).

(** [rlite_normal_pduft_del]. *)
Definition rlite_normal_pduft_del (w : pduft_world) (entry : pduft_entry)
  : option (pduft_world * Z) :=
  let p := priv w in
  if pduft_lock p then None
  else
    Some ({| priv := {| pdu_ft_chain := fun b => unlink entry (pdu_ft_chain p b);
                        pduft_lock := false |};
             pduft_entries := fun f => unlink entry (pduft_entries w f) |}, 0).

(** The table read as the list of its entries, bucket after bucket: what
    [rmt_world] holds of it. *)
Definition pduft_list (p : rlite_normal) : list pduft_entry :=
  flat_map (pdu_ft_chain p) pduft_buckets.

(** The invariant of the table: an entry sits in the bucket of its address,
    no two entries of a bucket have the same address, and the entries
    linked in the list of a flow are, each once, the entries of the table
    that designate the flow. *)
Definition pduft_ok (w : pduft_world) : Prop :=
  (forall b e, In e (pdu_ft_chain (priv w) b) -> hash_min (address e) = b)
  /\ (forall b, NoDup (map address (pdu_ft_chain (priv w) b)))
  /\ (forall f, NoDup (pduft_entries w f))
  /\ (forall f e,
        In e (pduft_entries w f)
        <-> In e (pdu_ft_chain (priv w) (hash_min (address e)))
            /\ lf_id (pe_flow e) = f).

(** The calls an IPCP makes on its table. *)
Inductive pduft_op :=
| op_set (kmalloc : bool) (dest_addr : Z) (flow : lower_flow_t)
| op_flush
| op_del (entry : pduft_entry).

(** One call.  [rlite_normal_pduft_del] is handed an entry of the table
    (its callers read it from the list of a flow); a call with anything
    else is not part of a run. *)
Definition pduft_step (w : pduft_world) (op : pduft_op) : option pduft_world :=
  match op with
  | op_set kmalloc dest_addr flow =>
      option_map fst (rlite_normal_pduft_set kmalloc w dest_addr flow)
  | op_flush => option_map fst (rlite_normal_pduft_flush w)
  | op_del entry =>
      if existsb (pduft_entry_eqb entry)
                 (pdu_ft_chain (priv w) (hash_min (address entry)))
      then option_map fst (rlite_normal_pduft_del w entry)
      else None
  end.

(** A run of calls, each one after the return of the one before. *)
Fixpoint pduft_run (ops : list pduft_op) (w : pduft_world)
  : option pduft_world :=
  match ops with
  | [] => Some w
  | op :: ops' =>
      match pduft_step w op with
      | Some w' => pduft_run ops' w'
      | None => None
      end
  end.

End Pduft.

(** The world of a new IPCP: an empty table, no flow has an entry. *)
Definition pduft_world_init : pduft_world :=
  {| priv := {| pdu_ft_chain := fun _ => []; pduft_lock := false |};
     pduft_entries := fun _ => [] |}.

(** A hash function for the examples: the low bits of the address. *)
Definition ex_hash (a : Z) : Z := a mod 2 ^ PDUFT_HASHTABLE_BITS.

Definition ex_lower_flow (n : Z) : lower_flow_t :=
  {| lf_id := n; txrx_ipcp := 5 |}.

(** Three routes, two of them in the same bucket. *)
Definition ex_pduft_ops : list pduft_op :=
  [op_set true 10 (ex_lower_flow 3);
   op_set true 18 (ex_lower_flow 4);
   op_set true 3 (ex_lower_flow 3)].

Definition ex_pduft_world : pduft_world :=
  match pduft_run ex_hash ex_pduft_ops pduft_world_init with
  | Some w => w
  | None => pduft_world_init
  end.

(** ** Management PDUs *)

(** Modelled from the spec: the management header addresses the PDU either
    by destination address or by the local port of an N-1 flow; any other
    type is invalid.  [struct rlite_mgmt_hdr] is declared outside the
    sources at hand. *)
Inductive mgmt_hdr_type :=
| RLITE_MGMT_HDR_T_OUT_DST_ADDR
| RLITE_MGMT_HDR_T_OUT_LOCAL_PORT
| RLITE_MGMT_HDR_T_OTHER.

Record rlite_mgmt_hdr := {
  mh_type : mgmt_hdr_type;
  mh_local_port : Z;
  mh_remote_addr : Z
}.

(** What [flow_get] finds for a port: the flow and the IPCP that uses it
    ([upper.ipcp]), if any. *)
Record port_flow := {
  pf_flow : lower_flow_t;
  pf_upper_ipcp : option Z
}.

(** The references [flow_get] takes and [flow_put] drops, by flow. *)
Inductive ref_event :=
| ref_get (f : Z)
| ref_put (f : Z).

(** What [rlite_normal_mgmt_sdu_write] leaves behind: the buffer, the two
    variables of the caller ([None] is NULL) and the references taken and
    dropped. *)
Record mgmt_out := {
  out_rb : rlite_buf;
  out_lower_ipcp : option Z;
  out_lower_flow : option lower_flow_t;
  out_refs : list ref_event
}.

Section Mgmt.

Variable hash_min : Z -> Z.

(** The end of [rlite_normal_mgmt_sdu_write], once the lower flow is
    known: the lower IPCP is stored, the PCI is pushed and filled in. *)
Definition mgmt_stamp (self_addr dst_addr : Z) (lower_flow : lower_flow_t)
    (refs : list ref_event) (rb : rlite_buf) : mgmt_out * Z :=
  match rlite_buf_pci_push rb with
  | None =>
      ({| out_rb := rb; out_lower_ipcp := Some (txrx_ipcp lower_flow);
          out_lower_flow := Some lower_flow; out_refs := refs |}, - ENOSPC)
  | Some rb =>
      ({| out_rb := with_pci {| dst_addr := dst_addr;
                                src_addr := self_addr;
                                qos_id := 0;
                                dst_cep := 0;
                                src_cep := 0;
                                pdu_type := PDU_T_MGMT;
                                pdu_flags := 0;
                                pdu_len := len rb;
                                seqnum := 0 |} rb;
          out_lower_ipcp := Some (txrx_ipcp lower_flow);
          out_lower_flow := Some lower_flow; out_refs := refs |}, 0)
  end.

(** [rlite_normal_mgmt_sdu_write] of the IPCP [ipcp], whose address is
    [self_addr].  [lower_ipcp] and [lower_flow] are the variables of the
    caller as the call finds them; the result is [None] when [pduft_lookup]
    does not return. *)
Definition rlite_normal_mgmt_sdu_write (ipcp self_addr : Z) (p : rlite_normal)
    (flow_get : Z -> option port_flow) (mhdr : rlite_mgmt_hdr)
    (rb : rlite_buf) (lower_ipcp : option Z) (lower_flow : option lower_flow_t)
  : option (mgmt_out * Z) :=
  match mh_type mhdr with
  | RLITE_MGMT_HDR_T_OUT_DST_ADDR =>
      match priv_pduft_lookup hash_min p (mh_remote_addr mhdr) with
      | None => None
      | Some None =>
          Some ({| out_rb := rb; out_lower_ipcp := lower_ipcp;
                   out_lower_flow := None; out_refs := [] |}, - EHOSTUNREACH)
      | Some (Some flow) =>
          Some (mgmt_stamp self_addr (mh_remote_addr mhdr) flow [] rb)
      end
  | RLITE_MGMT_HDR_T_OUT_LOCAL_PORT =>
      match flow_get (mh_local_port mhdr) with
      | None =>
          Some ({| out_rb := rb; out_lower_ipcp := lower_ipcp;
                   out_lower_flow := None; out_refs := [] |}, - EINVAL)
      | Some pf =>
          let flow := pf_flow pf in
          let refs := [ref_get (lf_id flow); ref_put (lf_id flow)] in
          if match pf_upper_ipcp pf with
             | Some upper => upper =? ipcp
             | None => false
             end
          then Some (mgmt_stamp self_addr 0 flow refs rb)
          else
            Some ({| out_rb := rb; out_lower_ipcp := lower_ipcp;
                     out_lower_flow := Some flow; out_refs := refs |}, - EINVAL)
      end
  | RLITE_MGMT_HDR_T_OTHER =>
      Some ({| out_rb := rb; out_lower_ipcp := lower_ipcp;
               out_lower_flow := lower_flow; out_refs := [] |}, - EINVAL)
  end.

End Mgmt.

(** The references a flow has gained over a list of events. *)
Fixpoint refs_held (f : Z) (refs : list ref_event) : Z :=
  match refs with
  | [] => 0
  | ref_get g :: refs' => (if g =? f then 1 else 0) + refs_held f refs'
  | ref_put g :: refs' => refs_held f refs' - (if g =? f then 1 else 0)
  end.

(** ** The queues of the sender *)

(** The bookkeeping of the two queues of the sender: the counters tell the
    lengths of the queues, the limits are the ones [rlite_normal_flow_init]
    has set, [cwq] holds at most [max_cwq_len] buffers, and [rtxq] is empty
    without retransmission control and holds otherwise, together with
    [cwq], at most 64 + [max_cwq_len] buffers. *)
Definition sndq_inv (flow : flow_entry) : Prop :=
  let d := flow_dtp flow in
  let c := cfg flow in
  cwq_len d = Z.of_nat (length (cwq d))
  /\ rtxq_len d = Z.of_nat (length (rtxq d))
  /\ max_cwq_len d = (if is_win (fc_type c) then w_max_cwq_len c else 0)
  /\ max_rtxq_len d = (if rtx_control c then 64 else 0)
  /\ Z.of_nat (length (cwq d)) <= w_max_cwq_len c
  /\ Z.of_nat (length (rtxq d)) + Z.of_nat (length (cwq d))
     <= 64 + w_max_cwq_len c
  /\ (rtx_control c = false -> rtxq d = []).

(** The counters and the limits of the queues of the sender. *)
Definition sndq_fields (d : dtp) :=
  (cwq_len d, max_cwq_len d, rtxq_len d, max_rtxq_len d).

Definition sndq_frame (f f' : flow_entry) : Prop :=
  sndq_fields (flow_dtp f') = sndq_fields (flow_dtp f).

(** The bookkeeping on the DTP state alone, for the cap [W] of [cwq]. *)
Definition qcount (W : Z) (rtx : bool) (d : dtp) : Prop :=
  cwq_len d = Z.of_nat (length (cwq d))
  /\ rtxq_len d = Z.of_nat (length (rtxq d))
  /\ Z.of_nat (length (cwq d)) <= W
  /\ Z.of_nat (length (rtxq d)) + Z.of_nat (length (cwq d)) <= 64 + W
  /\ (rtx = false -> rtxq d = []).

(** * Properties *)

(** ** Machine arithmetic *)

Lemma u64_small (x : Z) : is_u64 x -> u64 x = x.
Proof. unfold is_u64, u64. intros H. apply Z.mod_small. exact H. Qed.

Lemma u64_range (x : Z) : is_u64 (u64 x).
Proof. unfold is_u64, u64. apply Z.mod_pos_bound. lia. Qed.

Lemma u64_succ_neq (x : Z) : u64 (x + 1) <> x.
Proof.
  unfold u64. intros H.
  assert (Hx : 0 <= x < 2 ^ 64) by (rewrite <- H; apply Z.mod_pos_bound; lia).
  destruct (Z.eq_dec (x + 1) (2 ^ 64)) as [e | n].
  - rewrite e, Z.mod_same in H by lia. lia.
  - rewrite Z.mod_small in H by lia. lia.
Qed.

Lemma u64_add_sub (x n : Z) : is_u64 x -> u64 (u64 (x + n) - n) = x.
Proof.
  unfold is_u64, u64. intros H.
  rewrite Zminus_mod_idemp_l. replace (x + n - n) with x by lia.
  apply Z.mod_small. exact H.
Qed.

(** ** The RMT on backpressure *)

(** C10.  When [rmt_tx] is called with [maysleep = false] for an address
    the PDUFT resolves and the lower flow's write returns [-EAGAIN],
    [rmt_tx] returns [-EAGAIN] both when the buffer is parked on the
    deferred-send queue (its length is below 64) and when the queue is full
    and the buffer is freed; in both cases the caller no longer owns the
    buffer, and the return value is the same. *)
Theorem rmt_tx_nosleep_eagain
    (self_addr : Z) (w : rmt_world) (writes : list Z) (loop_ret : Z)
    (remote : Z) (rb : rlite_buf) (lower : lower_flow_t)
    (Hroute : pduft_lookup (pdu_ft w) remote = Some lower) :
  let q := rmt_queues w (txrx_ipcp lower) in
  let attempt := ev_lower_write (lf_id lower) rb (- EAGAIN) in
  let parked := with_tx_compl_flow (Some (lf_id lower)) rb in
  (rmtq_len q < RMTQ_MAX_LEN ->
   rmt_tx self_addr w (- EAGAIN :: writes) loop_ret remote rb false
   = Some (set_rmt_queue (txrx_ipcp lower)
             {| rmtq := rmtq q ++ [parked]; rmtq_len := u32 (rmtq_len q + 1) |} w,
           [attempt], - EAGAIN))
  /\ (RMTQ_MAX_LEN <= rmtq_len q ->
      rmt_tx self_addr w (- EAGAIN :: writes) loop_ret remote rb false
      = Some (w, [attempt; ev_free rb], - EAGAIN)).
Proof.
  intros q attempt parked. unfold rmt_tx. rewrite Hroute. cbn [rmt_tx_loop].
  rewrite Z.eqb_refl. cbn [negb app]. fold q. split; intros Hlen.
  - apply Z.ltb_lt in Hlen. rewrite Hlen. reflexivity.
  - apply Z.ltb_ge in Hlen. rewrite Hlen. reflexivity.
Qed.

(** ** The send path *)

Lemma with_dtp_same (flow : flow_entry) : with_dtp (flow_dtp flow) flow = flow.
Proof. destruct flow; reflexivity. Qed.

Lemma is_win_spec (t : fc_type_t) : is_win t = true <-> t = RLITE_FC_T_WIN.
Proof. destruct t; cbn; split; congruence. Qed.

Lemma sdu_write_blocked_spec (flow : flow_entry) :
  sdu_write_blocked flow = true <-> admission_refused flow.
Proof.
  unfold sdu_write_blocked, admission_refused.
  rewrite Bool.orb_true_iff, !Bool.andb_true_iff, is_win_spec.
  rewrite Z.gtb_ltb, Z.ltb_lt, !Z.geb_le. intuition lia.
Qed.

Lemma snd_fields_eq (d d' : dtp) :
  snd_fields d' = snd_fields d ->
  next_seq_num_to_send d' = next_seq_num_to_send d
  /\ snd_lwe d' = snd_lwe d
  /\ snd_rwe d' = snd_rwe d
  /\ last_seq_num_sent d' = last_seq_num_sent d
  /\ cwq d' = cwq d
  /\ rtx_tmr_int d' = rtx_tmr_int d
  /\ last_ctrl_seq_num_rcvd d' = last_ctrl_seq_num_rcvd d.
Proof. unfold snd_fields. intros H. inversion H. auto 10. Qed.

Lemma rcv_fields_eq (d d' : dtp) :
  rcv_fields d' = rcv_fields d ->
  rcv_lwe d' = rcv_lwe d
  /\ rcv_lwe_priv d' = rcv_lwe_priv d
  /\ seqq d' = seqq d
  /\ seqq_len d' = seqq_len d.
Proof. unfold rcv_fields. intros H. inversion H. auto. Qed.

(** Re-arming the sender inactivity timer changes that timer only. *)
Lemma snd_inact_rearm_frame (jiffies : Z) (flow : flow_entry) :
  let flow1 := snd_inact_rearm jiffies flow in
  cfg flow1 = cfg flow
  /\ stats flow1 = stats flow
  /\ upper_ipcp flow1 = upper_ipcp flow
  /\ remote_addr flow1 = remote_addr flow
  /\ snd_fields (flow_dtp flow1) = snd_fields (flow_dtp flow)
  /\ rcv_fields (flow_dtp flow1) = rcv_fields (flow_dtp flow)
  /\ rtxq (flow_dtp flow1) = rtxq (flow_dtp flow)
  /\ rtxq_len (flow_dtp flow1) = rtxq_len (flow_dtp flow)
  /\ cwq_len (flow_dtp flow1) = cwq_len (flow_dtp flow)
  /\ max_cwq_len (flow_dtp flow1) = max_cwq_len (flow_dtp flow)
  /\ max_rtxq_len (flow_dtp flow1) = max_rtxq_len (flow_dtp flow).
Proof.
  unfold snd_inact_rearm. destruct (dtcp_present (cfg flow)); cbn; auto 12.
Qed.

Lemma sdu_write_blocked_rearmed (jiffies : Z) (flow : flow_entry) :
  sdu_write_blocked (snd_inact_rearm jiffies flow) = sdu_write_blocked flow.
Proof.
  unfold snd_inact_rearm, sdu_write_blocked.
  destruct (dtcp_present (cfg flow)); reflexivity.
Qed.

Lemma sdu_write_locked_rearm (self_addr jiffies : Z) (clone : option Z)
    (flow : flow_entry) (rb : rlite_buf) :
  sdu_write_blocked flow = true ->
  sdu_write_locked self_addr jiffies clone flow rb
  = (snd_inact_rearm jiffies flow, [], we_return (- EAGAIN)).
Proof.
  intros Hb. unfold sdu_write_locked. cbv zeta.
  rewrite sdu_write_blocked_rearmed, Hb. reflexivity.
Qed.

Lemma rlite_rtxq_push_ret (jiffies : Z) (clone : option Z) (d : dtp)
    (rb : rlite_buf) :
  snd (rlite_rtxq_push jiffies clone d rb)
  = match clone with Some _ => 0 | None => - ENOMEM end.
Proof. destruct clone; reflexivity. Qed.

Lemma rlite_rtxq_push_fields (jiffies : Z) (clone : option Z) (d : dtp)
    (rb : rlite_buf) :
  let d' := fst (rlite_rtxq_push jiffies clone d rb) in
  snd_fields d' = snd_fields d
  /\ rcv_fields d' = rcv_fields d
  /\ rtxq d' = rtxq d ++ granted_clones jiffies (rtx_tmr_int d) (fun _ => clone)
                                         O [rb].
Proof.
  unfold rlite_rtxq_push. destruct clone as [a |]; cbn [fst granted_clones].
  - destruct (negb _); cbn; auto.
  - rewrite app_nil_r. auto.
Qed.

(** What the send path does to the sender side once the PCI is pushed: the
    next sequence number is assigned and the PDU either joins [cwq], beyond
    the right window edge, or goes through, a clone joining [rtxq] when the
    allocator grants one. *)
Lemma sdu_write_send_cases (self_addr jiffies : Z) (clone : option Z)
    (flow : flow_entry) (rb : rlite_buf) :
  let r := sdu_write_send self_addr jiffies clone flow rb in
  let flow' := fst (fst r) in
  let d := flow_dtp flow in
  let d' := flow_dtp flow' in
  let N := next_seq_num_to_send d in
  let wd := is_win (fc_type (cfg flow)) && dtcp_present (cfg flow) in
  let rb' := with_pci (dt_pci self_addr flow rb) rb in
  cfg flow' = cfg flow
  /\ upper_ipcp flow' = upper_ipcp flow
  /\ rcv_fields d' = rcv_fields d
  /\ snd_rwe d' = snd_rwe d
  /\ next_seq_num_to_send d' = u64 (N + 1)
  /\ seqq d' = seqq d
  /\ ((wd = true /\ snd_rwe d < N
       /\ cwq d' = cwq d ++ [rb']
       /\ snd_lwe d' = snd_lwe d /\ rtxq d' = rtxq d
       /\ stats flow' = tx_sent (len rb') (stats flow)
       /\ snd r = we_return 0 /\ snd (fst r) = [])
      \/ ((wd = true -> N <= snd_rwe d)
          /\ cwq d' = cwq d
          /\ (wd = true -> snd_lwe d' = u64 (N + 1))
          /\ exists c,
               rtxq d' = rtxq d ++ granted_clones jiffies (rtx_tmr_int d)
                                                  (fun _ => c) O [rb']
               /\ (c = None \/ c = clone)
               /\ ((snd r = we_rmt_tx rb' /\ snd (fst r) = []
                    /\ stats flow' = tx_sent (len rb') (stats flow)
                    /\ (dtcp_present (cfg flow) = true ->
                        rtx_control (cfg flow) = true -> clone <> None))
                   \/ (snd r = we_return (- ENOMEM)
                       /\ snd (fst r) = [ev_free rb']
                       /\ dtcp_present (cfg flow) = true
                       /\ rtx_control (cfg flow) = true /\ clone = None
                       /\ stats flow'
                          = tx_failed (tx_unsent (len rb')
                                         (tx_sent (len rb') (stats flow))))))).
Proof.
  unfold sdu_write_send. cbv zeta.
  set (rb' := with_pci (dt_pci self_addr flow rb) rb).
  assert (Hseq : seqnum (RLITE_BUF_PCI rb') = next_seq_num_to_send (flow_dtp flow))
    by reflexivity.
  rewrite Hseq. clearbody rb'.
  cbn [cfg with_stats].
  destruct (dtcp_present (cfg flow)) eqn:Hdtcp; cbn [negb].
  2:{ rewrite Bool.andb_false_r. cbn -[u64 Z.add].
      do 6 (split; [reflexivity |]). right.
      split; [discriminate |]. split; [reflexivity |]. split; [discriminate |].
      exists None. cbn. rewrite app_nil_r.
      split; [reflexivity |]. split; [auto |].
      left. repeat split; auto; intros; discriminate. }
  rewrite Bool.andb_true_r.
  cbn [snd_rwe with_set_drf with_next_seq_num_to_send].
  destruct (is_win (fc_type (cfg flow))) eqn:Hwin.
  - destruct (next_seq_num_to_send (flow_dtp flow) >? snd_rwe (flow_dtp flow)) eqn:Hgt.
    + rewrite Z.gtb_ltb in Hgt. apply Z.ltb_lt in Hgt. cbn -[u64 Z.add].
      do 6 (split; [reflexivity |]). left. auto 10.
    + rewrite Z.gtb_ltb in Hgt. apply Z.ltb_ge in Hgt. cbn [andb].
      destruct (rtx_control (cfg flow)) eqn:Hrtx.
      * match goal with
        | |- context [rlite_rtxq_push ?j ?c ?d ?b] =>
            destruct (rlite_rtxq_push_fields j c d b) as [Hf1 [Hf2 Hf3]];
            pose proof (rlite_rtxq_push_ret j c d b) as Hret;
            destruct (rlite_rtxq_push j c d b) as [d2 ret]
        end.
        cbn [fst snd] in Hf1, Hf2, Hf3, Hret.
        apply snd_fields_eq in Hf1. cbn -[u64 Z.add] in Hf1, Hf2, Hf3.
        destruct Hf1 as [Gns [Gsl [Gsr [Gls [Gcq [Gint Glc]]]]]].
        cbn in Hf2. pose proof (rcv_fields_eq _ _ Hf2) as [_ [_ [Gq _]]].
        cbn in Gq.
        subst ret.
        destruct clone as [a |]; cbn -[u64 Z.add granted_clones];
          (do 4 (split; [first [reflexivity | assumption] |]));
          (split; [assumption |]); (split; [assumption |]); right;
          (split; [intros _; exact Hgt |]); (split; [exact Gcq |]);
          (split; [intros _; exact Gsl |]).
        -- exists (Some a). split; [exact Hf3 |]. split; [right; reflexivity |].
           left. repeat split; auto; intros; discriminate.
        -- exists None. split; [exact Hf3 |]. split; [left; reflexivity |].
           right. auto 10.
      * cbn -[u64 Z.add]. do 6 (split; [reflexivity |]). right.
        split; [intros _; exact Hgt |]. split; [reflexivity |].
        split; [reflexivity |]. exists None. cbn. rewrite app_nil_r.
        split; [reflexivity |]. split; [auto |].
        left. repeat split; auto; intros; discriminate.
  - cbn [andb].
    destruct (rtx_control (cfg flow)) eqn:Hrtx.
    + match goal with
      | |- context [rlite_rtxq_push ?j ?c ?d ?b] =>
          destruct (rlite_rtxq_push_fields j c d b) as [Hf1 [Hf2 Hf3]];
          pose proof (rlite_rtxq_push_ret j c d b) as Hret;
          destruct (rlite_rtxq_push j c d b) as [d2 ret]
      end.
      cbn [fst snd] in Hf1, Hf2, Hf3, Hret.
      apply snd_fields_eq in Hf1. cbn -[u64 Z.add] in Hf1, Hf2, Hf3.
      destruct Hf1 as [Gns [Gsl [Gsr [Gls [Gcq [Gint Glc]]]]]].
      cbn in Hf2. pose proof (rcv_fields_eq _ _ Hf2) as [_ [_ [Gq _]]].
      cbn in Gq.
      subst ret.
      destruct clone as [a |]; cbn -[u64 Z.add granted_clones];
        (do 4 (split; [first [reflexivity | assumption] |]));
        (split; [assumption |]); (split; [assumption |]); right;
        (split; [discriminate |]); (split; [exact Gcq |]);
        (split; [discriminate |]).
      * exists (Some a). split; [exact Hf3 |]. split; [right; reflexivity |].
        left. repeat split; auto; intros; discriminate.
      * exists None. split; [exact Hf3 |]. split; [left; reflexivity |].
        right. auto 10.
    + cbn -[u64 Z.add]. do 6 (split; [reflexivity |]). right.
      split; [discriminate |]. split; [reflexivity |].
      split; [discriminate |]. exists None. cbn. rewrite app_nil_r.
        split; [reflexivity |]. split; [auto |].
        left. repeat split; auto; intros; discriminate.
Qed.

(** C3.  [rlite_normal_sdu_write] refuses admission exactly when the
    admission rule holds at entry: window flow control with
    [next_seq_num_to_send > snd_rwe] and [cwq_len >= max_cwq_len], or
    retransmission control with [rtxq_len >= max_rtxq_len].  It then returns
    [-EAGAIN] having only re-armed the sender inactivity timer: no sequence
    number is assigned, no PCI stamped, nothing enqueued, nothing freed, and
    the RMT is not called.  When the rule does not hold the call either
    frees the buffer for want of head room or assigns a sequence number, and
    the part under the lock never ends with [-EAGAIN]. *)
Theorem sdu_write_admission
    (self_addr jiffies : Z) (clone : option Z) (flow : flow_entry)
    (rb : rlite_buf) :
  let r := sdu_write_locked self_addr jiffies clone flow rb in
  (admission_refused flow <-> snd r = we_return (- EAGAIN))
  /\ (admission_refused flow ->
      r = (snd_inact_rearm jiffies flow, [], we_return (- EAGAIN))
      /\ forall w writes loop_ret maysleep,
           rlite_normal_sdu_write self_addr jiffies clone w writes loop_ret
                                  flow rb maysleep
           = Some (snd_inact_rearm jiffies flow, w, [], - EAGAIN))
  /\ (~ admission_refused flow ->
      (rlite_buf_pci_push rb = None
       /\ snd (fst r) = [ev_free rb] /\ snd r = we_return (- ENOSPC))
      \/ (exists rb', rlite_buf_pci_push rb = Some rb'
          /\ next_seq_num_to_send (flow_dtp (fst (fst r)))
             = u64 (next_seq_num_to_send (flow_dtp flow) + 1)
          /\ next_seq_num_to_send (flow_dtp (fst (fst r)))
             <> next_seq_num_to_send (flow_dtp flow))).
Proof.
  intros r.
  assert (Hyes : admission_refused flow ->
                 r = (snd_inact_rearm jiffies flow, [], we_return (- EAGAIN))).
  { intros H. apply sdu_write_blocked_spec in H.
    apply sdu_write_locked_rearm. exact H. }
  assert (Hno : ~ admission_refused flow ->
                (rlite_buf_pci_push rb = None
                 /\ snd (fst r) = [ev_free rb] /\ snd r = we_return (- ENOSPC))
                \/ (exists rb', rlite_buf_pci_push rb = Some rb'
                    /\ next_seq_num_to_send (flow_dtp (fst (fst r)))
                       = u64 (next_seq_num_to_send (flow_dtp flow) + 1)
                    /\ snd r <> we_return (- EAGAIN))).
  { intros H. rewrite <- sdu_write_blocked_spec in H.
    apply Bool.not_true_is_false in H.
    subst r. unfold sdu_write_locked. cbv zeta.
    rewrite sdu_write_blocked_rearmed, H.
    destruct (rlite_buf_pci_push rb) as [rb' |]; [right | left; auto].
    exists rb'. split; [reflexivity |].
    destruct (snd_inact_rearm_frame jiffies flow)
      as [_ [_ [_ [_ [Hsf _]]]]].
    apply snd_fields_eq in Hsf. destruct Hsf as [Hns _].
    destruct (sdu_write_send_cases self_addr jiffies clone
                (snd_inact_rearm jiffies flow) rb')
      as [_ [_ [_ [_ [Hn [_ Hcases]]]]]].
    split; [rewrite Hn, Hns; reflexivity |].
    destruct Hcases as [[_ [_ [_ [_ [_ [_ [Hr _]]]]]]]
                       | [_ [_ [_ [c [_ [_ [[Hr _] | [Hr _]]]]]]]]];
      rewrite Hr; discriminate. }
  split; [| split].
  - split.
    + intros H. rewrite (Hyes H). reflexivity.
    + intros Hr.
      destruct (sdu_write_blocked flow) eqn:Hb.
      * apply sdu_write_blocked_spec. exact Hb.
      * exfalso.
        assert (Hn : ~ admission_refused flow).
        { rewrite <- sdu_write_blocked_spec. congruence. }
        destruct (Hno Hn) as [[_ [_ He]] | [rb' [_ [_ He]]]].
        -- rewrite Hr in He. discriminate.
        -- contradiction.
  - intros H. split; [exact (Hyes H) |].
    intros w writes loop_ret maysleep. unfold rlite_normal_sdu_write.
    fold r. rewrite (Hyes H). reflexivity.
  - intros H. destruct (Hno H) as [Hl | [rb' [Hp [Hn _]]]]; [left; exact Hl | right].
    exists rb'. split; [exact Hp |]. split; [exact Hn |].
    rewrite Hn. apply u64_succ_neq.
Qed.

Lemma rlite_buf_pci_push_addr (rb rb' : rlite_buf) :
  rlite_buf_pci_push rb = Some rb' -> rb_addr rb' = rb_addr rb.
Proof.
  unfold rlite_buf_pci_push. destruct (_ <? _); [discriminate |].
  intros H. injection H as <-. reflexivity.
Qed.

(** C9.  When [rlite_normal_sdu_write] reaches the clone-into-rtxq step
    (the PDU passed admission, has head room, DTCP is present with
    retransmission control, and the PDU was not parked in [cwq]) and the
    clone cannot be allocated, the call frees the buffer and returns
    [-ENOMEM] without calling the RMT; [tx_pkt] and [tx_byte] are back at
    their values before the call, [tx_err] is one more, the receive counters
    and the three queues are as before. *)
Theorem sdu_write_clone_failure
    (self_addr jiffies : Z) (flow : flow_entry) (rb rb' : rlite_buf)
    (Hadm : ~ admission_refused flow)
    (Hroom : rlite_buf_pci_push rb = Some rb')
    (Hdtcp : dtcp_present (cfg flow) = true)
    (Hrtx : rtx_control (cfg flow) = true)
    (Hwin : fc_type (cfg flow) = RLITE_FC_T_WIN ->
            next_seq_num_to_send (flow_dtp flow) <= snd_rwe (flow_dtp flow))
    (Hpkt : is_u64 (tx_pkt (stats flow)))
    (Hbyte : is_u64 (tx_byte (stats flow))) :
  let r := sdu_write_locked self_addr jiffies None flow rb in
  let flow' := fst (fst r) in
  snd r = we_return (- ENOMEM)
  /\ (exists freed, snd (fst r) = [ev_free freed]
                    /\ rb_addr freed = rb_addr rb
                    /\ rb_seq freed = next_seq_num_to_send (flow_dtp flow))
  /\ tx_pkt (stats flow') = tx_pkt (stats flow)
  /\ tx_byte (stats flow') = tx_byte (stats flow)
  /\ tx_err (stats flow') = u64 (tx_err (stats flow) + 1)
  /\ rx_pkt (stats flow') = rx_pkt (stats flow)
  /\ rx_byte (stats flow') = rx_byte (stats flow)
  /\ rx_err (stats flow') = rx_err (stats flow)
  /\ rtxq (flow_dtp flow') = rtxq (flow_dtp flow)
  /\ cwq (flow_dtp flow') = cwq (flow_dtp flow)
  /\ seqq (flow_dtp flow') = seqq (flow_dtp flow)
  /\ forall w writes loop_ret maysleep,
       rlite_normal_sdu_write self_addr jiffies None w writes loop_ret
                              flow rb maysleep
       = Some (flow', w, snd (fst r), - ENOMEM).
Proof.
  intros r flow'.
  rewrite <- sdu_write_blocked_spec in Hadm.
  apply Bool.not_true_is_false in Hadm.
  destruct (snd_inact_rearm_frame jiffies flow)
    as [Hc [Hst [_ [_ [Hsf [Hrf [Hq _]]]]]]].
  apply snd_fields_eq in Hsf. destruct Hsf as [Hns [_ [Hsr [_ [Hcq _]]]]].
  apply rcv_fields_eq in Hrf. destruct Hrf as [_ [_ [Hsq _]]].
  assert (Hr : r = sdu_write_send self_addr jiffies None
                     (snd_inact_rearm jiffies flow) rb').
  { subst r. unfold sdu_write_locked. cbv zeta.
    rewrite sdu_write_blocked_rearmed, Hadm, Hroom. reflexivity. }
  destruct (sdu_write_send_cases self_addr jiffies None
              (snd_inact_rearm jiffies flow) rb')
    as [_ [_ [_ [_ [_ [Hseqq Hcases]]]]]].
  rewrite <- Hr in Hseqq, Hcases. fold flow' in Hseqq, Hcases.
  rewrite Hc, Hns, Hsr, Hcq, Hq, Hst in Hcases.
  destruct Hcases as [[Hwd [Hlt _]] | [_ [Hcwq [_ [c [Hrtxq [Hcn Hend]]]]]]].
  { exfalso. rewrite Hdtcp, Bool.andb_true_r in Hwd.
    apply is_win_spec in Hwd. specialize (Hwin Hwd). lia. }
  assert (c = None) by (destruct Hcn; assumption). subst c.
  cbn in Hrtxq. rewrite app_nil_r in Hrtxq.
  destruct Hend as [[_ [_ [_ Hne]]] | [Hend [Hev [_ [_ [_ Hstats]]]]]].
  { exfalso. apply Hne; auto. }
  split; [exact Hend |].
  split.
  { eexists. split; [exact Hev |]. split.
    - cbn. apply rlite_buf_pci_push_addr. exact Hroom.
    - unfold rb_seq. cbn. exact Hns. }
  rewrite Hstats.
  cbn [tx_failed tx_unsent tx_sent tx_pkt tx_byte tx_err rx_pkt rx_byte rx_err].
  split; [apply u64_add_sub; exact Hpkt |].
  split; [apply u64_add_sub; exact Hbyte |].
  do 4 (split; [reflexivity |]).
  split; [exact Hrtxq |]. split; [exact Hcwq |].
  split; [rewrite Hseqq; exact Hsq |].
  intros w writes loop_ret maysleep. unfold rlite_normal_sdu_write.
  fold r. destruct r as [[f evs] e]. cbn [fst snd] in *. subst e. reflexivity.
Qed.

(** ** The receive path *)

Lemma with_ctl_same (d : dtp) :
  with_next_snd_ctl_seq (next_snd_ctl_seq d) (with_rcv_rwe (rcv_rwe d) d) = d.
Proof. destruct d; reflexivity. Qed.

(** [ctrl_pdu_alloc] and [sdu_rx_sv_update] write [rcv_rwe] and
    [next_snd_ctl_seq] and nothing else. *)
Lemma ctrl_pdu_alloc_shape (self_addr : Z) (alloc : option rlite_buf)
    (flow : flow_entry) (t a : Z) :
  exists n,
    fst (ctrl_pdu_alloc self_addr alloc flow t a)
    = with_dtp (with_next_snd_ctl_seq n (flow_dtp flow)) flow.
Proof.
  unfold ctrl_pdu_alloc. destruct alloc; cbn [fst].
  - eexists. reflexivity.
  - exists (next_snd_ctl_seq (flow_dtp flow)).
    destruct flow as [c d s ra rc lc u]; destruct d; reflexivity.
Qed.

Lemma sdu_rx_sv_update_shape (self_addr : Z) (alloc : option rlite_buf)
    (flow : flow_entry) :
  exists r n,
    fst (sdu_rx_sv_update self_addr alloc flow)
    = with_dtp (with_next_snd_ctl_seq n (with_rcv_rwe r (flow_dtp flow))) flow.
Proof.
  unfold sdu_rx_sv_update.
  set (flow1 := if flow_control (cfg flow) && is_win (fc_type (cfg flow))
                then _ else flow).
  assert (H1 : exists r, flow1 = with_dtp (with_rcv_rwe r (flow_dtp flow)) flow).
  { subst flow1. destruct (_ && _).
    - eexists. reflexivity.
    - exists (rcv_rwe (flow_dtp flow)).
      destruct flow as [c d s ra rc lc u]; destruct d; reflexivity. }
  destruct H1 as [r H1]. clearbody flow1. subst flow1.
  cbn [cfg with_dtp].
  match goal with
  | |- context [let '(_, _) := ?p in _] => destruct p as [t a]
  end.
  destruct (negb (t =? 0)).
  - destruct (ctrl_pdu_alloc_shape self_addr alloc
                (with_dtp (with_rcv_rwe r (flow_dtp flow)) flow) t a) as [n Hn].
    exists r, n. rewrite Hn. destruct flow; reflexivity.
  - exists r, (next_snd_ctl_seq (flow_dtp flow)). cbn [fst].
    destruct flow as [c d s ra rc lc u]; destruct d; reflexivity.
Qed.

Lemma rx_drop_spec (flow : flow_entry) (s : Z) :
  rx_drop flow s = true <-> drop_rule (cfg flow) (rx_gap flow s).
Proof.
  unfold rx_drop, drop_rule.
  rewrite !Bool.andb_true_iff, Bool.orb_true_iff, Bool.negb_true_iff.
  rewrite Z.gtb_ltb, Z.ltb_lt, Z.eqb_eq. intuition lia.
Qed.

Lemma rx_deliver_spec (flow : flow_entry) (s : Z) :
  rx_deliver flow s = true <-> deliver_rule (cfg flow) (rx_gap flow s).
Proof.
  unfold rx_deliver, deliver_rule.
  rewrite Bool.andb_true_iff, Bool.negb_true_iff, Z.leb_le.
  rewrite <- rx_drop_spec. destruct (rx_drop flow s); intuition congruence.
Qed.

Lemma rx_gap_exact (flow : flow_entry) (s : Z) :
  is_u64 s -> is_u64 (rcv_lwe_priv (flow_dtp flow)) ->
  rcv_lwe_priv (flow_dtp flow) <= s ->
  rx_gap flow s = s - rcv_lwe_priv (flow_dtp flow).
Proof.
  unfold rx_gap, is_u64, u64. intros Hs Hp Hle. apply Z.mod_small. lia.
Qed.

(** What [rcv_inact_rearm] and [max_seq_raise] leave alone. *)
Lemma rx_entry_fields (jiffies : Z) (flow : flow_entry) (rb : rlite_buf) :
  let flow1 := rx_entry jiffies flow rb in
  cfg flow1 = cfg flow
  /\ stats flow1 = stats flow
  /\ remote_addr flow1 = remote_addr flow
  /\ upper_ipcp flow1 = upper_ipcp flow
  /\ rcv_lwe_priv (flow_dtp flow1) = rcv_lwe_priv (flow_dtp flow)
  /\ rcv_lwe (flow_dtp flow1) = rcv_lwe (flow_dtp flow)
  /\ seqq (flow_dtp flow1) = seqq (flow_dtp flow)
  /\ seqq_len (flow_dtp flow1) = seqq_len (flow_dtp flow).
Proof.
  unfold rx_entry, max_seq_raise, rcv_inact_rearm. cbn [flow_dtp cfg with_dtp].
  destruct (dtcp_present (cfg flow)); destruct (_ >? _); cbn; auto 10.
Qed.

Lemma rcv_inact_rearm_priv (jiffies : Z) (flow : flow_entry) :
  rcv_lwe_priv (flow_dtp (rcv_inact_rearm jiffies flow))
  = rcv_lwe_priv (flow_dtp flow).
Proof.
  unfold rcv_inact_rearm. destruct (dtcp_present (cfg flow)); reflexivity.
Qed.

Lemma rx_rules_entry (jiffies : Z) (flow : flow_entry) (rb : rlite_buf) (s : Z) :
  rx_drop (rx_entry jiffies flow rb) s = rx_drop flow s
  /\ rx_deliver (rx_entry jiffies flow rb) s = rx_deliver flow s.
Proof.
  destruct (rx_entry_fields jiffies flow rb) as [Hc [_ [_ [_ [Hp _]]]]].
  unfold rx_deliver, rx_drop, rx_gap. rewrite Hc, Hp. auto.
Qed.

(** The receive path on a PDU that is neither a run start nor below
    [rcv_lwe_priv] takes one of three branches, chosen by the two rules. *)
Lemma sdu_rx_data_late (self_addr jiffies : Z) (alloc : option rlite_buf)
    (up : rlite_buf -> Z) (flow : flow_entry) (rb : rlite_buf) :
  Z.testbit (pdu_flags (RLITE_BUF_PCI rb)) 0 = false ->
  rcv_lwe_priv (flow_dtp flow) <= rb_seq rb ->
  sdu_rx_data self_addr jiffies alloc up flow rb
  = let flow1 := rx_entry jiffies flow rb in
    if rx_deliver flow (rb_seq rb) then sdu_rx_deliver self_addr alloc up flow1 rb
    else if rx_drop flow (rb_seq rb) then sdu_rx_dropped self_addr alloc flow1 rb
    else sdu_rx_hold self_addr alloc flow1 rb.
Proof.
  intros Hdrf Hle. unfold sdu_rx_data. fold (rb_seq rb). rewrite Hdrf.
  rewrite rcv_inact_rearm_priv.
  apply Z.ltb_ge in Hle. rewrite Hle.
  fold (rx_entry jiffies flow rb). cbv zeta.
  destruct (rx_rules_entry jiffies flow rb (rb_seq rb)) as [-> ->].
  reflexivity.
Qed.

Lemma seqq_push_frame (d : dtp) (rb : rlite_buf) :
  let d' := fst (seqq_push d rb) in
  rcv_lwe_priv d' = rcv_lwe_priv d /\ rcv_lwe d' = rcv_lwe d.
Proof.
  unfold seqq_push. destruct (_ >=? _); [cbn; auto |].
  destruct (seqq_insert rb (seqq d)); cbn; auto.
Qed.

Lemma seqq_insert_in (rb : rlite_buf) (q q' : list rlite_buf) :
  seqq_insert rb q = Some q' -> In rb q'.
Proof.
  revert q'. induction q as [| cur q IH]; intros q' H; cbn in H.
  - injection H as <-. left. reflexivity.
  - destruct (_ <? _).
    + injection H as <-. left. reflexivity.
    + destruct (_ =? _); [discriminate |].
      destruct (seqq_insert rb q) as [q'' |]; [| discriminate].
      injection H as <-. right. apply IH. reflexivity.
Qed.

Lemma seqq_insert_fresh (rb : rlite_buf) (q : list rlite_buf) :
  Forall (fun b => rb_seq b <> rb_seq rb) q ->
  exists q', seqq_insert rb q = Some q'.
Proof.
  induction q as [| cur q IH]; intros H; cbn.
  - eexists. reflexivity.
  - inversion H as [| ? ? Hcur Hq]; subst.
    destruct (_ <? _); [eexists; reflexivity |].
    fold (rb_seq rb). fold (rb_seq cur).
    destruct (rb_seq rb =? rb_seq cur) eqn:E.
    + apply Z.eqb_eq in E. congruence.
    + destruct (IH Hq) as [q' ->]. eexists. reflexivity.
Qed.

(** The scan of [seqq_pop_many] pops as the specification says, and changes
    [seqq_len] and [rcv_lwe_priv] only. *)
Lemma seqq_pop_scan_pops (gap : Z) (q : list rlite_buf) (d : dtp) :
  let r := seqq_pop_scan gap q d in
  pops gap (rcv_lwe_priv d) q (snd (fst r)) (fst (fst r)) (rcv_lwe_priv (snd r))
  /\ exists n p, snd r = with_rcv_lwe_priv p (with_seqq_len n d).
Proof.
  revert d. induction q as [| b q IH]; intros d; cbn [seqq_pop_scan].
  - cbn. split; [constructor |].
    exists (seqq_len d), (rcv_lwe_priv d). destruct d; reflexivity.
  - fold (rb_seq b).
    destruct (u64 (rb_seq b - rcv_lwe_priv d) <=? gap) eqn:E.
    + specialize (IH (with_rcv_lwe_priv (u64 (rb_seq b + 1))
                        (with_seqq_len (u32 (seqq_len d - 1)) d))).
      destruct (seqq_pop_scan gap q _) as [[kept qrbs] d'].
      cbn [fst snd] in *. destruct IH as [IH [n [p Hd]]].
      split.
      * apply pops_take; [apply Z.leb_le; exact E | exact IH].
      * exists n, p. rewrite Hd. reflexivity.
    + specialize (IH d).
      destruct (seqq_pop_scan gap q d) as [[kept qrbs] d'].
      cbn [fst snd] in *. destruct IH as [IH [n [p Hd]]].
      split.
      * apply pops_keep; [apply Z.leb_gt in E; lia | exact IH].
      * exists n, p. exact Hd.
Qed.

(** What is popped and what is kept are subsequences of the queue, so both
    are ascending when the queue is. *)
Lemma pops_sorted (gap p p' : Z) (q popped kept : list rlite_buf) :
  pops gap p q popped kept p' ->
  seq_sorted q -> seq_sorted popped /\ seq_sorted kept.
Proof.
  unfold seq_sorted.
  intros H. induction H as [p | p b q popped kept p' Hle H IH
                              | p b q popped kept p' Hgt H IH]; intros Hs.
  - split; constructor.
  - cbn in Hs. apply StronglySorted_inv in Hs. destruct Hs as [Hs Hall].
    destruct (IH Hs) as [Hp Hk]. split; [| exact Hk].
    cbn. constructor; [exact Hp |].
    rewrite Forall_forall in *. intros x Hx. apply Hall.
    clear - H Hx. induction H; cbn in *; intuition.
  - cbn in Hs. apply StronglySorted_inv in Hs. destruct Hs as [Hs Hall].
    destruct (IH Hs) as [Hp Hk]. split; [exact Hp |].
    cbn. constructor; [exact Hk |].
    rewrite Forall_forall in *. intros x Hx. apply Hall.
    clear - H Hx. induction H; cbn in *; intuition.
Qed.

Lemma delivered_seqs_opt_rmt_tx (remote : Z) (crb : option rlite_buf) :
  delivered_seqs (opt_rmt_tx remote crb) = [].
Proof. destruct crb; reflexivity. Qed.

Lemma seqq_push_congr (d1 d : dtp) (rb : rlite_buf) :
  seqq d1 = seqq d -> seqq_len d1 = seqq_len d ->
  snd (seqq_push d1 rb) = snd (seqq_push d rb)
  /\ seqq (fst (seqq_push d1 rb)) = seqq (fst (seqq_push d rb))
  /\ rcv_lwe_priv (fst (seqq_push d1 rb)) = rcv_lwe_priv d1.
Proof.
  intros Hq Hl. unfold seqq_push. rewrite Hq, Hl.
  destruct (_ >=? _); [cbn; auto |].
  destruct (seqq_insert rb (seqq d)); cbn; auto.
Qed.

Lemma sdu_rx_dropped_facts (self_addr : Z) (alloc : option rlite_buf)
    (flow : flow_entry) (rb : rlite_buf) :
  let r := sdu_rx_dropped self_addr alloc flow rb in
  (exists crb, snd (fst r) = ev_free rb :: opt_rmt_tx (remote_addr flow) crb)
  /\ seqq (flow_dtp (fst (fst r))) = seqq (flow_dtp flow)
  /\ rcv_lwe_priv (flow_dtp (fst (fst r))) = rcv_lwe_priv (flow_dtp flow)
  /\ rx_err (stats (fst (fst r))) = u64 (rx_err (stats flow) + 1)
  /\ rcv_lwe (flow_dtp (fst (fst r))) = rcv_lwe (flow_dtp flow).
Proof.
  unfold sdu_rx_dropped.
  destruct (sdu_rx_sv_update_shape self_addr alloc
              (with_stats (rx_failed (stats flow)) flow)) as [x [n Hsh]].
  destruct (sdu_rx_sv_update self_addr alloc _) as [f crb].
  cbn [fst snd] in *. subst f. cbn. split; [exists crb; reflexivity | auto].
Qed.

Lemma sdu_rx_hold_facts (self_addr : Z) (alloc : option rlite_buf)
    (flow : flow_entry) (rb : rlite_buf) :
  let r := sdu_rx_hold self_addr alloc flow rb in
  (exists crb, snd (fst r)
               = snd (seqq_push (flow_dtp flow) rb)
                   ++ opt_rmt_tx (remote_addr flow) crb)
  /\ seqq (flow_dtp (fst (fst r))) = seqq (fst (seqq_push (flow_dtp flow) rb))
  /\ rcv_lwe_priv (flow_dtp (fst (fst r))) = rcv_lwe_priv (flow_dtp flow)
  /\ rcv_lwe (flow_dtp (fst (fst r))) = rcv_lwe (flow_dtp flow).
Proof.
  unfold sdu_rx_hold.
  pose proof (seqq_push_frame (flow_dtp flow) rb) as [Hp Hl].
  destruct (seqq_push (flow_dtp flow) rb) as [d evs]. cbn [fst snd] in *.
  destruct (sdu_rx_sv_update_shape self_addr alloc
              (with_stats (rx_received (len rb) (stats flow)) (with_dtp d flow)))
    as [x [n Hsh]].
  destruct (sdu_rx_sv_update self_addr alloc _) as [f crb].
  cbn [fst snd] in *. subst f. cbn. split; [exists crb; reflexivity | auto].
Qed.

Lemma sdu_rx_deliver_events (self_addr : Z) (alloc : option rlite_buf)
    (up : rlite_buf -> Z) (flow : flow_entry) (rb : rlite_buf) :
  exists rest,
    snd (fst (sdu_rx_deliver self_addr alloc up flow rb))
    = deliver_up (negb (flow_control (cfg flow))) rb :: rest.
Proof.
  unfold sdu_rx_deliver, deliver_up.
  destruct (seqq_pop_many _ _) as [d qrbs].
  destruct (if upper_ipcp flow then _ else _) as [f crb].
  destruct (rlite_buf_pci_pop rb); cbn; eexists; reflexivity.
Qed.

(** C6, as amended.  For a data PDU without the DRF flag whose sequence
    number is not below [rcv_lwe_priv], with
    [gap = seqnum - rcv_lwe_priv]: when the drop rule holds the PDU is freed,
    nothing is delivered and the sequencing queue is untouched; when the
    deliver rule holds the PDU is the first thing passed upwards (freed
    instead if its PCI cannot be popped); otherwise the PDU is handed to
    [seqq_push], which holds it in the sequencing queue when the queue has
    fewer than 64 buffers and none with the same sequence number, and frees
    it when the queue is full or a buffer with the same sequence number is
    met; nothing is delivered then either. *)
Theorem sdu_rx_data_disposition
    (self_addr jiffies : Z) (alloc : option rlite_buf) (up : rlite_buf -> Z)
    (flow : flow_entry) (rb : rlite_buf)
    (Hdrf : Z.testbit (pdu_flags (RLITE_BUF_PCI rb)) 0 = false)
    (Hs : is_u64 (rb_seq rb))
    (Hp : is_u64 (rcv_lwe_priv (flow_dtp flow)))
    (Hle : rcv_lwe_priv (flow_dtp flow) <= rb_seq rb) :
  let d := flow_dtp flow in
  let gap := rb_seq rb - rcv_lwe_priv d in
  let r := sdu_rx_data self_addr jiffies alloc up flow rb in
  let d' := flow_dtp (fst (fst r)) in
  let evs := snd (fst r) in
  (drop_rule (cfg flow) gap ->
   (exists crb, evs = ev_free rb :: opt_rmt_tx (remote_addr flow) crb)
   /\ delivered_seqs evs = []
   /\ seqq d' = seqq d
   /\ rcv_lwe_priv d' = rcv_lwe_priv d)
  /\ (deliver_rule (cfg flow) gap ->
      exists rest,
        evs = deliver_up (negb (flow_control (cfg flow))) rb :: rest)
  /\ (~ drop_rule (cfg flow) gap -> ~ deliver_rule (cfg flow) gap ->
      (exists crb, evs = snd (seqq_push d rb)
                           ++ opt_rmt_tx (remote_addr flow) crb)
      /\ delivered_seqs evs = []
      /\ seqq d' = seqq (fst (seqq_push d rb))
      /\ rcv_lwe_priv d' = rcv_lwe_priv d
      /\ (seqq_len d < SEQQ_MAX_LEN ->
          Forall (fun b => rb_seq b <> rb_seq rb) (seqq d) ->
          In rb (seqq d') /\ snd (seqq_push d rb) = [])
      /\ (SEQQ_MAX_LEN <= seqq_len d \/ seqq_insert rb (seqq d) = None ->
          seqq d' = seqq d /\ snd (seqq_push d rb) = [ev_free rb])).
Proof.
  intros d gap r d' evs.
  assert (Hgap : rx_gap flow (rb_seq rb) = gap) by (apply rx_gap_exact; assumption).
  pose proof (rx_drop_spec flow (rb_seq rb)) as Hdrop.
  pose proof (rx_deliver_spec flow (rb_seq rb)) as Hdel.
  rewrite Hgap in Hdrop, Hdel.
  pose proof (sdu_rx_data_late self_addr jiffies alloc up flow rb Hdrf Hle) as Hr.
  fold r in Hr. cbv zeta in Hr.
  destruct (rx_entry_fields jiffies flow rb)
    as [Hc [Hst [Hra [Hup [Hpr [Hlw [Hq Hql]]]]]]].
  split; [| split].
  - intros Hd.
    assert (Hnd : rx_deliver flow (rb_seq rb) = false).
    { apply Bool.not_true_is_false. rewrite Hdel. intros [Hn _]. contradiction. }
    apply Hdrop in Hd. rewrite Hnd, Hd in Hr.
    destruct (sdu_rx_dropped_facts self_addr alloc (rx_entry jiffies flow rb) rb)
      as [[crb He] [Hq' [Hp' _]]].
    subst d' evs. rewrite Hr. rewrite He, Hq', Hp', Hra, Hq, Hpr.
    split; [exists crb; reflexivity |].
    split; [cbn; apply delivered_seqs_opt_rmt_tx | auto].
  - intros Hd. apply Hdel in Hd. rewrite Hd in Hr.
    destruct (sdu_rx_deliver_events self_addr alloc up (rx_entry jiffies flow rb) rb)
      as [rest He].
    subst evs. rewrite Hr, He, Hc. exists rest. reflexivity.
  - intros Hnd Hnl.
    rewrite <- Hdrop in Hnd. rewrite <- Hdel in Hnl.
    apply Bool.not_true_is_false in Hnd. apply Bool.not_true_is_false in Hnl.
    rewrite Hnl, Hnd in Hr.
    destruct (sdu_rx_hold_facts self_addr alloc (rx_entry jiffies flow rb) rb)
      as [[crb He] [Hq' [Hp' _]]].
    destruct (seqq_push_congr (flow_dtp (rx_entry jiffies flow rb)) d rb Hq Hql)
      as [Hev [Hsq _]].
    subst d' evs. rewrite Hr. rewrite He, Hq', Hp', Hra, Hev, Hsq, Hpr.
    split; [exists crb; reflexivity |].
    assert (Hfree : delivered_seqs (snd (seqq_push d rb)
                                      ++ opt_rmt_tx (remote_addr flow) crb) = []).
    { unfold seqq_push. destruct (_ >=? _);
        [| destruct (seqq_insert rb (seqq d))]; cbn;
        apply delivered_seqs_opt_rmt_tx. }
    split; [exact Hfree |]. split; [reflexivity |]. split; [reflexivity |].
    split.
    + intros Hlen Hfresh. unfold seqq_push.
      assert (Hge : (seqq_len d >=? SEQQ_MAX_LEN) = false).
      { rewrite Z.geb_leb. apply Z.leb_gt. exact Hlen. }
      rewrite Hge. destruct (seqq_insert_fresh rb (seqq d) Hfresh) as [q' Hins].
      rewrite Hins. cbn. split; [| reflexivity].
      apply (seqq_insert_in rb (seqq d)). exact Hins.
    + intros [Hfull | Hdup]; unfold seqq_push.
      * assert (Hge : (seqq_len d >=? SEQQ_MAX_LEN) = true).
        { rewrite Z.geb_leb. apply Z.leb_le. exact Hfull. }
        rewrite Hge. cbn. auto.
      * rewrite Hdup. destruct (_ >=? _); cbn; auto.
Qed.

Lemma sdu_rx_deliver_facts (self_addr : Z) (alloc : option rlite_buf)
    (up : rlite_buf -> Z) (flow : flow_entry) (rb : rlite_buf) :
  let r := sdu_rx_deliver self_addr alloc up flow rb in
  let d' := flow_dtp (fst (fst r)) in
  exists popped kept,
    pops (max_sdu_gap (cfg flow)) (u64 (rb_seq rb + 1)) (seqq (flow_dtp flow))
         popped kept (rcv_lwe_priv d')
    /\ seqq d' = kept
    /\ (rcv_lwe d' = rcv_lwe (flow_dtp flow) \/ rcv_lwe d' = rcv_lwe_priv d')
    /\ (upper_ipcp flow = true -> rcv_lwe d' = rcv_lwe_priv d')
    /\ (upper_ipcp flow = false -> rcv_lwe d' = rcv_lwe (flow_dtp flow))
    /\ forall rb', rlite_buf_pci_pop rb = Some rb' ->
         exists crb,
           snd (fst r)
           = ev_sdu_rx_flow rb' (negb (flow_control (cfg flow)))
               :: map (deliver_up (negb (flow_control (cfg flow)))) popped
               ++ opt_rmt_tx (remote_addr flow) crb.
Proof.
  unfold sdu_rx_deliver, seqq_pop_many. fold (rb_seq rb).
  pose proof (seqq_pop_scan_pops (max_sdu_gap (cfg flow))
                (seqq (with_rcv_lwe_priv (u64 (rb_seq rb + 1)) (flow_dtp flow)))
                (with_rcv_lwe_priv (u64 (rb_seq rb + 1)) (flow_dtp flow)))
    as [Hpops [n [p Hd]]].
  destruct (seqq_pop_scan _ _ _) as [[kept qrbs] d1]. cbn [fst snd] in *.
  exists qrbs, kept. subst d1.
  destruct (upper_ipcp flow).
  - match goal with
    | |- context [sdu_rx_sv_update ?s ?a ?f] =>
        destruct (sdu_rx_sv_update_shape s a f) as [x [m Hsh]];
        destruct (sdu_rx_sv_update s a f) as [f' crb]
    end.
    cbn [fst snd] in Hsh. subst f'.
    destruct (rlite_buf_pci_pop rb) as [rb' |]; cbn -[u64] in *;
      (split; [exact Hpops |]); (split; [reflexivity |]);
      (split; [right; reflexivity |]); (split; [reflexivity |]);
      (split; [discriminate |]); intros rb'' Heq; [| discriminate].
    injection Heq as <-. exists crb. reflexivity.
  - destruct (rlite_buf_pci_pop rb) as [rb' |]; cbn -[u64] in *;
      (split; [exact Hpops |]); (split; [reflexivity |]);
      (split; [left; reflexivity |]); (split; [discriminate |]);
      (split; [reflexivity |]); intros rb'' Heq; [| discriminate].
    injection Heq as <-. exists None. reflexivity.
Qed.

(** C8.  When a data PDU with sequence number [s] (no DRF flag, not below
    [rcv_lwe_priv]) satisfies the deliver rule, the receiver sets
    [rcv_lwe_priv] to [s + 1] and then walks the sequencing queue in order,
    popping every buffer whose sequence number minus the current
    [rcv_lwe_priv] is at most [max_sdu_gap] and moving [rcv_lwe_priv] just
    past each popped buffer; the PDU is passed upwards first and the popped
    buffers after it, in queue order, which is ascending sequence-number
    order when the queue is sorted.  In particular, with [max_sdu_gap = 0]
    and retransmission control on, receiving 0, then 2, then 1 delivers 0,
    holds 2, and on 1 delivers 1 followed by 2, leaving
    [rcv_lwe_priv = 3]; this holds whether or not the first PDU carries the
    DRF flag. *)
Theorem sdu_rx_deliver_pops :
  (forall (self_addr jiffies : Z) (alloc : option rlite_buf)
          (up : rlite_buf -> Z) (flow : flow_entry) (rb : rlite_buf),
      Z.testbit (pdu_flags (RLITE_BUF_PCI rb)) 0 = false ->
      rcv_lwe_priv (flow_dtp flow) <= rb_seq rb ->
      deliver_rule (cfg flow) (rx_gap flow (rb_seq rb)) ->
      let r := sdu_rx_data self_addr jiffies alloc up flow rb in
      let d' := flow_dtp (fst (fst r)) in
      let qlimit := negb (flow_control (cfg flow)) in
      exists popped kept,
        pops (max_sdu_gap (cfg flow)) (u64 (rb_seq rb + 1))
             (seqq (flow_dtp flow)) popped kept (rcv_lwe_priv d')
        /\ seqq d' = kept
        /\ (forall rb', rlite_buf_pci_pop rb = Some rb' ->
              exists crb,
                snd (fst r)
                = ev_sdu_rx_flow rb' qlimit :: map (deliver_up qlimit) popped
                    ++ opt_rmt_tx (remote_addr flow) crb)
        /\ (seq_sorted (seqq (flow_dtp flow)) ->
            seq_sorted popped /\ seq_sorted kept))
  /\ (forall drf : bool,
        let rx := sdu_rx_data 1 0 None (fun _ => 0) in
        let r0 := rx (ex_flow ex_cfg_rtx) (ex_data 1 0 (if drf then 1 else 0)) in
        let r2 := rx (fst (fst r0)) (ex_data 2 2 0) in
        let r1 := rx (fst (fst r2)) (ex_data 3 1 0) in
        delivered_seqs (snd (fst r0)) = [0]
        /\ rcv_lwe_priv (flow_dtp (fst (fst r0))) = 1
        /\ delivered_seqs (snd (fst r2)) = []
        /\ map rb_seq (seqq (flow_dtp (fst (fst r2)))) = [2]
        /\ delivered_seqs (snd (fst r1)) = [1; 2]
        /\ seqq (flow_dtp (fst (fst r1))) = []
        /\ rcv_lwe_priv (flow_dtp (fst (fst r1))) = 3).
Proof.
  split.
  - intros self_addr jiffies alloc up flow rb Hdrf Hle Hrule r d' qlimit.
    pose proof (sdu_rx_data_late self_addr jiffies alloc up flow rb Hdrf Hle) as Hr.
    fold r in Hr. cbv zeta in Hr.
    apply rx_deliver_spec in Hrule. rewrite Hrule in Hr.
    destruct (rx_entry_fields jiffies flow rb)
      as [Hc [Hst [Hra [Hup [Hpr [Hlw [Hq Hql]]]]]]].
    destruct (sdu_rx_deliver_facts self_addr alloc up (rx_entry jiffies flow rb) rb)
      as [popped [kept [Hpops [Hkept [_ [_ [_ Hev]]]]]]].
    rewrite <- Hr in Hpops, Hkept, Hev. rewrite Hc, Hq in Hpops.
    rewrite Hc, Hra in Hev.
    exists popped, kept. split; [exact Hpops |]. split; [exact Hkept |].
    split; [exact Hev |]. intros Hs. exact (pops_sorted _ _ _ _ _ _ Hpops Hs).
  - intros drf. destruct drf; vm_compute; repeat split; reflexivity.
Qed.

(** ** The retransmission queue and the window update *)

Lemma granted_clones_seq (jiffies int : Z) (clone : nat -> option Z) (n : nat)
    (qrbs : list rlite_buf) (x : Z) :
  In x (map rb_seq (granted_clones jiffies int clone n qrbs)) ->
  In x (map rb_seq qrbs).
Proof.
  revert n. induction qrbs as [| b q IH]; intros n H; cbn in *; [exact H |].
  destruct (clone n); cbn in H.
  - destruct H as [H | H]; [left; exact H | right; eapply IH; exact H].
  - right. eapply IH. exact H.
Qed.

(** The drain of [cwq] on a window update: the first [drain_count] buffers
    leave the queue in order; [snd_lwe] advances by one for each and
    [last_seq_num_sent] follows it; with retransmission control on, the
    clones the allocator grants are appended to [rtxq] with the deadline
    [jiffies + rtx_tmr_int]. *)
Lemma cwq_drain_spec (rtx : bool) (jiffies : Z) (clone : nat -> option Z) :
  forall (q : list rlite_buf) (n : nat) (d : dtp),
    cwq d = q -> 0 <= snd_lwe d -> snd_rwe d < 2 ^ 64 ->
    let k := drain_count (length q) (snd_lwe d) (snd_rwe d) in
    let r := cwq_drain rtx jiffies clone n q d in
    snd r = firstn k q
    /\ cwq (fst r) = skipn k q
    /\ snd_rwe (fst r) = snd_rwe d
    /\ snd_lwe (fst r) = snd_lwe d + Z.of_nat k
    /\ (k <> O -> last_seq_num_sent (fst r) = snd_lwe d + Z.of_nat k - 1)
    /\ (k = O -> fst r = d)
    /\ next_seq_num_to_send (fst r) = next_seq_num_to_send d
    /\ last_ctrl_seq_num_rcvd (fst r) = last_ctrl_seq_num_rcvd d
    /\ rcv_fields (fst r) = rcv_fields d
    /\ rtxq (fst r)
       = rtxq d ++ (if rtx then
                      granted_clones jiffies (rtx_tmr_int d) clone n (firstn k q)
                    else []).
Proof.
  induction q as [| qrb q IH]; intros n d Hq Hl Hr k r.
  - subst k r. cbn. rewrite Hq.
    destruct rtx; cbn; rewrite app_nil_r; repeat split; auto; try lia; congruence.
  - subst k r. cbn [cwq_drain length]. cbv zeta.
    destruct (snd_lwe d >=? snd_rwe d) eqn:E.
    + rewrite Z.geb_leb in E. apply Z.leb_le in E.
      unfold drain_count. replace (Z.to_nat (snd_rwe d - snd_lwe d)) with O by lia.
      rewrite Nat.min_0_r. cbn. rewrite Hq.
      destruct rtx; cbn; rewrite app_nil_r; repeat split; auto; try lia; congruence.
    + rewrite Z.geb_leb in E. apply Z.leb_gt in E.
      set (d1 := cwq_pop_head q d).
      assert (Hu : u64 (snd_lwe d + 1) = snd_lwe d + 1).
      { apply u64_small. unfold is_u64. lia. }
      set (step := if rtx then (fst (rlite_rtxq_push jiffies (clone n) d1 qrb), S n)
                   else (d1, n)).
      assert (Hstep : snd_fields (fst step) = snd_fields d1
                      /\ rcv_fields (fst step) = rcv_fields d1
                      /\ rtxq (fst step)
                         = rtxq d1 ++ (if rtx then
                                         granted_clones jiffies (rtx_tmr_int d1)
                                           (fun _ => clone n) O [qrb]
                                       else [])
                      /\ snd step = if rtx then S n else n).
      { subst step. destruct rtx; cbn [fst snd].
        - destruct (rlite_rtxq_push_fields jiffies (clone n) d1 qrb) as [? [? ?]].
          auto.
        - rewrite app_nil_r. auto. }
      destruct step as [d2 n2]. cbn [fst snd] in Hstep |- *.
      destruct Hstep as [Hsf [Hrf [Hrq Hn2]]].
      unfold snd_fields in Hsf. cbn in Hsf.
      injection Hsf as Hns Hsl Hsr Hls Hcq Hint Hlc.
      fold (u64 (snd_lwe d + 1)) in Hsl. rewrite Hu in Hsl.
      specialize (IH n2 d2 Hcq ltac:(lia) ltac:(lia)). cbv zeta in IH.
      destruct (cwq_drain rtx jiffies clone n2 q d2) as [d3 qrbs].
      cbn [fst snd] in *.
      destruct IH as [I1 [I2 [I3 [I4 [I5 [I6 [I7 [I8 [I9 I10]]]]]]]]].
      assert (Hk : drain_count (S (length q)) (snd_lwe d) (snd_rwe d)
                   = S (drain_count (length q) (snd_lwe d2) (snd_rwe d2))).
      { unfold drain_count. rewrite Hsl, Hsr.
        replace (Z.to_nat (snd_rwe d - snd_lwe d))
          with (S (Z.to_nat (snd_rwe d - (snd_lwe d + 1)))) by lia.
        reflexivity. }
      rewrite Hk. cbn [firstn skipn].
      split; [rewrite I1; reflexivity |]. split; [exact I2 |].
      split; [congruence |]. split; [lia |].
      split.
      { intros _. destruct (Nat.eq_dec (drain_count (length q) (snd_lwe d2)
                                                    (snd_rwe d2)) O) as [e | ne].
        - rewrite (I6 e), e, Hls. lia.
        - rewrite (I5 ne). lia. }
      split; [discriminate |]. split; [congruence |]. split; [congruence |].
      split; [rewrite I9, Hrf; reflexivity |].
      rewrite I10, Hrq, Hint. subst d1. cbn [cwq_pop_head rtxq with_snd_lwe
        with_last_seq_num_sent with_cwq_len with_cwq rtx_tmr_int].
      destruct rtx; [| rewrite !app_nil_r; reflexivity].
      subst n2. cbn [granted_clones]. destruct (clone n); cbn.
      * rewrite <- app_assoc. reflexivity.
      * rewrite app_nil_r. reflexivity.
Qed.

Lemma seq_sorted_snoc (q : list rlite_buf) (x : rlite_buf) :
  seq_sorted q -> Forall (fun b => rb_seq b < rb_seq x) q ->
  seq_sorted (q ++ [x]).
Proof.
  unfold seq_sorted. induction q as [| b q IH]; intros Hs Hall; cbn.
  - constructor; constructor.
  - cbn in Hs. apply StronglySorted_inv in Hs. destruct Hs as [Hs Hb].
    inversion Hall as [| ? ? Hbx Hq]; subst.
    constructor; [apply IH; assumption |].
    rewrite map_app. apply Forall_app. split; [exact Hb |].
    constructor; [exact Hbx | constructor].
Qed.

Lemma seq_sorted_app_r (q1 q2 : list rlite_buf) :
  seq_sorted (q1 ++ q2) -> seq_sorted q2.
Proof.
  unfold seq_sorted. induction q1 as [| b q IH]; cbn; intros Hs; [exact Hs |].
  apply StronglySorted_inv in Hs. apply IH. apply Hs.
Qed.

Lemma seq_sorted_head_lt (s : rlite_buf) (q : list rlite_buf) (x : Z) :
  seq_sorted (s :: q) -> x < rb_seq s ->
  Forall (fun b => x < rb_seq b) (s :: q).
Proof.
  unfold seq_sorted. cbn. intros Hs Hx.
  apply StronglySorted_inv in Hs. destruct Hs as [_ Hall].
  constructor; [exact Hx |].
  rewrite Forall_forall in *. intros b Hb.
  specialize (Hall (rb_seq b) (in_map rb_seq _ _ Hb)). lia.
Qed.

(** The scan of [rtxq] on an ACK removes a prefix of the queue, every buffer
    of which is acknowledged, and stops at the first buffer that is not.
    [rtx_tmr_next] is reset to that buffer, and the timer re-armed at its
    deadline, when [rtx_tmr_next] was NULL or designated a removed buffer. *)
Lemma rtxq_ack_scan_spec (ack : Z) :
  forall (q : list rlite_buf) (d : dtp),
    rtxq d = q ->
    let r := rtxq_ack_scan ack q d in
    exists removed rest,
      q = removed ++ rest
      /\ rtxq (fst r) = rest
      /\ Forall (fun b => rb_seq b <= ack) removed
      /\ match rest with [] => True | s :: _ => ack < rb_seq s end
      /\ snd r = map ev_free removed
      /\ snd_fields (fst r) = snd_fields d
      /\ rcv_fields (fst r) = rcv_fields d
      /\ (tmr_cleared (rtx_tmr_next d) removed = true ->
          match rest with
          | s :: _ => rtx_tmr_next (fst r) = Some (rb_addr s)
                      /\ rtx_tmr (fst r) = Some (rtx_jiffies s)
          | [] => rtx_tmr_next (fst r) = None /\ rtx_tmr (fst r) = rtx_tmr d
          end)
      /\ (tmr_cleared (rtx_tmr_next d) removed = false ->
          rtx_tmr_next (fst r) = rtx_tmr_next d
          /\ rtx_tmr (fst r) = rtx_tmr d).
Proof.
  induction q as [| cur q IH]; intros d Hq r; subst r.
  - exists [], []. cbn. rewrite Hq.
    destruct (rtx_tmr_next d); cbn; repeat split; auto; discriminate.
  - cbn [rtxq_ack_scan]. fold (rb_seq cur).
    destruct (rb_seq cur <=? ack) eqn:E.
    + apply Z.leb_le in E.
      set (d0 := with_rtxq_len (u32 (rtxq_len (with_rtxq q d) - 1)) (with_rtxq q d)).
      set (d1 := if ptr_is (rtx_tmr_next d0) cur then with_rtx_tmr_next None d0
                 else d0).
      assert (H1 : rtxq d1 = q /\ snd_fields d1 = snd_fields d
                   /\ rcv_fields d1 = rcv_fields d /\ rtx_tmr d1 = rtx_tmr d
                   /\ rtx_tmr_next d1
                      = if ptr_is (rtx_tmr_next d) cur then None
                        else rtx_tmr_next d).
      { subst d1 d0. cbn. destruct (ptr_is (rtx_tmr_next d) cur); cbn; auto. }
      destruct H1 as [Hq1 [Hs1 [Hr1 [Ht1 Hn1]]]].
      specialize (IH d1 Hq1). cbv zeta in IH.
      destruct (rtxq_ack_scan ack q d1) as [d2 evs]. cbn [fst snd] in *.
      destruct IH as [removed [rest [Hsplit [Hrest [Hall [Hhd [Hev [Hs2 [Hr2 [Hc Hnc]]]]]]]]]].
      exists (cur :: removed), rest.
      split; [cbn; congruence |]. split; [exact Hrest |].
      split; [constructor; assumption |]. split; [exact Hhd |].
      split; [cbn; congruence |]. split; [congruence |]. split; [congruence |].
      rewrite Hn1, Ht1 in *.
      destruct (rtx_tmr_next d) as [a |] eqn:Hn; cbn [tmr_cleared existsb ptr_is] in *.
      * destruct (a =? rb_addr cur) eqn:Ha; cbn [orb] in *.
        -- split; [intros _; apply Hc; reflexivity | discriminate].
        -- split; assumption.
      * split; [intros _; apply Hc; reflexivity | discriminate].
    + apply Z.leb_gt in E. exists [], (cur :: q). cbn [app map fst snd].
      split; [reflexivity |].
      destruct (rtx_tmr_next d) eqn:Hn; cbn; rewrite ?Hn;
        repeat split; auto; try discriminate; try lia.
Qed.

(** ** The invariant of the sender side *)

Lemma drain_inv_mono (win : bool) (b b' : Z) (d : dtp) :
  b <= b' -> drain_inv win b d -> drain_inv win b' d.
Proof. unfold drain_inv. intuition lia. Qed.

Lemma granted_one_seq (jiffies int : Z) (clone : option Z) (rb x : rlite_buf) :
  In x (granted_clones jiffies int (fun _ => clone) O [rb]) ->
  rb_seq x = rb_seq rb.
Proof.
  cbn. destruct clone; cbn; [| contradiction].
  intros [<- | []]. reflexivity.
Qed.

(** Appending the clone of a buffer whose sequence number is above all of
    [rtxq] keeps [rtxq] sorted. *)
Lemma rtxq_push_sorted (jiffies int : Z) (clone : option Z) (q : list rlite_buf)
    (rb : rlite_buf) (s : Z) :
  seq_sorted q -> Forall (fun b => rb_seq b < s) q -> rb_seq rb = s ->
  let q' := q ++ granted_clones jiffies int (fun _ => clone) O [rb] in
  seq_sorted q' /\ Forall (fun b => rb_seq b < s + 1) q'.
Proof.
  intros Hs Hall Hrb. cbn. destruct clone as [a |]; cbn.
  - assert (Hc : rb_seq (with_rtx_jiffies (u64 (jiffies + int))
                                          (rlite_buf_clone a rb)) = s)
      by exact Hrb.
    split.
    + apply seq_sorted_snoc; [exact Hs |]. rewrite Hc. exact Hall.
    + apply Forall_app. split.
      * eapply Forall_impl; [| exact Hall]. cbn. intros; lia.
      * constructor; [| constructor]. rewrite Hc. lia.
  - rewrite app_nil_r. split; [exact Hs |].
    eapply Forall_impl; [| exact Hall]. cbn. intros; lia.
Qed.

Lemma cwq_drain_inv (win rtx : bool) (bound jiffies : Z)
    (clone : nat -> option Z) :
  bound < 2 ^ 64 ->
  forall (q : list rlite_buf) (n : nat) (d : dtp),
    cwq d = q -> drain_inv win bound d ->
    let d' := fst (cwq_drain rtx jiffies clone n q d) in
    drain_inv win bound d'
    /\ (cwq d' <> [] -> snd_rwe d' < next_seq_num_to_send d').
Proof.
  intros Hb. induction q as [| qrb q IH]; intros n d Hq Hinv d'; subst d'.
  - cbn. split; [exact Hinv |]. rewrite Hq. congruence.
  - cbn [cwq_drain]. cbv zeta.
    destruct Hinv as [HN [HL [Hc [Hw [Hlwe [Hs Hall]]]]]].
    rewrite Hq in *. cbn [length contiguous_from] in *.
    assert (Hwin : win = true) by (apply Hw; discriminate).
    specialize (Hlwe Hwin). destruct Hc as [Hhd Hc].
    destruct (snd_lwe d >=? snd_rwe d) eqn:E.
    + rewrite Z.geb_leb in E. apply Z.leb_le in E. cbn [fst].
      split.
      * unfold drain_inv. rewrite Hq. cbn [length contiguous_from]. auto 10.
      * intros _. lia.
    + set (d1 := cwq_pop_head q d).
      set (step := if rtx then (fst (rlite_rtxq_push jiffies (clone n) d1 qrb), S n)
                   else (d1, n)).
      assert (Hstep : snd_fields (fst step) = snd_fields d1
                      /\ (rtxq (fst step) = rtxq d
                          \/ exists c, rtxq (fst step)
                             = rtxq d ++ granted_clones jiffies (rtx_tmr_int d1)
                                                        (fun _ => c) O [qrb])).
      { subst step. destruct rtx; cbn [fst].
        - destruct (rlite_rtxq_push_fields jiffies (clone n) d1 qrb) as [? [? Hr]].
          split; [assumption |]. right. exists (clone n). exact Hr.
        - split; [reflexivity |]. left. reflexivity. }
      destruct step as [d2 n2]. cbn [fst snd] in Hstep |- *.
      destruct Hstep as [Hsf Hrq].
      unfold snd_fields in Hsf. cbn in Hsf.
      injection Hsf as Hns Hsl Hsr Hls Hcq Hint Hlc.
      fold (u64 (snd_lwe d + 1)) in Hsl.
      rewrite u64_small in Hsl by (unfold is_u64; lia).
      apply IH; [exact Hcq |].
      unfold drain_inv. rewrite Hcq, Hns.
      replace (next_seq_num_to_send d - Z.of_nat (length q))
        with (next_seq_num_to_send d - Z.of_nat (S (length q)) + 1) by lia.
      split; [lia |]. split; [lia |]. split; [exact Hc |].
      split; [intros _; exact Hwin |]. split; [intros _; lia |].
      destruct Hrq as [Hrq | [c Hrq]]; rewrite Hrq.
      * split; [exact Hs |]. eapply Forall_impl; [| exact Hall]. cbn. intros; lia.
      * apply rtxq_push_sorted; assumption.
Qed.

Lemma ctrl_accept_inv (win rtx : bool) (bound jiffies : Z)
    (clone : nat -> option Z) (pcic : rina_pci_ctrl) (d : dtp) :
  bound < 2 ^ 64 ->
  drain_inv win bound d ->
  (cwq d <> [] -> snd_rwe d < next_seq_num_to_send d) ->
  let d' := fst (ctrl_accept rtx jiffies clone pcic d) in
  drain_inv win bound d'
  /\ (cwq d' <> [] -> snd_rwe d' < next_seq_num_to_send d').
Proof.
  intros Hb Hinv Hrwe. unfold ctrl_accept.
  destruct (has_bit pcic PDU_T_FC_BIT); [| cbn; auto].
  unfold ctrl_fc. cbn [snd_rwe with_last_ctrl_seq_num_rcvd].
  destruct (new_rwe pcic <? snd_rwe d); [cbn; auto |].
  apply cwq_drain_inv; [exact Hb | reflexivity | exact Hinv].
Qed.

Lemma ctrl_ack_inv (win : bool) (bound : Z) (pcic : rina_pci_ctrl) (d : dtp) :
  drain_inv win bound d ->
  (cwq d <> [] -> snd_rwe d < next_seq_num_to_send d) ->
  let d' := fst (ctrl_ack pcic d) in
  drain_inv win bound d'
  /\ (cwq d' <> [] -> snd_rwe d' < next_seq_num_to_send d').
Proof.
  intros Hinv Hrwe. unfold ctrl_ack.
  destruct (_ =? PDU_T_ACK); [| cbn; auto].
  destruct (rtxq_ack_scan_spec (ack_nack_seq_num pcic) (rtxq d) d eq_refl)
    as [removed [rest [Hsplit [Hrest [_ [_ [_ [Hsf [_ _]]]]]]]]].
  destruct (rtxq_ack_scan (ack_nack_seq_num pcic) (rtxq d) d) as [d1 evs].
  cbn [fst snd] in *.
  set (d2 := match rtxq d1 with [] => with_rtx_tmr del_timer d1 | _ :: _ => d1 end).
  assert (H2 : snd_fields d2 = snd_fields d1 /\ rtxq d2 = rtxq d1).
  { subst d2. clear Hrest Hsf.
    destruct (rtxq d1) eqn:E; cbn; rewrite ?E; auto. }
  destruct H2 as [Hsf2 Hrq2]. rewrite Hsf in Hsf2.
  unfold snd_fields in Hsf2. injection Hsf2 as Hns Hsl Hsr Hls Hcq Hint Hlc.
  destruct Hinv as [HN [HL [Hc [Hw [Hlwe [Hs Hall]]]]]].
  unfold drain_inv. rewrite Hns, Hsl, Hsr, Hcq, Hrq2, Hrest.
  rewrite Hsplit in Hs, Hall. apply Forall_app in Hall.
  repeat split; auto; try lia; try tauto.
  eapply seq_sorted_app_r; exact Hs.
Qed.

(** The sender invariant reads the configuration, the sender fields and
    [rtxq] only. *)
Lemma snd_inv_frame (bound : Z) (f f' : flow_entry) :
  cfg f' = cfg f ->
  snd_fields (flow_dtp f') = snd_fields (flow_dtp f) ->
  map rb_seq (rtxq (flow_dtp f')) = map rb_seq (rtxq (flow_dtp f)) ->
  snd_inv bound f -> snd_inv bound f'.
Proof.
  intros Hc Hs Hq. apply snd_fields_eq in Hs.
  destruct Hs as [Hns [Hsl [Hsr [_ [Hcq _]]]]].
  unfold snd_inv, drain_inv, seq_sorted.
  rewrite Hc, Hns, Hsl, Hsr, Hcq, Hq.
  intros [[H1 [H2 [H3 [H4 [H5 [H6 H7]]]]]] H8].
  repeat split; auto; try lia.
  rewrite Forall_forall in *. intros b Hb.
  apply (in_map rb_seq) in Hb. rewrite Hq in Hb.
  apply in_map_iff in Hb. destruct Hb as [b0 [Hb0 Hin]].
  rewrite <- Hb0. apply H7. exact Hin.
Qed.

Lemma snd_inv_mono (b b' : Z) (f : flow_entry) :
  b <= b' -> snd_inv b f -> snd_inv b' f.
Proof.
  intros Hle [H1 H2]. split; [| exact H2].
  eapply drain_inv_mono; eassumption.
Qed.

Lemma contiguous_from_snoc (s : Z) (q : list rlite_buf) (x : rlite_buf) :
  contiguous_from s q -> rb_seq x = s + Z.of_nat (length q) ->
  contiguous_from s (q ++ [x]).
Proof.
  revert s. induction q as [| b q IH]; intros s Hc Hx; cbn in *.
  - split; [lia | exact I].
  - destruct Hc as [Hb Hc]. split; [exact Hb |]. apply IH; [exact Hc | lia].
Qed.

(** The send path keeps the invariant of the sender side, with one more
    sequence number assigned at most. *)
Lemma sdu_write_locked_inv (self_addr jiffies : Z) (clone : option Z)
    (bound : Z) (flow : flow_entry) (rb : rlite_buf) :
  bound + 1 < 2 ^ 64 ->
  snd_inv bound flow ->
  snd_inv (bound + 1)
          (fst (fst (sdu_write_locked self_addr jiffies clone flow rb))).
Proof.
  intros Hb Hinv.
  destruct (snd_inact_rearm_frame jiffies flow)
    as [Hc [Hst [_ [_ [Hsf [Hrf [Hq _]]]]]]].
  assert (Hinv1 : snd_inv bound (snd_inact_rearm jiffies flow)).
  { eapply snd_inv_frame; [exact Hc | exact Hsf | rewrite Hq; reflexivity
                          | exact Hinv]. }
  clear Hinv Hc Hst Hsf Hrf Hq.
  unfold sdu_write_locked. cbv zeta.
  set (flow1 := snd_inact_rearm jiffies flow) in *. clearbody flow1.
  destruct (sdu_write_blocked flow1).
  { cbn [fst]. eapply snd_inv_mono; [| exact Hinv1]. lia. }
  destruct (rlite_buf_pci_push rb) as [rb1 |].
  2:{ cbn [fst]. eapply snd_inv_mono with (b := bound); [lia |].
      eapply snd_inv_frame; [| | | exact Hinv1]; reflexivity. }
  destruct (sdu_write_send_cases self_addr jiffies clone flow1 rb1)
    as [Hc [_ [_ [Hsr [Hn [_ Hcases]]]]]].
  set (flow2 := fst (fst (sdu_write_send self_addr jiffies clone flow1 rb1))) in *.
  clearbody flow2.
  set (rb2 := with_pci (dt_pci self_addr flow1 rb1) rb1) in *.
  assert (Hseq : rb_seq rb2 = next_seq_num_to_send (flow_dtp flow1))
    by reflexivity.
  clearbody rb2.
  destruct Hinv1 as [[HN [HL [Hcont [Hw [Hlwe [Hs Hall]]]]]] Hrwe].
  set (N := next_seq_num_to_send (flow_dtp flow1)) in *.
  assert (HuN : u64 (N + 1) = N + 1) by (apply u64_small; unfold is_u64; lia).
  rewrite HuN in *.
  unfold snd_inv, drain_inv. rewrite Hc, Hn, Hsr.
  destruct Hcases as [[Hwd [Hlt [Hcq [Hsl [Hrq _]]]]]
                     | [Hle [Hcq [Hsl [c [Hrq _]]]]]].
  - rewrite Hcq, Hsl, Hrq, length_app. cbn [length].
    replace (N + 1 - Z.of_nat (length (cwq (flow_dtp flow1)) + 1))
      with (N - Z.of_nat (length (cwq (flow_dtp flow1)))) by lia.
    split; [| intros _; lia].
    split; [lia |]. split; [lia |].
    split; [apply contiguous_from_snoc; [exact Hcont | lia] |].
    split; [intros _; exact Hwd |]. split; [exact Hlwe |]. auto.
  - assert (Hempty : cwq (flow_dtp flow1) = []).
    { destruct (cwq (flow_dtp flow1)) eqn:E; [reflexivity | exfalso].
      assert (Hne : r :: l <> []) by discriminate.
      specialize (Hw Hne). specialize (Hrwe Hne). specialize (Hle Hw). lia. }
    rewrite Hcq, Hrq, Hempty in *. cbn [length Z.of_nat] in *.
    rewrite Z.sub_0_r in *.
    split; [| congruence].
    split; [lia |]. split; [lia |]. split; [exact I |].
    split; [congruence |]. split; [intros H; rewrite (Hsl H); reflexivity |].
    apply rtxq_push_sorted; assumption.
Qed.

(** Receiving a control PDU keeps the invariant of the sender side. *)
Lemma sdu_rx_ctrl_inv (jiffies : Z) (clone : nat -> option Z) (bound : Z)
    (flow : flow_entry) (rb : rlite_buf) :
  bound < 2 ^ 64 ->
  snd_inv bound flow ->
  snd_inv bound (fst (fst (sdu_rx_ctrl jiffies clone flow rb))).
Proof.
  intros Hb Hinv. unfold sdu_rx_ctrl.
  destruct (negb (is_ctrl_pdu _)); [exact Hinv |].
  unfold sdu_rx_ctrl_locked.
  destruct (ctrl_seq_duplicate _ _).
  { cbn [fst]. rewrite with_dtp_same. exact Hinv. }
  destruct Hinv as [Hinv Hrwe].
  pose proof (ctrl_accept_inv _ (rtx_control (cfg flow)) bound jiffies clone
                (RLITE_BUF_PCI_CTRL rb) (flow_dtp flow) Hb Hinv Hrwe) as H1.
  destruct (ctrl_accept _ _ _ _ _) as [d1 qrbs]. cbn [fst] in H1.
  destruct H1 as [Hinv1 Hrwe1].
  destruct (has_bit _ PDU_T_ACK_BIT).
  - pose proof (ctrl_ack_inv _ bound (RLITE_BUF_PCI_CTRL rb) d1 Hinv1 Hrwe1) as H2.
    destruct (ctrl_ack _ d1) as [d2 evs]. cbn [fst] in *.
    unfold snd_inv. cbn [flow_dtp cfg with_dtp]. exact H2.
  - cbn [fst]. unfold snd_inv. cbn [flow_dtp cfg with_dtp]. auto.
Qed.

(** ** The receive path leaves the sender side alone *)

Lemma snd_frame_refl (f : flow_entry) : snd_frame f f.
Proof. unfold snd_frame. auto. Qed.

Lemma snd_frame_trans (f g h : flow_entry) :
  snd_frame f g -> snd_frame g h -> snd_frame f h.
Proof. unfold snd_frame. intuition congruence. Qed.

Lemma snd_inv_snd_frame (bound : Z) (f f' : flow_entry) :
  snd_frame f f' -> snd_inv bound f -> snd_inv bound f'.
Proof.
  intros [Hc [_ [Hs Hq]]]. apply snd_inv_frame; [exact Hc | exact Hs |].
  rewrite Hq. reflexivity.
Qed.

Lemma sdu_rx_sv_update_frame (self_addr : Z) (alloc : option rlite_buf)
    (flow : flow_entry) :
  snd_frame flow (fst (sdu_rx_sv_update self_addr alloc flow)).
Proof.
  destruct (sdu_rx_sv_update_shape self_addr alloc flow) as [r [n ->]].
  unfold snd_frame. cbn. auto.
Qed.

Lemma ctrl_pdu_alloc_frame (self_addr : Z) (alloc : option rlite_buf)
    (flow : flow_entry) (t a : Z) :
  snd_frame flow (fst (ctrl_pdu_alloc self_addr alloc flow t a)).
Proof.
  destruct (ctrl_pdu_alloc_shape self_addr alloc flow t a) as [n ->].
  unfold snd_frame. cbn. auto.
Qed.

Lemma rx_entry_frame (jiffies : Z) (flow : flow_entry) (rb : rlite_buf) :
  snd_frame flow (rx_entry jiffies flow rb)
  /\ snd_frame flow (rcv_inact_rearm jiffies flow).
Proof.
  unfold rx_entry, max_seq_raise, rcv_inact_rearm, snd_frame.
  cbn [flow_dtp cfg with_dtp upper_ipcp].
  destruct (dtcp_present (cfg flow)); destruct (_ >? _); cbn; auto 10.
Qed.

Lemma sdu_rx_drf_frame (self_addr : Z) (alloc : option rlite_buf)
    (up : rlite_buf -> Z) (flow : flow_entry) (rb : rlite_buf) :
  snd_frame flow (fst (fst (sdu_rx_drf self_addr alloc up flow rb))).
Proof.
  unfold sdu_rx_drf. cbv zeta.
  match goal with
  | |- context [sdu_rx_sv_update ?s ?a ?f] =>
      pose proof (sdu_rx_sv_update_frame s a f) as H;
      destruct (sdu_rx_sv_update s a f) as [f' crb]
  end.
  cbn [fst] in *. unfold snd_frame in *. cbn in *. exact H.
Qed.

Lemma sdu_rx_duplicate_frame (self_addr : Z) (alloc : option rlite_buf)
    (flow : flow_entry) (rb : rlite_buf) :
  snd_frame flow (fst (fst (sdu_rx_duplicate self_addr alloc flow rb))).
Proof.
  unfold sdu_rx_duplicate. cbv zeta. cbn [cfg with_stats].
  destruct (_ && _); [| unfold snd_frame; cbn; auto].
  match goal with
  | |- context [ctrl_pdu_alloc ?s ?a ?f ?t ?k] =>
      pose proof (ctrl_pdu_alloc_frame s a f t k) as H;
      destruct (ctrl_pdu_alloc s a f t k) as [f' crb]
  end.
  cbn [fst] in *. unfold snd_frame in *. cbn in H.
  destruct crb; cbn; exact H.
Qed.

Lemma seqq_pop_many_fields (d : dtp) (gap : Z) :
  snd_fields (fst (seqq_pop_many d gap)) = snd_fields d
  /\ rtxq (fst (seqq_pop_many d gap)) = rtxq d
  /\ rcv_lwe (fst (seqq_pop_many d gap)) = rcv_lwe d.
Proof.
  unfold seqq_pop_many.
  destruct (seqq_pop_scan_pops gap (seqq d) d) as [_ [n [p Hd]]].
  destruct (seqq_pop_scan gap (seqq d) d) as [[kept qrbs] d1].
  cbn [fst snd] in *. subst d1. cbn. auto.
Qed.

Lemma sdu_rx_deliver_frame (self_addr : Z) (alloc : option rlite_buf)
    (up : rlite_buf -> Z) (flow : flow_entry) (rb : rlite_buf) :
  snd_frame flow (fst (fst (sdu_rx_deliver self_addr alloc up flow rb))).
Proof.
  unfold sdu_rx_deliver. cbv zeta.
  match goal with
  | |- context [seqq_pop_many ?d ?g] =>
      destruct (seqq_pop_many_fields d g) as [Hs [Hq _]];
      destruct (seqq_pop_many d g) as [d1 qrbs]
  end.
  cbn [fst] in Hs, Hq. cbn in Hs, Hq.
  destruct (upper_ipcp flow) eqn:Hup.
  - match goal with
    | |- context [sdu_rx_sv_update ?s ?a ?f] =>
        pose proof (sdu_rx_sv_update_frame s a f) as H;
        destruct (sdu_rx_sv_update s a f) as [f' crb]
    end.
    cbn [fst] in H. unfold snd_frame in *. cbn in H.
    destruct H as [H1 [H2 [H3 H4]]].
    destruct (rlite_buf_pci_pop rb); cbn; rewrite H1, H2, H3, H4; auto.
  - unfold snd_frame.
    destruct (rlite_buf_pci_pop rb); cbn; auto.
Qed.

Lemma sdu_rx_dropped_frame (self_addr : Z) (alloc : option rlite_buf)
    (flow : flow_entry) (rb : rlite_buf) :
  snd_frame flow (fst (fst (sdu_rx_dropped self_addr alloc flow rb))).
Proof.
  unfold sdu_rx_dropped. cbv zeta.
  match goal with
  | |- context [sdu_rx_sv_update ?s ?a ?f] =>
      pose proof (sdu_rx_sv_update_frame s a f) as H;
      destruct (sdu_rx_sv_update s a f) as [f' crb]
  end.
  cbn [fst] in *. exact H.
Qed.

Lemma seqq_push_fields (d : dtp) (rb : rlite_buf) :
  snd_fields (fst (seqq_push d rb)) = snd_fields d
  /\ rtxq (fst (seqq_push d rb)) = rtxq d.
Proof.
  unfold seqq_push. destruct (_ >=? _); [cbn; auto |].
  destruct (seqq_insert rb (seqq d)); cbn; auto.
Qed.

Lemma sdu_rx_hold_frame (self_addr : Z) (alloc : option rlite_buf)
    (flow : flow_entry) (rb : rlite_buf) :
  snd_frame flow (fst (fst (sdu_rx_hold self_addr alloc flow rb))).
Proof.
  unfold sdu_rx_hold.
  destruct (seqq_push_fields (flow_dtp flow) rb) as [Hs Hq].
  destruct (seqq_push (flow_dtp flow) rb) as [d1 evs]. cbn [fst] in Hs, Hq.
  match goal with
  | |- context [sdu_rx_sv_update ?s ?a ?f] =>
      pose proof (sdu_rx_sv_update_frame s a f) as H;
      destruct (sdu_rx_sv_update s a f) as [f' crb]
  end.
  cbn [fst] in *. unfold snd_frame in *. cbn in H.
  destruct H as [H1 [H2 [H3 H4]]]. rewrite H1, H2, H3, H4. auto.
Qed.

Lemma sdu_rx_data_frame (self_addr jiffies : Z) (alloc : option rlite_buf)
    (up : rlite_buf -> Z) (flow : flow_entry) (rb : rlite_buf) :
  snd_frame flow (fst (fst (sdu_rx_data self_addr jiffies alloc up flow rb))).
Proof.
  unfold sdu_rx_data. cbv zeta.
  destruct (rx_entry_frame jiffies flow rb) as [He Hr].
  fold (rb_seq rb). fold (rx_entry jiffies flow rb).
  destruct (Z.testbit _ 0).
  { eapply snd_frame_trans; [exact Hr | apply sdu_rx_drf_frame]. }
  destruct (_ <? _).
  { eapply snd_frame_trans; [exact Hr | apply sdu_rx_duplicate_frame]. }
  destruct (rx_deliver _ _).
  { eapply snd_frame_trans; [exact He | apply sdu_rx_deliver_frame]. }
  destruct (rx_drop _ _).
  { eapply snd_frame_trans; [exact He | apply sdu_rx_dropped_frame]. }
  eapply snd_frame_trans; [exact He | apply sdu_rx_hold_frame].
Qed.

Lemma sdu_rx_consumed_frame (self_addr : Z) (alloc : option rlite_buf)
    (flow : flow_entry) (rb : rlite_buf) :
  snd_frame flow
    (fst (fst (rlite_normal_sdu_rx_consumed self_addr alloc flow rb))).
Proof.
  unfold rlite_normal_sdu_rx_consumed. cbv zeta.
  match goal with
  | |- context [sdu_rx_sv_update ?s ?a ?f] =>
      pose proof (sdu_rx_sv_update_frame s a f) as H;
      destruct (sdu_rx_sv_update s a f) as [f' crb]
  end.
  cbn [fst] in *. exact H.
Qed.

(** ** Timers and runs *)

Lemma bump_deadline_seq (i : nat) (int : Z) (q : list rlite_buf) :
  map rb_seq (bump_deadline i int q) = map rb_seq q.
Proof.
  revert i. induction q as [| b q IH]; intros i; [destruct i; reflexivity |].
  destruct i; cbn; [reflexivity |]. rewrite IH. reflexivity.
Qed.

(** The scan of the retransmission timer changes deadlines and the timer,
    not the order or the sequence numbers of [rtxq]. *)
Lemma rtx_scan_frame (jiffies : Z) (clone : nat -> option Z) (start : nat) :
  forall (fuel cur k : nat) (d d' : dtp) (rrbq rrbq' : list rlite_buf),
    rtx_scan fuel jiffies clone start cur k d rrbq = Some (d', rrbq') ->
    snd_fields d' = snd_fields d
    /\ rcv_fields d' = rcv_fields d
    /\ map rb_seq (rtxq d') = map rb_seq (rtxq d).
Proof.
  induction fuel as [| fuel IH]; intros cur k d d' rrbq rrbq' H;
    cbn [rtx_scan] in H; [discriminate |].
  destruct (nth_error (rtxq d) cur) as [rb |].
  - destruct (jiffies >=? rtx_jiffies rb).
    + set (d1 := with_rtxq (bump_deadline cur (rtx_tmr_int d) (rtxq d)) d) in H.
      assert (H1 : snd_fields d1 = snd_fields d /\ rcv_fields d1 = rcv_fields d
                   /\ map rb_seq (rtxq d1) = map rb_seq (rtxq d)).
      { subst d1. cbn. rewrite bump_deadline_seq. auto. }
      destruct H1 as [Hs [Hr Hq]]. cbv zeta in H.
      destruct (Nat.eqb _ start).
      * injection H as <- _. auto.
      * apply IH in H. destruct H as [Hs' [Hr' Hq']].
        rewrite Hs', Hr', Hq'. auto.
    + cbv zeta in H. injection H as <- _.
      destruct (negb _); cbn; auto.
  - apply IH in H. exact H.
Qed.

Lemma rtx_tmr_cb_frame (fuel : nat) (jiffies : Z) (clone : nat -> option Z)
    (self_addr : Z) (flow flow' : flow_entry) (evs : list event) :
  rtx_tmr_cb fuel jiffies clone self_addr flow = Some (flow', evs) ->
  cfg flow' = cfg flow
  /\ upper_ipcp flow' = upper_ipcp flow
  /\ snd_fields (flow_dtp flow') = snd_fields (flow_dtp flow)
  /\ rcv_fields (flow_dtp flow') = rcv_fields (flow_dtp flow)
  /\ map rb_seq (rtxq (flow_dtp flow')) = map rb_seq (rtxq (flow_dtp flow)).
Proof.
  unfold rtx_tmr_cb. cbv zeta.
  cbn [rtx_tmr_next with_rtx_tmr rtxq].
  destruct (rtx_tmr_next (flow_dtp flow)) as [a |].
  - destruct (index_of a (rtxq (flow_dtp flow))) as [start |]; [| discriminate].
    destruct (rtx_scan _ _ _ _ _ _ _ _) as [[d rrbq] |] eqn:E; [| discriminate].
    intros H. injection H as <- _.
    apply rtx_scan_frame in E. cbn in E. destruct E as [Hs [Hr Hq]].
    cbn. auto.
  - intros H. injection H as <- _. cbn. auto.
Qed.

(** Every operation keeps the invariant of the sender side. *)
Lemma flow_step_inv (self_addr bound : Z) (flow flow' : flow_entry)
    (op : flow_op) :
  bound + 1 < 2 ^ 64 ->
  snd_inv bound flow ->
  flow_step self_addr flow op = Some flow' ->
  snd_inv (bound + 1) flow'.
Proof.
  intros Hb Hinv Hstep.
  destruct op as [j c rb | j c a rb | a rb | | | fuel j c]; cbn in Hstep.
  - injection Hstep as <-. apply sdu_write_locked_inv; assumption.
  - injection Hstep as <-. apply snd_inv_mono with (b := bound); [lia |].
    unfold sdu_rx_on_flow. destruct (negb _).
    + apply sdu_rx_ctrl_inv; [lia | exact Hinv].
    + eapply snd_inv_snd_frame; [apply sdu_rx_data_frame | exact Hinv].
  - injection Hstep as <-. apply snd_inv_mono with (b := bound); [lia |].
    eapply snd_inv_snd_frame; [apply sdu_rx_consumed_frame | exact Hinv].
  - injection Hstep as <-. apply snd_inv_mono with (b := bound); [lia |].
    eapply snd_inv_frame; [| | | exact Hinv]; reflexivity.
  - injection Hstep as <-. apply snd_inv_mono with (b := bound); [lia |].
    eapply snd_inv_frame; [| | | exact Hinv]; reflexivity.
  - destruct (rtx_tmr_cb fuel j c self_addr flow) as [[f evs] |] eqn:E;
      [| discriminate].
    injection Hstep as <-. apply rtx_tmr_cb_frame in E.
    destruct E as [Hc [_ [Hs [_ Hq]]]].
    apply snd_inv_mono with (b := bound); [lia |].
    eapply snd_inv_frame; eassumption.
Qed.

Lemma flow_run_inv (self_addr : Z) (ops : list flow_op) :
  forall (bound : Z) (flow flow' : flow_entry),
    bound + Z.of_nat (length ops) < 2 ^ 64 ->
    snd_inv bound flow ->
    flow_run self_addr flow ops = Some flow' ->
    snd_inv (bound + Z.of_nat (length ops)) flow'.
Proof.
  induction ops as [| op ops IH]; intros bound flow flow' Hb Hinv Hrun;
    cbn [flow_run length] in *.
  - injection Hrun as <-. rewrite Z.add_0_r. exact Hinv.
  - destruct (flow_step self_addr flow op) as [flow1 |] eqn:E; [| discriminate].
    replace (bound + Z.of_nat (S (length ops)))
      with (bound + 1 + Z.of_nat (length ops)) in * by lia.
    eapply IH; [lia | | exact Hrun].
    eapply flow_step_inv; [lia | exact Hinv | exact E].
Qed.

Lemma fresh_flow_inv (msecs_to_jiffies : Z -> Z) (dif_mpl : option Z)
    (c : flow_config) (raddr rcep lcep : Z) (upper : bool) :
  snd_inv 0 (fresh_flow msecs_to_jiffies dif_mpl c raddr rcep lcep upper).
Proof.
  unfold snd_inv, drain_inv, seq_sorted. cbn.
  repeat split; try lia; try congruence; constructor.
Qed.

Lemma reachable_inv (self_addr : Z) (flow : flow_entry) :
  reachable self_addr flow -> exists bound, bound < 2 ^ 64 /\ snd_inv bound flow.
Proof.
  intros [m [dif [c [ra [rc [lc [up [ops [Hlen Hrun]]]]]]]]].
  exists (0 + Z.of_nat (length ops)). split; [lia |].
  eapply flow_run_inv; [lia | apply fresh_flow_inv | exact Hrun].
Qed.

Lemma sorted_lt_nodup (l : list Z) : StronglySorted Z.lt l -> NoDup l.
Proof.
  induction 1 as [| x l Hs IH Hall]; constructor; [| exact IH].
  intros Hin. rewrite Forall_forall in Hall. specialize (Hall x Hin). lia.
Qed.

(** C5.  In every state a flow reaches within fewer than 2^64 operations,
    the retransmission queue is strictly ascending in sequence number, so no
    two of its buffers share a sequence number; the clone-into-rtxq step of
    the send path, the drain of the closed-window queue on a window update
    and the removals on an acknowledgement are among the operations. *)
Theorem rtxq_sorted (self_addr : Z) (flow : flow_entry)
    (Hreach : reachable self_addr flow) :
  seq_sorted (rtxq (flow_dtp flow))
  /\ NoDup (map rb_seq (rtxq (flow_dtp flow))).
Proof.
  destruct (reachable_inv self_addr flow Hreach) as [bound [_ [Hinv _]]].
  destruct Hinv as [_ [_ [_ [_ [_ [Hs _]]]]]].
  split; [exact Hs |]. apply sorted_lt_nodup. exact Hs.
Qed.

(** ** Control PDUs: acknowledgements and window updates *)

(** The acknowledgement processing on a sorted [rtxq]. *)
Lemma ctrl_ack_spec (pcic : rina_pci_ctrl) (d : dtp) :
  Z.land (pdu_type (base pcic)) PDU_T_ACK_MASK = PDU_T_ACK ->
  seq_sorted (rtxq d) ->
  let r := ctrl_ack pcic d in
  let d' := fst r in
  exists removed,
    rtxq d = removed ++ rtxq d'
    /\ Forall (fun b => rb_seq b <= ack_nack_seq_num pcic) removed
    /\ Forall (fun b => ack_nack_seq_num pcic < rb_seq b) (rtxq d')
    /\ snd r = map ev_free removed
    /\ snd_fields d' = snd_fields d
    /\ rcv_fields d' = rcv_fields d
    /\ (existsb (ptr_is (rtx_tmr_next d)) removed = true ->
        match rtxq d' with
        | s :: _ => rtx_tmr_next d' = Some (rb_addr s)
                    /\ rtx_tmr d' = Some (rtx_jiffies s)
        | [] => rtx_tmr_next d' = None
        end)
    /\ (rtxq d' = [] -> rtx_tmr d' = None).
Proof.
  intros Hsub Hsorted. unfold ctrl_ack. cbv zeta.
  apply Z.eqb_eq in Hsub. rewrite Hsub.
  destruct (rtxq_ack_scan_spec (ack_nack_seq_num pcic) (rtxq d) d eq_refl)
    as [removed [rest [Hsplit [Hrest [Hall [Hhd [Hev [Hsf [Hrf [Hc _]]]]]]]]]].
  destruct (rtxq_ack_scan (ack_nack_seq_num pcic) (rtxq d) d) as [d1 evs].
  cbn [fst snd] in *.
  exists removed.
  assert (Hsuffix : seq_sorted rest).
  { rewrite Hsplit in Hsorted. eapply seq_sorted_app_r. exact Hsorted. }
  assert (Hcl : existsb (ptr_is (rtx_tmr_next d)) removed = true ->
                tmr_cleared (rtx_tmr_next d) removed = true).
  { unfold tmr_cleared. destruct (rtx_tmr_next d); auto. }
  subst rest. destruct (rtxq d1) as [| s rest] eqn:E; cbn [fst rtxq with_rtx_tmr].
  - cbn. rewrite E. split; [exact Hsplit |]. split; [exact Hall |].
    split; [constructor |]. split; [exact Hev |].
    split; [exact Hsf |]. split; [exact Hrf |].
    split; [| reflexivity]. intros H. apply Hc. apply Hcl. exact H.
  - rewrite E. split; [exact Hsplit |]. split; [exact Hall |].
    split; [apply seq_sorted_head_lt; assumption |]. split; [exact Hev |].
    split; [exact Hsf |]. split; [exact Hrf |].
    split; [| discriminate]. intros H. apply Hc. apply Hcl. exact H.
Qed.

(** The acknowledgement processing, whatever the subtype and the order of
    [rtxq], frees buffers and leaves the sender fields alone. *)
Lemma ctrl_ack_fields (pcic : rina_pci_ctrl) (d : dtp) :
  snd_fields (fst (ctrl_ack pcic d)) = snd_fields d
  /\ rcv_fields (fst (ctrl_ack pcic d)) = rcv_fields d
  /\ exists freed, snd (ctrl_ack pcic d) = map ev_free freed.
Proof.
  unfold ctrl_ack. destruct (_ =? PDU_T_ACK).
  - destruct (rtxq_ack_scan_spec (ack_nack_seq_num pcic) (rtxq d) d eq_refl)
      as [removed [rest [_ [_ [_ [_ [Hev [Hsf [Hrf _]]]]]]]]].
    destruct (rtxq_ack_scan (ack_nack_seq_num pcic) (rtxq d) d) as [d1 evs].
    cbn [fst snd] in *.
    split; [| split; [| exists removed; exact Hev]];
      destruct (rtxq d1); cbn; assumption.
  - cbn. split; [reflexivity |]. split; [reflexivity |]. exists []. reflexivity.
Qed.

(** [sdu_rx_ctrl] on a control PDU that is accepted. *)
Lemma sdu_rx_ctrl_accepted (jiffies : Z) (clone : nat -> option Z)
    (flow : flow_entry) (rb : rlite_buf) :
  is_ctrl_pdu (RLITE_BUF_PCI_CTRL rb) = true ->
  ctrl_seq_duplicate (RLITE_BUF_PCI_CTRL rb) (flow_dtp flow) = false ->
  let pcic := RLITE_BUF_PCI_CTRL rb in
  let a := ctrl_accept (rtx_control (cfg flow)) jiffies clone pcic (flow_dtp flow) in
  let k := if has_bit pcic PDU_T_ACK_BIT then ctrl_ack pcic (fst a)
           else (fst a, []) in
  sdu_rx_ctrl jiffies clone flow rb
  = (with_dtp (fst k) flow,
     snd k ++ [ev_free rb]
       ++ map (fun qrb => ev_rmt_tx (dst_addr (RLITE_BUF_PCI qrb)) qrb false)
              (snd a)
       ++ [ev_write_restart],
     0).
Proof.
  intros Hctrl Hacc pcic a k. unfold sdu_rx_ctrl, sdu_rx_ctrl_locked.
  rewrite Hctrl, Hacc. cbn [negb]. fold pcic. fold a.
  destruct a as [d1 qrbs]. subst k. cbn [fst snd].
  destruct (has_bit pcic PDU_T_ACK_BIT); [| reflexivity].
  destruct (ctrl_ack pcic d1) as [d2 evs]. reflexivity.
Qed.

(** C4.  For a flow in a reachable state and an accepted control PDU with
    the ACK bit and subtype ACK carrying [ack_nack_seq_num = A]: after the
    PDU is processed no buffer with sequence number at most [A] remains in
    [rtxq] (the removed buffers are a prefix of the queue, each at most
    [A]); if one of the removed buffers was [rtx_tmr_next], then
    [rtx_tmr_next] is the first surviving buffer and the retransmission
    timer is armed at its deadline, or [rtx_tmr_next] is NULL when none
    survives; and when [rtxq] is empty the retransmission timer is not
    pending. *)
Theorem ctrl_ack_removes
    (self_addr jiffies : Z) (clone : nat -> option Z) (flow : flow_entry)
    (rb : rlite_buf)
    (Hreach : reachable self_addr flow)
    (Hctrl : is_ctrl_pdu (RLITE_BUF_PCI_CTRL rb) = true)
    (Hacc : ctrl_seq_duplicate (RLITE_BUF_PCI_CTRL rb) (flow_dtp flow) = false)
    (Hack : has_bit (RLITE_BUF_PCI_CTRL rb) PDU_T_ACK_BIT = true)
    (Hsub : Z.land (pdu_type (RLITE_BUF_PCI rb)) PDU_T_ACK_MASK = PDU_T_ACK) :
  let pcic := RLITE_BUF_PCI_CTRL rb in
  let A := ack_nack_seq_num pcic in
  let d1 := fst (ctrl_accept (rtx_control (cfg flow)) jiffies clone pcic
                             (flow_dtp flow)) in
  let d' := flow_dtp (fst (fst (sdu_rx_ctrl jiffies clone flow rb))) in
  Forall (fun b => A < rb_seq b) (rtxq d')
  /\ (exists removed,
        rtxq d1 = removed ++ rtxq d'
        /\ Forall (fun b => rb_seq b <= A) removed
        /\ (existsb (ptr_is (rtx_tmr_next d1)) removed = true ->
            match rtxq d' with
            | s :: _ => rtx_tmr_next d' = Some (rb_addr s)
                        /\ rtx_tmr d' = Some (rtx_jiffies s)
            | [] => rtx_tmr_next d' = None
            end))
  /\ (rtxq d' = [] -> rtx_tmr d' = None).
Proof.
  intros pcic A d1 d'. subst A pcic.
  destruct (reachable_inv self_addr flow Hreach) as [bound [Hb [Hinv Hrwe]]].
  pose proof (ctrl_accept_inv _ (rtx_control (cfg flow)) bound jiffies clone
                (RLITE_BUF_PCI_CTRL rb) (flow_dtp flow) Hb Hinv Hrwe)
    as [Hinv1 _].
  fold d1 in Hinv1.
  assert (Hsorted : seq_sorted (rtxq d1)).
  { destruct Hinv1 as [_ [_ [_ [_ [_ [Hs _]]]]]]. exact Hs. }
  subst d'. rewrite (sdu_rx_ctrl_accepted jiffies clone flow rb Hctrl Hacc).
  cbv zeta. rewrite Hack. fold d1. cbn [fst flow_dtp with_dtp].
  destruct (ctrl_ack_spec (RLITE_BUF_PCI_CTRL rb) d1 Hsub Hsorted)
    as [removed [Hsplit [Hall [Hrest [_ [_ [_ [Htmr Hempty]]]]]]]].
  cbv zeta in *.
  split; [exact Hrest |]. split; [| exact Hempty].
  exists removed. auto.
Qed.

(** When the allocator grants every clone, each buffer pushed has its clone
    in the result, in order, with the fresh deadline. *)
Lemma granted_clones_all (jiffies int : Z) (clone : nat -> option Z)
    (qrbs : list rlite_buf) :
  forall n : nat,
    (forall i, clone i <> None) ->
    length (granted_clones jiffies int clone n qrbs) = length qrbs
    /\ map rb_seq (granted_clones jiffies int clone n qrbs) = map rb_seq qrbs
    /\ Forall (fun crb => rtx_jiffies crb = u64 (jiffies + int))
              (granted_clones jiffies int clone n qrbs).
Proof.
  induction qrbs as [| b q IH]; intros n Hall; cbn.
  - repeat split; constructor.
  - destruct (clone n) as [a |] eqn:E; [| exfalso; exact (Hall n E)].
    destruct (IH (S n) Hall) as [H1 [H2 H3]]. cbn.
    rewrite H1, H2. repeat split. constructor; [reflexivity | exact H3].
Qed.

(** C7, as amended.  For an accepted control PDU with the FC bit: when
    [new_rwe < snd_rwe] the update is ignored, the window and the queues
    stay as they are and nothing is dispatched; otherwise [snd_rwe] becomes
    [new_rwe] and [cwq] is drained from its head while
    [snd_lwe < snd_rwe]: the drained buffers are the first
    [min (length cwq) (new_rwe - snd_lwe)] of the queue, [snd_lwe] advances
    by one for each and [last_seq_num_sent] is the [snd_lwe] the last of
    them met; with retransmission control on, a clone of each drained
    buffer whose allocation succeeds is appended to [rtxq] with the deadline
    [jiffies + rtx_tmr_int] (all of them when no allocation fails); and the
    drained buffers are handed to the RMT in order once the lock is
    released and the control PDU freed. *)
Theorem ctrl_window_update
    (jiffies : Z) (clone : nat -> option Z) (flow : flow_entry)
    (rb : rlite_buf)
    (Hctrl : is_ctrl_pdu (RLITE_BUF_PCI_CTRL rb) = true)
    (Hacc : ctrl_seq_duplicate (RLITE_BUF_PCI_CTRL rb) (flow_dtp flow) = false)
    (Hfc : has_bit (RLITE_BUF_PCI_CTRL rb) PDU_T_FC_BIT = true)
    (Hrwe : is_u64 (new_rwe (RLITE_BUF_PCI_CTRL rb)))
    (Hlwe : 0 <= snd_lwe (flow_dtp flow)) :
  let pcic := RLITE_BUF_PCI_CTRL rb in
  let d := flow_dtp flow in
  let rtx := rtx_control (cfg flow) in
  let d1 := fst (ctrl_accept rtx jiffies clone pcic d) in
  let r := sdu_rx_ctrl jiffies clone flow rb in
  let d' := flow_dtp (fst (fst r)) in
  let dispatch := fun qrb => ev_rmt_tx (dst_addr (RLITE_BUF_PCI qrb)) qrb false in
  (new_rwe pcic < snd_rwe d ->
   snd_rwe d' = snd_rwe d /\ snd_lwe d' = snd_lwe d /\ cwq d' = cwq d
   /\ last_seq_num_sent d' = last_seq_num_sent d
   /\ rtxq d1 = rtxq d
   /\ exists freed,
        snd (fst r) = map ev_free freed ++ [ev_free rb; ev_write_restart])
  /\ (snd_rwe d <= new_rwe pcic ->
      let k := drain_count (length (cwq d)) (snd_lwe d) (new_rwe pcic) in
      let drained := firstn k (cwq d) in
      let clones := granted_clones jiffies (rtx_tmr_int d) clone O drained in
      snd_rwe d' = new_rwe pcic
      /\ cwq d' = skipn k (cwq d)
      /\ snd_lwe d' = snd_lwe d + Z.of_nat k
      /\ (k <> O -> last_seq_num_sent d' = snd_lwe d + Z.of_nat k - 1)
      /\ (k = O -> last_seq_num_sent d' = last_seq_num_sent d)
      /\ rtxq d1 = rtxq d ++ (if rtx then clones else [])
      /\ ((forall i, clone i <> None) ->
          length clones = length drained
          /\ map rb_seq clones = map rb_seq drained
          /\ Forall (fun crb => rtx_jiffies crb = u64 (jiffies + rtx_tmr_int d))
                    clones)
      /\ exists freed,
           snd (fst r) = map ev_free freed ++ [ev_free rb]
                           ++ map dispatch drained ++ [ev_write_restart]).
Proof.
  intros pcic d rtx d1 r d' dispatch. subst pcic.
  pose proof (sdu_rx_ctrl_accepted jiffies clone flow rb Hctrl Hacc) as Hr.
  cbv zeta in Hr. fold r in Hr. fold rtx d in Hr.
  set (a := ctrl_accept rtx jiffies clone (RLITE_BUF_PCI_CTRL rb) d) in *.
  set (k := if has_bit (RLITE_BUF_PCI_CTRL rb) PDU_T_ACK_BIT
            then ctrl_ack (RLITE_BUF_PCI_CTRL rb) (fst a) else (fst a, [])) in *.
  assert (Hk : snd_fields (fst k) = snd_fields (fst a)
               /\ exists freed, snd k = map ev_free freed).
  { subst k. destruct (has_bit _ PDU_T_ACK_BIT).
    - destruct (ctrl_ack_fields (RLITE_BUF_PCI_CTRL rb) (fst a)) as [H1 [_ H2]].
      auto.
    - cbn. split; [reflexivity |]. exists []. reflexivity. }
  destruct Hk as [Hkf [freed Hkev]].
  apply snd_fields_eq in Hkf.
  destruct Hkf as [_ [Ksl [Ksr [Kls [Kcq _]]]]].
  assert (Hd' : d' = fst k) by (subst d'; rewrite Hr; reflexivity).
  assert (Hev : snd (fst r) = map ev_free freed ++ [ev_free rb]
                                ++ map dispatch (snd a) ++ [ev_write_restart]).
  { rewrite Hr. cbn [fst snd]. rewrite Hkev. reflexivity. }
  rewrite Hd', Ksl, Ksr, Kls, Kcq. fold d1. clear Hr Hd' Hkev Ksl Ksr Kls Kcq.
  assert (Ha : a = ctrl_fc rtx jiffies clone (RLITE_BUF_PCI_CTRL rb)
                 (with_last_ctrl_seq_num_rcvd
                    (seqnum (base (RLITE_BUF_PCI_CTRL rb))) d)).
  { subst a. unfold ctrl_accept. rewrite Hfc. reflexivity. }
  unfold ctrl_fc in Ha. cbn [snd_rwe with_last_ctrl_seq_num_rcvd] in Ha.
  split.
  - intros Hlt. apply Z.ltb_lt in Hlt. rewrite Hlt in Ha.
    subst d1. rewrite Hev, Ha. cbn. repeat split; auto.
    exists freed. reflexivity.
  - intros Hge k0 drained clones. apply Z.ltb_ge in Hge. rewrite Hge in Ha.
    match type of Ha with
    | a = cwq_drain ?x ?j ?c ?n ?q ?dd =>
        pose proof (cwq_drain_spec x j c q n dd eq_refl) as Hs
    end.
    cbv zeta in Hs. rewrite <- Ha in Hs. fold d1 in Hs.
    cbn [snd_lwe snd_rwe with_snd_rwe with_last_ctrl_seq_num_rcvd cwq] in Hs.
    specialize (Hs Hlwe ltac:(unfold is_u64 in Hrwe; lia)).
    destruct Hs as [S1 [S2 [S3 [S4 [S5 [S6 [_ [_ [_ S10]]]]]]]]].
    cbn [cwq with_snd_rwe with_last_ctrl_seq_num_rcvd rtxq rtx_tmr_int
         last_seq_num_sent] in *.
    fold k0 in S1, S2, S4, S5, S6, S10. fold drained in S1, S10.
    fold clones in S10.
    split; [exact S3 |]. split; [exact S2 |]. split; [exact S4 |].
    split; [exact S5 |].
    split; [intros H0; rewrite (S6 H0); reflexivity |].
    split; [exact S10 |].
    split; [intros Hall; apply granted_clones_all; exact Hall |].
    exists freed. rewrite Hev, S1. reflexivity.
Qed.

(** ** Duplicate control PDUs *)

(** The drain of [cwq] leaves the receiver fields and the last control
    sequence number alone, whatever the state. *)
Lemma cwq_drain_frame (rtx : bool) (jiffies : Z) (clone : nat -> option Z) :
  forall (q : list rlite_buf) (n : nat) (d : dtp),
    rcv_fields (fst (cwq_drain rtx jiffies clone n q d)) = rcv_fields d
    /\ last_ctrl_seq_num_rcvd (fst (cwq_drain rtx jiffies clone n q d))
       = last_ctrl_seq_num_rcvd d.
Proof.
  induction q as [| qrb q IH]; intros n d; cbn [cwq_drain]; [cbn; auto |].
  cbv zeta. destruct (snd_lwe d >=? snd_rwe d); [cbn; auto |].
  cbn [fst].
  match goal with
  | |- context [cwq_drain rtx jiffies clone ?n' q ?d'] =>
      destruct (IH n' d') as [H1 H2]; rewrite H1, H2
  end.
  destruct rtx; cbn [fst snd].
  - destruct (rlite_rtxq_push_fields jiffies (clone n) (cwq_pop_head q d) qrb)
      as [Hs [Hr _]].
    apply snd_fields_eq in Hs. destruct Hs as [_ [_ [_ [_ [_ [_ Hl]]]]]].
    rewrite Hr, Hl. cbn. auto.
  - cbn. auto.
Qed.

Lemma ctrl_accept_frame (rtx : bool) (jiffies : Z) (clone : nat -> option Z)
    (pcic : rina_pci_ctrl) (d : dtp) :
  rcv_fields (fst (ctrl_accept rtx jiffies clone pcic d)) = rcv_fields d
  /\ last_ctrl_seq_num_rcvd (fst (ctrl_accept rtx jiffies clone pcic d))
     = seqnum (base pcic).
Proof.
  unfold ctrl_accept, ctrl_fc. cbv zeta.
  destruct (has_bit pcic PDU_T_FC_BIT); [| cbn; auto].
  destruct (_ <? _); [cbn; auto |].
  match goal with
  | |- context [cwq_drain ?x ?j ?c ?n ?q ?dd] =>
      destruct (cwq_drain_frame x j c q n dd) as [H1 H2]; rewrite H1, H2
  end.
  cbn. auto.
Qed.

(** What [sdu_rx_ctrl] does to the last control sequence number and to the
    receiver fields. *)
Lemma sdu_rx_ctrl_last (jiffies : Z) (clone : nat -> option Z)
    (flow : flow_entry) (rb : rlite_buf) :
  let flow' := fst (fst (sdu_rx_ctrl jiffies clone flow rb)) in
  let pcic := RLITE_BUF_PCI_CTRL rb in
  cfg flow' = cfg flow
  /\ upper_ipcp flow' = upper_ipcp flow
  /\ rcv_fields (flow_dtp flow') = rcv_fields (flow_dtp flow)
  /\ (is_ctrl_pdu pcic = true ->
      ctrl_seq_duplicate pcic (flow_dtp flow) = false ->
      last_ctrl_seq_num_rcvd (flow_dtp flow') = seqnum (base pcic))
  /\ (is_ctrl_pdu pcic = false
      \/ ctrl_seq_duplicate pcic (flow_dtp flow) = true ->
      flow' = flow).
Proof.
  cbv zeta. unfold sdu_rx_ctrl.
  destruct (is_ctrl_pdu (RLITE_BUF_PCI_CTRL rb)); cbn [negb].
  2:{ cbn [fst]. repeat split; auto; discriminate. }
  unfold sdu_rx_ctrl_locked.
  destruct (ctrl_seq_duplicate _ _).
  { cbn [fst]. rewrite with_dtp_same. repeat split; auto; discriminate. }
  destruct (ctrl_accept_frame (rtx_control (cfg flow)) jiffies clone
              (RLITE_BUF_PCI_CTRL rb) (flow_dtp flow)) as [Hr Hl].
  destruct (ctrl_accept _ _ _ _ _) as [d1 qrbs]. cbn [fst] in Hr, Hl.
  assert (H2 : forall k : dtp * list event,
             k = (if has_bit (RLITE_BUF_PCI_CTRL rb) PDU_T_ACK_BIT
                  then ctrl_ack (RLITE_BUF_PCI_CTRL rb) d1 else (d1, [])) ->
             rcv_fields (fst k) = rcv_fields (flow_dtp flow)
             /\ last_ctrl_seq_num_rcvd (fst k)
                = seqnum (base (RLITE_BUF_PCI_CTRL rb))).
  { intros k ->. destruct (has_bit _ PDU_T_ACK_BIT); [| cbn; auto].
    destruct (ctrl_ack_fields (RLITE_BUF_PCI_CTRL rb) d1) as [Hs [Hr' _]].
    apply snd_fields_eq in Hs. destruct Hs as [_ [_ [_ [_ [_ [_ Hl']]]]]].
    rewrite Hr', Hl'. auto. }
  specialize (H2 _ eq_refl).
  destruct (if has_bit _ PDU_T_ACK_BIT then _ else _) as [d2 evs].
  cbn [fst] in *. destruct H2 as [H2 H3].
  cbn. repeat split; auto.
  intros [H | H]; discriminate.
Qed.

Lemma ctrl_seq_duplicate_seqnum (p q : rina_pci_ctrl) (d : dtp) :
  seqnum (base p) = seqnum (base q) ->
  ctrl_seq_duplicate p d = ctrl_seq_duplicate q d.
Proof.
  unfold ctrl_seq_duplicate, ctrl_seq_lost. intros ->. reflexivity.
Qed.

(** C2, as amended.  Two control PDUs with the same control sequence number
    [n] are received one right after the other, the first being a control
    PDU.  Unless [n = 0] and the flow has recorded no control sequence
    number yet ([last_ctrl_seq_num_rcvd = 0]), the second is dropped as a
    duplicate before any window or acknowledgement processing and the flow
    is left exactly as the first left it.  When [n = 0] and
    [last_ctrl_seq_num_rcvd = 0] the duplicate test does not fire: the
    second PDU is accepted and processed again. *)
Theorem ctrl_duplicate_dropped
    (j1 j2 : Z) (clone1 clone2 : nat -> option Z) (flow : flow_entry)
    (rb1 rb2 : rlite_buf)
    (Hctrl : is_ctrl_pdu (RLITE_BUF_PCI_CTRL rb1) = true)
    (Hsame : seqnum (RLITE_BUF_PCI rb2) = seqnum (RLITE_BUF_PCI rb1))
    (Hseq : 0 <= seqnum (RLITE_BUF_PCI rb1) < 2 ^ 64 - 1)
    (Hlast : 0 <= last_ctrl_seq_num_rcvd (flow_dtp flow)) :
  let n := seqnum (RLITE_BUF_PCI rb1) in
  let flow1 := fst (fst (sdu_rx_ctrl j1 clone1 flow rb1)) in
  let r2 := sdu_rx_ctrl j2 clone2 flow1 rb2 in
  (n <> 0 \/ last_ctrl_seq_num_rcvd (flow_dtp flow) <> 0 ->
   ctrl_seq_duplicate (RLITE_BUF_PCI_CTRL rb2) (flow_dtp flow1) = true
   /\ sdu_rx_ctrl_locked (rtx_control (cfg flow1)) j2 clone2
                         (RLITE_BUF_PCI_CTRL rb2) (flow_dtp flow1)
      = (flow_dtp flow1, [], [])
   /\ fst (fst r2) = flow1
   /\ (is_ctrl_pdu (RLITE_BUF_PCI_CTRL rb2) = true ->
       snd (fst r2) = [ev_free rb2; ev_write_restart]))
  /\ (n = 0 -> last_ctrl_seq_num_rcvd (flow_dtp flow) = 0 ->
      ctrl_seq_duplicate (RLITE_BUF_PCI_CTRL rb2) (flow_dtp flow1) = false).
Proof.
  intros n flow1 r2.
  destruct (sdu_rx_ctrl_last j1 clone1 flow rb1) as [_ [_ [_ [Hacc Hrej]]]].
  fold flow1 in Hacc, Hrej. specialize (Hacc Hctrl).
  clearbody flow1. subst n.
  unfold RLITE_BUF_PCI_CTRL, RLITE_BUF_PCI in *.
  set (n := seqnum (base (pcic rb1))) in *.
  assert (Hdup2 : forall d, ctrl_seq_duplicate (pcic rb2) d
                            = ctrl_seq_duplicate (pcic rb1) d).
  { intros d. apply ctrl_seq_duplicate_seqnum. exact Hsame. }
  assert (Hu : u64 (n + 1) = n + 1).
  { apply u64_small. unfold is_u64. lia. }
  split.
  - intros Hnz.
    assert (Hdup : ctrl_seq_duplicate (pcic rb2) (flow_dtp flow1) = true).
    { rewrite Hdup2.
      destruct (ctrl_seq_duplicate (pcic rb1) (flow_dtp flow)) eqn:E.
      - rewrite (Hrej (or_intror eq_refl)). exact E.
      - specialize (Hacc eq_refl).
        unfold ctrl_seq_duplicate, ctrl_seq_lost in E |- *. rewrite Hacc.
        fold n in E |- *. rewrite Hu.
        assert (Hn0 : n <> 0).
        { destruct Hnz as [H | H]; [exact H |]. intros Hn0.
          rewrite Hn0 in E.
          assert (Hl : (0 >? u64 (last_ctrl_seq_num_rcvd (flow_dtp flow) + 1))
                       = false).
          { rewrite Z.gtb_ltb. apply Z.ltb_ge.
            pose proof (u64_range (last_ctrl_seq_num_rcvd (flow_dtp flow) + 1))
              as Hr. unfold is_u64 in Hr. lia. }
          rewrite Hl in E. cbn [negb andb] in E.
          apply Z.eqb_neq in H. rewrite H in E. cbn [negb andb] in E.
          apply Z.leb_gt in E. lia. }
        rewrite Z.gtb_ltb.
        replace (n + 1 <? n) with false by (symmetry; apply Z.ltb_ge; lia).
        apply Z.eqb_neq in Hn0. rewrite Hn0. cbn [negb andb].
        apply Z.leb_le. lia. }
    split; [exact Hdup |].
    split; [unfold sdu_rx_ctrl_locked; rewrite Hdup; reflexivity |].
    subst r2. unfold sdu_rx_ctrl, sdu_rx_ctrl_locked, RLITE_BUF_PCI_CTRL.
    cbv zeta. rewrite Hdup.
    destruct (is_ctrl_pdu (pcic rb2)); cbn [negb fst snd].
    + rewrite with_dtp_same. split; [reflexivity |]. intros _. reflexivity.
    + split; [reflexivity | discriminate].
  - intros Hn0 Hl0. rewrite Hdup2.
    assert (E : ctrl_seq_duplicate (pcic rb1) (flow_dtp flow) = false).
    { unfold ctrl_seq_duplicate. rewrite Hl0. cbn [Z.eqb negb].
      rewrite Bool.andb_false_r. reflexivity. }
    specialize (Hacc E).
    unfold ctrl_seq_duplicate. rewrite Hacc. fold n. rewrite Hn0.
    cbn [Z.eqb negb]. rewrite Bool.andb_false_r. reflexivity.
Qed.

(** ** The receiver window edges *)

Lemma rx_inv_frame (f f' : flow_entry) :
  cfg f' = cfg f ->
  rcv_fields (flow_dtp f') = rcv_fields (flow_dtp f) ->
  rx_inv f ->
  rx_inv f'
  /\ rcv_lwe (flow_dtp f') = rcv_lwe (flow_dtp f)
  /\ rcv_lwe_priv (flow_dtp f') = rcv_lwe_priv (flow_dtp f).
Proof.
  intros Hc Hr Hinv. apply rcv_fields_eq in Hr.
  destruct Hr as [Hl [Hp [Hq _]]].
  unfold rx_inv in *. rewrite Hc, Hl, Hp, Hq. auto.
Qed.

(** Popping moves the frontier forwards only: a popped buffer is never
    behind it. *)
Lemma pops_forward (c : flow_config) (p p' : Z)
    (q popped kept : list rlite_buf) :
  pops (max_sdu_gap c) p q popped kept p' ->
  Forall (seqq_ok c) q -> 0 <= p < 2 ^ 64 ->
  p <= p' < 2 ^ 64 /\ Forall (seqq_ok c) kept.
Proof.
  intros H. induction H as [p | p b q popped kept p' Hle H IH
                              | p b q popped kept p' Hgt H IH];
    intros Hall Hp.
  - split; [lia | constructor].
  - inversion Hall as [| ? ? [Hb0 [Hbg Hbm]] Hq]; subst.
    assert (Hge : p <= rb_seq b).
    { destruct (Z_lt_le_dec (rb_seq b) p) as [Hlt | Hge]; [| exact Hge].
      exfalso. unfold u64 in Hle.
      replace (rb_seq b - p) with ((rb_seq b - p + 2 ^ 64) + (-1) * 2 ^ 64)
        in Hle by lia.
      rewrite Z.mod_add in Hle by lia.
      rewrite Z.mod_small in Hle by lia. lia. }
    assert (Hu : u64 (rb_seq b + 1) = rb_seq b + 1).
    { apply u64_small. unfold is_u64. lia. }
    rewrite Hu in IH. destruct (IH Hq ltac:(lia)) as [H1 H2].
    split; [lia | exact H2].
  - inversion Hall as [| ? ? Hb Hq]; subst.
    destruct (IH Hq Hp) as [H1 H2]. split; [exact H1 |].
    constructor; assumption.
Qed.

Lemma seqq_insert_elems (rb : rlite_buf) (q q' : list rlite_buf) (x : rlite_buf) :
  seqq_insert rb q = Some q' -> In x q' -> x = rb \/ In x q.
Proof.
  revert q'. induction q as [| cur q IH]; intros q' H Hin; cbn in H.
  - injection H as <-. destruct Hin as [<- | []]. left. reflexivity.
  - destruct (_ <? _).
    + injection H as <-. destruct Hin as [<- | Hin]; [left; reflexivity |].
      right. exact Hin.
    + destruct (_ =? _); [discriminate |].
      destruct (seqq_insert rb q) as [q'' |]; [| discriminate].
      injection H as <-. destruct Hin as [<- | Hin]; [right; left; reflexivity |].
      destruct (IH q'' eq_refl Hin) as [-> | Hq]; [left; reflexivity |].
      right. right. exact Hq.
Qed.

Lemma seqq_push_ok (c : flow_config) (d : dtp) (rb : rlite_buf) :
  Forall (seqq_ok c) (seqq d) -> seqq_ok c rb ->
  Forall (seqq_ok c) (seqq (fst (seqq_push d rb))).
Proof.
  intros Hall Hrb. unfold seqq_push. destruct (_ >=? _); [exact Hall |].
  destruct (seqq_insert rb (seqq d)) as [q' |] eqn:E; [| exact Hall].
  cbn. rewrite Forall_forall in *. intros x Hx.
  destruct (seqq_insert_elems rb (seqq d) q' x E Hx) as [-> | Hin]; auto.
Qed.

Lemma sdu_rx_drf_facts (self_addr : Z) (alloc : option rlite_buf)
    (up : rlite_buf -> Z) (flow : flow_entry) (rb : rlite_buf) :
  let d' := flow_dtp (fst (fst (sdu_rx_drf self_addr alloc up flow rb))) in
  rcv_lwe d' = u64 (seqnum (RLITE_BUF_PCI rb) + 1)
  /\ rcv_lwe_priv d' = u64 (seqnum (RLITE_BUF_PCI rb) + 1)
  /\ seqq d' = seqq (flow_dtp flow).
Proof.
  unfold sdu_rx_drf. cbv zeta.
  match goal with
  | |- context [sdu_rx_sv_update ?s ?a ?f] =>
      destruct (sdu_rx_sv_update_shape s a f) as [x [n Hsh]];
      destruct (sdu_rx_sv_update s a f) as [f' crb]
  end.
  cbn [fst] in *. subst f'. cbn -[u64 Z.add]. auto.
Qed.

(** The receive path on a data PDU. *)
Lemma sdu_rx_data_rx_inv (self_addr jiffies : Z) (alloc : option rlite_buf)
    (up : rlite_buf -> Z) (flow : flow_entry) (rb : rlite_buf) :
  rx_inv flow ->
  0 <= rb_seq rb < 2 ^ 64 - 1 ->
  let flow' := fst (fst (sdu_rx_data self_addr jiffies alloc up flow rb)) in
  let d := flow_dtp flow in
  let d' := flow_dtp flow' in
  rx_inv flow'
  /\ (Z.testbit (pdu_flags (RLITE_BUF_PCI rb)) 0 = false ->
      rcv_lwe d <= rcv_lwe d' /\ rcv_lwe_priv d <= rcv_lwe_priv d')
  /\ (Z.testbit (pdu_flags (RLITE_BUF_PCI rb)) 0 = true ->
      rcv_lwe d' = rb_seq rb + 1 /\ rcv_lwe_priv d' = rb_seq rb + 1).
Proof.
  intros Hinv Hs. cbv zeta.
  pose proof (sdu_rx_data_frame self_addr jiffies alloc up flow rb)
    as [Hcfg _].
  destruct (Z.testbit (pdu_flags (RLITE_BUF_PCI rb)) 0) eqn:Hdrf.
  - (* run start *)
    assert (Hu : u64 (rb_seq rb + 1) = rb_seq rb + 1).
    { apply u64_small. unfold is_u64. lia. }
    assert (Hr : rcv_fields (flow_dtp (rcv_inact_rearm jiffies flow))
                 = rcv_fields (flow_dtp flow)).
    { unfold rcv_inact_rearm. destruct (dtcp_present (cfg flow)); reflexivity. }
    apply rcv_fields_eq in Hr. destruct Hr as [_ [_ [Hq _]]].
    unfold sdu_rx_data in *. cbv zeta in *. rewrite Hdrf in *.
    destruct (sdu_rx_drf_facts self_addr alloc up
                (rcv_inact_rearm jiffies flow) rb) as [Hl [Hp Hq']].
    fold (rb_seq rb) in Hl, Hp. rewrite Hu in Hl, Hp.
    destruct Hinv as [H1 [H2 [H3 H4]]].
    unfold rx_inv. rewrite Hcfg, Hl, Hp, Hq', Hq.
    split; [split; [lia | split; [lia | split; [lia | exact H4]]] |].
    split; [discriminate | auto].
  - destruct (Z_lt_le_dec (rb_seq rb) (rcv_lwe_priv (flow_dtp flow)))
      as [Hlt | Hle].
    + (* duplicate *)
      unfold sdu_rx_data in *. cbv zeta in *. rewrite Hdrf in *.
      fold (rb_seq rb) in *. rewrite rcv_inact_rearm_priv in *.
      apply Z.ltb_lt in Hlt. rewrite Hlt in *.
      unfold sdu_rx_duplicate in *. cbv zeta in *.
      cbn [cfg with_stats] in *.
      assert (Hr : rcv_fields (flow_dtp (rcv_inact_rearm jiffies flow))
                   = rcv_fields (flow_dtp flow)).
      { unfold rcv_inact_rearm. destruct (dtcp_present (cfg flow)); reflexivity. }
      set (flow1 := rcv_inact_rearm jiffies flow) in *. clearbody flow1.
      assert (Hres : forall k : flow_entry * option rlite_buf,
                 k = (if flow_control (cfg flow1)
                         && (rcv_lwe (flow_dtp flow1)
                             >=? last_snd_data_ack (flow_dtp flow1))
                      then
                        let '(flow0, crb) :=
                          ctrl_pdu_alloc self_addr alloc
                            (with_stats (rx_failed (stats flow1)) flow1)
                            (Z.lor (Z.lor (Z.lor PDU_T_CTRL_MASK PDU_T_ACK_BIT)
                                          PDU_T_ACK) PDU_T_FC_BIT)
                            (rcv_lwe (flow_dtp flow1)) in
                        match crb with
                        | Some _ =>
                            (with_dtp (with_last_snd_data_ack
                                         (rcv_lwe (flow_dtp flow0))
                                         (flow_dtp flow0)) flow0, crb)
                        | None => (flow0, crb)
                        end
                      else (with_stats (rx_failed (stats flow1)) flow1, None)) ->
                 rcv_fields (flow_dtp (fst k)) = rcv_fields (flow_dtp flow1)).
      { intros k ->. destruct (_ && _); [| reflexivity].
        match goal with
        | |- context [ctrl_pdu_alloc ?s ?a ?f ?t ?z] =>
            destruct (ctrl_pdu_alloc_shape s a f t z) as [n Hsh];
            destruct (ctrl_pdu_alloc s a f t z) as [f' crb]
        end.
        cbn [fst] in Hsh. subst f'. destruct crb; reflexivity. }
      specialize (Hres _ eq_refl).
      destruct (if _ && _ then _ else _) as [f2 crb2]. cbn [fst] in *.
      rewrite Hr in Hres.
      destruct (rx_inv_frame flow f2 Hcfg Hres Hinv) as [Hi [Hl Hp]].
      split; [exact Hi |]. split; [intros _; lia | discriminate].
    + (* neither a run start nor a duplicate *)
      rewrite (sdu_rx_data_late self_addr jiffies alloc up flow rb Hdrf Hle) in *.
      cbv zeta in *.
      destruct (rx_entry_fields jiffies flow rb)
        as [Hc [_ [_ [Hup [Hpr [Hlw [Hq _]]]]]]].
      destruct Hinv as [H1 [H2 [H3 H4]]].
      assert (Hu : u64 (rb_seq rb + 1) = rb_seq rb + 1).
      { apply u64_small. unfold is_u64. lia. }
      destruct (rx_deliver flow (rb_seq rb)) eqn:Hdel.
      * destruct (sdu_rx_deliver_facts self_addr alloc up
                    (rx_entry jiffies flow rb) rb)
          as [popped [kept [Hpops [Hkept [Hlwe _]]]]].
        rewrite Hc, Hq, Hu in Hpops. rewrite Hlw in Hlwe.
        destruct (pops_forward _ _ _ _ _ _ Hpops H4 ltac:(lia)) as [Hfw Hk].
        unfold rx_inv. rewrite Hcfg, Hkept.
        split; [| split; [intros _ | discriminate]]; destruct Hlwe as [-> | ->];
          repeat split; auto; lia.
      * destruct (rx_drop flow (rb_seq rb)) eqn:Hdrop.
        -- destruct (sdu_rx_dropped_facts self_addr alloc
                       (rx_entry jiffies flow rb) rb)
             as [_ [Hq' [Hp' [_ Hl']]]].
           unfold rx_inv. rewrite Hcfg, Hq', Hp', Hl', Hq, Hpr, Hlw.
           split; [auto |]. split; [intros _; lia | discriminate].
        -- destruct (sdu_rx_hold_facts self_addr alloc
                       (rx_entry jiffies flow rb) rb)
             as [_ [Hq' [Hp' Hl']]].
           unfold rx_inv. rewrite Hcfg, Hq', Hp', Hl', Hpr, Hlw.
           split; [| split; [intros _; lia | discriminate]].
           split; [exact H1 |]. split; [exact H2 |]. split; [exact H3 |].
           apply seqq_push_ok; [rewrite Hq; exact H4 |].
           assert (Hgap : rx_gap flow (rb_seq rb) > max_sdu_gap (cfg flow)).
           { unfold rx_deliver in Hdel. rewrite Hdrop in Hdel.
             cbn [negb andb] in Hdel. apply Z.leb_gt in Hdel. lia. }
           rewrite rx_gap_exact in Hgap by (unfold is_u64; lia).
           unfold seqq_ok. lia.
Qed.

Lemma sdu_write_locked_rcv (self_addr jiffies : Z) (clone : option Z)
    (flow : flow_entry) (rb : rlite_buf) :
  let flow' := fst (fst (sdu_write_locked self_addr jiffies clone flow rb)) in
  cfg flow' = cfg flow
  /\ rcv_fields (flow_dtp flow') = rcv_fields (flow_dtp flow).
Proof.
  cbv zeta. unfold sdu_write_locked. cbv zeta.
  destruct (snd_inact_rearm_frame jiffies flow)
    as [Hc [_ [_ [_ [_ [Hr _]]]]]].
  destruct (sdu_write_blocked _); [cbn [fst]; auto |].
  destruct (rlite_buf_pci_push rb) as [rb1 |]; [| cbn; auto].
  destruct (sdu_write_send_cases self_addr jiffies clone
              (snd_inact_rearm jiffies flow) rb1) as [Hc' [_ [Hr' _]]].
  rewrite Hc', Hr'. auto.
Qed.

Lemma sdu_rx_consumed_rcv (self_addr : Z) (alloc : option rlite_buf)
    (flow : flow_entry) (rb : rlite_buf) :
  let flow' := fst (fst (rlite_normal_sdu_rx_consumed self_addr alloc flow rb)) in
  cfg flow' = cfg flow
  /\ rcv_lwe (flow_dtp flow') = u64 (rb_seq rb + 1)
  /\ rcv_lwe_priv (flow_dtp flow') = rcv_lwe_priv (flow_dtp flow)
  /\ seqq (flow_dtp flow') = seqq (flow_dtp flow).
Proof.
  cbv zeta. unfold rlite_normal_sdu_rx_consumed. cbv zeta.
  match goal with
  | |- context [sdu_rx_sv_update ?s ?a ?f] =>
      destruct (sdu_rx_sv_update_shape s a f) as [x [n Hsh]];
      destruct (sdu_rx_sv_update s a f) as [f' crb]
  end.
  cbn [fst] in *. subst f'. cbn -[u64 Z.add]. auto.
Qed.

(** C1, as amended.  A fresh flow has
    [0 <= rcv_lwe <= rcv_lwe_priv < 2^64], and every operation keeps it so,
    provided data PDUs carry sequence numbers below 2^64 - 1 and the upper
    layer consumes a buffer whose sequence number [s] satisfies
    [rcv_lwe <= s + 1 <= rcv_lwe_priv].  Under the same provisos neither
    [rcv_lwe] nor [rcv_lwe_priv] decreases across an operation, the
    reception of a data PDU with the DRF flag excepted: such a PDU sets both
    to its sequence number plus one, whatever they were. *)
Theorem rcv_edges_step :
  (forall (msecs_to_jiffies : Z -> Z) (dif_mpl : option Z) (c : flow_config)
          (raddr rcep lcep : Z) (upper : bool),
      rx_inv (fresh_flow msecs_to_jiffies dif_mpl c raddr rcep lcep upper))
  /\ (forall (self_addr : Z) (flow flow' : flow_entry) (op : flow_op),
         rx_inv flow ->
         rx_op_ok flow op ->
         flow_step self_addr flow op = Some flow' ->
         rx_inv flow'
         /\ (run_start op = false ->
             rcv_lwe (flow_dtp flow) <= rcv_lwe (flow_dtp flow')
             /\ rcv_lwe_priv (flow_dtp flow) <= rcv_lwe_priv (flow_dtp flow'))
         /\ (forall jiffies clone alloc rb,
                op = op_sdu_rx jiffies clone alloc rb ->
                run_start op = true ->
                rcv_lwe (flow_dtp flow') = rb_seq rb + 1
                /\ rcv_lwe_priv (flow_dtp flow') = rb_seq rb + 1)).
Proof.
  split.
  - intros m dif c ra rc lc up. unfold rx_inv. cbn.
    repeat split; try lia. constructor.
  - intros self_addr flow flow' op Hinv Hok Hstep.
    assert (Hframe : forall f, cfg f = cfg flow ->
                       rcv_fields (flow_dtp f) = rcv_fields (flow_dtp flow) ->
                       rx_inv f
                       /\ (run_start op = false ->
                           rcv_lwe (flow_dtp flow) <= rcv_lwe (flow_dtp f)
                           /\ rcv_lwe_priv (flow_dtp flow)
                              <= rcv_lwe_priv (flow_dtp f))).
    { intros f Hc Hr. destruct (rx_inv_frame flow f Hc Hr Hinv) as [Hi [Hl Hp]].
      split; [exact Hi |]. intros _. lia. }
    destruct op as [j c rb | j c a rb | a rb | | | fuel j c];
      cbn [flow_step run_start rx_op_ok] in *.
    + injection Hstep as <-.
      destruct (sdu_write_locked_rcv self_addr j c flow rb) as [Hc Hr].
      destruct (Hframe _ Hc Hr) as [H1 H2].
      split; [exact H1 |]. split; [exact H2 | discriminate].
    + injection Hstep as <-. unfold sdu_rx_on_flow.
      destruct (pdu_type (RLITE_BUF_PCI rb) =? PDU_T_DT) eqn:Ht; cbn [negb andb].
      * apply Z.eqb_eq in Ht. specialize (Hok Ht).
        destruct (sdu_rx_data_rx_inv self_addr j a (fun _ => 0) flow rb Hinv Hok)
          as [H1 [H2 H3]].
        split; [exact H1 |]. split; [exact H2 |].
        intros j' c' a' rb' Heq Hdrf. injection Heq as _ _ _ <-.
        apply H3. exact Hdrf.
      * destruct (sdu_rx_ctrl_last j c flow rb) as [Hc [_ [Hr _]]].
        destruct (Hframe _ Hc Hr) as [H1 H2].
        split; [exact H1 |]. split; [exact H2 |]. intros; discriminate.
    + injection Hstep as <-.
      destruct (sdu_rx_consumed_rcv self_addr a flow rb) as [Hc [Hl [Hp Hq]]].
      destruct Hinv as [H1 [H2 [H3 H4]]].
      rewrite u64_small in Hl by (unfold is_u64; lia).
      unfold rx_inv. rewrite Hc, Hl, Hp, Hq.
      split; [repeat split; auto; lia |].
      split; [intros _; lia | intros; discriminate].
    + injection Hstep as <-.
      destruct (Hframe (snd_inact_tmr_cb flow) eq_refl eq_refl) as [H1 H2].
      split; [exact H1 |]. split; [exact H2 | intros; discriminate].
    + injection Hstep as <-.
      destruct (Hframe (rcv_inact_tmr_cb flow) eq_refl eq_refl) as [H1 H2].
      split; [exact H1 |]. split; [exact H2 | intros; discriminate].
    + destruct (rtx_tmr_cb fuel j c self_addr flow) as [[f evs] |] eqn:E;
        [| discriminate].
      injection Hstep as <-. apply rtx_tmr_cb_frame in E.
      destruct E as [Hc [_ [_ [Hr _]]]].
      destruct (Hframe _ Hc Hr) as [H1 H2].
      split; [exact H1 |]. split; [exact H2 | intros; discriminate].
Qed.

(** * Instances and counterexamples *)

(** The RMT on backpressure, with room in the deferred-send queue and with
    the queue full: the return value is the same. *)
Lemma rmt_tx_nosleep_eagain_witness :
  pduft_lookup (pdu_ft (ex_world 2)) 7 = Some ex_lower
  /\ (exists w', rmt_tx 1 (ex_world 2) [- EAGAIN] 0 7 (ex_data 1 0 0) false
                 = Some (w', [ev_lower_write 3 (ex_data 1 0 0) (- EAGAIN)],
                         - EAGAIN))
  /\ rmt_tx 1 (ex_world 64) [- EAGAIN] 0 7 (ex_data 1 0 0) false
     = Some (ex_world 64,
             [ev_lower_write 3 (ex_data 1 0 0) (- EAGAIN); ev_free (ex_data 1 0 0)],
             - EAGAIN).
Proof.
  split; [reflexivity |]. split.
  - eexists.
    apply (proj1 (rmt_tx_nosleep_eagain 1 (ex_world 2) [] 0 7 (ex_data 1 0 0)
                    ex_lower eq_refl)).
    vm_compute. reflexivity.
  - apply (proj2 (rmt_tx_nosleep_eagain 1 (ex_world 64) [] 0 7 (ex_data 1 0 0)
                    ex_lower eq_refl)).
    vm_compute. discriminate.
Defined.

(** The send path with a full closed-window queue: seven SDUs were written
    on a flow with credit 2 and a queue of 4, the eighth is refused. *)
Lemma sdu_write_admission_witness :
  admission_refused (ex_write_many 7 0 (ex_flow ex_cfg_win))
  /\ sdu_write_locked 1 0 None (ex_write_many 7 0 (ex_flow ex_cfg_win)) (ex_sdu 7)
     = (snd_inact_rearm 0 (ex_write_many 7 0 (ex_flow ex_cfg_win)), [],
        we_return (- EAGAIN)).
Proof.
  assert (H : admission_refused (ex_write_many 7 0 (ex_flow ex_cfg_win))).
  { left. split; [reflexivity |]. split; vm_compute; [reflexivity | discriminate]. }
  split; [exact H |].
  exact (proj1 (proj1 (proj2 (sdu_write_admission 1 0 None
                                (ex_write_many 7 0 (ex_flow ex_cfg_win))
                                (ex_sdu 7))) H)).
Defined.

(** The send path when the clone cannot be allocated, on a fresh flow with
    retransmission control. *)
Lemma sdu_write_clone_failure_witness :
  let flow := ex_flow ex_cfg_rtx in
  let r := sdu_write_locked 1 0 None flow (ex_sdu 1) in
  ~ admission_refused flow
  /\ snd r = we_return (- ENOMEM)
  /\ tx_pkt (stats (fst (fst r))) = tx_pkt (stats flow)
  /\ tx_byte (stats (fst (fst r))) = tx_byte (stats flow).
Proof.
  intros flow r.
  assert (Hadm : ~ admission_refused flow).
  { intros [[H _] | [_ H]]; [discriminate H |]. vm_compute in H.
    apply H. reflexivity. }
  split; [exact Hadm |].
  pose proof (sdu_write_clone_failure 1 0 flow (ex_sdu 1)
                {| rb_addr := 1; rb_room := 0; len := 100;
                   pcic := ex_pcic 0 0 0 0 0; rtx_jiffies := 0;
                   tx_compl_flow := None |}
                Hadm eq_refl eq_refl eq_refl
                ltac:(intros H; vm_compute in H; discriminate H)
                ltac:(vm_compute; split; [discriminate | reflexivity])
                ltac:(vm_compute; split; [discriminate | reflexivity]))
    as [H1 [_ [H2 [H3 _]]]].
  auto.
Defined.

(** C6, the claim as stated fails.  The sequencing queue of the flow holds
    64 buffers (sequence numbers 2 to 65 were received while 0 and 1 are
    missing, retransmission control being on).  The PDU with sequence
    number 100 then satisfies neither the drop rule nor the deliver rule,
    yet it is not held in the sequencing queue: [seqq_push] frees it. *)
Lemma sdu_rx_data_overrun :
  let flow := ex_seqq_full in
  let rb := ex_data 100 100 0 in
  let gap := rb_seq rb - rcv_lwe_priv (flow_dtp flow) in
  let r := sdu_rx_data 1 0 None (fun _ => 0) flow rb in
  Z.testbit (pdu_flags (RLITE_BUF_PCI rb)) 0 = false
  /\ rcv_lwe_priv (flow_dtp flow) <= rb_seq rb
  /\ ~ drop_rule (cfg flow) gap
  /\ ~ deliver_rule (cfg flow) gap
  /\ snd (fst r) = [ev_free rb]
  /\ ~ In rb (seqq (flow_dtp (fst (fst r)))).
Proof.
  intros flow rb gap r.
  split; [reflexivity |]. split; [vm_compute; discriminate |].
  split; [intros [_ [_ [H _]]]; vm_compute in H; discriminate H |].
  split; [intros [_ H]; vm_compute in H; apply H; reflexivity |].
  split; [vm_compute; reflexivity |].
  intros Hin. apply (in_map rb_addr) in Hin. vm_compute in Hin.
  repeat (destruct Hin as [Hin | Hin]; [discriminate Hin |]). exact Hin.
Qed.

(** The receive path on a PDU two ahead of the frontier, on a fresh flow
    with retransmission control: it is held. *)
Lemma sdu_rx_data_disposition_witness :
  let flow := ex_flow ex_cfg_rtx in
  let rb := ex_data 2 2 0 in
  let r := sdu_rx_data 1 0 None (fun _ => 0) flow rb in
  Z.testbit (pdu_flags (RLITE_BUF_PCI rb)) 0 = false
  /\ is_u64 (rb_seq rb)
  /\ is_u64 (rcv_lwe_priv (flow_dtp flow))
  /\ rcv_lwe_priv (flow_dtp flow) <= rb_seq rb
  /\ In rb (seqq (flow_dtp (fst (fst r))))
  /\ delivered_seqs (snd (fst r)) = [].
Proof.
  intros flow rb r.
  assert (H1 : Z.testbit (pdu_flags (RLITE_BUF_PCI rb)) 0 = false) by reflexivity.
  assert (H2 : is_u64 (rb_seq rb)) by (vm_compute; split; [discriminate | reflexivity]).
  assert (H3 : is_u64 (rcv_lwe_priv (flow_dtp flow)))
    by (vm_compute; split; [discriminate | reflexivity]).
  assert (H4 : rcv_lwe_priv (flow_dtp flow) <= rb_seq rb)
    by (vm_compute; discriminate).
  do 4 (split; [assumption |]).
  destruct (sdu_rx_data_disposition 1 0 None (fun _ => 0) flow rb H1 H2 H3 H4)
    as [_ [_ Hhold]].
  assert (Hnd : ~ drop_rule (cfg flow)
                    (rb_seq rb - rcv_lwe_priv (flow_dtp flow))).
  { intros [_ [_ [H _]]]. vm_compute in H. discriminate H. }
  assert (Hnl : ~ deliver_rule (cfg flow)
                    (rb_seq rb - rcv_lwe_priv (flow_dtp flow))).
  { intros [_ H]. vm_compute in H. apply H. reflexivity. }
  destruct (Hhold Hnd Hnl) as [_ [Hdel [_ [_ [Hheld _]]]]].
  split; [| exact Hdel].
  apply Hheld; [vm_compute; reflexivity | constructor].
Defined.

(** The deliver rule on the PDU that fills the gap: 0 and 2 were received,
    1 arrives. *)
Lemma sdu_rx_deliver_pops_witness :
  let flow := ex_gap in
  let rb := ex_data 3 1 0 in
  let r := sdu_rx_data 1 0 None (fun _ => 0) flow rb in
  Z.testbit (pdu_flags (RLITE_BUF_PCI rb)) 0 = false
  /\ rcv_lwe_priv (flow_dtp flow) <= rb_seq rb
  /\ deliver_rule (cfg flow) (rx_gap flow (rb_seq rb))
  /\ exists popped kept,
       pops (max_sdu_gap (cfg flow)) (u64 (rb_seq rb + 1)) (seqq (flow_dtp flow))
            popped kept (rcv_lwe_priv (flow_dtp (fst (fst r))))
       /\ seqq (flow_dtp (fst (fst r))) = kept.
Proof.
  intros flow rb r.
  assert (H1 : Z.testbit (pdu_flags (RLITE_BUF_PCI rb)) 0 = false) by reflexivity.
  assert (H2 : rcv_lwe_priv (flow_dtp flow) <= rb_seq rb)
    by (vm_compute; discriminate).
  assert (H3 : deliver_rule (cfg flow) (rx_gap flow (rb_seq rb))).
  { split; [intros [_ [_ [H _]]]; vm_compute in H; discriminate H |].
    vm_compute. discriminate. }
  do 3 (split; [assumption |]).
  destruct (proj1 sdu_rx_deliver_pops 1 0 None (fun _ => 0) flow rb H1 H2 H3)
    as [popped [kept [Hp [Hk _]]]].
  exists popped, kept. split; assumption.
Defined.

(** The retransmission queue after four writes holds 0, 1 and 2. *)
Lemma rtxq_sorted_witness :
  reachable 1 ex_sent
  /\ map rb_seq (rtxq (flow_dtp ex_sent)) = [0; 1; 2]
  /\ seq_sorted (rtxq (flow_dtp ex_sent)).
Proof.
  assert (H : reachable 1 ex_sent).
  { exists (fun m => m), None, ex_cfg_win, 2, 20, 10, false, (ex_write_ops 4 0).
    split; vm_compute; reflexivity. }
  split; [exact H |]. split; [vm_compute; reflexivity |].
  exact (proj1 (rtxq_sorted 1 ex_sent H)).
Defined.

(** An acknowledgement of sequence number 1 on that flow: 0 and 1 leave the
    retransmission queue, 2 stays. *)
Lemma ctrl_ack_removes_witness :
  let rb := ex_ctrl 50 ex_t_ack 1 1 0 in
  let d' := flow_dtp (fst (fst (sdu_rx_ctrl 5 ex_clone_ok ex_sent rb))) in
  reachable 1 ex_sent
  /\ is_ctrl_pdu (RLITE_BUF_PCI_CTRL rb) = true
  /\ ctrl_seq_duplicate (RLITE_BUF_PCI_CTRL rb) (flow_dtp ex_sent) = false
  /\ has_bit (RLITE_BUF_PCI_CTRL rb) PDU_T_ACK_BIT = true
  /\ Z.land (pdu_type (RLITE_BUF_PCI rb)) PDU_T_ACK_MASK = PDU_T_ACK
  /\ map rb_seq (rtxq d') = [2]
  /\ Forall (fun b => ack_nack_seq_num (RLITE_BUF_PCI_CTRL rb) < rb_seq b)
            (rtxq d').
Proof.
  intros rb d'.
  assert (H : reachable 1 ex_sent).
  { exists (fun m => m), None, ex_cfg_win, 2, 20, 10, false, (ex_write_ops 4 0).
    split; vm_compute; reflexivity. }
  assert (H1 : is_ctrl_pdu (RLITE_BUF_PCI_CTRL rb) = true)
    by (vm_compute; reflexivity).
  assert (H2 : ctrl_seq_duplicate (RLITE_BUF_PCI_CTRL rb) (flow_dtp ex_sent)
               = false) by (vm_compute; reflexivity).
  assert (H3 : has_bit (RLITE_BUF_PCI_CTRL rb) PDU_T_ACK_BIT = true)
    by (vm_compute; reflexivity).
  assert (H4 : Z.land (pdu_type (RLITE_BUF_PCI rb)) PDU_T_ACK_MASK = PDU_T_ACK)
    by (vm_compute; reflexivity).
  split; [exact H |]. split; [exact H1 |]. split; [exact H2 |].
  split; [exact H3 |]. split; [exact H4 |].
  split; [vm_compute; reflexivity |].
  pose proof (ctrl_ack_removes 1 5 ex_clone_ok ex_sent rb H H1 H2 H3 H4) as W.
  cbv zeta in W. exact (proj1 W).
Defined.

(** C7, the claim as stated fails.  Retransmission control is on and PDU 3
    waits in the closed-window queue; a window update to 10 arrives while
    the allocator has no memory for the clone.  PDU 3 is drained and handed
    to the RMT, but no clone of it enters the retransmission queue. *)
Lemma ctrl_window_update_no_clone :
  let rb := ex_ctrl 50 ex_t_fc 0 0 10 in
  let r := sdu_rx_ctrl 5 ex_clone_fail ex_sent rb in
  rtx_control (cfg ex_sent) = true
  /\ map rb_seq (cwq (flow_dtp ex_sent)) = [3]
  /\ is_ctrl_pdu (RLITE_BUF_PCI_CTRL rb) = true
  /\ ctrl_seq_duplicate (RLITE_BUF_PCI_CTRL rb) (flow_dtp ex_sent) = false
  /\ has_bit (RLITE_BUF_PCI_CTRL rb) PDU_T_FC_BIT = true
  /\ snd_rwe (flow_dtp ex_sent) <= new_rwe (RLITE_BUF_PCI_CTRL rb)
  /\ dispatched_seqs (snd (fst r)) = [3]
  /\ cwq (flow_dtp (fst (fst r))) = []
  /\ map rb_seq (rtxq (flow_dtp (fst (fst r)))) = [0; 1; 2]
  /\ ~ In 3 (map rb_seq (rtxq (flow_dtp (fst (fst r))))).
Proof.
  intros rb r. do 5 (split; [vm_compute; reflexivity |]).
  split; [vm_compute; discriminate |].
  do 3 (split; [vm_compute; reflexivity |]).
  vm_compute. intros H.
  repeat (destruct H as [H | H]; [discriminate H |]). exact H.
Qed.

(** The same window update with memory for the clone. *)
Lemma ctrl_window_update_witness :
  let rb := ex_ctrl 50 ex_t_fc 0 0 10 in
  let r := sdu_rx_ctrl 5 ex_clone_ok ex_sent rb in
  is_ctrl_pdu (RLITE_BUF_PCI_CTRL rb) = true
  /\ ctrl_seq_duplicate (RLITE_BUF_PCI_CTRL rb) (flow_dtp ex_sent) = false
  /\ has_bit (RLITE_BUF_PCI_CTRL rb) PDU_T_FC_BIT = true
  /\ is_u64 (new_rwe (RLITE_BUF_PCI_CTRL rb))
  /\ 0 <= snd_lwe (flow_dtp ex_sent)
  /\ snd_rwe (flow_dtp ex_sent) <= new_rwe (RLITE_BUF_PCI_CTRL rb)
  /\ snd_rwe (flow_dtp (fst (fst r))) = new_rwe (RLITE_BUF_PCI_CTRL rb)
  /\ dispatched_seqs (snd (fst r)) = [3]
  /\ map rb_seq (rtxq (flow_dtp (fst (fst r)))) = [0; 1; 2; 3].
Proof.
  intros rb r.
  assert (H1 : is_ctrl_pdu (RLITE_BUF_PCI_CTRL rb) = true)
    by (vm_compute; reflexivity).
  assert (H2 : ctrl_seq_duplicate (RLITE_BUF_PCI_CTRL rb) (flow_dtp ex_sent)
               = false) by (vm_compute; reflexivity).
  assert (H3 : has_bit (RLITE_BUF_PCI_CTRL rb) PDU_T_FC_BIT = true)
    by (vm_compute; reflexivity).
  assert (H4 : is_u64 (new_rwe (RLITE_BUF_PCI_CTRL rb)))
    by (vm_compute; split; [discriminate | reflexivity]).
  assert (H5 : 0 <= snd_lwe (flow_dtp ex_sent)) by (vm_compute; discriminate).
  assert (H6 : snd_rwe (flow_dtp ex_sent) <= new_rwe (RLITE_BUF_PCI_CTRL rb))
    by (vm_compute; discriminate).
  split; [exact H1 |]. split; [exact H2 |]. split; [exact H3 |].
  split; [exact H4 |]. split; [exact H5 |]. split; [exact H6 |].
  pose proof (proj2 (ctrl_window_update 5 ex_clone_ok ex_sent rb H1 H2 H3 H4 H5)
                H6) as W.
  cbv zeta in W. split; [exact (proj1 W) |].
  split; vm_compute; reflexivity.
Defined.

(** C2, the claim as stated fails.  On a fresh flow the peer's first
    control PDU, with control sequence number 0, is received twice.  The
    duplicate test does not fire on the second copy, so it is processed
    again; and a second control PDU that carries the same sequence number 0
    with another window edge changes the state the first one left. *)
Lemma ctrl_duplicate_zero_processed :
  let rb1 := ex_ctrl 50 ex_t_fc 0 0 5 in
  let rb2 := ex_ctrl 51 ex_t_fc 0 0 9 in
  let flow1 := fst (fst (sdu_rx_ctrl 5 ex_clone_ok (ex_flow ex_cfg_win) rb1)) in
  let flow2 := fst (fst (sdu_rx_ctrl 6 ex_clone_ok flow1 rb2)) in
  is_ctrl_pdu (RLITE_BUF_PCI_CTRL rb1) = true
  /\ seqnum (RLITE_BUF_PCI rb2) = seqnum (RLITE_BUF_PCI rb1)
  /\ ctrl_seq_duplicate (RLITE_BUF_PCI_CTRL rb1) (flow_dtp flow1) = false
  /\ ctrl_seq_duplicate (RLITE_BUF_PCI_CTRL rb2) (flow_dtp flow1) = false
  /\ snd_rwe (flow_dtp flow1) = 5
  /\ snd_rwe (flow_dtp flow2) = 9
  /\ flow2 <> flow1.
Proof.
  intros rb1 rb2 flow1 flow2.
  do 6 (split; [vm_compute; reflexivity |]).
  intros H. apply (f_equal (fun f => snd_rwe (flow_dtp f))) in H.
  vm_compute in H. discriminate H.
Qed.

(** Two control PDUs with control sequence number 5 on a fresh flow: the
    second is dropped as a duplicate. *)
Lemma ctrl_duplicate_dropped_witness :
  let rb1 := ex_ctrl 50 ex_t_fc 5 0 5 in
  let rb2 := ex_ctrl 51 ex_t_fc 5 0 9 in
  let flow := ex_flow ex_cfg_win in
  let flow1 := fst (fst (sdu_rx_ctrl 5 ex_clone_ok flow rb1)) in
  is_ctrl_pdu (RLITE_BUF_PCI_CTRL rb1) = true
  /\ seqnum (RLITE_BUF_PCI rb2) = seqnum (RLITE_BUF_PCI rb1)
  /\ 0 <= seqnum (RLITE_BUF_PCI rb1) < 2 ^ 64 - 1
  /\ 0 <= last_ctrl_seq_num_rcvd (flow_dtp flow)
  /\ ctrl_seq_duplicate (RLITE_BUF_PCI_CTRL rb2) (flow_dtp flow1) = true
  /\ fst (fst (sdu_rx_ctrl 6 ex_clone_ok flow1 rb2)) = flow1.
Proof.
  intros rb1 rb2 flow flow1.
  assert (H1 : is_ctrl_pdu (RLITE_BUF_PCI_CTRL rb1) = true)
    by (vm_compute; reflexivity).
  assert (H2 : seqnum (RLITE_BUF_PCI rb2) = seqnum (RLITE_BUF_PCI rb1))
    by (vm_compute; reflexivity).
  assert (H3 : 0 <= seqnum (RLITE_BUF_PCI rb1) < 2 ^ 64 - 1)
    by (vm_compute; split; [discriminate | reflexivity]).
  assert (H4 : 0 <= last_ctrl_seq_num_rcvd (flow_dtp flow))
    by (vm_compute; discriminate).
  split; [exact H1 |]. split; [exact H2 |]. split; [exact H3 |].
  split; [exact H4 |].
  pose proof (proj1 (ctrl_duplicate_dropped 5 6 ex_clone_ok ex_clone_ok flow
                       rb1 rb2 H1 H2 H3 H4)) as W.
  cbv zeta in W.
  assert (Hn : seqnum (RLITE_BUF_PCI rb1) <> 0
               \/ last_ctrl_seq_num_rcvd (flow_dtp flow) <> 0).
  { left. vm_compute. discriminate. }
  destruct (W Hn) as [W1 [_ [W3 _]]].
  split; [exact W1 | exact W3].
Defined.

(** C1, the claim as stated fails.  A flow receives a data PDU with the DRF
    flag and sequence number 4, which is delivered, then one with the DRF
    flag and sequence number 0: both window edges go from 5 back to 1.  The
    upper layer then returns the first buffer, and [rcv_lwe] becomes 5 while
    [rcv_lwe_priv] is 1. *)
Lemma rcv_edges_decrease :
  let flow1 := ex_rx (ex_flow ex_cfg_rtx) (ex_data 1 4 1) in
  let flow2 := ex_rx flow1 (ex_data 2 0 1) in
  let flow3 := fst (fst (rlite_normal_sdu_rx_consumed 1 None flow2
                                                      (ex_data 1 4 1))) in
  rcv_lwe (flow_dtp flow1) = 5
  /\ rcv_lwe_priv (flow_dtp flow1) = 5
  /\ rcv_lwe (flow_dtp flow2) < rcv_lwe (flow_dtp flow1)
  /\ rcv_lwe_priv (flow_dtp flow2) < rcv_lwe_priv (flow_dtp flow1)
  /\ rcv_lwe_priv (flow_dtp flow3) < rcv_lwe (flow_dtp flow3).
Proof.
  intros flow1 flow2 flow3. repeat split; vm_compute; reflexivity.
Qed.

(** A data PDU without the DRF flag on a fresh flow. *)
Lemma rcv_edges_step_witness :
  let flow := ex_flow ex_cfg_rtx in
  let op := op_sdu_rx 0 ex_clone_ok None (ex_data 1 0 0) in
  let flow' := ex_rx flow (ex_data 1 0 0) in
  rx_inv flow
  /\ rx_op_ok flow op
  /\ flow_step 1 flow op = Some flow'
  /\ rx_inv flow'
  /\ (run_start op = false ->
      rcv_lwe (flow_dtp flow) <= rcv_lwe (flow_dtp flow')
      /\ rcv_lwe_priv (flow_dtp flow) <= rcv_lwe_priv (flow_dtp flow')).
Proof.
  intros flow op flow'.
  assert (H1 : rx_inv flow).
  { exact (proj1 rcv_edges_step (fun m => m) None ex_cfg_rtx 2 20 10 false). }
  assert (H2 : rx_op_ok flow op).
  { intros _. vm_compute. split; [discriminate | reflexivity]. }
  assert (H3 : flow_step 1 flow op = Some flow') by (vm_compute; reflexivity).
  split; [exact H1 |]. split; [exact H2 |]. split; [exact H3 |].
  destruct (proj2 rcv_edges_step 1 flow flow' op H1 H2 H3) as [W1 [W2 _]].
  split; [exact W1 | exact W2].
Defined.
(** * The order of delivery *)




Lemma delivered_seqs_free (l : list rlite_buf) :
  delivered_seqs (map ev_free l) = [].
Proof. induction l; simpl; auto. Qed.






Lemma seqq_insert_sorted (rb : rlite_buf) (q q' : list rlite_buf) :
  seq_sorted q -> seqq_insert rb q = Some q' -> seq_sorted q'.
Proof.
  unfold seq_sorted. revert q'.
  induction q as [| cur q IH]; simpl; intros q' Hs Hi.
  - inversion Hi; subst. simpl. constructor; constructor.
  - fold (rb_seq rb) in Hi. fold (rb_seq cur) in Hi.
    apply StronglySorted_inv in Hs. destruct Hs as [Hs Hlt].
    destruct (rb_seq rb <? rb_seq cur) eqn:E1.
    + apply Z.ltb_lt in E1. inversion Hi; subst. simpl.
      constructor; [constructor; assumption |].
      constructor; [exact E1 |].
      rewrite Forall_forall in *. intros x Hx. specialize (Hlt x Hx). lia.
    + destruct (rb_seq rb =? rb_seq cur) eqn:E2; [discriminate |].
      apply Z.ltb_ge in E1. apply Z.eqb_neq in E2.
      destruct (seqq_insert rb q) as [q'' |] eqn:E3; [| discriminate].
      inversion Hi; subst. simpl.
      constructor; [apply IH; [exact Hs | reflexivity] |].
      rewrite Forall_forall in *. intros x Hx.
      apply in_map_iff in Hx. destruct Hx as [y [<- Hy]].
      destruct (seqq_insert_elems _ _ _ _ E3 Hy) as [-> | Hin].
      * lia.
      * apply Hlt. apply in_map. exact Hin.
Qed.


Lemma sdu_rx_duplicate_facts (self_addr : Z) (alloc : option rlite_buf)
    (flow : flow_entry) (rb : rlite_buf) :
  let r := sdu_rx_duplicate self_addr alloc flow rb in
  let d' := flow_dtp (fst (fst r)) in
  (exists crb, snd (fst r) = ev_free rb :: opt_rmt_tx (remote_addr flow) crb)
  /\ rcv_fields d' = rcv_fields (flow_dtp flow)
  /\ stats (fst (fst r)) = rx_failed (stats flow)
  /\ snd r = 0.
Proof.
  unfold sdu_rx_duplicate.
  destruct (flow_control (cfg (with_stats (rx_failed (stats flow)) flow))
            && (rcv_lwe (flow_dtp flow) >=? last_snd_data_ack (flow_dtp flow))).
  - unfold ctrl_pdu_alloc. destruct alloc as [b |]; simpl.
    + split; [eexists (Some _); reflexivity | auto].
    + split; [exists None; reflexivity | auto].
  - simpl. split; [exists None; reflexivity | auto].
Qed.








(** * The sequencing queue *)

Lemma seqq_pop_scan_len (gap : Z) :
  forall (q : list rlite_buf) (d : dtp) (c : Z),
    0 <= c ->
    seqq_len d = Z.of_nat (length q) + c ->
    seqq_len d < 2 ^ 32 ->
    let r := seqq_pop_scan gap q d in
    seqq_len (snd r) = Z.of_nat (length (fst (fst r))) + c.
Proof.
  induction q as [| qrb q IH]; intros d c Hc Hlen Hb; cbn [seqq_pop_scan].
  - cbn. cbn in Hlen. lia.
  - cbn [length] in Hlen.
    destruct (u64 (seqnum (RLITE_BUF_PCI qrb) - rcv_lwe_priv d) <=? gap).
    + set (d1 := with_rcv_lwe_priv _ (with_seqq_len _ d)).
      assert (H1 : seqq_len d1 = Z.of_nat (length q) + c).
      { subst d1. cbn. unfold u32. rewrite Z.mod_small; lia. }
      specialize (IH d1 c Hc H1 ltac:(lia)). cbv zeta in IH.
      destruct (seqq_pop_scan gap q d1) as [[kept qrbs] d2].
      cbn [fst snd] in *. exact IH.
    + specialize (IH d (c + 1) ltac:(lia) ltac:(lia) Hb). cbv zeta in IH.
      destruct (seqq_pop_scan gap q d) as [[kept qrbs] d2].
      cbn [fst snd length] in *. lia.
Qed.

Lemma sdu_rx_sv_update_seqq (self_addr : Z) (alloc : option rlite_buf)
    (flow : flow_entry) :
  let d' := flow_dtp (fst (sdu_rx_sv_update self_addr alloc flow)) in
  seqq d' = seqq (flow_dtp flow) /\ seqq_len d' = seqq_len (flow_dtp flow)
  /\ rcv_lwe_priv d' = rcv_lwe_priv (flow_dtp flow)
  /\ rcv_lwe d' = rcv_lwe (flow_dtp flow)
  /\ stats (fst (sdu_rx_sv_update self_addr alloc flow)) = stats flow.
Proof.
  destruct (sdu_rx_sv_update_shape self_addr alloc flow) as [r [n H]].
  cbv zeta. rewrite H. cbn. auto.
Qed.

Lemma seqq_push_inv (d : dtp) (rb : rlite_buf) :
  seq_sorted (seqq d) ->
  seqq_len d = Z.of_nat (length (seqq d)) ->
  seqq_len d <= SEQQ_MAX_LEN ->
  let d' := fst (seqq_push d rb) in
  seq_sorted (seqq d')
  /\ seqq_len d' = Z.of_nat (length (seqq d'))
  /\ seqq_len d' <= SEQQ_MAX_LEN.
Proof.
  intros Hs Hl Hb. unfold seqq_push.
  destruct (seqq_len d >=? SEQQ_MAX_LEN) eqn:E; cbn [fst]; [auto |].
  destruct (seqq_insert rb (seqq d)) as [q |] eqn:Ei; cbn [fst]; [| auto].
  assert (Hlt : seqq_len d < SEQQ_MAX_LEN).
  { destruct (Z.geb_spec (seqq_len d) SEQQ_MAX_LEN); [discriminate | lia]. }
  unfold SEQQ_MAX_LEN in *.
  assert (Hq : length q = S (length (seqq d))).
  { clear - Ei. revert q Ei. induction (seqq d) as [| cur l IH]; simpl; intros q Ei.
    - inversion Ei; reflexivity.
    - destruct (_ <? _); [inversion Ei; reflexivity |].
      destruct (_ =? _); [discriminate |].
      destruct (seqq_insert rb l) as [q'' |]; [| discriminate].
      inversion Ei; subst. simpl. f_equal. apply IH. reflexivity. }
  cbn. split; [eapply seqq_insert_sorted; eassumption |].
  unfold u32. rewrite Z.mod_small by lia. rewrite Hq. lia.
Qed.

Lemma seqq_inv_frame (f f' : flow_entry) :
  rcv_fields (flow_dtp f') = rcv_fields (flow_dtp f) ->
  seqq_inv f -> seqq_inv f'.
Proof.
  intros H. apply rcv_fields_eq in H. destruct H as [_ [_ [Hq Hl]]].
  unfold seqq_inv. rewrite Hq, Hl. auto.
Qed.

Lemma seqq_inv_eq (f f' : flow_entry) :
  seqq (flow_dtp f') = seqq (flow_dtp f) ->
  seqq_len (flow_dtp f') = seqq_len (flow_dtp f) ->
  seqq_inv f -> seqq_inv f'.
Proof. unfold seqq_inv. intros -> ->. auto. Qed.

Lemma sdu_rx_data_seqq_inv (self_addr jiffies : Z) (alloc : option rlite_buf)
    (up : rlite_buf -> Z) (flow : flow_entry) (rb : rlite_buf) :
  seqq_inv flow ->
  seqq_inv (fst (fst (sdu_rx_data self_addr jiffies alloc up flow rb))).
Proof.
  intros Hinv. unfold sdu_rx_data.
  assert (H0 : seqq_inv (rcv_inact_rearm jiffies flow)).
  { apply (seqq_inv_eq flow); auto;
      unfold rcv_inact_rearm; destruct (dtcp_present (cfg flow)); reflexivity. }
  set (flow0 := rcv_inact_rearm jiffies flow) in *. clearbody flow0.
  destruct (Z.testbit _ 0).
  - (* a run starts *)
    unfold sdu_rx_drf.
    match goal with
    | |- context [sdu_rx_sv_update ?s ?a ?f] =>
        pose proof (sdu_rx_sv_update_seqq s a f) as [Hq [Hl _]];
        destruct (sdu_rx_sv_update s a f) as [f' crb]
    end.
    cbn [fst snd] in *. apply (seqq_inv_eq flow0); auto.
  - destruct (_ <? rcv_lwe_priv (flow_dtp flow0)).
    + apply (seqq_inv_frame flow0); auto.
      apply (sdu_rx_duplicate_facts self_addr alloc flow0 rb).
    + assert (H1 : seqq_inv (max_seq_raise (seqnum (RLITE_BUF_PCI rb)) flow0)).
      { apply (seqq_inv_eq flow0); auto;
          unfold max_seq_raise; destruct (_ >? _); reflexivity. }
      set (flow1 := max_seq_raise _ flow0) in *. clearbody flow1.
      destruct (rx_deliver flow1 _); [| destruct (rx_drop flow1 _)].
      * (* delivered *)
        unfold sdu_rx_deliver, seqq_pop_many.
        set (d1 := with_rcv_lwe_priv _ (flow_dtp flow1)).
        destruct H1 as [Hs [Hl Hb]].
        pose proof (seqq_pop_scan_pops (max_sdu_gap (cfg flow1)) (seqq d1) d1)
          as [Hpops _].
        pose proof (seqq_pop_scan_len (max_sdu_gap (cfg flow1)) (seqq d1) d1 0
                      ltac:(lia) ltac:(subst d1; cbn; lia)
                      ltac:(subst d1; cbn; unfold SEQQ_MAX_LEN in Hb; lia)) as Hlen.
        cbv zeta in Hlen, Hpops.
        destruct (seqq_pop_scan _ (seqq d1) d1) as [[kept qrbs] d2].
        cbn [fst snd] in *.
        assert (Hk : seq_sorted kept).
        { apply (pops_sorted _ _ _ _ _ _ Hpops). subst d1. exact Hs. }
        assert (Hkl : Z.of_nat (length kept) <= SEQQ_MAX_LEN).
        { transitivity (Z.of_nat (length (seqq d1))); [| subst d1; cbn; lia].
          apply inj_le. clear - Hpops.
          induction Hpops; simpl; lia. }
        assert (Hgoal : forall f, seqq (flow_dtp f) = kept ->
                          seqq_len (flow_dtp f) = seqq_len d2 -> seqq_inv f).
        { intros f Hq Hl'. unfold seqq_inv. rewrite Hq, Hl', Hlen.
          split; [exact Hk |]. split; lia. }
        destruct (upper_ipcp flow1).
        -- match goal with
           | |- context [sdu_rx_sv_update ?s ?a ?f] =>
               pose proof (sdu_rx_sv_update_seqq s a f) as [Hq [Hl' _]];
               destruct (sdu_rx_sv_update s a f) as [f' crb]
           end.
           cbn [fst snd] in *.
           destruct (rlite_buf_pci_pop rb); cbn [fst]; apply Hgoal; cbn;
             assumption.
        -- destruct (rlite_buf_pci_pop rb); cbn [fst]; apply Hgoal; reflexivity.
      * (* dropped *)
        unfold sdu_rx_dropped.
        match goal with
        | |- context [sdu_rx_sv_update ?s ?a ?f] =>
            pose proof (sdu_rx_sv_update_seqq s a f) as [Hq [Hl _]];
            destruct (sdu_rx_sv_update s a f) as [f' crb]
        end.
        cbn [fst snd] in *. apply (seqq_inv_eq flow1); auto.
      * (* held *)
        unfold sdu_rx_hold.
        destruct H1 as [Hs [Hl Hb]].
        pose proof (seqq_push_inv (flow_dtp flow1) rb Hs Hl Hb) as Hpush.
        cbv zeta in Hpush.
        destruct (seqq_push (flow_dtp flow1) rb) as [d evs]. cbn [fst snd] in *.
        match goal with
        | |- context [sdu_rx_sv_update ?s ?a ?f] =>
            pose proof (sdu_rx_sv_update_seqq s a f) as [Hq [Hl' _]];
            destruct (sdu_rx_sv_update s a f) as [f' crb]
        end.
        cbn [fst snd] in *. unfold seqq_inv. rewrite Hq, Hl'. cbn. exact Hpush.
Qed.
Lemma flow_step_seqq_inv (self_addr : Z) (flow flow' : flow_entry)
    (op : flow_op) :
  seqq_inv flow ->
  flow_step self_addr flow op = Some flow' ->
  seqq_inv flow'.
Proof.
  intros Hinv Hstep.
  destruct op as [j c rb | j c a rb | a rb | | | fuel j c]; cbn [flow_step] in *.
  - injection Hstep as <-.
    apply (seqq_inv_frame flow); [| exact Hinv].
    apply (sdu_write_locked_rcv self_addr j c flow rb).
  - injection Hstep as <-. unfold sdu_rx_on_flow.
    destruct (negb _).
    + apply (seqq_inv_frame flow); [| exact Hinv].
      apply (sdu_rx_ctrl_last j c flow rb).
    + apply sdu_rx_data_seqq_inv. exact Hinv.
  - injection Hstep as <-. unfold rlite_normal_sdu_rx_consumed.
    match goal with
    | |- context [sdu_rx_sv_update ?s ?a ?f] =>
        pose proof (sdu_rx_sv_update_seqq s a f) as [Hq [Hl _]];
        destruct (sdu_rx_sv_update s a f) as [f' crb]
    end.
    cbn [fst snd] in *. apply (seqq_inv_eq flow); auto.
  - injection Hstep as <-. apply (seqq_inv_eq flow); auto.
  - injection Hstep as <-. apply (seqq_inv_eq flow); auto.
  - destruct (rtx_tmr_cb fuel j c self_addr flow) as [[f evs] |] eqn:E;
      [| discriminate].
    injection Hstep as <-. apply rtx_tmr_cb_frame in E.
    apply (seqq_inv_frame flow); [| exact Hinv]. apply E.
Qed.

Lemma flow_run_seqq_inv (self_addr : Z) (ops : list flow_op) :
  forall flow flow' : flow_entry,
    seqq_inv flow ->
    flow_run self_addr flow ops = Some flow' ->
    seqq_inv flow'.
Proof.
  induction ops as [| op ops IH]; intros flow flow' Hinv Hrun;
    cbn [flow_run] in Hrun.
  - injection Hrun as <-. exact Hinv.
  - destruct (flow_step self_addr flow op) as [flow1 |] eqn:E; [| discriminate].
    eapply IH; [| exact Hrun]. eapply flow_step_seqq_inv; eassumption.
Qed.

(** X3.  In every state a flow reaches, the sequencing queue is strictly
    ascending in sequence number (so no two of its buffers share one),
    [seqq_len] is the number of buffers it holds, and it holds at most
    [SEQQ_MAX_LEN = 64] of them. *)
Theorem seqq_sorted_bounded (self_addr : Z) (flow : flow_entry)
    (Hreach : reachable self_addr flow) :
  let d := flow_dtp flow in
  seq_sorted (seqq d)
  /\ NoDup (map rb_seq (seqq d))
  /\ seqq_len d = Z.of_nat (length (seqq d))
  /\ (length (seqq d) <= 64)%nat.
Proof.
  destruct Hreach as [m [dif [c [ra [rc [lc [up [ops [_ Hrun]]]]]]]]].
  assert (H0 : seqq_inv (fresh_flow m dif c ra rc lc up)).
  { unfold seqq_inv, seq_sorted. cbn. split; [constructor |].
    unfold SEQQ_MAX_LEN. lia. }
  destruct (flow_run_seqq_inv self_addr ops _ _ H0 Hrun) as [Hs [Hl Hb]].
  cbv zeta. split; [exact Hs |]. split; [apply sorted_lt_nodup; exact Hs |].
  split; [exact Hl |]. unfold SEQQ_MAX_LEN in Hb. lia.
Qed.

(** A flow with retransmission control received 0, 5, 3 and 7: 3, 5 and 7
    wait in the sequencing queue. *)
Lemma seqq_sorted_bounded_witness :
  exists flow,
    flow_run 1 (ex_flow ex_cfg_rtx) (ex_rx_ops [0; 5; 3; 7]) = Some flow
    /\ reachable 1 flow
    /\ map rb_seq (seqq (flow_dtp flow)) = [3; 5; 7]
    /\ seq_sorted (seqq (flow_dtp flow))
    /\ seqq_len (flow_dtp flow) = 3.
Proof.
  destruct (flow_run 1 (ex_flow ex_cfg_rtx) (ex_rx_ops [0; 5; 3; 7]))
    as [flow |] eqn:E; [| vm_compute in E; discriminate E].
  exists flow.
  assert (H : reachable 1 flow).
  { exists (fun m => m), None, ex_cfg_rtx, 2, 20, 10, false,
      (ex_rx_ops [0; 5; 3; 7]).
    split; [vm_compute; reflexivity | exact E]. }
  assert (Hq : map rb_seq (seqq (flow_dtp flow)) = [3; 5; 7]).
  { vm_compute in E. injection E as <-. vm_compute. reflexivity. }
  destruct (seqq_sorted_bounded 1 flow H) as [Hs [_ [Hl _]]].
  split; [reflexivity |]. split; [exact H |]. split; [exact Hq |].
  split; [exact Hs |]. rewrite Hl.
  apply (f_equal (@length Z)) in Hq. rewrite length_map in Hq.
  rewrite Hq. reflexivity.
Defined.
(** * The sender window *)

Lemma contiguous_consecutive (s : Z) (q : list rlite_buf) :
  contiguous_from s q -> map rb_seq q = consecutive s (length q).
Proof.
  revert s. induction q as [| b q IH]; simpl; intros s H; [reflexivity |].
  destruct H as [-> H]. f_equal. apply IH. exact H.
Qed.

Lemma contiguous_firstn (s : Z) (k : nat) (q : list rlite_buf) :
  contiguous_from s q -> contiguous_from s (firstn k q).
Proof.
  revert s k. induction q as [| b q IH]; intros s k H; destruct k; simpl; auto.
  destruct H as [Hb H]. split; [exact Hb | apply IH; exact H].
Qed.

Lemma consecutive_bound (s : Z) (n : nat) :
  Forall (fun x => s <= x < s + Z.of_nat n) (consecutive s n).
Proof.
  revert s. induction n as [| n IH]; intros s; simpl; constructor; [lia |].
  eapply Forall_impl; [| apply IH]. simpl. intros. lia.
Qed.

Lemma dispatched_seqs_app (a b : list event) :
  dispatched_seqs (a ++ b) = dispatched_seqs a ++ dispatched_seqs b.
Proof.
  induction a as [| e a IH]; [reflexivity |].
  destruct e; simpl; rewrite ?IH; reflexivity.
Qed.

Lemma dispatched_seqs_free (l : list rlite_buf) :
  dispatched_seqs (map ev_free l) = [].
Proof. induction l; simpl; auto. Qed.

Lemma dispatched_seqs_rmt_tx (f : rlite_buf -> Z) (l : list rlite_buf) :
  dispatched_seqs (map (fun qrb => ev_rmt_tx (f qrb) qrb false) l) = map rb_seq l.
Proof. induction l; simpl; congruence. Qed.

(** What [sdu_rx_ctrl] hands to the RMT: the buffers the window update lets
    out of the closed-window queue. *)
Lemma sdu_rx_ctrl_dispatched (jiffies : Z) (clone : nat -> option Z)
    (flow : flow_entry) (rb : rlite_buf) :
  let pcic := RLITE_BUF_PCI_CTRL rb in
  let d := flow_dtp flow in
  let r := sdu_rx_ctrl jiffies clone flow rb in
  let d' := flow_dtp (fst (fst r)) in
  0 <= snd_lwe d -> is_u64 (new_rwe pcic) ->
  (dispatched_seqs (snd (fst r)) = [] /\ snd_rwe d' = snd_rwe d
   /\ snd_lwe d' = snd_lwe d /\ cwq d' = cwq d)
  \/ (let k := drain_count (length (cwq d)) (snd_lwe d) (new_rwe pcic) in
      dispatched_seqs (snd (fst r)) = map rb_seq (firstn k (cwq d))
      /\ snd_rwe d <= new_rwe pcic
      /\ snd_rwe d' = new_rwe pcic
      /\ snd_lwe d' = snd_lwe d + Z.of_nat k
      /\ cwq d' = skipn k (cwq d)).
Proof.
  intros pcic d r d' Hlwe Hrwe.
  destruct (is_ctrl_pdu pcic) eqn:Ec.
  2:{ left. subst r d'. unfold sdu_rx_ctrl. fold pcic. rewrite Ec. cbn. auto. }
  destruct (ctrl_seq_duplicate pcic d) eqn:Ed.
  { left. subst r d'. unfold sdu_rx_ctrl, sdu_rx_ctrl_locked. fold pcic d.
    rewrite Ec, Ed. cbn. auto. }
  pose proof (sdu_rx_ctrl_accepted jiffies clone flow rb Ec Ed) as Hacc.
  cbv zeta in Hacc. fold pcic d r in Hacc.
  set (a := ctrl_accept (rtx_control (cfg flow)) jiffies clone pcic d) in *.
  set (k := if has_bit pcic PDU_T_ACK_BIT then ctrl_ack pcic (fst a)
            else (fst a, [])) in *.
  assert (Hk : snd_fields (fst k) = snd_fields (fst a)
               /\ exists freed, snd k = map ev_free freed).
  { subst k. destruct (has_bit pcic PDU_T_ACK_BIT).
    - destruct (ctrl_ack_fields pcic (fst a)) as [H1 [_ H2]]. auto.
    - split; [reflexivity | exists []; reflexivity]. }
  destruct Hk as [Hsf [freed Hfreed]].
  apply snd_fields_eq in Hsf. destruct Hsf as [_ [Hl [Hr [_ [Hq _]]]]].
  assert (Hd' : d' = fst k). { subst d'. rewrite Hacc. reflexivity. }
  assert (Hev : dispatched_seqs (snd (fst r)) = map rb_seq (snd a)).
  { rewrite Hacc. cbn [fst snd]. rewrite Hfreed.
    rewrite !dispatched_seqs_app, dispatched_seqs_free, dispatched_seqs_rmt_tx.
    cbn. rewrite app_nil_r. reflexivity. }
  rewrite Hev, Hd', Hl, Hr, Hq. clear Hev Hd' Hl Hr Hq Hacc Hfreed.
  subst a. unfold ctrl_accept.
  destruct (has_bit pcic PDU_T_FC_BIT); [| left; cbn; auto].
  unfold ctrl_fc. cbn [snd_rwe with_last_ctrl_seq_num_rcvd].
  destruct (new_rwe pcic <? snd_rwe d) eqn:El; [left; cbn; auto |].
  right. apply Z.ltb_ge in El.
  set (d2 := with_snd_rwe _ _).
  pose proof (cwq_drain_spec (rtx_control (cfg flow)) jiffies clone (cwq d2)
                O d2 eq_refl Hlwe ltac:(subst d2; cbn; destruct Hrwe; lia))
    as [H1 [H2 [H3 [H4 _]]]].
  cbv zeta. subst d2. cbn in H1, H2, H3, H4 |- *.
  rewrite H1, H2, H3, H4. auto.
Qed.
Lemma sdu_write_locked_dispatch (self_addr jiffies : Z) (clone : option Z)
    (flow : flow_entry) (rb rb' : rlite_buf) :
  snd (sdu_write_locked self_addr jiffies clone flow rb) = we_rmt_tx rb' ->
  rb_seq rb' = next_seq_num_to_send (flow_dtp flow)
  /\ rb_addr rb' = rb_addr rb
  /\ (is_win (fc_type (cfg flow)) && dtcp_present (cfg flow) = true ->
      rb_seq rb' <= snd_rwe (flow_dtp flow)).
Proof.
  unfold sdu_write_locked.
  destruct (snd_inact_rearm_frame jiffies flow)
    as [Hc [_ [_ [_ [Hsf _]]]]].
  apply snd_fields_eq in Hsf. destruct Hsf as [Hn [_ [Hr _]]].
  set (flow0 := snd_inact_rearm jiffies flow) in *. clearbody flow0.
  destruct (sdu_write_blocked flow0); [discriminate |].
  destruct (rlite_buf_pci_push rb) as [rb1 |] eqn:Ep; [| discriminate].
  pose proof (sdu_write_send_cases self_addr jiffies clone flow0 rb1) as H.
  cbv zeta in H.
  destruct H as [_ [_ [_ [_ [_ [_ [H | H]]]]]]].
  - destruct H as [_ [_ [_ [_ [_ [_ [Hret _]]]]]]]. rewrite Hret. discriminate.
  - destruct H as [Hw [_ [_ [c [_ [_ [H | H]]]]]]].
    + destruct H as [Hret _]. rewrite Hret. intros Heq. injection Heq as <-.
      split; [cbn; congruence |].
      split; [cbn; eapply rlite_buf_pci_push_addr; exact Ep |].
      intros Hwd. rewrite <- Hc in Hwd. specialize (Hw Hwd).
      cbn. rewrite <- Hr. exact Hw.
    + destruct H as [Hret _]. rewrite Hret. discriminate.
Qed.

(** X4.  On a flow with DTCP and window flow control, no data PDU leaves
    beyond the right edge of the sender window: a PDU that
    [rlite_normal_sdu_write] hands to the RMT carries the next sequence
    number and this is at most [snd_rwe]; the PDUs that [sdu_rx_ctrl] hands
    to the RMT on a window update carry consecutive sequence numbers
    starting at [snd_lwe], all below the new [snd_rwe]. *)
Theorem snd_window_respected (self_addr : Z) (flow : flow_entry)
    (Hreach : reachable self_addr flow)
    (Hwin : fc_type (cfg flow) = RLITE_FC_T_WIN)
    (Hdtcp : dtcp_present (cfg flow) = true) :
  let d := flow_dtp flow in
  (forall (jiffies : Z) (clone : option Z) (rb rb' : rlite_buf),
      snd (sdu_write_locked self_addr jiffies clone flow rb) = we_rmt_tx rb' ->
      rb_seq rb' = next_seq_num_to_send d /\ rb_seq rb' <= snd_rwe d)
  /\ (forall (jiffies : Z) (clone : nat -> option Z) (rb : rlite_buf),
         is_u64 (new_rwe (RLITE_BUF_PCI_CTRL rb)) ->
         let r := sdu_rx_ctrl jiffies clone flow rb in
         let sent := dispatched_seqs (snd (fst r)) in
         sent = consecutive (snd_lwe d) (length sent)
         /\ Forall (fun s => s < snd_rwe (flow_dtp (fst (fst r)))) sent).
Proof.
  intros d. split.
  - intros jiffies clone rb rb' H.
    destruct (sdu_write_locked_dispatch _ _ _ _ _ _ H) as [H1 [_ H2]].
    split; [exact H1 |]. apply H2. rewrite Hwin, Hdtcp. reflexivity.
  - intros jiffies clone rb Hrwe r sent.
    destruct (reachable_inv self_addr flow Hreach) as [bound [_ [Hinv _]]].
    destruct Hinv as [_ [Hnl [Hcont [_ [Hlwe _]]]]].
    rewrite Hwin, Hdtcp in Hlwe. specialize (Hlwe eq_refl).
    fold d in Hnl, Hcont, Hlwe. rewrite <- Hlwe in Hnl, Hcont.
    destruct (sdu_rx_ctrl_dispatched jiffies clone flow rb Hnl Hrwe)
      as [[Hs _] | Hs]; fold d r sent in Hs.
    + rewrite Hs. split; [reflexivity | constructor].
    + cbv zeta in Hs. destruct Hs as [Hs [_ [Hr _]]].
      set (k := drain_count _ _ _) in *.
      assert (Hc : contiguous_from (snd_lwe d) (firstn k (cwq d)))
        by (apply contiguous_firstn; exact Hcont).
      apply contiguous_consecutive in Hc. rewrite <- Hs in Hc.
      assert (Hlen : length sent = length (firstn k (cwq d))).
      { rewrite Hs. apply length_map. }
      rewrite <- Hlen in Hc. split; [exact Hc |].
      rewrite Hc, Hr.
      eapply Forall_impl; [| apply consecutive_bound].
      simpl. intros s Hb.
      assert (Hk : (length sent <= k)%nat).
      { rewrite Hlen. apply firstn_le_length. }
      assert (Hk2 : (k <= Z.to_nat (new_rwe (RLITE_BUF_PCI_CTRL rb) - snd_lwe d))%nat).
      { subst k. unfold drain_count. apply Nat.le_min_r. }
      destruct (length sent) as [| n] eqn:En; [lia |]. lia.
Qed.

(** X5.  In every state a flow reaches, the closed-window queue holds, in
    order, the last sequence numbers assigned, up to
    [next_seq_num_to_send - 1]; every buffer of the retransmission queue
    carries a smaller sequence number than any of them; the queue is empty
    unless the flow has DTCP and window flow control, and then [snd_lwe] is
    the sequence number at its head (the next one to assign when it is
    empty) and a non-empty queue means that [next_seq_num_to_send] is beyond
    [snd_rwe]. *)
Theorem cwq_contents (self_addr : Z) (flow : flow_entry)
    (Hreach : reachable self_addr flow) :
  let d := flow_dtp flow in
  let N := next_seq_num_to_send d in
  let L := Z.of_nat (length (cwq d)) in
  0 <= N - L
  /\ N < 2 ^ 64
  /\ map rb_seq (cwq d) = consecutive (N - L) (length (cwq d))
  /\ Forall (fun b => rb_seq b < N - L) (rtxq d)
  /\ (cwq d <> [] ->
      fc_type (cfg flow) = RLITE_FC_T_WIN /\ dtcp_present (cfg flow) = true
      /\ snd_rwe d < N)
  /\ (fc_type (cfg flow) = RLITE_FC_T_WIN -> dtcp_present (cfg flow) = true ->
      snd_lwe d = N - L).
Proof.
  intros d N L.
  destruct (reachable_inv self_addr flow Hreach) as [bound [Hb [Hinv Hclosed]]].
  destruct Hinv as [HN [Hnl [Hcont [Hwd [Hlwe [_ Hrtx]]]]]].
  fold d N L in HN, Hnl, Hcont, Hwd, Hlwe, Hrtx, Hclosed.
  split; [exact Hnl |]. split; [lia |].
  split; [apply contiguous_consecutive; exact Hcont |].
  split; [exact Hrtx |]. split.
  - intros Hne. specialize (Hwd Hne). apply andb_true_iff in Hwd.
    destruct Hwd as [Hw Hd]. apply is_win_spec in Hw. auto.
  - intros Hw Hd. apply Hlwe. rewrite Hw, Hd. reflexivity.
Qed.

(** On the flow of the example (credit 2, a queue of 4) on which four SDUs
    were written, a fifth SDU is parked, and a window update to 5 lets the
    PDUs 3 and 4 out. *)
Lemma snd_window_respected_witness :
  let rb := ex_ctrl 50 ex_t_fc 0 0 5 in
  let flow := ex_write ex_sent 4 in
  let r := sdu_rx_ctrl 5 ex_clone_ok flow rb in
  reachable 1 flow
  /\ fc_type (cfg flow) = RLITE_FC_T_WIN
  /\ dtcp_present (cfg flow) = true
  /\ is_u64 (new_rwe (RLITE_BUF_PCI_CTRL rb))
  /\ dispatched_seqs (snd (fst r)) = [3; 4]
  /\ Forall (fun s => s < snd_rwe (flow_dtp (fst (fst r))))
            (dispatched_seqs (snd (fst r))).
Proof.
  intros rb flow r.
  assert (H : reachable 1 flow).
  { exists (fun m => m), None, ex_cfg_win, 2, 20, 10, false, (ex_write_ops 5 0).
    split; vm_compute; reflexivity. }
  assert (Hu : is_u64 (new_rwe (RLITE_BUF_PCI_CTRL rb)))
    by (vm_compute; split; [discriminate | reflexivity]).
  split; [exact H |]. split; [reflexivity |]. split; [reflexivity |].
  split; [exact Hu |]. split; [vm_compute; reflexivity |].
  apply (proj2 (snd_window_respected 1 flow H eq_refl eq_refl) 5 ex_clone_ok rb Hu).
Defined.

(** The same flow: the closed-window queue holds 3 and 4, the
    retransmission queue 0, 1 and 2. *)
Lemma cwq_contents_witness :
  let flow := ex_write ex_sent 4 in
  reachable 1 flow
  /\ map rb_seq (cwq (flow_dtp flow)) = [3; 4]
  /\ map rb_seq (rtxq (flow_dtp flow)) = [0; 1; 2]
  /\ Forall (fun b => rb_seq b < 3) (rtxq (flow_dtp flow)).
Proof.
  intros flow.
  assert (H : reachable 1 flow).
  { exists (fun m => m), None, ex_cfg_win, 2, 20, 10, false, (ex_write_ops 5 0).
    split; vm_compute; reflexivity. }
  split; [exact H |]. split; [vm_compute; reflexivity |].
  split; [vm_compute; reflexivity |].
  exact (proj1 (proj2 (proj2 (proj2 (cwq_contents 1 flow H))))).
Defined.
(** * Acknowledgements from the receiver to the sender *)

(** The control PDU [sdu_rx_sv_update] builds on a flow with retransmission
    control. *)
Lemma sdu_rx_sv_update_ack (self_addr : Z) (buf crb : rlite_buf)
    (flow : flow_entry) :
  rtx_control (cfg flow) = true ->
  snd (sdu_rx_sv_update self_addr (Some buf) flow) = Some crb ->
  let pc := RLITE_BUF_PCI_CTRL crb in
  is_ctrl_pdu pc = true
  /\ has_bit pc PDU_T_ACK_BIT = true
  /\ Z.land (pdu_type (base pc)) PDU_T_ACK_MASK = PDU_T_ACK
  /\ has_bit pc PDU_T_FC_BIT = flow_control (cfg flow)
  /\ ack_nack_seq_num pc = u64 (rcv_lwe (flow_dtp flow) - 1)
  /\ new_lwe pc = rcv_lwe (flow_dtp flow)
  /\ new_rwe pc
     = (if flow_control (cfg flow) && is_win (fc_type (cfg flow))
        then u64 (rcv_lwe (flow_dtp flow) + w_initial_credit (cfg flow))
        else rcv_rwe (flow_dtp flow))
  /\ seqnum (base pc) = next_snd_ctl_seq (flow_dtp flow)
  /\ rb_addr crb = rb_addr buf.
Proof.
  intros Hrtx. unfold sdu_rx_sv_update. rewrite Hrtx.
  destruct (flow_control (cfg flow)); destruct (is_win (fc_type (cfg flow)));
    cbn -[u64]; rewrite ?Hrtx; cbn -[u64];
    intros H; injection H as <-; cbn -[u64]; repeat split; reflexivity.
Qed.

Lemma sdu_rx_ctrl_ack_split (self_addr jiffies : Z) (clone : nat -> option Z)
    (flow : flow_entry) (rb : rlite_buf) :
  reachable self_addr flow ->
  is_ctrl_pdu (RLITE_BUF_PCI_CTRL rb) = true ->
  ctrl_seq_duplicate (RLITE_BUF_PCI_CTRL rb) (flow_dtp flow) = false ->
  has_bit (RLITE_BUF_PCI_CTRL rb) PDU_T_ACK_BIT = true ->
  Z.land (pdu_type (RLITE_BUF_PCI rb)) PDU_T_ACK_MASK = PDU_T_ACK ->
  let pcic := RLITE_BUF_PCI_CTRL rb in
  let d1 := fst (ctrl_accept (rtx_control (cfg flow)) jiffies clone pcic
                             (flow_dtp flow)) in
  let d' := flow_dtp (fst (fst (sdu_rx_ctrl jiffies clone flow rb))) in
  exists removed,
    rtxq d1 = removed ++ rtxq d'
    /\ Forall (fun b => rb_seq b <= ack_nack_seq_num pcic) removed
    /\ Forall (fun b => ack_nack_seq_num pcic < rb_seq b) (rtxq d')
    /\ Forall (fun b => rb_seq b < 2 ^ 64) (rtxq d1)
    /\ (rtxq d' = [] -> rtx_tmr d' = None).
Proof.
  intros Hreach Hctrl Hacc Hack Hsub pcic d1 d'. subst pcic.
  destruct (reachable_inv self_addr flow Hreach) as [bound [Hb [Hinv Hrwe]]].
  pose proof (ctrl_accept_inv _ (rtx_control (cfg flow)) bound jiffies clone
                (RLITE_BUF_PCI_CTRL rb) (flow_dtp flow) Hb Hinv Hrwe)
    as [Hinv1 _].
  fold d1 in Hinv1.
  destruct Hinv1 as [HN [_ [_ [_ [_ [Hsorted Hlt]]]]]].
  subst d'. rewrite (sdu_rx_ctrl_accepted jiffies clone flow rb Hctrl Hacc).
  cbv zeta. rewrite Hack. fold d1. cbn [fst flow_dtp with_dtp].
  destruct (ctrl_ack_spec (RLITE_BUF_PCI_CTRL rb) d1 Hsub Hsorted)
    as [removed [Hsplit [Hall [Hrest [_ [_ [_ [_ Hempty]]]]]]]].
  cbv zeta in *.
  exists removed. split; [exact Hsplit |]. split; [exact Hall |].
  split; [exact Hrest |]. split; [| exact Hempty].
  eapply Forall_impl; [| exact Hlt]. simpl. intros b Hbq. lia.
Qed.

(** X6.  The acknowledgement round trip.  The control PDU a receiver with
    retransmission control builds while its [rcv_lwe] is [L >= 1]
    acknowledges [L - 1]; a sender that accepts it frees from its
    retransmission queue exactly the buffers with sequence numbers below
    [L], and keeps, in order, every buffer the receiver still waits for. *)
Theorem ack_round_trip (self_r self_s jiffies : Z) (clone : nat -> option Z)
    (receiver sender : flow_entry) (buf crb : rlite_buf)
    (Hrtx : rtx_control (cfg receiver) = true)
    (Hcrb : snd (sdu_rx_sv_update self_r (Some buf) receiver) = Some crb)
    (HL : 1 <= rcv_lwe (flow_dtp receiver) < 2 ^ 64)
    (Hreach : reachable self_s sender)
    (Hacc : ctrl_seq_duplicate (RLITE_BUF_PCI_CTRL crb) (flow_dtp sender) = false) :
  let L := rcv_lwe (flow_dtp receiver) in
  let pcic := RLITE_BUF_PCI_CTRL crb in
  let d1 := fst (ctrl_accept (rtx_control (cfg sender)) jiffies clone pcic
                             (flow_dtp sender)) in
  let d' := flow_dtp (fst (fst (sdu_rx_ctrl jiffies clone sender crb))) in
  ack_nack_seq_num pcic = L - 1
  /\ exists removed,
       rtxq d1 = removed ++ rtxq d'
       /\ Forall (fun b => rb_seq b < L) removed
       /\ Forall (fun b => L <= rb_seq b) (rtxq d').
Proof.
  intros L pcic d1 d'.
  destruct (sdu_rx_sv_update_ack self_r buf crb receiver Hrtx Hcrb)
    as [Hc [Hab [Hsub [_ [Hack _]]]]].
  fold pcic L in Hack.
  assert (HA : ack_nack_seq_num pcic = L - 1).
  { rewrite Hack. unfold u64. apply Z.mod_small. subst L. lia. }
  split; [exact HA |].
  destruct (sdu_rx_ctrl_ack_split self_s jiffies clone sender crb Hreach Hc Hacc
              Hab Hsub) as [removed [Hsplit [Hrem [Hkept _]]]].
  fold pcic d1 d' in Hsplit, Hrem, Hkept. rewrite HA in Hrem, Hkept.
  exists removed. split; [exact Hsplit |].
  split; (eapply Forall_impl; [| eassumption]); simpl; intros; lia.
Qed.

(** X7.  The control PDU a receiver with retransmission control builds
    while its [rcv_lwe] is still 0 (nothing consumed, no run started: a PDU
    held or dropped on a fresh flow) acknowledges [0 - 1], which is
    2^64 - 1 in a [uint64_t]; a sender that accepts it frees its whole
    retransmission queue and stops the retransmission timer. *)
Theorem ack_before_first_delivery (self_r self_s jiffies : Z)
    (clone : nat -> option Z) (receiver sender : flow_entry)
    (buf crb : rlite_buf)
    (Hrtx : rtx_control (cfg receiver) = true)
    (Hcrb : snd (sdu_rx_sv_update self_r (Some buf) receiver) = Some crb)
    (HL : rcv_lwe (flow_dtp receiver) = 0)
    (Hreach : reachable self_s sender)
    (Hacc : ctrl_seq_duplicate (RLITE_BUF_PCI_CTRL crb) (flow_dtp sender) = false) :
  let r := sdu_rx_ctrl jiffies clone sender crb in
  let d' := flow_dtp (fst (fst r)) in
  ack_nack_seq_num (RLITE_BUF_PCI_CTRL crb) = 2 ^ 64 - 1
  /\ rtxq d' = []
  /\ rtx_tmr d' = None.
Proof.
  intros r d'.
  destruct (sdu_rx_sv_update_ack self_r buf crb receiver Hrtx Hcrb)
    as [Hc [Hab [Hsub [_ [Hack _]]]]].
  rewrite HL in Hack.
  assert (HA : ack_nack_seq_num (RLITE_BUF_PCI_CTRL crb) = 2 ^ 64 - 1).
  { rewrite Hack. reflexivity. }
  split; [exact HA |].
  destruct (sdu_rx_ctrl_ack_split self_s jiffies clone sender crb Hreach Hc Hacc
              Hab Hsub) as [removed [Hsplit [_ [Hkept [Hlt Hempty]]]]].
  fold r d' in Hsplit, Hkept, Hempty. rewrite HA in Hkept.
  assert (He : rtxq d' = []).
  { destruct (rtxq d') as [| b q] eqn:E; [reflexivity |]. exfalso.
    inversion Hkept as [| ? ? Hb _]; subst.
    rewrite Hsplit in Hlt. apply Forall_app in Hlt. destruct Hlt as [_ Hlt].
    inversion Hlt as [| ? ? Hb' _]; subst. lia. }
  split; [exact He | apply Hempty; exact He].
Qed.
(** A receiver on which a run started at sequence number 1 acknowledges 1;
    the sender of the example, whose retransmission queue holds 0, 1 and 2,
    keeps 2. *)
Lemma ack_round_trip_witness :
  let receiver := ex_rx (ex_flow ex_cfg_rtx) (ex_data 1 1 1) in
  let buf := ex_ctrl 60 0 0 0 0 in
  exists crb,
    rtx_control (cfg receiver) = true
    /\ snd (sdu_rx_sv_update 2 (Some buf) receiver) = Some crb
    /\ 1 <= rcv_lwe (flow_dtp receiver) < 2 ^ 64
    /\ reachable 1 ex_sent
    /\ ctrl_seq_duplicate (RLITE_BUF_PCI_CTRL crb) (flow_dtp ex_sent) = false
    /\ ack_nack_seq_num (RLITE_BUF_PCI_CTRL crb) = 1
    /\ map rb_seq (rtxq (flow_dtp (fst (fst (sdu_rx_ctrl 5 ex_clone_ok ex_sent crb)))))
       = [2].
Proof.
  intros receiver buf.
  destruct (snd (sdu_rx_sv_update 2 (Some buf) receiver)) as [crb |] eqn:E;
    [| vm_compute in E; discriminate E].
  exists crb.
  assert (H1 : rtx_control (cfg receiver) = true) by reflexivity.
  assert (H3 : 1 <= rcv_lwe (flow_dtp receiver) < 2 ^ 64)
    by (vm_compute; split; [discriminate | reflexivity]).
  assert (H4 : reachable 1 ex_sent).
  { exists (fun m => m), None, ex_cfg_win, 2, 20, 10, false, (ex_write_ops 4 0).
    split; vm_compute; reflexivity. }
  assert (H5 : ctrl_seq_duplicate (RLITE_BUF_PCI_CTRL crb) (flow_dtp ex_sent)
               = false).
  { vm_compute in E. injection E as <-. vm_compute. reflexivity. }
  assert (H6 : map rb_seq (rtxq (flow_dtp (fst (fst (sdu_rx_ctrl 5 ex_clone_ok
                                                       ex_sent crb))))) = [2]).
  { vm_compute in E. injection E as <-. vm_compute. reflexivity. }
  destruct (ack_round_trip 2 1 5 ex_clone_ok receiver ex_sent buf crb
              H1 E H3 H4 H5) as [HA _].
  split; [exact H1 |]. split; [reflexivity |]. split; [exact H3 |].
  split; [exact H4 |]. split; [exact H5 |]. split; [| exact H6].
  rewrite HA. vm_compute. reflexivity.
Defined.

(** A fresh receiver with retransmission control acknowledges 2^64 - 1;
    the sender of the example frees the three buffers of its retransmission
    queue. *)
Lemma ack_before_first_delivery_witness :
  let receiver := ex_flow ex_cfg_rtx in
  let buf := ex_ctrl 60 0 0 0 0 in
  exists crb,
    rtx_control (cfg receiver) = true
    /\ snd (sdu_rx_sv_update 2 (Some buf) receiver) = Some crb
    /\ rcv_lwe (flow_dtp receiver) = 0
    /\ reachable 1 ex_sent
    /\ ctrl_seq_duplicate (RLITE_BUF_PCI_CTRL crb) (flow_dtp ex_sent) = false
    /\ map rb_seq (rtxq (flow_dtp ex_sent)) = [0; 1; 2]
    /\ rtxq (flow_dtp (fst (fst (sdu_rx_ctrl 5 ex_clone_ok ex_sent crb)))) = [].
Proof.
  intros receiver buf.
  destruct (snd (sdu_rx_sv_update 2 (Some buf) receiver)) as [crb |] eqn:E;
    [| vm_compute in E; discriminate E].
  exists crb.
  assert (H1 : rtx_control (cfg receiver) = true) by reflexivity.
  assert (H3 : rcv_lwe (flow_dtp receiver) = 0) by reflexivity.
  assert (H4 : reachable 1 ex_sent).
  { exists (fun m => m), None, ex_cfg_win, 2, 20, 10, false, (ex_write_ops 4 0).
    split; vm_compute; reflexivity. }
  assert (H5 : ctrl_seq_duplicate (RLITE_BUF_PCI_CTRL crb) (flow_dtp ex_sent)
               = false).
  { vm_compute in E. injection E as <-. vm_compute. reflexivity. }
  destruct (ack_before_first_delivery 2 1 5 ex_clone_ok receiver ex_sent buf crb
              H1 E H3 H4 H5) as [_ [Hq _]].
  split; [exact H1 |]. split; [reflexivity |]. split; [exact H3 |].
  split; [exact H4 |]. split; [exact H5 |].
  split; [vm_compute; reflexivity | exact Hq].
Defined.
(** * Duplicates, counters and consumption on the receive path *)

Lemma sdu_rx_duplicate_core
    (self_addr jiffies : Z) (alloc : option rlite_buf) (up : rlite_buf -> Z)
    (flow : flow_entry) (rb : rlite_buf)
    (Hdrf : Z.testbit (pdu_flags (RLITE_BUF_PCI rb)) 0 = false)
    (Hdup : rb_seq rb < rcv_lwe_priv (flow_dtp flow)) :
  let d := flow_dtp flow in
  let r := sdu_rx_data self_addr jiffies alloc up flow rb in
  let flow' := fst (fst r) in
  let d' := flow_dtp flow' in
  let answered := flow_control (cfg flow)
                  && (rcv_lwe d >=? last_snd_data_ack d) in
  snd r = 0
  /\ delivered_seqs (snd (fst r)) = []
  /\ stats flow' = rx_failed (stats flow)
  /\ rcv_fields d' = rcv_fields d
  /\ max_seq_num_rcvd d' = max_seq_num_rcvd d
  /\ (answered = false \/ alloc = None ->
      snd (fst r) = [ev_free rb]
      /\ last_snd_data_ack d' = last_snd_data_ack d
      /\ next_snd_ctl_seq d' = next_snd_ctl_seq d)
  /\ (forall buf, answered = true -> alloc = Some buf ->
      exists crb,
        snd (fst r) = [ev_free rb; ev_rmt_tx (remote_addr flow) crb false]
        /\ rb_addr crb = rb_addr buf
        /\ ack_nack_seq_num (RLITE_BUF_PCI_CTRL crb) = rcv_lwe d
        /\ has_bit (RLITE_BUF_PCI_CTRL crb) PDU_T_ACK_BIT = true
        /\ has_bit (RLITE_BUF_PCI_CTRL crb) PDU_T_FC_BIT = true
        /\ seqnum (RLITE_BUF_PCI crb) = next_snd_ctl_seq d
        /\ next_snd_ctl_seq d' = u64 (next_snd_ctl_seq d + 1)
        /\ last_snd_data_ack d' = rcv_lwe d).
Proof.
  intros d r flow' d' answered.
  subst r flow' d' answered d. unfold sdu_rx_data in *. rewrite Hdrf in *.
  fold (rb_seq rb) in *. rewrite rcv_inact_rearm_priv in *.
  apply Z.ltb_lt in Hdup. rewrite Hdup in *.
  unfold sdu_rx_duplicate in *. unfold rcv_inact_rearm in *.
  destruct flow as [c d s ra rc lc u]. cbn [cfg flow_dtp stats with_stats with_dtp
    remote_addr] in *.
  destruct (flow_control c && (rcv_lwe d >=? last_snd_data_ack d)) eqn:Ea.
  - assert (Ea' : flow_control c
                  && (rcv_lwe (if dtcp_present c
                               then with_rcv_inact_tmr
                                      (mod_timer (u64 (jiffies + 2 * mpl_r_a d))) d
                               else d)
                      >=? last_snd_data_ack
                            (if dtcp_present c
                             then with_rcv_inact_tmr
                                    (mod_timer (u64 (jiffies + 2 * mpl_r_a d))) d
                             else d)) = true).
    { destruct (dtcp_present c); exact Ea. }
    rewrite Ea' in *. clear Ea'.
    destruct alloc as [buf |].
    + destruct (dtcp_present c); cbn -[u64] in *;
        (repeat split; try reflexivity;
         try match goal with
             | H : _ \/ _ |- _ => destruct H; discriminate
             end;
         intros buf' _ Heq; injection Heq as <-; eexists;
         repeat split; reflexivity).
    + destruct (dtcp_present c); cbn -[u64] in *;
        (repeat split; try reflexivity;
         intros; discriminate).
  - assert (Ea' : flow_control c
                  && (rcv_lwe (if dtcp_present c
                               then with_rcv_inact_tmr
                                      (mod_timer (u64 (jiffies + 2 * mpl_r_a d))) d
                               else d)
                      >=? last_snd_data_ack
                            (if dtcp_present c
                             then with_rcv_inact_tmr
                                    (mod_timer (u64 (jiffies + 2 * mpl_r_a d))) d
                             else d)) = false).
    { destruct (dtcp_present c); exact Ea. }
    rewrite Ea' in *. clear Ea'.
    destruct (dtcp_present c); cbn -[u64] in *;
      (repeat split; try reflexivity;
       intros; discriminate).
Qed.

(** X8.  A data PDU without the DRF flag whose sequence number is below
    [rcv_lwe_priv] is a duplicate: it is freed, nothing is passed upwards,
    [rx_err] is incremented, and the window edges, the sequencing queue and
    [max_seq_num_rcvd] stay as they are.  A control PDU answers it only on a
    flow with flow control whose [rcv_lwe] is not below [last_snd_data_ack]
    (and when the allocator grants the buffer); that PDU acknowledges
    [rcv_lwe] itself, and [last_snd_data_ack] becomes [rcv_lwe]. *)
Theorem sdu_rx_duplicate_dropped
    (self_addr jiffies : Z) (alloc : option rlite_buf) (up : rlite_buf -> Z)
    (flow : flow_entry) (rb : rlite_buf)
    (Hdrf : Z.testbit (pdu_flags (RLITE_BUF_PCI rb)) 0 = false)
    (Hdup : rb_seq rb < rcv_lwe_priv (flow_dtp flow)) :
  let d := flow_dtp flow in
  let r := sdu_rx_data self_addr jiffies alloc up flow rb in
  let flow' := fst (fst r) in
  let d' := flow_dtp flow' in
  let answered := flow_control (cfg flow)
                  && (rcv_lwe d >=? last_snd_data_ack d) in
  snd r = 0
  /\ delivered_seqs (snd (fst r)) = []
  /\ stats flow' = rx_failed (stats flow)
  /\ rcv_fields d' = rcv_fields d
  /\ max_seq_num_rcvd d' = max_seq_num_rcvd d
  /\ snd_frame flow flow'
  /\ (answered = false \/ alloc = None ->
      snd (fst r) = [ev_free rb]
      /\ last_snd_data_ack d' = last_snd_data_ack d
      /\ next_snd_ctl_seq d' = next_snd_ctl_seq d)
  /\ (forall buf, answered = true -> alloc = Some buf ->
      exists crb,
        snd (fst r) = [ev_free rb; ev_rmt_tx (remote_addr flow) crb false]
        /\ rb_addr crb = rb_addr buf
        /\ ack_nack_seq_num (RLITE_BUF_PCI_CTRL crb) = rcv_lwe d
        /\ has_bit (RLITE_BUF_PCI_CTRL crb) PDU_T_ACK_BIT = true
        /\ has_bit (RLITE_BUF_PCI_CTRL crb) PDU_T_FC_BIT = true
        /\ seqnum (RLITE_BUF_PCI crb) = next_snd_ctl_seq d
        /\ next_snd_ctl_seq d' = u64 (next_snd_ctl_seq d + 1)
        /\ last_snd_data_ack d' = rcv_lwe d).
Proof.
  intros d r flow' d' answered.
  destruct (sdu_rx_duplicate_core self_addr jiffies alloc up flow rb Hdrf Hdup)
    as [H1 [H2 [H3 [H4 [H5 [H6 H7]]]]]].
  repeat (split; [assumption |]).
  split; [apply (sdu_rx_data_frame self_addr jiffies alloc up flow rb) |].
  split; assumption.
Qed.
(** The flow of the example with window flow control, on which a run
    started with the PDU 0, receives the PDU 0 again. *)
Lemma sdu_rx_duplicate_dropped_witness :
  let flow := ex_rx (ex_flow ex_cfg_win) (ex_data 1 0 1) in
  let rb := ex_data 2 0 0 in
  let buf := ex_ctrl 60 0 0 0 0 in
  let r := sdu_rx_data 1 7 (Some buf) (fun _ => 0) flow rb in
  Z.testbit (pdu_flags (RLITE_BUF_PCI rb)) 0 = false
  /\ rb_seq rb < rcv_lwe_priv (flow_dtp flow)
  /\ delivered_seqs (snd (fst r)) = []
  /\ rx_err (stats (fst (fst r))) = 1
  /\ exists crb,
       snd (fst r) = [ev_free rb; ev_rmt_tx (remote_addr flow) crb false]
       /\ ack_nack_seq_num (RLITE_BUF_PCI_CTRL crb) = 1.
Proof.
  intros flow rb buf r.
  assert (H1 : Z.testbit (pdu_flags (RLITE_BUF_PCI rb)) 0 = false) by reflexivity.
  assert (H2 : rb_seq rb < rcv_lwe_priv (flow_dtp flow)) by (vm_compute; reflexivity).
  destruct (sdu_rx_duplicate_dropped 1 7 (Some buf) (fun _ => 0) flow rb H1 H2)
    as [_ [Hd [Hs [_ [_ [_ [_ Hans]]]]]]].
  split; [exact H1 |]. split; [exact H2 |]. split; [exact Hd |].
  split; [fold r in Hs; rewrite Hs; vm_compute; reflexivity |].
  destruct (Hans buf ltac:(vm_compute; reflexivity) eq_refl)
    as [crb [Hev [_ [Hack _]]]].
  exists crb. split; [exact Hev |]. rewrite Hack. vm_compute. reflexivity.
Defined.


(** X10.  When the upper layer has consumed the buffer with sequence number
    [s], [rlite_normal_sdu_rx_consumed] moves the advertised left window
    edge [rcv_lwe] to [s + 1] (leaving [rcv_lwe_priv] alone), returns 0, and
    on a flow with retransmission control hands one control PDU to the RMT
    when the allocator grants it: the PDU acknowledges [s], carries the next
    control sequence number and advertises the window from [s + 1] to, with
    window flow control, [s + 1 + initial_credit].  Without retransmission
    control and flow control, or without a buffer, nothing is sent. *)
Theorem sdu_rx_consumed_advertises
    (self_addr : Z) (alloc : option rlite_buf) (flow : flow_entry)
    (rb : rlite_buf)
    (Hs : 0 <= rb_seq rb < 2 ^ 64 - 1) :
  let s := rb_seq rb in
  let d := flow_dtp flow in
  let r := rlite_normal_sdu_rx_consumed self_addr alloc flow rb in
  let d' := flow_dtp (fst (fst r)) in
  snd r = 0
  /\ rcv_lwe d' = s + 1
  /\ rcv_lwe_priv d' = rcv_lwe_priv d
  /\ (flow_control (cfg flow) = true -> fc_type (cfg flow) = RLITE_FC_T_WIN ->
      rcv_rwe d' = u64 (s + 1 + w_initial_credit (cfg flow)))
  /\ (alloc = None
      \/ (rtx_control (cfg flow) = false /\ flow_control (cfg flow) = false) ->
      snd (fst r) = [] /\ next_snd_ctl_seq d' = next_snd_ctl_seq d)
  /\ (forall buf, alloc = Some buf -> rtx_control (cfg flow) = true ->
      exists crb,
        snd (fst r) = [ev_rmt_tx (remote_addr flow) crb false]
        /\ rb_addr crb = rb_addr buf
        /\ ack_nack_seq_num (RLITE_BUF_PCI_CTRL crb) = s
        /\ new_lwe (RLITE_BUF_PCI_CTRL crb) = s + 1
        /\ new_rwe (RLITE_BUF_PCI_CTRL crb) = rcv_rwe d'
        /\ seqnum (RLITE_BUF_PCI crb) = next_snd_ctl_seq d
        /\ next_snd_ctl_seq d' = u64 (next_snd_ctl_seq d + 1)).
Proof.
  intros s d r d'. subst r d' d s.
  assert (Hu : u64 (rb_seq rb + 1) = rb_seq rb + 1).
  { unfold u64. apply Z.mod_small. lia. }
  assert (Hu' : u64 (rb_seq rb + 1 - 1) = rb_seq rb).
  { unfold u64. rewrite Z.mod_small; lia. }
  unfold rlite_normal_sdu_rx_consumed, sdu_rx_sv_update, ctrl_pdu_alloc.
  fold (rb_seq rb). rewrite Hu.
  destruct flow as [c d st ra rc lc u].
  cbn [cfg flow_dtp with_dtp remote_addr].
  destruct (flow_control c) eqn:Efc; destruct (fc_type c) eqn:Et;
    destruct (rtx_control c) eqn:Ertx; destruct alloc as [buf |];
    cbn -[u64 Z.add Z.sub];
    (repeat split; try reflexivity; try discriminate;
     try match goal with
         | H : _ \/ _ |- _ => destruct H as [H | [H H']]; discriminate
         end;
     try (intros buf' Heq _; injection Heq as <-; eexists;
          cbn -[u64 Z.add Z.sub]; rewrite ?Hu';
          repeat split; reflexivity);
     try (intros; discriminate)).
Qed.
(** The flow of the example with window flow control and retransmission
    control: the upper layer has consumed the SDU 0. *)
Lemma sdu_rx_consumed_advertises_witness :
  let flow := ex_flow ex_cfg_win in
  let rb := ex_data 1 0 0 in
  let buf := ex_ctrl 60 0 0 0 0 in
  let r := rlite_normal_sdu_rx_consumed 1 (Some buf) flow rb in
  0 <= rb_seq rb < 2 ^ 64 - 1
  /\ rcv_lwe (flow_dtp (fst (fst r))) = 1
  /\ rcv_rwe (flow_dtp (fst (fst r))) = 3
  /\ exists crb,
       snd (fst r) = [ev_rmt_tx (remote_addr flow) crb false]
       /\ ack_nack_seq_num (RLITE_BUF_PCI_CTRL crb) = 0
       /\ new_rwe (RLITE_BUF_PCI_CTRL crb) = 3.
Proof.
  intros flow rb buf r. subst r.
  assert (H : 0 <= rb_seq rb < 2 ^ 64 - 1)
    by (vm_compute; split; [discriminate | reflexivity]).
  destruct (sdu_rx_consumed_advertises 1 (Some buf) flow rb H)
    as [_ [Hl [_ [Hr [_ Hc]]]]].
  split; [exact H |]. split; [exact Hl |].
  split; [rewrite (Hr eq_refl eq_refl); vm_compute; reflexivity |].
  destruct (Hc buf eq_refl eq_refl) as [crb [Hev [_ [Ha [_ [Hn _]]]]]].
  exists crb. split; [exact Hev |]. split; [exact Ha |].
  rewrite Hn, (Hr eq_refl eq_refl). vm_compute. reflexivity.
Defined.

(** * The outcomes of a write *)


(** * The RMT *)

Lemma rmt_tx_loop_sleep (w : rmt_world) (lower : lower_flow_t) (rb : rlite_buf)
    (n : nat) :
  forall evs : list event,
    (forall ret rest, ret <> - EAGAIN ->
       rmt_tx_loop w lower rb true (repeat (- EAGAIN) n ++ ret :: rest) evs
       = Some (w, evs ++ lower_writes lower rb (repeat (- EAGAIN) n ++ [ret]), ret))
    /\ rmt_tx_loop w lower rb true (repeat (- EAGAIN) n) evs = None.
Proof.
  induction n as [| n IH]; intros evs; cbn [repeat app rmt_tx_loop].
  - split; [| reflexivity]. intros ret rest Hret.
    apply Z.eqb_neq in Hret. rewrite Hret. reflexivity.
  - rewrite Z.eqb_refl. cbn [negb].
    destruct (IH (evs ++ [ev_lower_write (lf_id lower) rb (- EAGAIN)])) as [H1 H2].
    split; [| exact H2]. intros ret rest Hret.
    rewrite (H1 ret rest Hret). unfold lower_writes. cbn [map repeat app].
    rewrite <- app_assoc. reflexivity.
Qed.

(** X12.  With [maysleep] set, [rmt_tx] on a routed address retries the
    write on the lower flow for as long as it returns [-EAGAIN] and returns
    the first other value: it never returns [-EAGAIN], never touches a
    deferred-send queue and never frees the buffer; as long as the lower
    flow keeps answering [-EAGAIN] it does not return. *)
Theorem rmt_tx_maysleep
    (self_addr : Z) (w : rmt_world) (loop_ret remote : Z) (rb : rlite_buf)
    (lower : lower_flow_t) (n : nat)
    (Hroute : pduft_lookup (pdu_ft w) remote = Some lower) :
  (forall ret rest, ret <> - EAGAIN ->
     rmt_tx self_addr w (repeat (- EAGAIN) n ++ ret :: rest) loop_ret remote rb true
     = Some (w, lower_writes lower rb (repeat (- EAGAIN) n ++ [ret]), ret))
  /\ rmt_tx self_addr w (repeat (- EAGAIN) n) loop_ret remote rb true = None.
Proof.
  unfold rmt_tx. rewrite Hroute.
  destruct (rmt_tx_loop_sleep w lower rb n []) as [H1 H2].
  split; [| exact H2]. intros ret rest Hret. rewrite (H1 ret rest Hret).
  reflexivity.
Qed.

Lemma rmt_tx_loop_frame (lower : lower_flow_t) (rb : rlite_buf) (maysleep : bool)
    (writes : list Z) :
  forall (w w' : rmt_world) (evs evs' : list event) (ret : Z),
    rmt_tx_loop w lower rb maysleep writes evs = Some (w', evs', ret) ->
    w' = w
    \/ (maysleep = false /\ ret = - EAGAIN
        /\ rmtq_len (rmt_queues w (txrx_ipcp lower)) < RMTQ_MAX_LEN
        /\ w' = set_rmt_queue (txrx_ipcp lower)
                  {| rmtq := rmtq (rmt_queues w (txrx_ipcp lower))
                             ++ [with_tx_compl_flow (Some (lf_id lower)) rb];
                     rmtq_len := u32 (rmtq_len (rmt_queues w (txrx_ipcp lower)) + 1) |}
                  w).
Proof.
  induction writes as [| r writes IH]; intros w w' evs evs' ret H;
    cbn [rmt_tx_loop] in H; [discriminate |].
  destruct (r =? - EAGAIN) eqn:Er.
  - destruct maysleep; cbn [negb] in H.
    + apply IH in H. exact H.
    + apply Z.eqb_eq in Er.
      destruct (rmtq_len (rmt_queues w (txrx_ipcp lower)) <? RMTQ_MAX_LEN) eqn:El;
        injection H as <- _ <-.
      * right. apply Z.ltb_lt in El. auto.
      * left. reflexivity.
  - injection H as <- _ _. left. reflexivity.
Qed.

(** X13.  [rmt_tx] keeps the deferred-send queues bounded and leaves the
    forwarding table alone: if before the call every queue holds as many
    buffers as its counter says and at most [RMTQ_MAX_LEN = 64], so it is
    after the call; the call changes nothing, or (without [maysleep], the
    lower flow answering [-EAGAIN], the queue not full) appends the buffer,
    with the lower flow recorded in it, to the queue of the IPCP of the
    lower flow and to no other. *)
Theorem rmt_tx_rmtq_bounded
    (self_addr : Z) (w w' : rmt_world) (writes : list Z) (loop_ret remote : Z)
    (rb : rlite_buf) (maysleep : bool) (evs : list event) (ret : Z)
    (Hok : rmtq_ok w)
    (Hrun : rmt_tx self_addr w writes loop_ret remote rb maysleep
            = Some (w', evs, ret)) :
  rmtq_ok w'
  /\ pdu_ft w' = pdu_ft w
  /\ (w' = w
      \/ exists lower,
           pduft_lookup (pdu_ft w) remote = Some lower
           /\ maysleep = false /\ ret = - EAGAIN
           /\ rmtq (rmt_queues w' (txrx_ipcp lower))
              = rmtq (rmt_queues w (txrx_ipcp lower))
                  ++ [with_tx_compl_flow (Some (lf_id lower)) rb]
           /\ forall i, i <> txrx_ipcp lower ->
                        rmt_queues w' i = rmt_queues w i).
Proof.
  unfold rmt_tx in Hrun.
  destruct (pduft_lookup (pdu_ft w) remote) as [lower |] eqn:Er.
  - apply rmt_tx_loop_frame in Hrun.
    destruct Hrun as [-> | [Hs [Hret [Hlt ->]]]]; [auto |].
    split; [| split; [reflexivity |]].
    + intros i. unfold set_rmt_queue. cbn [rmt_queues].
      destruct (i =? txrx_ipcp lower) eqn:Ei; [| apply Hok].
      destruct (Hok (txrx_ipcp lower)) as [Hl Hb].
      cbn [rmtq rmtq_len]. rewrite length_app. cbn [length].
      unfold RMTQ_MAX_LEN in *. unfold u32. rewrite Z.mod_small by lia. lia.
    + right. exists lower. split; [reflexivity |]. split; [exact Hs |].
      split; [exact Hret |].
      unfold set_rmt_queue. cbn [rmt_queues]. rewrite Z.eqb_refl.
      split; [reflexivity |]. intros i Hi.
      apply Z.eqb_neq in Hi. rewrite Hi. reflexivity.
  - destruct (negb (remote =? self_addr)); injection Hrun as <- _ _; auto.
Qed.

(** The lower flow answers [-EAGAIN] twice, then accepts the PDU. *)
Lemma rmt_tx_maysleep_witness :
  pduft_lookup (pdu_ft (ex_world 64)) 7 = Some ex_lower
  /\ rmt_tx 1 (ex_world 64) [- EAGAIN; - EAGAIN; 0; - EAGAIN] 0 7 (ex_data 1 0 0) true
     = Some (ex_world 64,
             lower_writes ex_lower (ex_data 1 0 0) [- EAGAIN; - EAGAIN; 0], 0)
  /\ rmt_tx 1 (ex_world 64) [- EAGAIN; - EAGAIN] 0 7 (ex_data 1 0 0) true = None.
Proof.
  split; [reflexivity |].
  destruct (rmt_tx_maysleep 1 (ex_world 64) 0 7 (ex_data 1 0 0) ex_lower 2 eq_refl)
    as [H1 H2].
  split; [| exact H2].
  apply (H1 0 [- EAGAIN]). discriminate.
Defined.

(** The PDU is parked behind the two buffers the queue of IPCP 5 holds. *)
Lemma rmt_tx_rmtq_bounded_witness :
  exists w',
    rmtq_ok (ex_world 2)
    /\ rmt_tx 1 (ex_world 2) [- EAGAIN] 0 7 (ex_data 1 0 0) false
       = Some (w', [ev_lower_write 3 (ex_data 1 0 0) (- EAGAIN)], - EAGAIN)
    /\ rmtq_ok w'
    /\ length (rmtq (rmt_queues w' 5)) = 3%nat.
Proof.
  assert (Hok : rmtq_ok (ex_world 2)).
  { intros i. split; [reflexivity | vm_compute; discriminate]. }
  destruct (rmt_tx 1 (ex_world 2) [- EAGAIN] 0 7 (ex_data 1 0 0) false)
    as [[[w' evs] ret] |] eqn:E; [| vm_compute in E; discriminate E].
  exists w'.
  destruct (rmt_tx_rmtq_bounded 1 (ex_world 2) w' [- EAGAIN] 0 7 (ex_data 1 0 0)
              false evs ret Hok E) as [Hok' _].
  split; [exact Hok |].
  assert (Hevs : evs = [ev_lower_write 3 (ex_data 1 0 0) (- EAGAIN)]
                 /\ ret = - EAGAIN
                 /\ length (rmtq (rmt_queues w' 5)) = 3%nat).
  { cbv in E. injection E as <- <- <-. repeat split. }
  destruct Hevs as [-> [-> Hlen]].
  split; [reflexivity |]. split; [exact Hok' | exact Hlen].
Defined.
(** * The retransmission timer *)

Lemma same_pdu_refl (b : rlite_buf) : same_pdu b b.
Proof. unfold same_pdu. auto. Qed.

Lemma same_pdu_trans (a b c : rlite_buf) :
  same_pdu a b -> same_pdu b c -> same_pdu a c.
Proof. unfold same_pdu. intuition congruence. Qed.

Lemma Forall2_same_refl (q : list rlite_buf) : Forall2 same_pdu q q.
Proof. induction q; constructor; auto using same_pdu_refl. Qed.

Lemma Forall2_same_trans (a b c : list rlite_buf) :
  Forall2 same_pdu a b -> Forall2 same_pdu b c -> Forall2 same_pdu a c.
Proof.
  intros H. revert c. induction H; intros c Hc; inversion Hc; subst;
    constructor; eauto using same_pdu_trans.
Qed.

Lemma bump_deadline_same (i : nat) (int : Z) (q : list rlite_buf) :
  Forall2 same_pdu q (bump_deadline i int q).
Proof.
  revert i. induction q as [| b q IH]; intros i; [destruct i; constructor |].
  destruct i; cbn [bump_deadline]; constructor;
    auto using same_pdu_refl, Forall2_same_refl.
  unfold same_pdu. cbn. auto.
Qed.

Lemma Forall2_same_pcic (q q' : list rlite_buf) :
  Forall2 same_pdu q q' -> map pcic q' = map pcic q.
Proof.
  induction 1 as [| b b' q q' Hb _ IH]; [reflexivity |].
  cbn. destruct Hb as [_ [_ [_ [Hp _]]]]. congruence.
Qed.

Lemma nth_error_bump (i j : nat) (int : Z) (q : list rlite_buf) :
  nth_error (bump_deadline i int q) j
  = if Nat.eqb j i then option_map (bump1 int) (nth_error q j)
    else nth_error q j.
Proof.
  revert i j. induction q as [| b q IH]; intros i j.
  - destruct i; cbn [bump_deadline]; destruct (Nat.eqb j _); destruct j;
      reflexivity.
  - destruct i, j; cbn [bump_deadline nth_error Nat.eqb]; try reflexivity.
    apply IH.
Qed.

(** What one run of the scan does: the queue keeps its buffers, only
    deadlines move; every clone made is the clone of a buffer of the queue;
    the timer is left alone, or armed at the deadline, still to come, of the
    buffer [rtx_tmr_next] is made to designate. *)
Lemma rtx_scan_spec (jiffies : Z) (clone : nat -> option Z) (start : nat) :
  forall (fuel cur k : nat) (d d' : dtp) (rrbq rrbq' : list rlite_buf),
    rtx_scan fuel jiffies clone start cur k d rrbq = Some (d', rrbq') ->
    Forall2 same_pdu (rtxq d) (rtxq d')
    /\ (exists made, rrbq' = rrbq ++ made
                     /\ Forall (fun crb => In (pcic crb) (map pcic (rtxq d))) made)
    /\ rtxq_len d' = rtxq_len d
    /\ ((rtx_tmr d' = rtx_tmr d /\ rtx_tmr_next d' = rtx_tmr_next d)
        \/ exists b, In b (rtxq d') /\ jiffies < rtx_jiffies b
                     /\ rtx_tmr_next d' = Some (rb_addr b)
                     /\ rtx_tmr d' = Some (rtx_jiffies b)).
Proof.
  induction fuel as [| fuel IH]; intros cur k d d' rrbq rrbq' H;
    cbn [rtx_scan] in H; [discriminate |].
  destruct (nth_error (rtxq d) cur) as [rb |] eqn:En.
  2:{ apply IH in H. exact H. }
  destruct (jiffies >=? rtx_jiffies rb) eqn:Ee.
  - set (d1 := with_rtxq (bump_deadline cur (rtx_tmr_int d) (rtxq d)) d) in *.
    assert (Hs1 : Forall2 same_pdu (rtxq d) (rtxq d1)).
    { subst d1. cbn. apply bump_deadline_same. }
    assert (Hin : In (pcic rb) (map pcic (rtxq d))).
    { apply in_map. eapply nth_error_In. exact En. }
    set (made1 := match clone k with
                  | Some a => [rlite_buf_clone a
                                 (with_rtx_jiffies
                                    (u64 (rtx_jiffies rb + rtx_tmr_int d1)) rb)]
                  | None => []
                  end).
    assert (Hm1 : match clone k with
                  | Some a => rrbq ++ [rlite_buf_clone a
                                         (with_rtx_jiffies
                                            (u64 (rtx_jiffies rb + rtx_tmr_int d1)) rb)]
                  | None => rrbq
                  end = rrbq ++ made1).
    { subst made1. destruct (clone k); [reflexivity | rewrite app_nil_r; reflexivity]. }
    rewrite Hm1 in H.
    assert (Hmade1 : Forall (fun crb => In (pcic crb) (map pcic (rtxq d))) made1).
    { subst made1. destruct (clone k); constructor; [exact Hin | constructor]. }
    destruct (Nat.eqb (ring_next (length (rtxq d)) cur) start).
    + injection H as <- <-.
      split; [exact Hs1 |]. split.
      * exists made1. split; [reflexivity | exact Hmade1].
      * split; [reflexivity |]. left. split; reflexivity.
    + apply IH in H. destruct H as [Hs [[made [Hr Hm]] [Hl Ht]]].
      split; [eapply Forall2_same_trans; eassumption |]. split.
      * exists (made1 ++ made). split; [rewrite Hr, app_assoc; reflexivity |].
        apply Forall_app. split; [exact Hmade1 |].
        rewrite (Forall2_same_pcic _ _ Hs1) in Hm. exact Hm.
      * split; [exact Hl | exact Ht].
  - injection H as <- <-.
    assert (Hlt : jiffies < rtx_jiffies rb).
    { destruct (Z.geb_spec jiffies (rtx_jiffies rb)); [discriminate | lia]. }
    destruct (negb (Nat.eqb cur start)); cbn.
    + split; [apply Forall2_same_refl |]. split.
      * exists []. rewrite app_nil_r. split; [reflexivity | constructor].
      * split; [reflexivity |]. right. exists rb.
        split; [eapply nth_error_In; exact En |]. auto.
    + split; [apply Forall2_same_refl |]. split.
      * exists []. rewrite app_nil_r. split; [reflexivity | constructor].
      * split; [reflexivity |]. left. split; reflexivity.
Qed.
(** X14.  Whenever [rtx_tmr_cb] returns, the retransmission queue holds the
    same buffers in the same order, only deadlines have moved, and its
    length counter, the sender and receiver state and the counters of the
    flow are untouched; what is handed to the RMT (never sleeping) are
    clones of buffers of the queue, each sent to the destination its PCI
    names; and the timer is either left not pending, [rtx_tmr_next] being
    unchanged, or armed at the deadline, still to come, of the buffer of the
    queue that [rtx_tmr_next] now designates. *)
Theorem rtx_tmr_cb_retransmits
    (fuel : nat) (jiffies : Z) (clone : nat -> option Z) (self_addr : Z)
    (flow flow' : flow_entry) (evs : list event)
    (Hrun : rtx_tmr_cb fuel jiffies clone self_addr flow = Some (flow', evs)) :
  let d := flow_dtp flow in
  let d' := flow_dtp flow' in
  Forall2 same_pdu (rtxq d) (rtxq d')
  /\ rtxq_len d' = rtxq_len d
  /\ snd_fields d' = snd_fields d
  /\ rcv_fields d' = rcv_fields d
  /\ stats flow' = stats flow
  /\ (exists made,
        evs = map ev_rtx made
        /\ Forall (fun crb => In (pcic crb) (map pcic (rtxq d))) made)
  /\ ((rtx_tmr d' = None /\ rtx_tmr_next d' = rtx_tmr_next d)
      \/ exists b, In b (rtxq d') /\ jiffies < rtx_jiffies b
                   /\ rtx_tmr_next d' = Some (rb_addr b)
                   /\ rtx_tmr d' = Some (rtx_jiffies b)).
Proof.
  intros d d'.
  destruct (rtx_tmr_cb_frame fuel jiffies clone self_addr flow flow' evs Hrun)
    as [_ [_ [Hsf [Hrf _]]]].
  fold d d' in Hsf, Hrf.
  unfold rtx_tmr_cb in Hrun. cbn [rtx_tmr_next with_rtx_tmr] in Hrun. fold d in Hrun.
  destruct (rtx_tmr_next d) as [a |] eqn:En.
  2:{ injection Hrun as <- <-. subst d'. cbn.
      split; [apply Forall2_same_refl |]. split; [reflexivity |].
      split; [exact Hsf |]. split; [exact Hrf |]. split; [reflexivity |].
      split; [exists []; split; [reflexivity | constructor] |].
      left. split; [reflexivity | exact En]. }
  cbn [rtxq with_rtx_tmr] in Hrun.
  destruct (index_of a (rtxq d)) as [start |]; [| discriminate].
  destruct (rtx_scan fuel jiffies clone start start 0 (with_rtx_tmr None d) [])
    as [[d1 rrbq] |] eqn:Es; [| discriminate].
  injection Hrun as <- <-.
  apply rtx_scan_spec in Es. cbn [rtxq rtxq_len rtx_tmr rtx_tmr_next with_rtx_tmr] in Es.
  destruct Es as [Hs [[made [Hr Hm]] [Hl Ht]]]. cbn [app] in Hr. subst rrbq.
  subst d'. cbn [flow_dtp with_dtp stats].
  split; [exact Hs |]. split; [exact Hl |]. split; [exact Hsf |].
  split; [exact Hrf |]. split; [reflexivity |].
  split; [exists made; split; [reflexivity | exact Hm] |].
  rewrite En in Ht. exact Ht.
Qed.

Lemma rtx_scan_more_fuel (jiffies : Z) (clone : nat -> option Z) (start : nat) :
  forall (fuel cur k : nat) (d : dtp) (rrbq : list rlite_buf)
         (res : dtp * list rlite_buf),
    rtx_scan fuel jiffies clone start cur k d rrbq = Some res ->
    forall fuel', (fuel <= fuel')%nat ->
                  rtx_scan fuel' jiffies clone start cur k d rrbq = Some res.
Proof.
  induction fuel as [| fuel IH]; intros cur k d rrbq res H fuel' Hle;
    [discriminate |].
  destruct fuel' as [| fuel']; [lia |].
  cbn [rtx_scan] in *.
  destruct (nth_error (rtxq d) cur) as [rb |].
  - destruct (jiffies >=? rtx_jiffies rb); [| exact H].
    destruct (Nat.eqb _ start); [exact H |].
    apply (IH _ _ _ _ _ H). lia.
  - apply (IH _ _ _ _ _ H). lia.
Qed.

Lemma bump_deadline_length (i : nat) (int : Z) (q : list rlite_buf) :
  length (bump_deadline i int q) = length q.
Proof.
  symmetry. eapply Forall2_length. apply bump_deadline_same.
Qed.

Lemma u64_nonneg (x : Z) : 0 <= u64 x.
Proof. unfold u64. apply Z.mod_pos_bound. reflexivity. Qed.

Lemma bump_deadline_nonneg (i : nat) (int : Z) (q : list rlite_buf) :
  Forall (fun b => 0 <= rtx_jiffies b) q ->
  Forall (fun b => 0 <= rtx_jiffies b) (bump_deadline i int q).
Proof.
  revert i. induction q as [| b q IH]; intros i H; [destruct i; constructor |].
  inversion H; subst. destruct i; cbn [bump_deadline]; constructor; auto.
  cbn. apply u64_nonneg.
Qed.

Lemma overdue_bump (jiffies int : Z) (q : list rlite_buf) :
  0 < int -> jiffies + int < 2 ^ 64 ->
  forall (i : nat) (rb : rlite_buf),
    nth_error q i = Some rb ->
    0 <= rtx_jiffies rb <= jiffies ->
    (S (overdue jiffies int (bump_deadline i int q)) <= overdue jiffies int q)%nat.
Proof.
  intros Hint Hj. induction q as [| b q IH]; intros i rb Hn Hr;
    [destruct i; discriminate |].
  destruct i; cbn [nth_error] in Hn.
  - injection Hn as ->. cbn [bump_deadline overdue rtx_jiffies with_rtx_jiffies].
    assert (Hu : u64 (rtx_jiffies rb + int) = rtx_jiffies rb + int).
    { unfold u64. apply Z.mod_small. lia. }
    rewrite Hu.
    assert (Hle : (rtx_jiffies rb <=? jiffies) = true) by (apply Z.leb_le; lia).
    rewrite Hle.
    assert (Hd : 0 <= (jiffies - rtx_jiffies rb) / int).
    { apply Z.div_pos; lia. }
    destruct (rtx_jiffies rb + int <=? jiffies) eqn:E.
    + apply Z.leb_le in E.
      replace (jiffies - (rtx_jiffies rb + int))
        with (jiffies - rtx_jiffies rb + (-1) * int) by lia.
      rewrite Z.div_add by lia. lia.
    + lia.
  - cbn [bump_deadline overdue]. specialize (IH i rb Hn Hr). lia.
Qed.

(** The scan from a buffer of the queue ends within [2 * overdue + 1]
    turns. *)
Lemma rtx_scan_elem_total (jiffies int : Z) (clone : nat -> option Z)
    (start : nat) :
  0 < int -> jiffies + int < 2 ^ 64 ->
  forall (M fuel cur k : nat) (d : dtp) (rrbq : list rlite_buf),
    rtx_tmr_int d = int ->
    Forall (fun b => 0 <= rtx_jiffies b) (rtxq d) ->
    (overdue jiffies int (rtxq d) <= M)%nat ->
    (cur < length (rtxq d))%nat ->
    (2 * M + 1 <= fuel)%nat ->
    exists res, rtx_scan fuel jiffies clone start cur k d rrbq = Some res.
Proof.
  intros Hint Hj.
  induction M as [| M IH]; intros fuel cur k d rrbq Hi Hq HM Hcur Hfuel;
    (destruct fuel as [| fuel]; [lia |]); cbn [rtx_scan];
    (destruct (nth_error (rtxq d) cur) as [rb |] eqn:En;
     [| apply nth_error_None in En; lia]);
    (destruct (jiffies >=? rtx_jiffies rb) eqn:Ee;
     [| eexists; reflexivity]);
    assert (Hr : 0 <= rtx_jiffies rb <= jiffies)
      by (split; [rewrite Forall_forall in Hq; apply Hq;
                  eapply nth_error_In; exact En
                 | destruct (Z.geb_spec jiffies (rtx_jiffies rb));
                   [lia | discriminate]]);
    pose proof (overdue_bump jiffies int (rtxq d) Hint Hj cur rb En Hr) as Hod;
    rewrite Hi; [lia |].
  destruct (Nat.eqb (ring_next (length (rtxq d)) cur) start);
    [eexists; reflexivity |].
  set (d1 := with_rtxq (bump_deadline cur int (rtxq d)) d) in *.
  assert (Hi1 : rtx_tmr_int d1 = int) by (subst d1; exact Hi).
  assert (Hq1 : Forall (fun b => 0 <= rtx_jiffies b) (rtxq d1)).
  { subst d1. cbn. apply bump_deadline_nonneg. exact Hq. }
  assert (HM1 : (overdue jiffies int (rtxq d1) <= M)%nat).
  { subst d1. cbn. lia. }
  assert (Hlen : length (rtxq d1) = length (rtxq d)).
  { subst d1. cbn. apply bump_deadline_length. }
  unfold ring_next.
  destruct (Nat.eqb cur (length (rtxq d))) eqn:Ec;
    [apply Nat.eqb_eq in Ec; lia |].
  destruct (Nat.eq_dec (S cur) (length (rtxq d))) as [Hhead | Hin].
  - (* the list head comes next *)
    destruct fuel as [| fuel]; [lia |]. cbn [rtx_scan].
    assert (Hnone : nth_error (rtxq d1) (S cur) = None).
    { apply nth_error_None. lia. }
    rewrite Hnone. unfold ring_next. rewrite Hlen, <- Hhead, Nat.eqb_refl.
    apply IH; auto; lia.
  - apply IH; auto; lia.
Qed.

Lemma rtx_scan_total (jiffies int : Z) (clone : nat -> option Z) (start : nat)
    (cur k : nat) (d : dtp) (rrbq : list rlite_buf) :
  0 < int -> jiffies + int < 2 ^ 64 ->
  rtx_tmr_int d = int ->
  Forall (fun b => 0 <= rtx_jiffies b) (rtxq d) ->
  (cur < length (rtxq d))%nat ->
  exists res,
    rtx_scan (2 * overdue jiffies int (rtxq d) + 1) jiffies clone start cur k d rrbq
    = Some res.
Proof.
  intros Hint Hj Hi Hq Hcur.
  eapply rtx_scan_elem_total; eauto.
Qed.

Lemma index_of_lt (a : Z) (q : list rlite_buf) (i : nat) :
  index_of a q = Some i -> (i < length q)%nat.
Proof.
  revert i. induction q as [| b q IH]; intros i H; cbn in H; [discriminate |].
  destruct (rb_addr b =? a); [injection H as <-; cbn; lia |].
  destruct (index_of a q) as [j |]; [| discriminate].
  injection H as <-. cbn. specialize (IH j eq_refl). lia.
Qed.

Lemma index_of_in (a : Z) (q : list rlite_buf) (b : rlite_buf) :
  In b q -> rb_addr b = a -> exists i, index_of a q = Some i.
Proof.
  induction q as [| c q IH]; intros Hin Ha; [destruct Hin |].
  cbn. destruct (rb_addr c =? a) eqn:E; [eexists; reflexivity |].
  destruct Hin as [-> | Hin]; [apply Z.eqb_neq in E; contradiction |].
  destruct (IH Hin Ha) as [i Hi]. rewrite Hi. eexists. reflexivity.
Qed.

(** X15.  [rtx_tmr_cb] returns: when the retransmission interval is
    positive, [jiffies] plus the interval fits in 64 bits and
    [rtx_tmr_next] is NULL or designates a buffer of the queue, the scan of
    the circular list ends within [2 * n + 1] turns, [n] being the number of
    times deadlines of the queue have to be moved forward by the interval
    before none has passed; following the scan any longer gives the same
    result. *)
Theorem rtx_tmr_cb_terminates
    (jiffies : Z) (clone : nat -> option Z) (self_addr : Z) (flow : flow_entry)
    (Hint : 0 < rtx_tmr_int (flow_dtp flow))
    (Hj : jiffies + rtx_tmr_int (flow_dtp flow) < 2 ^ 64)
    (Hq : Forall (fun b => 0 <= rtx_jiffies b) (rtxq (flow_dtp flow)))
    (Hnext : forall a, rtx_tmr_next (flow_dtp flow) = Some a ->
                       exists b, In b (rtxq (flow_dtp flow)) /\ rb_addr b = a) :
  let d := flow_dtp flow in
  exists res,
    forall fuel,
      (2 * overdue jiffies (rtx_tmr_int d) (rtxq d) + 1 <= fuel)%nat ->
      rtx_tmr_cb fuel jiffies clone self_addr flow = Some res.
Proof.
  intros d. fold d in Hint, Hj, Hq, Hnext.
  unfold rtx_tmr_cb. cbn [rtx_tmr_next with_rtx_tmr rtxq]. fold d.
  destruct (rtx_tmr_next d) as [a |] eqn:En.
  2:{ eexists. intros fuel _. reflexivity. }
  destruct (Hnext a eq_refl) as [b [Hin Ha]].
  destruct (index_of_in a (rtxq d) b Hin Ha) as [start Hs]. rewrite Hs.
  pose proof (index_of_lt _ _ _ Hs) as Hlt.
  destruct (rtx_scan_total jiffies (rtx_tmr_int d) clone start start 0
              (with_rtx_tmr None d) [] Hint Hj eq_refl Hq Hlt) as [[d1 rrbq] Hres].
  cbn [rtxq with_rtx_tmr] in Hres.
  eexists. intros fuel Hfuel.
  rewrite (rtx_scan_more_fuel _ _ _ _ _ _ _ _ _ Hres fuel Hfuel). reflexivity.
Qed.
Lemma nth_error_bump_range (int : Z) :
  forall (cnt c j : nat) (q : list rlite_buf),
    nth_error (bump_range c cnt int q) j
    = if (c <=? j)%nat && (j <? c + cnt)%nat
      then option_map (bump1 int) (nth_error q j)
      else nth_error q j.
Proof.
  induction cnt as [| cnt IH]; intros c j q; cbn [bump_range].
  - replace (j <? c + 0)%nat with (j <? c)%nat by (f_equal; lia).
    destruct (Nat.leb_spec c j); destruct (Nat.ltb_spec j c); try reflexivity; lia.
  - rewrite IH, nth_error_bump.
    destruct (Nat.leb_spec (S c) j); destruct (Nat.ltb_spec j (S c + cnt));
      destruct (Nat.leb_spec c j); destruct (Nat.ltb_spec j (c + S cnt));
      destruct (Nat.eqb_spec j c); cbn [andb]; try reflexivity; lia.
Qed.

Lemma rtx_clones_app (clone : nat -> option Z) (l1 l2 : list rlite_buf) :
  forall k : nat,
    rtx_clones clone k (l1 ++ l2)
    = rtx_clones clone k l1 ++ rtx_clones clone (k + length l1) l2.
Proof.
  induction l1 as [| b l1 IH]; intros k; cbn [app rtx_clones length].
  - rewrite Nat.add_0_r. reflexivity.
  - rewrite IH. replace (S k + length l1)%nat with (k + S (length l1))%nat by lia.
    destruct (clone k); reflexivity.
Qed.

Lemma skipn_nth (q : list rlite_buf) (c : nat) (rb : rlite_buf) :
  nth_error q c = Some rb -> skipn c q = rb :: skipn (S c) q.
Proof.
  revert c. induction q as [| b q IH]; intros c H; destruct c; try discriminate.
  - injection H as ->. reflexivity.
  - cbn [nth_error] in H. cbn [skipn]. rewrite (IH c H). reflexivity.
Qed.

Lemma skipn_bump (c : nat) (int : Z) (q : list rlite_buf) :
  skipn (S c) (bump_deadline c int q) = skipn (S c) q.
Proof.
  revert c. induction q as [| b q IH]; intros c; [destruct c; reflexivity |].
  destruct c; cbn [bump_deadline skipn]; [reflexivity | apply IH].
Qed.

(** The scan over [cnt] buffers in a row, from position [c], whose
    deadlines have passed and none of which is followed by the buffer the
    scan started from. *)
Lemma rtx_scan_phase (jiffies int : Z) (clone : nat -> option Z) (start : nat) :
  forall (cnt c k : nat) (d : dtp) (rrbq : list rlite_buf) (f : nat),
    rtx_tmr_int d = int ->
    (c + cnt <= length (rtxq d))%nat ->
    (forall j rb, (c <= j < c + cnt)%nat -> nth_error (rtxq d) j = Some rb ->
                  rtx_jiffies rb <= jiffies) ->
    (forall j, (c <= j < c + cnt)%nat -> S j <> start) ->
    rtx_scan (cnt + f) jiffies clone start c k d rrbq
    = rtx_scan f jiffies clone start (c + cnt) (k + cnt)
               (with_rtxq (bump_range c cnt int (rtxq d)) d)
               (rrbq ++ rtx_clones clone k
                          (map (bump1 int) (firstn cnt (skipn c (rtxq d))))).
Proof.
  induction cnt as [| cnt IH]; intros c k d rrbq f Hi Hlen Hexp Hwrap.
  - cbn [Nat.add bump_range firstn map rtx_clones]. rewrite app_nil_r, !Nat.add_0_r.
    destruct d; reflexivity.
  - cbn [Nat.add rtx_scan].
    destruct (nth_error (rtxq d) c) as [rb |] eqn:En;
      [| apply nth_error_None in En; lia].
    assert (He : (jiffies >=? rtx_jiffies rb) = true).
    { specialize (Hexp c rb ltac:(lia) En).
      destruct (Z.geb_spec jiffies (rtx_jiffies rb)); [reflexivity | lia]. }
    rewrite He.
    assert (Hrn : ring_next (length (rtxq d)) c = S c).
    { unfold ring_next. destruct (Nat.eqb_spec c (length (rtxq d))); [lia | reflexivity]. }
    rewrite Hrn.
    destruct (Nat.eqb_spec (S c) start) as [Hw | _];
      [exfalso; apply (Hwrap c ltac:(lia) Hw) |].
    set (d1 := with_rtxq (bump_deadline c (rtx_tmr_int d) (rtxq d)) d).
    rewrite (IH (S c) (S k) d1).
    + replace (S c + cnt)%nat with (c + S cnt)%nat by lia.
      replace (S k + cnt)%nat with (k + S cnt)%nat by lia.
      subst d1. cbn [rtxq with_rtxq rtx_tmr_int]. rewrite Hi.
      f_equal.
      rewrite skipn_bump, (skipn_nth _ _ _ En).
      cbn [firstn map rtx_clones bump_range].
      destruct (clone k); [rewrite <- app_assoc |]; reflexivity.
    + subst d1. exact Hi.
    + subst d1. cbn [rtxq with_rtxq]. rewrite bump_deadline_length. lia.
    + intros j rb' Hj Hn. subst d1. cbn [rtxq with_rtxq] in Hn.
      rewrite nth_error_bump in Hn.
      destruct (Nat.eqb_spec j c); [lia |].
      apply (Hexp j rb' ltac:(lia) Hn).
    + intros j Hj. apply Hwrap. lia.
Qed.
Lemma firstn_snoc_nth (q : list rlite_buf) (s : nat) (rb : rlite_buf) :
  nth_error q s = Some rb -> firstn (S s) q = firstn s q ++ [rb].
Proof.
  revert s. induction q as [| b q IH]; intros s H; destruct s; try discriminate.
  - injection H as ->. reflexivity.
  - cbn [nth_error] in H. cbn [firstn app]. rewrite <- (IH s H). reflexivity.
Qed.

Lemma ring_next_head (n : nat) : ring_next n n = O.
Proof. unfold ring_next. rewrite Nat.eqb_refl. reflexivity. Qed.

Lemma bump_range_length (int : Z) :
  forall (cnt c : nat) (q : list rlite_buf),
    length (bump_range c cnt int q) = length q.
Proof.
  induction cnt as [| cnt IH]; intros c q; cbn [bump_range]; [reflexivity |].
  rewrite IH, bump_deadline_length. reflexivity.
Qed.

Lemma with_rtxq_twice (x y : list rlite_buf) (d : dtp) :
  with_rtxq x (with_rtxq y d) = with_rtxq x d.
Proof. reflexivity. Qed.

(** The scan when the deadline of every buffer has passed and one step
    forward takes each deadline beyond [jiffies]. *)
Lemma rtx_scan_all_expired (jiffies : Z) (clone : nat -> option Z)
    (start : nat) (d : dtp) (fuel : nat) :
  (start < length (rtxq d))%nat ->
  Forall (fun b => rtx_jiffies b <= jiffies
                   < u64 (rtx_jiffies b + rtx_tmr_int d)) (rtxq d) ->
  (length (rtxq d) + 2 <= fuel)%nat ->
  rtx_scan fuel jiffies clone start start 0 d []
  = Some (with_rtxq (map (bump1 (rtx_tmr_int d)) (rtxq d)) d,
          rtx_clones clone 0
            (map (bump1 (rtx_tmr_int d)) (ring_from start (rtxq d)))).
Proof.
  intros Hstart Hall Hfuel.
  set (int := rtx_tmr_int d) in *. set (q := rtxq d) in *.
  set (n := length q) in *.
  assert (Hexp : forall j rb, nth_error q j = Some rb -> rtx_jiffies rb <= jiffies).
  { intros j rb Hn. rewrite Forall_forall in Hall.
    apply (Hall rb (nth_error_In _ _ Hn)). }
  destruct start as [| s].
  - (* the scan starts at the first buffer: it goes round the list and stops
       when it meets the first buffer again *)
    apply (rtx_scan_more_fuel jiffies clone 0 (n + 2)); [| exact Hfuel].
    rewrite (rtx_scan_phase jiffies int clone 0 n 0 0 d [] 2 eq_refl);
      [| fold q; lia | intros j rb _ Hn; apply (Hexp j rb Hn) | intros; lia].
    fold q. cbn [Nat.add app].
    rewrite firstn_all2 by (cbn [skipn]; lia). cbn [skipn].
    assert (Hq1 : bump_range 0 n int q = map (bump1 int) q).
    { apply nth_error_ext. intros j.
      rewrite nth_error_bump_range, nth_error_map. cbn [Nat.leb andb Nat.add].
      destruct (Nat.ltb_spec j n) as [_ | Hge]; [reflexivity |].
      assert (Hn : nth_error q j = None) by (apply nth_error_None; fold n; lia).
      rewrite Hn. reflexivity. }
    rewrite Hq1.
    cbn [rtx_scan rtxq with_rtxq].
    assert (Hnone : nth_error (map (bump1 int) q) n = None).
    { apply nth_error_None. rewrite length_map. fold n. lia. }
    rewrite Hnone. rewrite !length_map. fold n. rewrite !ring_next_head.
    destruct q as [| b q'] eqn:Eq; [cbn in Hstart; lia |].
    cbn [map nth_error].
    inversion Hall as [| ? ? [_ Hb] _]; subst.
    assert (Hne : (jiffies >=? rtx_jiffies (bump1 int b)) = false).
    { cbn. destruct (Z.geb_spec jiffies (u64 (rtx_jiffies b + int)));
        [lia | reflexivity]. }
    rewrite Hne. cbn [Nat.eqb negb]. unfold ring_from. cbn [skipn firstn].
    rewrite app_nil_r. reflexivity.
  - (* the scan starts further on: it stops at the buffer before the one it
       started from *)
    apply (rtx_scan_more_fuel jiffies clone (S s) ((n - S s) + S (s + 1)));
      [| lia].
    rewrite (rtx_scan_phase jiffies int clone (S s) (n - S s) (S s) 0 d []
                            (S (s + 1)) eq_refl);
      [| fold q n; lia | intros j rb _ Hn; apply (Hexp j rb Hn) | intros; lia].
    fold q. replace (S s + (n - S s))%nat with n by lia.
    cbn [app Nat.add].
    rewrite firstn_all2 by (rewrite length_skipn; fold n; lia).
    set (q1 := bump_range (S s) (n - S s) int q).
    assert (Hq1 : forall j, nth_error q1 j
                            = if (S s <=? j)%nat
                              then option_map (bump1 int) (nth_error q j)
                              else nth_error q j).
    { intros j. subst q1. rewrite nth_error_bump_range.
      replace (S s + (n - S s))%nat with n by lia.
      destruct (Nat.leb_spec (S s) j); cbn [andb]; [| reflexivity].
      destruct (Nat.ltb_spec j n) as [_ | Hge]; [reflexivity |].
      assert (Hn : nth_error q j = None) by (apply nth_error_None; fold n; lia).
      rewrite Hn. reflexivity. }
    assert (Hlen1 : length q1 = n).
    { subst q1. apply bump_range_length. }
    cbn [rtx_scan rtxq with_rtxq].
    assert (Hnone : nth_error q1 n = None) by (apply nth_error_None; lia).
    rewrite Hnone. rewrite !Hlen1, !ring_next_head.
    rewrite (rtx_scan_phase jiffies int clone (S s) s 0 (n - S s)
                            (with_rtxq q1 d) _ 1 eq_refl).
    2:{ cbn [rtxq with_rtxq]. lia. }
    2:{ intros j rb Hj Hn. cbn [rtxq with_rtxq] in Hn. rewrite Hq1 in Hn.
        destruct (Nat.leb_spec (S s) j); [lia |]. apply (Hexp j rb Hn). }
    2:{ intros j Hj. lia. }
    cbn [rtxq with_rtxq Nat.add skipn].
    set (q2 := bump_range 0 s int q1).
    assert (Hq2 : forall j, nth_error q2 j
                            = if (j <? s)%nat || (S s <=? j)%nat
                              then option_map (bump1 int) (nth_error q j)
                              else nth_error q j).
    { intros j. subst q2. rewrite nth_error_bump_range, Hq1.
      replace (0 <=? j)%nat with true by (symmetry; apply Nat.leb_le; lia).
      cbn [andb Nat.add].
      destruct (Nat.ltb_spec j s); destruct (Nat.leb_spec (S s) j);
        cbn [orb]; try reflexivity; lia. }
    assert (Hlen2 : length q2 = n).
    { subst q2. rewrite bump_range_length. exact Hlen1. }
    destruct (nth_error q s) as [rb |] eqn:Ens;
      [| apply nth_error_None in Ens; fold n in Ens; lia].
    cbn [rtx_scan rtxq with_rtxq].
    assert (Hn2 : nth_error q2 s = Some rb).
    { rewrite Hq2. destruct (Nat.ltb_spec s s); [lia |].
      destruct (Nat.leb_spec (S s) s); [lia |]. exact Ens. }
    rewrite Hn2.
    assert (He : (jiffies >=? rtx_jiffies rb) = true).
    { specialize (Hexp s rb Ens).
      destruct (Z.geb_spec jiffies (rtx_jiffies rb)); [reflexivity | lia]. }
    rewrite He. unfold ring_next. rewrite Hlen2.
    destruct (Nat.eqb_spec s n); [lia |]. rewrite Nat.eqb_refl.
    f_equal. f_equal.
    + (* the queue *)
      change (with_rtxq (bump_deadline s int q2) d
              = with_rtxq (map (bump1 int) q) d).
      f_equal. apply nth_error_ext. intros j.
      rewrite nth_error_bump, Hq2, nth_error_map.
      destruct (Nat.eqb_spec j s) as [-> | Hne].
      * destruct (Nat.ltb_spec s s); [lia |].
        destruct (Nat.leb_spec (S s) s); [lia |]. reflexivity.
      * destruct (Nat.ltb_spec j s); destruct (Nat.leb_spec (S s) j);
          cbn [orb]; try reflexivity; lia.
    + (* the clones *)
      unfold ring_from. rewrite (firstn_snoc_nth q s rb Ens).
      rewrite !map_app, !rtx_clones_app, !length_map, length_skipn.
      fold n. cbn [map rtx_clones Nat.add].
      assert (Hf : firstn s q1 = firstn s q).
      { apply nth_error_ext. intros j. rewrite !nth_error_firstn, Hq1.
        destruct (Nat.ltb_spec j s); [| reflexivity].
        destruct (Nat.leb_spec (S s) j); [lia | reflexivity]. }
      rewrite Hf, length_firstn.
      replace (Nat.min s (length q)) with s by (fold n; lia).
      replace (n - S s + s)%nat with (0 + (n - S s) + s)%nat by lia.
      cbn [rtx_tmr_int with_rtxq]. fold int.
      destruct (clone (0 + (n - S s) + s)%nat);
        rewrite <- ?app_assoc, ?app_nil_r; reflexivity.
Qed.
(** X16.  When the retransmission timer fires while the deadline of every
    buffer of the queue has passed (and one interval takes each deadline
    beyond [jiffies]), [rtx_tmr_cb] moves every deadline forward by the
    interval and hands to the RMT one clone of each buffer the allocator
    grants, in the order of the circular list starting at [rtx_tmr_next];
    [rtx_tmr_next] is unchanged and the timer is left not pending. *)
Theorem rtx_tmr_cb_all_expired
    (jiffies : Z) (clone : nat -> option Z) (self_addr : Z) (flow : flow_entry)
    (a : Z) (start fuel : nat)
    (Hnext : rtx_tmr_next (flow_dtp flow) = Some a)
    (Hstart : index_of a (rtxq (flow_dtp flow)) = Some start)
    (Hall : Forall (fun b => rtx_jiffies b <= jiffies
                             < u64 (rtx_jiffies b + rtx_tmr_int (flow_dtp flow)))
                   (rtxq (flow_dtp flow)))
    (Hfuel : (length (rtxq (flow_dtp flow)) + 2 <= fuel)%nat) :
  let d := flow_dtp flow in
  let bumped := map (bump1 (rtx_tmr_int d)) in
  exists flow',
    rtx_tmr_cb fuel jiffies clone self_addr flow
    = Some (flow', map ev_rtx (rtx_clones clone 0
                                 (bumped (ring_from start (rtxq d)))))
    /\ rtxq (flow_dtp flow') = bumped (rtxq d)
    /\ rtx_tmr (flow_dtp flow') = None
    /\ rtx_tmr_next (flow_dtp flow') = Some a.
Proof.
  intros d bumped. fold d in Hnext, Hstart, Hall, Hfuel.
  unfold rtx_tmr_cb. cbn [rtx_tmr_next with_rtx_tmr rtxq]. fold d.
  rewrite Hnext, Hstart.
  rewrite (rtx_scan_all_expired jiffies clone start (with_rtx_tmr None d) fuel
             (index_of_lt _ _ _ Hstart) Hall Hfuel).
  eexists. split; [reflexivity |]. cbn. rewrite Hnext. auto.
Qed.

(** The flow of the example on which four SDUs were written at time 0:
    the retransmission timer fires at time 150, the deadlines of the three
    buffers of the queue being 100. *)
Lemma rtx_tmr_cb_retransmits_witness :
  exists flow' evs,
    rtx_tmr_cb 5 150 ex_clone_ok 1 ex_sent = Some (flow', evs)
    /\ dispatched_seqs evs = [0; 1; 2]
    /\ Forall2 same_pdu (rtxq (flow_dtp ex_sent)) (rtxq (flow_dtp flow'))
    /\ map rtx_jiffies (rtxq (flow_dtp flow')) = [200; 200; 200].
Proof.
  destruct (rtx_tmr_cb 5 150 ex_clone_ok 1 ex_sent) as [[flow' evs] |] eqn:E;
    [| vm_compute in E; discriminate E].
  exists flow', evs.
  destruct (rtx_tmr_cb_retransmits 5 150 ex_clone_ok 1 ex_sent flow' evs E)
    as [Hs _].
  split; [reflexivity |].
  assert (H : dispatched_seqs evs = [0; 1; 2]
              /\ map rtx_jiffies (rtxq (flow_dtp flow')) = [200; 200; 200]).
  { vm_compute in E. injection E as <- <-. split; vm_compute; reflexivity. }
  destruct H as [H1 H2]. split; [exact H1 |]. split; [exact Hs | exact H2].
Defined.

Lemma rtx_tmr_cb_terminates_witness :
  let d := flow_dtp ex_sent in
  0 < rtx_tmr_int d
  /\ 150 + rtx_tmr_int d < 2 ^ 64
  /\ Forall (fun b => 0 <= rtx_jiffies b) (rtxq d)
  /\ overdue 150 (rtx_tmr_int d) (rtxq d) = 3%nat
  /\ exists res,
       forall fuel, (2 * overdue 150 (rtx_tmr_int d) (rtxq d) + 1 <= fuel)%nat ->
                    rtx_tmr_cb fuel 150 ex_clone_ok 1 ex_sent = Some res.
Proof.
  intros d.
  assert (H1 : 0 < rtx_tmr_int d) by (vm_compute; reflexivity).
  assert (H2 : 150 + rtx_tmr_int d < 2 ^ 64) by (vm_compute; reflexivity).
  assert (H3 : Forall (fun b => 0 <= rtx_jiffies b) (rtxq d)).
  { let q := eval vm_compute in (rtxq d) in
    assert (Hq : rtxq d = q) by (vm_compute; reflexivity).
    rewrite Hq. repeat constructor; discriminate. }
  assert (H4 : forall a, rtx_tmr_next d = Some a ->
                         exists b, In b (rtxq d) /\ rb_addr b = a).
  { intros a Ha. exists (nth 0 (rtxq d) (ex_sdu 0)). split.
    - apply nth_In. vm_compute. repeat constructor.
    - assert (Hn : rtx_tmr_next d = Some (rb_addr (nth 0 (rtxq d) (ex_sdu 0))))
        by (vm_compute; reflexivity).
      congruence. }
  split; [exact H1 |]. split; [exact H2 |]. split; [exact H3 |].
  split; [vm_compute; reflexivity |].
  exact (rtx_tmr_cb_terminates 150 ex_clone_ok 1 ex_sent H1 H2 H3 H4).
Defined.

Lemma rtx_tmr_cb_all_expired_witness :
  let d := flow_dtp ex_sent in
  rtx_tmr_next d = Some 100
  /\ index_of 100 (rtxq d) = Some 0%nat
  /\ Forall (fun b => rtx_jiffies b <= 150 < u64 (rtx_jiffies b + rtx_tmr_int d))
            (rtxq d)
  /\ rtx_tmr d = Some 100
  /\ exists flow',
       rtx_tmr_cb 5 150 ex_clone_ok 1 ex_sent
       = Some (flow', map ev_rtx (rtx_clones ex_clone_ok 0
                                    (map (bump1 (rtx_tmr_int d))
                                         (ring_from 0 (rtxq d)))))
       /\ rtx_tmr (flow_dtp flow') = None.
Proof.
  intros d.
  assert (H1 : rtx_tmr_next d = Some 100) by (vm_compute; reflexivity).
  assert (H2 : index_of 100 (rtxq d) = Some 0%nat) by (vm_compute; reflexivity).
  assert (H3 : Forall (fun b => rtx_jiffies b <= 150
                                < u64 (rtx_jiffies b + rtx_tmr_int d)) (rtxq d)).
  { let q := eval vm_compute in (rtxq d) in
    assert (Hq : rtxq d = q) by (vm_compute; reflexivity).
    let i := eval vm_compute in (rtx_tmr_int d) in
    assert (Hi : rtx_tmr_int d = i) by (vm_compute; reflexivity).
    rewrite Hq, Hi. repeat constructor; vm_compute; try discriminate; reflexivity. }
  assert (H4 : (length (rtxq d) + 2 <= 5)%nat) by (vm_compute; lia).
  split; [exact H1 |]. split; [exact H2 |]. split; [exact H3 |].
  split; [vm_compute; reflexivity |].
  destruct (rtx_tmr_cb_all_expired 150 ex_clone_ok 1 ex_sent 100 0 5
              H1 H2 H3 H4) as [flow' [Hrun [_ [Ht _]]]].
  exists flow'. split; [exact Hrun | exact Ht].
Defined.
(** * The PDU forwarding table *)

Lemma pduft_entry_eqb_eq (e e' : pduft_entry) :
  pduft_entry_eqb e e' = true <-> e = e'.
Proof.
  unfold pduft_entry_eqb. rewrite !andb_true_iff, !Z.eqb_eq.
  destruct e as [a [i t]], e' as [a' [i' t']]; cbn. split.
  - intros [[-> ->] ->]. reflexivity.
  - intros H. injection H as -> -> ->. auto.
Qed.

Lemma pduft_lookup_internal_some (l : list pduft_entry) (a : Z) (e : pduft_entry) :
  pduft_lookup_internal l a = Some e -> In e l /\ address e = a.
Proof.
  induction l as [| x l IH]; cbn; [discriminate |].
  destruct (address x =? a) eqn:E.
  - intros H. injection H as <-. apply Z.eqb_eq in E. auto.
  - intros H. destruct (IH H). auto.
Qed.

Lemma pduft_lookup_internal_none (l : list pduft_entry) (a : Z) :
  pduft_lookup_internal l a = None <-> ~ In a (map address l).
Proof.
  induction l as [| x l IH]; cbn; [tauto |].
  destruct (address x =? a) eqn:E.
  - apply Z.eqb_eq in E. split; [discriminate | tauto].
  - apply Z.eqb_neq in E. rewrite IH. tauto.
Qed.

Lemma pduft_lookup_internal_in (l : list pduft_entry) (e : pduft_entry) :
  NoDup (map address l) -> In e l ->
  pduft_lookup_internal l (address e) = Some e.
Proof.
  induction l as [| x l IH]; cbn; intros Hnd Hin; [destruct Hin |].
  inversion Hnd as [| ? ? Hx Hnd']; subst.
  destruct Hin as [-> | Hin]; [rewrite Z.eqb_refl; reflexivity |].
  destruct (address x =? address e) eqn:E; [| apply IH; assumption].
  apply Z.eqb_eq in E. exfalso. apply Hx. rewrite E. apply in_map. exact Hin.
Qed.

Lemma address_inj (l : list pduft_entry) (x y : pduft_entry) :
  NoDup (map address l) -> In x l -> In y l -> address x = address y -> x = y.
Proof.
  intros Hnd Hx Hy Ha.
  pose proof (pduft_lookup_internal_in l x Hnd Hx) as H1.
  pose proof (pduft_lookup_internal_in l y Hnd Hy) as H2.
  rewrite Ha in H1. congruence.
Qed.

Lemma chain_set_flow_lookup (dest : Z) (flow : lower_flow_t)
    (l : list pduft_entry) :
  (pduft_lookup_internal l dest <> None ->
   pduft_lookup_internal (chain_set_flow dest flow l) dest
   = Some {| address := dest; pe_flow := flow |})
  /\ (forall a, a <> dest ->
        pduft_lookup_internal (chain_set_flow dest flow l) a
        = pduft_lookup_internal l a).
Proof.
  induction l as [| x l [IH1 IH2]]; cbn; [split; [congruence | reflexivity] |].
  destruct (address x =? dest) eqn:E.
  - apply Z.eqb_eq in E. split.
    + intros _. cbn. rewrite Z.eqb_refl. reflexivity.
    + intros a Ha. cbn. rewrite E.
      destruct (dest =? a) eqn:E'; [apply Z.eqb_eq in E'; congruence |].
      reflexivity.
  - split.
    + intros H. cbn. rewrite E. apply IH1. exact H.
    + intros a Ha. cbn. destruct (address x =? a); [reflexivity |].
      apply IH2. exact Ha.
Qed.

Lemma chain_set_flow_address (dest : Z) (flow : lower_flow_t)
    (l : list pduft_entry) :
  map address (chain_set_flow dest flow l) = map address l.
Proof.
  induction l as [| x l IH]; cbn; [reflexivity |].
  destruct (address x =? dest) eqn:E; cbn.
  - apply Z.eqb_eq in E. rewrite E. reflexivity.
  - rewrite IH. reflexivity.
Qed.

Lemma chain_set_flow_in (dest : Z) (flow : lower_flow_t)
    (l : list pduft_entry) (x : pduft_entry) :
  NoDup (map address l) -> In dest (map address l) ->
  (In x (chain_set_flow dest flow l)
   <-> x = {| address := dest; pe_flow := flow |}
       \/ (In x l /\ address x <> dest)).
Proof.
  induction l as [| y l IH]; cbn; intros Hnd Hin; [tauto |].
  inversion Hnd as [| ? ? Hy Hnd']; subst.
  destruct (address y =? dest) eqn:E.
  - apply Z.eqb_eq in E. cbn. split.
    + intros [<- | Hx]; [left; reflexivity |]. right.
      split; [right; exact Hx |]. intros Ha. apply Hy. rewrite E, <- Ha.
      apply in_map. exact Hx.
    + intros [-> | [[<- | Hx] Ha]]; [left; reflexivity | contradiction |].
      right. exact Hx.
  - apply Z.eqb_neq in E. destruct Hin as [Hin | Hin]; [contradiction |].
    cbn. rewrite (IH Hnd' Hin). split.
    + intros [<- | [-> | [Hx Ha]]]; auto.
    + intros [-> | [[<- | Hx] Ha]]; auto.
Qed.

Lemma unlink_in (e x : pduft_entry) (l : list pduft_entry) :
  In x (unlink e l) -> In x l.
Proof.
  induction l as [| y l IH]; cbn; [tauto |].
  destruct (pduft_entry_eqb y e); cbn; tauto.
Qed.

Lemma unlink_in_iff (e x : pduft_entry) (l : list pduft_entry) :
  NoDup l -> (In x (unlink e l) <-> In x l /\ x <> e).
Proof.
  induction l as [| y l IH]; cbn; intros Hnd; [tauto |].
  inversion Hnd as [| ? ? Hy Hnd']; subst.
  destruct (pduft_entry_eqb y e) eqn:E.
  - apply pduft_entry_eqb_eq in E. subst y. split.
    + intros Hx. split; [right; exact Hx |]. intros ->. contradiction.
    + intros [[<- | Hx] Hne]; [contradiction | exact Hx].
  - assert (Hne : y <> e).
    { intros ->. assert (H : pduft_entry_eqb e e = true)
        by (apply pduft_entry_eqb_eq; reflexivity). congruence. }
    cbn. rewrite (IH Hnd'). split.
    + intros [<- | [Hx Hxe]]; auto.
    + intros [[<- | Hx] Hxe]; auto.
Qed.

Lemma unlink_nodup (e : pduft_entry) (l : list pduft_entry) :
  NoDup l -> NoDup (unlink e l).
Proof.
  induction l as [| y l IH]; cbn; intros Hnd; [constructor |].
  inversion Hnd as [| ? ? Hy Hnd']; subst.
  destruct (pduft_entry_eqb y e); [exact Hnd' |].
  constructor; [| apply IH; exact Hnd'].
  intros H. apply Hy. eapply unlink_in. exact H.
Qed.

Lemma unlink_address_nodup (e : pduft_entry) (l : list pduft_entry) :
  NoDup (map address l) -> NoDup (map address (unlink e l)).
Proof.
  induction l as [| y l IH]; cbn; intros Hnd; [constructor |].
  inversion Hnd as [| ? ? Hy Hnd']; subst.
  destruct (pduft_entry_eqb y e); [exact Hnd' |].
  cbn. constructor; [| apply IH; exact Hnd'].
  intros H. apply Hy. apply in_map_iff in H. destruct H as [z [Hz Hin]].
  rewrite <- Hz. apply in_map. eapply unlink_in. exact Hin.
Qed.

Lemma nodup_address_nodup (l : list pduft_entry) :
  NoDup (map address l) -> NoDup l.
Proof. apply NoDup_map_inv. Qed.

Lemma unlink_lookup (e : pduft_entry) (l : list pduft_entry) :
  NoDup (map address l) ->
  (In e l -> pduft_lookup_internal (unlink e l) (address e) = None)
  /\ (forall a, a <> address e ->
        pduft_lookup_internal (unlink e l) a = pduft_lookup_internal l a).
Proof.
  intros Hnd. split.
  - intros Hin. apply pduft_lookup_internal_none. intros H.
    apply in_map_iff in H. destruct H as [z [Hz Hzin]].
    apply (unlink_in_iff e z l (nodup_address_nodup l Hnd)) in Hzin.
    destruct Hzin as [Hzl Hne]. apply Hne.
    apply (address_inj l); assumption.
  - intros a Ha. clear Hnd. induction l as [| y l IH]; cbn; [reflexivity |].
    destruct (pduft_entry_eqb y e) eqn:E.
    + apply pduft_entry_eqb_eq in E. subst y.
      destruct (address e =? a) eqn:E'; [apply Z.eqb_eq in E'; congruence |].
      reflexivity.
    + cbn. destruct (address y =? a); [reflexivity | exact IH].
Qed.

Lemma fold_unlink_in (entries l : list pduft_entry) (x : pduft_entry) :
  NoDup l ->
  NoDup (fold_left (fun l e => unlink e l) entries l)
  /\ (In x (fold_left (fun l e => unlink e l) entries l)
      <-> In x l /\ ~ In x entries).
Proof.
  revert l. induction entries as [| e entries IH]; cbn; intros l Hnd.
  - split; [exact Hnd | tauto].
  - destruct (IH (unlink e l) (unlink_nodup e l Hnd)) as [H1 H2].
    split; [exact H1 |]. rewrite H2, (unlink_in_iff e x l Hnd).
    split.
    + intros [[Hx Hne] Hn]. split; [exact Hx |]. intros [-> | H]; auto.
    + intros [Hx Hn]. split; [split; [exact Hx |] |]; intros H; apply Hn; auto.
Qed.

Lemma fold_unlink_nodup (entries l : list pduft_entry) :
  NoDup l -> NoDup (fold_left (fun l e => unlink e l) entries l).
Proof.
  revert l. induction entries as [| e entries IH]; cbn; intros l Hnd;
    [exact Hnd |].
  apply IH, unlink_nodup, Hnd.
Qed.
Section PduftFacts.

Variable hash_min : Z -> Z.

(** X17.  Setting a route and looking it up.  When the lock is free and an
    entry for the address exists already or can be allocated,
    [rlite_normal_pduft_set] returns 0 with the lock released; afterwards
    [pduft_lookup] finds, for that address, the flow just set (whatever the
    table held for it before), and for every other address what it found
    before. *)
Theorem pduft_set_lookup
    (kmalloc : bool) (w : pduft_world) (dest_addr : Z) (flow : lower_flow_t)
    (Hlock : pduft_lock (priv w) = false)
    (Hmem : kmalloc = true
            \/ priv_lookup_internal hash_min (priv w) dest_addr <> None) :
  exists w',
    rlite_normal_pduft_set hash_min kmalloc w dest_addr flow = Some (w', 0)
    /\ pduft_lock (priv w') = false
    /\ priv_pduft_lookup hash_min (priv w') dest_addr = Some (Some flow)
    /\ forall a, a <> dest_addr ->
                 priv_pduft_lookup hash_min (priv w') a
                 = priv_pduft_lookup hash_min (priv w) a.
Proof.
  unfold rlite_normal_pduft_set, priv_pduft_lookup. rewrite Hlock.
  unfold priv_lookup_internal in *.
  destruct (pduft_lookup_internal (pdu_ft_chain (priv w) (hash_min dest_addr))
                                  dest_addr) as [entry |] eqn:El.
  - eexists. split; [reflexivity |]. cbn [priv pduft_lock pdu_ft_chain].
    split; [reflexivity |].
    destruct (chain_set_flow_lookup dest_addr flow
                (pdu_ft_chain (priv w) (hash_min dest_addr))) as [H1 H2].
    split.
    + rewrite Z.eqb_refl, H1 by congruence. reflexivity.
    + intros a Ha. destruct (hash_min a =? hash_min dest_addr) eqn:E;
        [| reflexivity].
      apply Z.eqb_eq in E. rewrite E, (H2 a Ha). reflexivity.
  - destruct Hmem as [-> | Hmem]; [| congruence]. cbn [negb].
    eexists. split; [reflexivity |]. cbn [priv pduft_lock pdu_ft_chain].
    split; [reflexivity |]. split.
    + rewrite Z.eqb_refl. cbn. rewrite Z.eqb_refl. reflexivity.
    + intros a Ha. destruct (hash_min a =? hash_min dest_addr) eqn:E;
        [| reflexivity].
      apply Z.eqb_eq in E. rewrite E. cbn.
      destruct (dest_addr =? a) eqn:E'; [apply Z.eqb_eq in E'; congruence |].
      reflexivity.
Qed.

(** X18.  When no entry exists for the address and the allocation of one
    fails, [rlite_normal_pduft_set] returns [-ENOMEM] with the table and
    the lists of the flows unchanged, and with [pduft_lock] still held: no
    later [pduft_lookup], [rlite_normal_pduft_set],
    [rlite_normal_pduft_del] or [rlite_normal_pduft_flush] on this IPCP
    returns. *)
Theorem pduft_set_enomem
    (w : pduft_world) (dest_addr : Z) (flow : lower_flow_t)
    (Hlock : pduft_lock (priv w) = false)
    (Hnew : priv_lookup_internal hash_min (priv w) dest_addr = None) :
  exists w',
    rlite_normal_pduft_set hash_min false w dest_addr flow = Some (w', - ENOMEM)
    /\ pdu_ft_chain (priv w') = pdu_ft_chain (priv w)
    /\ pduft_entries w' = pduft_entries w
    /\ pduft_lock (priv w') = true
    /\ (forall a, priv_pduft_lookup hash_min (priv w') a = None)
    /\ (forall k a f, rlite_normal_pduft_set hash_min k w' a f = None)
    /\ (forall e, rlite_normal_pduft_del w' e = None)
    /\ rlite_normal_pduft_flush w' = None.
Proof.
  unfold rlite_normal_pduft_set at 1. rewrite Hlock, Hnew. cbn [negb].
  eexists. split; [reflexivity |]. cbn. auto 10.
Qed.

Lemma pduft_ok_init : pduft_ok hash_min pduft_world_init.
Proof.
  unfold pduft_ok, pduft_world_init. cbn.
  repeat split; try constructor; tauto.
Qed.

Lemma pduft_set_ok (kmalloc : bool) (w w' : pduft_world) (dest_addr ret : Z)
    (flow : lower_flow_t) :
  pduft_ok hash_min w ->
  rlite_normal_pduft_set hash_min kmalloc w dest_addr flow = Some (w', ret) ->
  pduft_ok hash_min w'.
Proof.
  intros [H1 [H2 [H3 H4]]]. unfold rlite_normal_pduft_set.
  destruct (pduft_lock (priv w)); [discriminate |].
  unfold priv_lookup_internal.
  set (new := {| address := dest_addr; pe_flow := flow |}).
  set (chain := pdu_ft_chain (priv w) (hash_min dest_addr)).
  destruct (pduft_lookup_internal chain dest_addr) as [entry |] eqn:El.
  - (* the entry exists: it is moved to the list of the flow *)
    intros H. injection H as <- _.
    apply pduft_lookup_internal_some in El. destruct El as [Hin Ha].
    assert (Hd : In dest_addr (map address chain)).
    { rewrite <- Ha. apply in_map. exact Hin. }
    assert (Hcs : forall x, In x (chain_set_flow dest_addr flow chain)
                            <-> x = new \/ (In x chain /\ address x <> dest_addr)).
    { intros x. apply chain_set_flow_in; [apply H2 | exact Hd]. }
    assert (Hold : forall x, In x chain -> address x = dest_addr -> x = entry).
    { intros x Hx Hxa.
      apply (address_inj chain); [apply H2 | exact Hx | exact Hin | congruence]. }
    unfold pduft_ok. cbn [priv pdu_ft_chain pduft_entries].
    split; [| split; [| split]].
    + intros b e. destruct (b =? hash_min dest_addr) eqn:E; [| apply H1].
      apply Z.eqb_eq in E. subst b. fold chain. rewrite Hcs.
      intros [-> | [He _]]; [reflexivity | apply (H1 _ _ He)].
    + intros b. destruct (b =? hash_min dest_addr); [| apply H2].
      rewrite chain_set_flow_address. apply H2.
    + intros f.
      assert (Hu : NoDup (unlink entry (pduft_entries w f)))
        by (apply unlink_nodup, H3).
      destruct (f =? lf_id flow) eqn:E; [| exact Hu].
      apply NoDup_app; [exact Hu | constructor; [intros [] | constructor] |].
      intros x Hx [<- | []].
      apply (unlink_in_iff entry new _ (H3 f)) in Hx. destruct Hx as [Hx Hne].
      apply H4 in Hx. destruct Hx as [Hx _]. cbn in Hx. fold chain in Hx.
      apply Hne. apply Hold; [exact Hx | reflexivity].
    + intros f e.
      assert (Hmem : In e (if f =? lf_id flow
                           then unlink entry (pduft_entries w f) ++ [new]
                           else unlink entry (pduft_entries w f))
                     <-> (In e (pduft_entries w f) /\ e <> entry)
                         \/ (e = new /\ f = lf_id flow)).
      { destruct (f =? lf_id flow) eqn:E.
        - apply Z.eqb_eq in E. rewrite in_app_iff, (unlink_in_iff _ _ _ (H3 f)).
          cbn. intuition congruence.
        - apply Z.eqb_neq in E. rewrite (unlink_in_iff _ _ _ (H3 f)).
          intuition congruence. }
      rewrite Hmem. clear Hmem.
      destruct (hash_min (address e) =? hash_min dest_addr) eqn:E.
      * apply Z.eqb_eq in E. rewrite H4, !E. fold chain. rewrite Hcs. split.
        -- intros [[[He Hf] Hne] | [-> ->]]; [| auto].
           split; [| exact Hf]. right. split; [exact He |].
           intros Hea. apply Hne. apply Hold; assumption.
        -- intros [[-> | [He Hea]] Hf]; [right; cbn in Hf; auto |].
           left. split; [auto |]. intros ->. contradiction.
      * apply Z.eqb_neq in E. rewrite H4. split.
        -- intros [[[He Hf] Hne] | [-> ->]]; [auto |]. cbn in E. congruence.
        -- intros [He Hf]. left. split; [auto |]. intros ->.
           rewrite Ha in E. congruence.
  - (* a new entry *)
    destruct (negb kmalloc).
    + intros H. injection H as <- _. unfold pduft_ok. cbn. auto.
    + intros H. injection H as <- _.
      apply pduft_lookup_internal_none in El.
      unfold pduft_ok. cbn [priv pdu_ft_chain pduft_entries].
      split; [| split; [| split]].
      * intros b e. destruct (b =? hash_min dest_addr) eqn:E; [| apply H1].
        apply Z.eqb_eq in E. subst b.
        intros [<- | He]; [reflexivity | apply (H1 _ _ He)].
      * intros b. destruct (b =? hash_min dest_addr) eqn:E; [| apply H2].
        apply Z.eqb_eq in E. subst b. cbn. constructor; [exact El | apply H2].
      * intros f. destruct (f =? lf_id flow); [| apply H3].
        apply NoDup_app; [apply H3 | constructor; [intros [] | constructor] |].
        intros x Hx [<- | []]. apply H4 in Hx. destruct Hx as [Hx _].
        apply El. cbn in Hx. apply (in_map address) in Hx. exact Hx.
      * intros f e.
        assert (Hmem : In e (if f =? lf_id flow
                             then pduft_entries w f ++ [new]
                             else pduft_entries w f)
                       <-> In e (pduft_entries w f)
                           \/ (e = new /\ f = lf_id flow)).
        { destruct (f =? lf_id flow) eqn:E.
          - apply Z.eqb_eq in E. rewrite in_app_iff. cbn. intuition congruence.
          - apply Z.eqb_neq in E. intuition congruence. }
        rewrite Hmem. clear Hmem. rewrite H4.
        destruct (hash_min (address e) =? hash_min dest_addr) eqn:E.
        -- apply Z.eqb_eq in E. rewrite E. fold chain. cbn [In]. split.
           ++ intros [[He Hf] | [-> ->]]; auto.
           ++ intros [[<- | He] Hf]; auto.
        -- apply Z.eqb_neq in E. split.
           ++ intros [[He Hf] | [-> ->]]; [auto |]. cbn in E. congruence.
           ++ intros [He Hf]. auto.
Qed.

Lemma pduft_del_ok (w w' : pduft_world) (entry : pduft_entry) (ret : Z) :
  pduft_ok hash_min w ->
  rlite_normal_pduft_del w entry = Some (w', ret) ->
  pduft_ok hash_min w'.
Proof.
  intros [H1 [H2 [H3 H4]]]. unfold rlite_normal_pduft_del.
  destruct (pduft_lock (priv w)); [discriminate |].
  intros H. injection H as <- _.
  unfold pduft_ok. cbn [priv pdu_ft_chain pduft_entries].
  split; [| split; [| split]].
  - intros b e He. apply (H1 b e). eapply unlink_in. exact He.
  - intros b. apply unlink_address_nodup, H2.
  - intros f. apply unlink_nodup, H3.
  - intros f e. rewrite (unlink_in_iff _ _ _ (H3 f)).
    rewrite (unlink_in_iff _ _ _ (nodup_address_nodup _ (H2 _))).
    rewrite H4. tauto.
Qed.

Lemma pduft_flush_ok (w w' : pduft_world) (ret : Z) :
  pduft_ok hash_min w ->
  rlite_normal_pduft_flush w = Some (w', ret) ->
  pduft_ok hash_min w'.
Proof.
  intros [H1 [H2 [H3 H4]]]. unfold rlite_normal_pduft_flush.
  destruct (pduft_lock (priv w)); [discriminate |].
  set (inb := fun b => existsb (Z.eqb b) pduft_buckets).
  set (entries := flat_map (pdu_ft_chain (priv w)) pduft_buckets).
  change (Some
            ({| priv := {| pdu_ft_chain :=
                             fun b => if inb b then []
                                      else pdu_ft_chain (priv w) b;
                           pduft_lock := false |};
                pduft_entries :=
                  fun f => fold_left (fun l e => unlink e l) entries
                                     (pduft_entries w f) |}, 0)
          = Some (w', ret) -> pduft_ok hash_min w').
  intros H. injection H as <- _.
  unfold pduft_ok. cbn [priv pdu_ft_chain pduft_entries].
  assert (Hentries : forall e, In e entries
                               <-> In e (pdu_ft_chain (priv w) (hash_min (address e)))
                                   /\ inb (hash_min (address e)) = true).
  { intros e. subst entries inb. cbv beta.
    rewrite in_flat_map, existsb_exists. split.
    - intros [b [Hb He]]. pose proof (H1 b e He) as Hh. subst b.
      split; [exact He |]. exists (hash_min (address e)).
      split; [exact Hb | apply Z.eqb_refl].
    - intros [He [b [Hb Heq]]]. apply Z.eqb_eq in Heq. subst b.
      exists (hash_min (address e)). auto. }
  split; [| split; [| split]].
  - intros b e. destruct (inb b); [cbn [In]; intros H; destruct H | apply H1].
  - intros b. destruct (inb b); [constructor | apply H2].
  - intros f. apply fold_unlink_nodup, H3.
  - intros f e.
    rewrite (proj2 (fold_unlink_in entries _ e (H3 f))).
    rewrite Hentries, H4.
    destruct (inb (hash_min (address e))); cbn [In];
      intuition congruence.
Qed.

Lemma pduft_step_ok (w w' : pduft_world) (op : pduft_op) :
  pduft_ok hash_min w -> pduft_step hash_min w op = Some w' ->
  pduft_ok hash_min w'.
Proof.
  intros Hok. destruct op as [k a f | | e]; cbn [pduft_step].
  - destruct (rlite_normal_pduft_set hash_min k w a f) as [[w1 r] |] eqn:E;
      [| discriminate].
    intros H. injection H as <-. exact (pduft_set_ok _ _ _ _ _ _ Hok E).
  - destruct (rlite_normal_pduft_flush w) as [[w1 r] |] eqn:E; [| discriminate].
    intros H. injection H as <-. exact (pduft_flush_ok _ _ _ Hok E).
  - destruct (existsb _ _); [| discriminate].
    destruct (rlite_normal_pduft_del w e) as [[w1 r] |] eqn:E; [| discriminate].
    intros H. injection H as <-. exact (pduft_del_ok _ _ _ _ Hok E).
Qed.

Lemma pduft_run_inv (ops : list pduft_op) (w w' : pduft_world) :
  pduft_ok hash_min w -> pduft_run hash_min ops w = Some w' ->
  pduft_ok hash_min w'.
Proof.
  revert w. induction ops as [| op ops IH]; cbn [pduft_run]; intros w Hok.
  - intros H. injection H as <-. exact Hok.
  - destruct (pduft_step hash_min w op) as [w1 |] eqn:E; [| discriminate].
    apply IH. exact (pduft_step_ok _ _ _ Hok E).
Qed.

Lemma pduft_buckets_nodup : NoDup pduft_buckets.
Proof.
  unfold pduft_buckets. cbn.
  repeat (constructor; [cbn; intros H; repeat destruct H as [H | H];
                        try discriminate H; exact H |]).
  constructor.
Qed.

Lemma pduft_buckets_in (b : Z) :
  In b pduft_buckets <-> 0 <= b < 2 ^ PDUFT_HASHTABLE_BITS.
Proof.
  unfold pduft_buckets, PDUFT_HASHTABLE_BITS.
  change (map Z.of_nat (seq 0 (Z.to_nat (2 ^ 3)))) with [0; 1; 2; 3; 4; 5; 6; 7].
  change (2 ^ 3) with 8. cbn [In]. lia.
Qed.

Lemma chains_address_nodup (chain : Z -> list pduft_entry) (l : list Z) :
  (forall b e, In e (chain b) -> hash_min (address e) = b) ->
  (forall b, NoDup (map address (chain b))) ->
  NoDup l -> NoDup (map address (flat_map chain l)).
Proof.
  intros H1 H2. induction l as [| b l IH]; cbn [flat_map]; intros Hnd;
    [constructor |].
  inversion Hnd as [| ? ? Hb Hnd']; subst.
  rewrite map_app. apply NoDup_app; [apply H2 | apply IH, Hnd' |].
  intros a Ha Ha'. apply in_map_iff in Ha. destruct Ha as [e [<- He]].
  apply in_map_iff in Ha'. destruct Ha' as [e' [Hae He']].
  apply in_flat_map in He'. destruct He' as [b' [Hb' He']].
  apply H1 in He, He'. apply Hb. congruence.
Qed.

Lemma pduft_list_nodup (w : pduft_world) :
  pduft_ok hash_min w -> NoDup (map address (pduft_list (priv w))).
Proof.
  intros [H1 [H2 _]]. apply chains_address_nodup; auto.
  apply pduft_buckets_nodup.
Qed.

Lemma pduft_list_in (w : pduft_world) (e : pduft_entry) :
  pduft_ok hash_min w ->
  (forall a, 0 <= hash_min a < 2 ^ PDUFT_HASHTABLE_BITS) ->
  (In e (pduft_list (priv w))
   <-> In e (pdu_ft_chain (priv w) (hash_min (address e)))).
Proof.
  intros [H1 _] Hhash. unfold pduft_list. rewrite in_flat_map. split.
  - intros [b [_ He]]. rewrite (H1 b e He). exact He.
  - intros He. exists (hash_min (address e)).
    split; [apply pduft_buckets_in, Hhash | exact He].
Qed.

(** X19.  The table after any run of [rlite_normal_pduft_set],
    [rlite_normal_pduft_flush] and [rlite_normal_pduft_del] on a new IPCP:
    no two entries of the table have the same address; no entry is linked
    twice in the list of a flow; and the entries in the list of a flow are
    exactly the entries a lookup finds and that designate the flow. *)
Theorem pduft_run_consistent
    (ops : list pduft_op) (w : pduft_world)
    (Hrun : pduft_run hash_min ops pduft_world_init = Some w) :
  NoDup (map address (pduft_list (priv w)))
  /\ (forall f, NoDup (pduft_entries w f))
  /\ (forall f e,
        In e (pduft_entries w f)
        <-> priv_lookup_internal hash_min (priv w) (address e) = Some e
            /\ lf_id (pe_flow e) = f).
Proof.
  pose proof (pduft_run_inv _ _ _ pduft_ok_init Hrun) as Hok.
  split; [apply pduft_list_nodup, Hok |].
  destruct Hok as [H1 [H2 [H3 H4]]]. split; [exact H3 |].
  intros f e. rewrite H4. unfold priv_lookup_internal. split.
  - intros [He Hf]. split; [| exact Hf].
    apply pduft_lookup_internal_in; [apply H2 | exact He].
  - intros [He Hf]. split; [| exact Hf].
    apply pduft_lookup_internal_some in He. apply He.
Qed.

(** X20.  Deleting an entry of a consistent table: [rlite_normal_pduft_del]
    returns 0; afterwards a lookup of the address of the entry finds
    nothing, a lookup of any other address finds what it found before, and
    the entry is in the list of no flow while the other entries stay where
    they were. *)
Theorem pduft_del_lookup
    (w : pduft_world) (entry : pduft_entry)
    (Hok : pduft_ok hash_min w)
    (Hlock : pduft_lock (priv w) = false)
    (Hin : In entry (pdu_ft_chain (priv w) (hash_min (address entry)))) :
  exists w',
    rlite_normal_pduft_del w entry = Some (w', 0)
    /\ pduft_lock (priv w') = false
    /\ priv_pduft_lookup hash_min (priv w') (address entry) = Some None
    /\ (forall a, a <> address entry ->
          priv_pduft_lookup hash_min (priv w') a
          = priv_pduft_lookup hash_min (priv w) a)
    /\ (forall f e, In e (pduft_entries w' f)
                    <-> In e (pduft_entries w f) /\ e <> entry).
Proof.
  destruct Hok as [H1 [H2 [H3 H4]]].
  unfold rlite_normal_pduft_del, priv_pduft_lookup, priv_lookup_internal.
  rewrite Hlock. eexists. split; [reflexivity |].
  cbn [priv pduft_lock pdu_ft_chain pduft_entries].
  split; [reflexivity |]. split; [| split].
  - destruct (unlink_lookup entry _ (H2 (hash_min (address entry)))) as [Hd _].
    rewrite (Hd Hin). reflexivity.
  - intros a Ha.
    destruct (unlink_lookup entry _ (H2 (hash_min a))) as [_ Hd].
    rewrite (Hd a Ha). reflexivity.
  - intros f e. apply unlink_in_iff, H3.
Qed.

(** X21.  Flushing a consistent table, with a hash function that yields
    the index of a bucket: [rlite_normal_pduft_flush] returns 0; afterwards
    the table is empty, no lookup finds an entry, and no flow has an entry
    in its list. *)
Theorem pduft_flush_empty
    (w : pduft_world)
    (Hok : pduft_ok hash_min w)
    (Hhash : forall a, 0 <= hash_min a < 2 ^ PDUFT_HASHTABLE_BITS)
    (Hlock : pduft_lock (priv w) = false) :
  exists w',
    rlite_normal_pduft_flush w = Some (w', 0)
    /\ pduft_lock (priv w') = false
    /\ pduft_list (priv w') = []
    /\ (forall a, priv_pduft_lookup hash_min (priv w') a = Some None)
    /\ (forall f, pduft_entries w' f = []).
Proof.
  pose proof (fun e => pduft_list_in w e Hok Hhash) as Hlist.
  destruct Hok as [H1 [H2 [H3 H4]]].
  assert (Hinb : forall a, existsb (Z.eqb (hash_min a)) pduft_buckets = true).
  { intros a. apply existsb_exists. exists (hash_min a).
    split; [apply pduft_buckets_in, Hhash | apply Z.eqb_refl]. }
  set (inb := fun b => existsb (Z.eqb b) pduft_buckets).
  set (entries := flat_map (pdu_ft_chain (priv w)) pduft_buckets).
  exists {| priv := {| pdu_ft_chain :=
                         fun b => if inb b then []
                                  else pdu_ft_chain (priv w) b;
                       pduft_lock := false |};
            pduft_entries :=
              fun f => fold_left (fun l e => unlink e l) entries
                                 (pduft_entries w f) |}.
  split; [unfold rlite_normal_pduft_flush; rewrite Hlock; reflexivity |].
  unfold priv_pduft_lookup, priv_lookup_internal.
  cbn [priv pduft_lock pdu_ft_chain pduft_entries].
  split; [reflexivity |]. split; [| split].
  - reflexivity.
  - intros a. unfold inb. rewrite (Hinb a). reflexivity.
  - intros f.
    destruct (fold_left (fun l e => unlink e l) entries (pduft_entries w f))
      as [| x l] eqn:E; [reflexivity | exfalso].
    assert (Hx : In x (x :: l)) by (left; reflexivity). rewrite <- E in Hx.
    apply (fold_unlink_in _ _ x (H3 f)) in Hx. destruct Hx as [Hx Hnx].
    apply Hnx. apply Hlist. apply H4 in Hx. apply Hx.
Qed.

(** X22.  The table as [rmt_tx] reads it.  On a consistent table, with a
    hash function that yields the index of a bucket, the scan of the
    bucket of an address finds what a scan of all the entries of the
    table finds: [pduft_lookup] on the hash table returns what
    [pduft_lookup] on the list of the entries returns. *)
Theorem pduft_list_lookup
    (w : pduft_world) (dest_addr : Z)
    (Hok : pduft_ok hash_min w)
    (Hhash : forall a, 0 <= hash_min a < 2 ^ PDUFT_HASHTABLE_BITS)
    (Hlock : pduft_lock (priv w) = false) :
  priv_pduft_lookup hash_min (priv w) dest_addr
  = Some (pduft_lookup (pduft_list (priv w)) dest_addr).
Proof.
  pose proof (pduft_list_nodup w Hok) as Hnd.
  pose proof (fun e => pduft_list_in w e Hok Hhash) as Hlist.
  unfold priv_pduft_lookup, pduft_lookup, priv_lookup_internal.
  rewrite Hlock. f_equal.
  destruct (pduft_lookup_internal (pdu_ft_chain (priv w) (hash_min dest_addr))
                                  dest_addr) as [e |] eqn:E.
  - apply pduft_lookup_internal_some in E. destruct E as [He <-].
    apply Hlist in He.
    rewrite (pduft_lookup_internal_in _ e Hnd He). reflexivity.
  - destruct (pduft_lookup_internal (pduft_list (priv w)) dest_addr)
      as [e |] eqn:E'; [exfalso | reflexivity].
    apply pduft_lookup_internal_some in E'. destruct E' as [He <-].
    apply Hlist in He. apply pduft_lookup_internal_none in E.
    apply E. apply in_map. exact He.
Qed.

End PduftFacts.

Lemma ex_pduft_world_run :
  pduft_run ex_hash ex_pduft_ops pduft_world_init = Some ex_pduft_world.
Proof. reflexivity. Qed.

Lemma ex_pduft_world_ok : pduft_ok ex_hash ex_pduft_world.
Proof. exact (pduft_run_inv _ _ _ _ (pduft_ok_init _) ex_pduft_world_run). Qed.

Lemma ex_hash_range (a : Z) : 0 <= ex_hash a < 2 ^ PDUFT_HASHTABLE_BITS.
Proof. apply Z.mod_pos_bound. reflexivity. Qed.

Lemma ex_pduft_world_lock : pduft_lock (priv ex_pduft_world) = false.
Proof. reflexivity. Qed.

(** The route to 18 is moved from flow 4 to flow 9, with no allocation; the
    route to 10, in the same bucket, stays. *)
Lemma pduft_set_lookup_witness :
  exists w',
    rlite_normal_pduft_set ex_hash false ex_pduft_world 18 (ex_lower_flow 9)
    = Some (w', 0)
    /\ priv_pduft_lookup ex_hash (priv w') 18 = Some (Some (ex_lower_flow 9))
    /\ priv_pduft_lookup ex_hash (priv w') 10 = Some (Some (ex_lower_flow 3)).
Proof.
  assert (Hmem : false = true
                 \/ priv_lookup_internal ex_hash (priv ex_pduft_world) 18 <> None)
    by (right; vm_compute; discriminate).
  destruct (pduft_set_lookup ex_hash false ex_pduft_world 18 (ex_lower_flow 9)
              ex_pduft_world_lock Hmem) as [w' [H1 [_ [H3 H4]]]].
  exists w'. split; [exact H1 |]. split; [exact H3 |].
  rewrite (H4 10) by discriminate. reflexivity.
Defined.

(** No route to 7 and no memory for one. *)
Lemma pduft_set_enomem_witness :
  exists w',
    rlite_normal_pduft_set ex_hash false ex_pduft_world 7 (ex_lower_flow 9)
    = Some (w', - ENOMEM)
    /\ pduft_lock (priv w') = true
    /\ priv_pduft_lookup ex_hash (priv w') 10 = None
    /\ rlite_normal_pduft_flush w' = None.
Proof.
  assert (Hnew : priv_lookup_internal ex_hash (priv ex_pduft_world) 7 = None)
    by reflexivity.
  destruct (pduft_set_enomem ex_hash ex_pduft_world 7 (ex_lower_flow 9)
              ex_pduft_world_lock Hnew)
    as [w' [H1 [_ [_ [H4 [H5 [_ [_ H8]]]]]]]].
  exists w'. auto.
Defined.

Lemma pduft_run_consistent_witness :
  NoDup (map address (pduft_list (priv ex_pduft_world)))
  /\ (forall f, NoDup (pduft_entries ex_pduft_world f))
  /\ (forall f e,
        In e (pduft_entries ex_pduft_world f)
        <-> priv_lookup_internal ex_hash (priv ex_pduft_world) (address e)
            = Some e
            /\ lf_id (pe_flow e) = f).
Proof.
  exact (pduft_run_consistent ex_hash ex_pduft_ops ex_pduft_world
           ex_pduft_world_run).
Defined.

(** The route to 10 is deleted; the route to 18, in the same bucket,
    stays. *)
Lemma pduft_del_lookup_witness :
  exists w',
    rlite_normal_pduft_del ex_pduft_world
      {| address := 10; pe_flow := ex_lower_flow 3 |} = Some (w', 0)
    /\ priv_pduft_lookup ex_hash (priv w') 10 = Some None
    /\ priv_pduft_lookup ex_hash (priv w') 18 = Some (Some (ex_lower_flow 4)).
Proof.
  assert (Hin : In {| address := 10; pe_flow := ex_lower_flow 3 |}
                   (pdu_ft_chain (priv ex_pduft_world) (ex_hash 10)))
    by (right; left; reflexivity).
  destruct (pduft_del_lookup ex_hash ex_pduft_world
              {| address := 10; pe_flow := ex_lower_flow 3 |}
              ex_pduft_world_ok ex_pduft_world_lock Hin)
    as [w' [H1 [_ [H3 [H4 _]]]]].
  exists w'. split; [exact H1 |]. split; [exact H3 |].
  rewrite (H4 18) by discriminate. reflexivity.
Defined.

Lemma pduft_flush_empty_witness :
  exists w',
    rlite_normal_pduft_flush ex_pduft_world = Some (w', 0)
    /\ pduft_list (priv w') = []
    /\ priv_pduft_lookup ex_hash (priv w') 10 = Some None
    /\ pduft_entries w' 3 = [].
Proof.
  destruct (pduft_flush_empty ex_hash ex_pduft_world ex_pduft_world_ok
              ex_hash_range ex_pduft_world_lock)
    as [w' [H1 [_ [H3 [H4 H5]]]]].
  exists w'. auto.
Defined.

Lemma pduft_list_lookup_witness :
  priv_pduft_lookup ex_hash (priv ex_pduft_world) 18
  = Some (pduft_lookup (pduft_list (priv ex_pduft_world)) 18)
  /\ pduft_lookup (pduft_list (priv ex_pduft_world)) 18
     = Some (ex_lower_flow 4).
Proof.
  split; [| reflexivity].
  exact (pduft_list_lookup ex_hash ex_pduft_world 18 ex_pduft_world_ok
           ex_hash_range ex_pduft_world_lock).
Defined.
(** * Management PDUs *)

Section MgmtFacts.

Variable hash_min : Z -> Z.

Lemma mgmt_stamp_spec (self_addr dst : Z) (lf : lower_flow_t)
    (refs : list ref_event) (rb : rlite_buf) :
  let '(out, ret) := mgmt_stamp self_addr dst lf refs rb in
  out_lower_flow out = Some lf
  /\ out_lower_ipcp out = Some (txrx_ipcp lf)
  /\ out_refs out = refs
  /\ ((ret = - ENOSPC /\ rb_room rb < RINA_PCI_SIZE /\ out_rb out = rb)
      \/ (ret = 0 /\ RINA_PCI_SIZE <= rb_room rb
          /\ rlite_buf_pci_push rb
             = Some (with_pcic (pcic rb) (out_rb out))
          /\ RLITE_BUF_PCI (out_rb out)
             = {| dst_addr := dst; src_addr := self_addr; qos_id := 0;
                  dst_cep := 0; src_cep := 0; pdu_type := PDU_T_MGMT;
                  pdu_flags := 0; pdu_len := len rb + RINA_PCI_SIZE;
                  seqnum := 0 |})).
Proof.
  unfold mgmt_stamp, rlite_buf_pci_push.
  destruct (rb_room rb <? RINA_PCI_SIZE) eqn:E; cbn.
  - apply Z.ltb_lt in E. auto 10.
  - apply Z.ltb_ge in E. repeat split. right. repeat split. exact E.
Qed.

(** X23.  The outcomes of [rlite_normal_mgmt_sdu_write] when the table can
    be read.  The call returns 0, [-EHOSTUNREACH], [-EINVAL] or [-ENOSPC].
    It returns 0 exactly when the header designates a lower flow (a route
    to the destination address, or a flow on the local port that this IPCP
    uses) and the buffer has room for a PCI; the caller is then handed that
    flow and its IPCP, and the buffer is the one given with one PCI pushed
    that reads: management PDU, from the address of this IPCP, to the
    destination address of the header (0 for a port), length of the whole
    PDU, every other field 0.  On an error the buffer is as given.  Every
    reference taken on a flow has been dropped when the call returns. *)
Theorem mgmt_sdu_write_contract
    (ipcp self_addr : Z) (p : rlite_normal)
    (flow_get : Z -> option port_flow) (mhdr : rlite_mgmt_hdr)
    (rb : rlite_buf) (lower_ipcp : option Z) (lower_flow : option lower_flow_t)
    (Hlock : pduft_lock p = false) :
  exists out ret,
    rlite_normal_mgmt_sdu_write hash_min ipcp self_addr p flow_get mhdr rb
                                lower_ipcp lower_flow = Some (out, ret)
    /\ (forall f, refs_held f (out_refs out) = 0)
    /\ ((ret = 0
         /\ exists flow dst,
              match mh_type mhdr with
              | RLITE_MGMT_HDR_T_OUT_DST_ADDR =>
                  priv_pduft_lookup hash_min p (mh_remote_addr mhdr)
                  = Some (Some flow)
                  /\ dst = mh_remote_addr mhdr
              | RLITE_MGMT_HDR_T_OUT_LOCAL_PORT =>
                  flow_get (mh_local_port mhdr)
                  = Some {| pf_flow := flow; pf_upper_ipcp := Some ipcp |}
                  /\ dst = 0
              | RLITE_MGMT_HDR_T_OTHER => False
              end
              /\ RINA_PCI_SIZE <= rb_room rb
              /\ out_lower_flow out = Some flow
              /\ out_lower_ipcp out = Some (txrx_ipcp flow)
              /\ rlite_buf_pci_push rb
                 = Some (with_pcic (pcic rb) (out_rb out))
              /\ RLITE_BUF_PCI (out_rb out)
                 = {| dst_addr := dst; src_addr := self_addr; qos_id := 0;
                      dst_cep := 0; src_cep := 0; pdu_type := PDU_T_MGMT;
                      pdu_flags := 0; pdu_len := len rb + RINA_PCI_SIZE;
                      seqnum := 0 |})
        \/ (out_rb out = rb
            /\ ((ret = - EHOSTUNREACH
                 /\ mh_type mhdr = RLITE_MGMT_HDR_T_OUT_DST_ADDR
                 /\ priv_pduft_lookup hash_min p (mh_remote_addr mhdr)
                    = Some None
                 /\ out_lower_flow out = None
                 /\ out_lower_ipcp out = lower_ipcp)
                \/ (ret = - EINVAL
                    /\ out_lower_ipcp out = lower_ipcp
                    /\ match mh_type mhdr with
                       | RLITE_MGMT_HDR_T_OUT_DST_ADDR => False
                       | RLITE_MGMT_HDR_T_OUT_LOCAL_PORT =>
                           match flow_get (mh_local_port mhdr) with
                           | None => out_lower_flow out = None
                           | Some pf =>
                               pf_upper_ipcp pf <> Some ipcp
                               /\ out_lower_flow out = Some (pf_flow pf)
                           end
                       | RLITE_MGMT_HDR_T_OTHER =>
                           out_lower_flow out = lower_flow
                       end)
                \/ (ret = - ENOSPC
                    /\ rb_room rb < RINA_PCI_SIZE
                    /\ mh_type mhdr <> RLITE_MGMT_HDR_T_OTHER
                    /\ exists flow,
                         out_lower_flow out = Some flow
                         /\ out_lower_ipcp out = Some (txrx_ipcp flow))))).
Proof.
  unfold rlite_normal_mgmt_sdu_write.
  destruct (mh_type mhdr) eqn:Et.
  - unfold priv_pduft_lookup at 1. rewrite Hlock.
    assert (Hl : priv_pduft_lookup hash_min p (mh_remote_addr mhdr)
                 = Some match priv_lookup_internal hash_min p (mh_remote_addr mhdr) with
                        | Some entry => Some (pe_flow entry)
                        | None => None
                        end)
      by (unfold priv_pduft_lookup; rewrite Hlock; reflexivity).
    destruct (priv_lookup_internal hash_min p (mh_remote_addr mhdr))
      as [entry |].
    + pose proof (mgmt_stamp_spec self_addr (mh_remote_addr mhdr)
                    (pe_flow entry) [] rb) as Hs.
      destruct (mgmt_stamp self_addr (mh_remote_addr mhdr) (pe_flow entry) [] rb)
        as [out ret].
      destruct Hs as [Hf [Hi [Hr Hs]]].
      exists out, ret. split; [reflexivity |].
      split; [rewrite Hr; reflexivity |].
      destruct Hs as [[-> [Hroom Hrb]] | [-> [Hroom [Hpush Hpci]]]].
      * right. split; [exact Hrb |]. right. right.
        repeat split; [exact Hroom | discriminate |].
        exists (pe_flow entry). auto.
      * left. split; [reflexivity |].
        exists (pe_flow entry), (mh_remote_addr mhdr). auto 10.
    + eexists _, _. split; [reflexivity |]. cbn.
      split; [reflexivity |]. right. split; [reflexivity |]. left. auto.
  - destruct (flow_get (mh_local_port mhdr)) as [[flow upper] |];
      cbn [pf_flow pf_upper_ipcp].
    + assert (Hrefs : forall f,
                 refs_held f [ref_get (lf_id flow); ref_put (lf_id flow)] = 0).
      { intros f. cbn. destruct (lf_id flow =? f); reflexivity. }
      destruct (match upper with Some u => u =? ipcp | None => false end)
        eqn:Eu.
      * assert (upper = Some ipcp) as ->.
        { destruct upper as [u |]; [| discriminate].
          apply Z.eqb_eq in Eu. congruence. }
        pose proof (mgmt_stamp_spec self_addr 0 flow
                      [ref_get (lf_id flow); ref_put (lf_id flow)] rb) as Hs.
        destruct (mgmt_stamp self_addr 0 flow
                    [ref_get (lf_id flow); ref_put (lf_id flow)] rb)
          as [out ret].
        destruct Hs as [Hf [Hi [Hr Hs]]].
        exists out, ret. split; [reflexivity |].
        split; [rewrite Hr; exact Hrefs |].
        destruct Hs as [[-> [Hroom Hrb]] | [-> [Hroom [Hpush Hpci]]]].
        -- right. split; [exact Hrb |]. right. right.
           repeat split; [exact Hroom | discriminate |].
           exists flow. auto.
        -- left. split; [reflexivity |]. exists flow, 0. auto 10.
      * eexists _, _. split; [reflexivity |]. cbn [out_refs out_rb out_lower_flow out_lower_ipcp].
        split; [exact Hrefs |]. right. split; [reflexivity |]. right. left.
        repeat split. intros ->. rewrite Z.eqb_refl in Eu. discriminate.
    + eexists _, _. split; [reflexivity |]. cbn.
      split; [reflexivity |]. right. split; [reflexivity |]. right. left. auto.
  - eexists _, _. split; [reflexivity |]. cbn.
    split; [reflexivity |]. right. split; [reflexivity |]. right. left. auto.
Qed.

Lemma sdu_rx_mgmt_pdu (self_addr jiffies : Z)
    (flow_get_by_cep : Z -> option flow_entry) (clone : nat -> option Z)
    (alloc : option rlite_buf) (up : rlite_buf -> Z) (rb : rlite_buf) :
  pdu_type (RLITE_BUF_PCI rb) = PDU_T_MGMT ->
  rlite_normal_sdu_rx self_addr jiffies flow_get_by_cep clone alloc up rb
  = if dst_addr (RLITE_BUF_PCI rb) =? self_addr
    then (flow_get_by_cep (dst_cep (RLITE_BUF_PCI rb)), [ev_free rb], 0)
    else (None, [ev_rmt_tx (dst_addr (RLITE_BUF_PCI rb)) rb false], 0).
Proof.
  intros Ht. unfold rlite_normal_sdu_rx.
  destruct (dst_addr (RLITE_BUF_PCI rb) =? self_addr); cbn [negb];
    [| reflexivity].
  destruct (flow_get_by_cep (dst_cep (RLITE_BUF_PCI rb))) as [flow |];
    [| reflexivity].
  unfold sdu_rx_on_flow, sdu_rx_ctrl, is_ctrl_pdu.
  unfold RLITE_BUF_PCI_CTRL, RLITE_BUF_PCI in *. rewrite Ht.
  reflexivity.
Qed.

(** X24.  A management PDU on the receive path.  The PDU that
    [rlite_normal_mgmt_sdu_write] has framed for a destination address,
    handed to [rlite_normal_sdu_rx] of an IPCP, is forwarded as it is
    towards its destination when the IPCP has another address, and is freed
    when the IPCP has that address; [rlite_normal_sdu_rx] returns 0, never
    hands the PDU to a flow and changes no flow. *)
Theorem mgmt_pdu_not_consumed
    (ipcp self_addr : Z) (p : rlite_normal)
    (flow_get : Z -> option port_flow) (mhdr : rlite_mgmt_hdr)
    (rb : rlite_buf) (lower_ipcp : option Z) (lower_flow : option lower_flow_t)
    (out : mgmt_out)
    (rcv_addr jiffies : Z) (flow_get_by_cep : Z -> option flow_entry)
    (clone : nat -> option Z) (alloc : option rlite_buf) (up : rlite_buf -> Z)
    (Htype : mh_type mhdr = RLITE_MGMT_HDR_T_OUT_DST_ADDR)
    (Hwrite : rlite_normal_mgmt_sdu_write hash_min ipcp self_addr p flow_get
                mhdr rb lower_ipcp lower_flow = Some (out, 0)) :
  rlite_normal_sdu_rx rcv_addr jiffies flow_get_by_cep clone alloc up
                      (out_rb out)
  = if mh_remote_addr mhdr =? rcv_addr
    then (flow_get_by_cep 0, [ev_free (out_rb out)], 0)
    else (None, [ev_rmt_tx (mh_remote_addr mhdr) (out_rb out) false], 0).
Proof.
  assert (Hpci : RLITE_BUF_PCI (out_rb out)
                 = {| dst_addr := mh_remote_addr mhdr; src_addr := self_addr;
                      qos_id := 0; dst_cep := 0; src_cep := 0;
                      pdu_type := PDU_T_MGMT; pdu_flags := 0;
                      pdu_len := len rb + RINA_PCI_SIZE; seqnum := 0 |}).
  { unfold rlite_normal_mgmt_sdu_write in Hwrite. rewrite Htype in Hwrite.
    destruct (priv_pduft_lookup hash_min p (mh_remote_addr mhdr))
      as [[flow |] |]; try discriminate Hwrite.
    pose proof (mgmt_stamp_spec self_addr (mh_remote_addr mhdr) flow [] rb)
      as Hs.
    destruct (mgmt_stamp self_addr (mh_remote_addr mhdr) flow [] rb)
      as [out' ret'].
    injection Hwrite as -> ->.
    destruct Hs as [_ [_ [_ [[Hr _] | [_ [_ [_ Hp]]]]]]];
      [discriminate Hr | exact Hp]. }
  rewrite sdu_rx_mgmt_pdu by (rewrite Hpci; reflexivity).
  rewrite Hpci. reflexivity.
Qed.

End MgmtFacts.

Definition ex_mhdr : rlite_mgmt_hdr :=
  {| mh_type := RLITE_MGMT_HDR_T_OUT_DST_ADDR; mh_local_port := 0;
     mh_remote_addr := 18 |}.

(** A management SDU for the IPCP at address 18, which the table of the
    example reaches through flow 4. *)
Lemma mgmt_sdu_write_contract_witness :
  exists out,
    rlite_normal_mgmt_sdu_write ex_hash 1 2 (priv ex_pduft_world)
      (fun _ => None) ex_mhdr (ex_sdu 0) None None = Some (out, 0)
    /\ out_lower_flow out = Some (ex_lower_flow 4)
    /\ dst_addr (RLITE_BUF_PCI (out_rb out)) = 18
    /\ pdu_len (RLITE_BUF_PCI (out_rb out)) = 100.
Proof.
  destruct (mgmt_sdu_write_contract ex_hash 1 2 (priv ex_pduft_world)
              (fun _ => None) ex_mhdr (ex_sdu 0) None None
              ex_pduft_world_lock)
    as [out [ret [Hw [_ [[-> [flow [dst [[Hl ->] [_ [Hf [_ [_ Hp]]]]]]]] | Herr]]]]].
  - exists out. split; [exact Hw |].
    assert (flow = ex_lower_flow 4) as ->.
    { assert (Hc : priv_pduft_lookup ex_hash (priv ex_pduft_world)
                     (mh_remote_addr ex_mhdr) = Some (Some (ex_lower_flow 4)))
        by reflexivity.
      congruence. }
    split; [exact Hf |]. rewrite Hp. split; reflexivity.
  - exfalso. destruct Herr as [_ [[_ [_ [Hl _]]] | [[_ [_ Hi]] | [_ [Hr _]]]]].
    + vm_compute in Hl. discriminate Hl.
    + exact Hi.
    + vm_compute in Hr. discriminate Hr.
Defined.

(** The PDU reaches an IPCP at address 7, which forwards it, and the IPCP
    at address 18, which frees it. *)
Lemma mgmt_pdu_not_consumed_witness :
  exists out,
    rlite_normal_mgmt_sdu_write ex_hash 1 2 (priv ex_pduft_world)
      (fun _ => None) ex_mhdr (ex_sdu 0) None None = Some (out, 0)
    /\ rlite_normal_sdu_rx 7 0 (fun _ => Some (ex_flow ex_cfg_rtx))
         ex_clone_ok None (fun _ => 0) (out_rb out)
       = (None, [ev_rmt_tx 18 (out_rb out) false], 0)
    /\ rlite_normal_sdu_rx 18 0 (fun _ => Some (ex_flow ex_cfg_rtx))
         ex_clone_ok None (fun _ => 0) (out_rb out)
       = (Some (ex_flow ex_cfg_rtx), [ev_free (out_rb out)], 0).
Proof.
  destruct (rlite_normal_mgmt_sdu_write ex_hash 1 2 (priv ex_pduft_world)
              (fun _ => None) ex_mhdr (ex_sdu 0) None None)
    as [[out ret] |] eqn:Hw; [| vm_compute in Hw; discriminate Hw].
  assert (ret = 0) as ->.
  { vm_compute in Hw. injection Hw as _ <-. reflexivity. }
  exists out. split; [reflexivity |]. split.
  - exact (mgmt_pdu_not_consumed ex_hash 1 2 (priv ex_pduft_world)
             (fun _ => None) ex_mhdr (ex_sdu 0) None None out 7 0
             (fun _ => Some (ex_flow ex_cfg_rtx)) ex_clone_ok None
             (fun _ => 0) eq_refl Hw).
  - exact (mgmt_pdu_not_consumed ex_hash 1 2 (priv ex_pduft_world)
             (fun _ => None) ex_mhdr (ex_sdu 0) None None out 18 0
             (fun _ => Some (ex_flow ex_cfg_rtx)) ex_clone_ok None
             (fun _ => 0) eq_refl Hw).
Defined.
(** * The queues of the sender *)

Lemma u32_small (x : Z) : 0 <= x < 2 ^ 32 -> u32 x = x.
Proof. intros H. unfold u32. apply Z.mod_small. exact H. Qed.

Lemma sndq_frame_refl (f : flow_entry) : sndq_frame f f.
Proof. reflexivity. Qed.

Lemma sndq_frame_trans (f g h : flow_entry) :
  sndq_frame f g -> sndq_frame g h -> sndq_frame f h.
Proof. unfold sndq_frame. congruence. Qed.

Lemma sndq_inv_frame (f f' : flow_entry) :
  snd_frame f f' -> sndq_frame f f' -> sndq_inv f -> sndq_inv f'.
Proof.
  intros [Hc [_ [Hs Hq]]] Hf. apply snd_fields_eq in Hs.
  destruct Hs as [_ [_ [_ [_ [Hcwq _]]]]].
  unfold sndq_frame, sndq_fields in Hf. inversion Hf as [[H1 H2 H3 H4]].
  unfold sndq_inv. cbv zeta. rewrite Hc, Hcwq, Hq, H1, H2, H3, H4. tauto.
Qed.

(** ** The receive path leaves the counters alone *)

Lemma sdu_rx_sv_update_qframe (self_addr : Z) (alloc : option rlite_buf)
    (flow : flow_entry) :
  sndq_frame flow (fst (sdu_rx_sv_update self_addr alloc flow)).
Proof.
  destruct (sdu_rx_sv_update_shape self_addr alloc flow) as [r [n ->]].
  reflexivity.
Qed.

Lemma ctrl_pdu_alloc_qframe (self_addr : Z) (alloc : option rlite_buf)
    (flow : flow_entry) (t a : Z) :
  sndq_frame flow (fst (ctrl_pdu_alloc self_addr alloc flow t a)).
Proof.
  destruct (ctrl_pdu_alloc_shape self_addr alloc flow t a) as [n ->].
  reflexivity.
Qed.

Lemma rx_entry_qframe (jiffies : Z) (flow : flow_entry) (rb : rlite_buf) :
  sndq_frame flow (rx_entry jiffies flow rb)
  /\ sndq_frame flow (rcv_inact_rearm jiffies flow).
Proof.
  unfold rx_entry, max_seq_raise, rcv_inact_rearm, sndq_frame.
  cbn [flow_dtp cfg with_dtp upper_ipcp].
  destruct (dtcp_present (cfg flow)); destruct (_ >? _); cbn; auto.
Qed.

Lemma sdu_rx_drf_qframe (self_addr : Z) (alloc : option rlite_buf)
    (up : rlite_buf -> Z) (flow : flow_entry) (rb : rlite_buf) :
  sndq_frame flow (fst (fst (sdu_rx_drf self_addr alloc up flow rb))).
Proof.
  unfold sdu_rx_drf. cbv zeta.
  match goal with
  | |- context [sdu_rx_sv_update ?s ?a ?f] =>
      pose proof (sdu_rx_sv_update_qframe s a f) as H;
      destruct (sdu_rx_sv_update s a f) as [f' crb]
  end.
  cbn [fst] in *. unfold sndq_frame in *. cbn in *. exact H.
Qed.

Lemma sdu_rx_duplicate_qframe (self_addr : Z) (alloc : option rlite_buf)
    (flow : flow_entry) (rb : rlite_buf) :
  sndq_frame flow (fst (fst (sdu_rx_duplicate self_addr alloc flow rb))).
Proof.
  unfold sdu_rx_duplicate. cbv zeta. cbn [cfg with_stats].
  destruct (_ && _); [| reflexivity].
  match goal with
  | |- context [ctrl_pdu_alloc ?s ?a ?f ?t ?k] =>
      pose proof (ctrl_pdu_alloc_qframe s a f t k) as H;
      destruct (ctrl_pdu_alloc s a f t k) as [f' crb]
  end.
  cbn [fst] in *. unfold sndq_frame in *. cbn in H.
  destruct crb; cbn; exact H.
Qed.

Lemma seqq_pop_many_qfields (d : dtp) (gap : Z) :
  sndq_fields (fst (seqq_pop_many d gap)) = sndq_fields d.
Proof.
  unfold seqq_pop_many.
  destruct (seqq_pop_scan_pops gap (seqq d) d) as [_ [n [p Hd]]].
  destruct (seqq_pop_scan gap (seqq d) d) as [[kept qrbs] d1].
  cbn [fst snd] in *. subst d1. reflexivity.
Qed.

Lemma sdu_rx_deliver_qframe (self_addr : Z) (alloc : option rlite_buf)
    (up : rlite_buf -> Z) (flow : flow_entry) (rb : rlite_buf) :
  sndq_frame flow (fst (fst (sdu_rx_deliver self_addr alloc up flow rb))).
Proof.
  unfold sdu_rx_deliver. cbv zeta.
  match goal with
  | |- context [seqq_pop_many ?d ?g] =>
      pose proof (seqq_pop_many_qfields d g) as Hs;
      destruct (seqq_pop_many d g) as [d1 qrbs]
  end.
  cbn [fst] in Hs. cbn in Hs.
  destruct (upper_ipcp flow) eqn:Hup.
  - match goal with
    | |- context [sdu_rx_sv_update ?s ?a ?f] =>
        pose proof (sdu_rx_sv_update_qframe s a f) as H;
        destruct (sdu_rx_sv_update s a f) as [f' crb]
    end.
    cbn [fst] in H. unfold sndq_frame in *. cbn in H.
    destruct (rlite_buf_pci_pop rb); cbn; rewrite H; exact Hs.
  - unfold sndq_frame.
    destruct (rlite_buf_pci_pop rb); cbn; exact Hs.
Qed.

Lemma sdu_rx_dropped_qframe (self_addr : Z) (alloc : option rlite_buf)
    (flow : flow_entry) (rb : rlite_buf) :
  sndq_frame flow (fst (fst (sdu_rx_dropped self_addr alloc flow rb))).
Proof.
  unfold sdu_rx_dropped. cbv zeta.
  match goal with
  | |- context [sdu_rx_sv_update ?s ?a ?f] =>
      pose proof (sdu_rx_sv_update_qframe s a f) as H;
      destruct (sdu_rx_sv_update s a f) as [f' crb]
  end.
  cbn [fst] in *. exact H.
Qed.

Lemma seqq_push_qfields (d : dtp) (rb : rlite_buf) :
  sndq_fields (fst (seqq_push d rb)) = sndq_fields d.
Proof.
  unfold seqq_push. destruct (_ >=? _); [reflexivity |].
  destruct (seqq_insert rb (seqq d)); reflexivity.
Qed.

Lemma sdu_rx_hold_qframe (self_addr : Z) (alloc : option rlite_buf)
    (flow : flow_entry) (rb : rlite_buf) :
  sndq_frame flow (fst (fst (sdu_rx_hold self_addr alloc flow rb))).
Proof.
  unfold sdu_rx_hold.
  pose proof (seqq_push_qfields (flow_dtp flow) rb) as Hs.
  destruct (seqq_push (flow_dtp flow) rb) as [d1 evs]. cbn [fst] in Hs.
  match goal with
  | |- context [sdu_rx_sv_update ?s ?a ?f] =>
      pose proof (sdu_rx_sv_update_qframe s a f) as H;
      destruct (sdu_rx_sv_update s a f) as [f' crb]
  end.
  cbn [fst] in *. unfold sndq_frame in *. cbn in H. rewrite H. exact Hs.
Qed.

Lemma sdu_rx_data_qframe (self_addr jiffies : Z) (alloc : option rlite_buf)
    (up : rlite_buf -> Z) (flow : flow_entry) (rb : rlite_buf) :
  sndq_frame flow (fst (fst (sdu_rx_data self_addr jiffies alloc up flow rb))).
Proof.
  unfold sdu_rx_data. cbv zeta.
  destruct (rx_entry_qframe jiffies flow rb) as [He Hr].
  fold (rb_seq rb). fold (rx_entry jiffies flow rb).
  destruct (Z.testbit _ 0).
  { eapply sndq_frame_trans; [exact Hr | apply sdu_rx_drf_qframe]. }
  destruct (_ <? _).
  { eapply sndq_frame_trans; [exact Hr | apply sdu_rx_duplicate_qframe]. }
  destruct (rx_deliver _ _).
  { eapply sndq_frame_trans; [exact He | apply sdu_rx_deliver_qframe]. }
  destruct (rx_drop _ _).
  { eapply sndq_frame_trans; [exact He | apply sdu_rx_dropped_qframe]. }
  eapply sndq_frame_trans; [exact He | apply sdu_rx_hold_qframe].
Qed.

Lemma sdu_rx_consumed_qframe (self_addr : Z) (alloc : option rlite_buf)
    (flow : flow_entry) (rb : rlite_buf) :
  sndq_frame flow
    (fst (fst (rlite_normal_sdu_rx_consumed self_addr alloc flow rb))).
Proof.
  unfold rlite_normal_sdu_rx_consumed. cbv zeta.
  match goal with
  | |- context [sdu_rx_sv_update ?s ?a ?f] =>
      pose proof (sdu_rx_sv_update_qframe s a f) as H;
      destruct (sdu_rx_sv_update s a f) as [f' crb]
  end.
  cbn [fst] in *. exact H.
Qed.

(** ** The send path and the control path keep the counters right *)

Ltac dtp_cbn :=
  cbn [cfg flow_dtp stats with_dtp with_stats with_cfg set_drf
       next_seq_num_to_send snd_lwe snd_rwe last_seq_num_sent cwq cwq_len
       max_cwq_len rtxq rtxq_len max_rtxq_len rtx_tmr_next rtx_tmr rtx_tmr_int
       with_set_drf with_next_seq_num_to_send with_snd_lwe with_snd_rwe
       with_last_seq_num_sent with_cwq with_cwq_len with_rtxq with_rtxq_len
       with_rtx_tmr_next with_rtx_tmr with_snd_inact_tmr
       with_last_ctrl_seq_num_rcvd fst snd length] in *.

Lemma sndq_inv_qcount (flow : flow_entry) :
  sndq_inv flow
  <-> qcount (w_max_cwq_len (cfg flow)) (rtx_control (cfg flow)) (flow_dtp flow)
      /\ max_cwq_len (flow_dtp flow)
         = (if is_win (fc_type (cfg flow)) then w_max_cwq_len (cfg flow) else 0)
      /\ max_rtxq_len (flow_dtp flow)
         = (if rtx_control (cfg flow) then 64 else 0).
Proof. unfold sndq_inv, qcount. tauto. Qed.

Lemma rlite_rtxq_push_counts (jiffies : Z) (clone : option Z) (d : dtp)
    (rb : rlite_buf) :
  let d' := fst (rlite_rtxq_push jiffies clone d rb) in
  cwq d' = cwq d /\ cwq_len d' = cwq_len d
  /\ max_cwq_len d' = max_cwq_len d /\ max_rtxq_len d' = max_rtxq_len d
  /\ match clone with
     | Some _ => length (rtxq d') = S (length (rtxq d))
                 /\ rtxq_len d' = u32 (rtxq_len d + 1)
     | None => d' = d
     end.
Proof.
  unfold rlite_rtxq_push. destruct clone as [a |]; cbn [fst]; [| auto 10].
  destruct (negb _); dtp_cbn; rewrite length_app, Nat.add_1_r; auto 10.
Qed.

Lemma cwq_drain_counts (W : Z) (rtx : bool) (jiffies : Z)
    (clone : nat -> option Z) :
  W < 2 ^ 31 ->
  forall (q : list rlite_buf) (n : nat) (d : dtp),
    cwq d = q -> qcount W rtx d ->
    let d' := fst (cwq_drain rtx jiffies clone n q d) in
    qcount W rtx d'
    /\ max_cwq_len d' = max_cwq_len d /\ max_rtxq_len d' = max_rtxq_len d.
Proof.
  intros HW. induction q as [| qrb q IH]; intros n d Hq Hinv; cbn [cwq_drain].
  - dtp_cbn. auto.
  - cbv zeta. destruct (snd_lwe d >=? snd_rwe d); [dtp_cbn; auto |].
    destruct Hinv as [H1 [H2 [H3 [H4 H5]]]]. rewrite Hq in *.
    cbn [length] in *.
    set (d1 := cwq_pop_head q d).
    assert (Hd1 : cwq d1 = q /\ cwq_len d1 = Z.of_nat (length q)
                  /\ rtxq d1 = rtxq d /\ rtxq_len d1 = rtxq_len d
                  /\ max_cwq_len d1 = max_cwq_len d
                  /\ max_rtxq_len d1 = max_rtxq_len d).
    { subst d1. unfold cwq_pop_head. dtp_cbn. rewrite H1.
      rewrite u32_small by lia. repeat split. lia. }
    destruct Hd1 as [Hc1 [Hl1 [Hr1 [Hrl1 [Hm1 Hm1']]]]].
    set (step := if rtx then (fst (rlite_rtxq_push jiffies (clone n) d1 qrb), S n)
                 else (d1, n)).
    assert (Hstep : cwq (fst step) = q /\ qcount W rtx (fst step)
                    /\ max_cwq_len (fst step) = max_cwq_len d
                    /\ max_rtxq_len (fst step) = max_rtxq_len d).
    { subst step. destruct rtx; cbn [fst].
      - destruct (rlite_rtxq_push_counts jiffies (clone n) d1 qrb)
          as [Ha [Hb [Hc [Hd He]]]].
        cbv zeta in *. rewrite Hc, Hd.
        split; [congruence |]. split; [| auto].
        unfold qcount. rewrite Ha, Hb, Hc1, Hl1.
        destruct (clone n).
        + destruct He as [He1 He2]. rewrite He1, He2, Hrl1, Hr1, H2.
          rewrite u32_small by lia.
          repeat split; try lia; try discriminate.
        + rewrite He, Hr1, Hrl1. repeat split; try lia; try discriminate.
      - split; [exact Hc1 |]. split; [| auto].
        unfold qcount. rewrite Hc1, Hl1, Hr1, Hrl1.
        repeat split; try lia. exact H5. }
    destruct Hstep as [Hsc [Hsq [Hsm Hsm']]].
    destruct (IH (snd step) (fst step) Hsc Hsq) as [Hq' [Hm Hm']].
    cbn [fst]. rewrite <- Hsm, <- Hsm'. auto.
Qed.

Lemma rtxq_ack_scan_counts (W : Z) (rtx : bool) (ack : Z) :
  W < 2 ^ 31 ->
  forall (q : list rlite_buf) (d : dtp),
    rtxq d = q -> qcount W rtx d ->
    let d' := fst (rtxq_ack_scan ack q d) in
    qcount W rtx d'
    /\ max_cwq_len d' = max_cwq_len d /\ max_rtxq_len d' = max_rtxq_len d.
Proof.
  intros HW. induction q as [| cur q IH]; intros d Hq Hinv;
    cbn [rtxq_ack_scan].
  - dtp_cbn. auto.
  - destruct (seqnum (RLITE_BUF_PCI cur) <=? ack).
    + destruct Hinv as [H1 [H2 [H3 [H4 H5]]]]. rewrite Hq in *.
      cbn [length] in *.
      set (d1 := if ptr_is _ cur then _ else _).
      assert (Hd1 : rtxq d1 = q /\ qcount W rtx d1
                    /\ max_cwq_len d1 = max_cwq_len d
                    /\ max_rtxq_len d1 = max_rtxq_len d).
      { subst d1. unfold qcount.
        destruct (ptr_is _ cur); dtp_cbn; rewrite H2, u32_small by lia;
          (split; [reflexivity |]); (split; [| auto]);
          repeat split; try lia; try exact H1;
          intros Hr; specialize (H5 Hr); discriminate H5. }
      destruct Hd1 as [Hr1 [Hq1 [Hm1 Hm1']]].
      pose proof (IH d1 Hr1 Hq1) as Hind. cbv zeta in Hind.
      destruct (rtxq_ack_scan ack q d1) as [d2 evs]. cbn [fst] in *.
      rewrite <- Hm1, <- Hm1'. exact Hind.
    + destruct (rtx_tmr_next d); dtp_cbn; [auto |].
      unfold qcount in *. dtp_cbn. auto.
Qed.

Lemma sdu_rx_ctrl_sndq (jiffies : Z) (clone : nat -> option Z)
    (flow : flow_entry) (rb : rlite_buf) :
  w_max_cwq_len (cfg flow) < 2 ^ 31 ->
  sndq_inv flow ->
  sndq_inv (fst (fst (sdu_rx_ctrl jiffies clone flow rb))).
Proof.
  intros HW Hinv. unfold sdu_rx_ctrl.
  destruct (negb (is_ctrl_pdu _)); [exact Hinv |].
  apply sndq_inv_qcount in Hinv. destruct Hinv as [Hq [Hm Hm']].
  set (W := w_max_cwq_len (cfg flow)) in *.
  set (rtx := rtx_control (cfg flow)) in *.
  assert (H : let d' := fst (fst (sdu_rx_ctrl_locked rtx jiffies clone
                                    (RLITE_BUF_PCI_CTRL rb) (flow_dtp flow))) in
              qcount W rtx d'
              /\ max_cwq_len d' = max_cwq_len (flow_dtp flow)
              /\ max_rtxq_len d' = max_rtxq_len (flow_dtp flow)).
  { unfold sdu_rx_ctrl_locked.
    destruct (ctrl_seq_duplicate _ _); [dtp_cbn; auto |].
    assert (Ha : let d' := fst (ctrl_accept rtx jiffies clone
                                  (RLITE_BUF_PCI_CTRL rb) (flow_dtp flow)) in
                 qcount W rtx d'
                 /\ max_cwq_len d' = max_cwq_len (flow_dtp flow)
                 /\ max_rtxq_len d' = max_rtxq_len (flow_dtp flow)).
    { unfold ctrl_accept. cbv zeta.
      destruct (has_bit _ PDU_T_FC_BIT); [| dtp_cbn; auto].
      unfold ctrl_fc. destruct (_ <? _); [dtp_cbn; auto |]. cbv zeta.
      match goal with
      | |- context [cwq_drain rtx jiffies clone 0%nat (cwq ?d0) ?d0] =>
          exact (cwq_drain_counts W rtx jiffies clone HW (cwq d0) 0%nat d0
                   eq_refl Hq)
      end. }
    cbv zeta in Ha.
    destruct (ctrl_accept rtx jiffies clone (RLITE_BUF_PCI_CTRL rb)
                          (flow_dtp flow)) as [d1 qrbs].
    cbn [fst] in Ha. destruct Ha as [Hq1 [Hm1 Hm1']].
    destruct (has_bit _ PDU_T_ACK_BIT); [| dtp_cbn; auto].
    unfold ctrl_ack. destruct (_ =? PDU_T_ACK); [| dtp_cbn; auto].
    pose proof (rtxq_ack_scan_counts W rtx
                  (ack_nack_seq_num (RLITE_BUF_PCI_CTRL rb)) HW (rtxq d1) d1
                  eq_refl Hq1) as Hs.
    cbv zeta in Hs.
    destruct (rtxq_ack_scan _ (rtxq d1) d1) as [d2 evs]. cbn [fst] in Hs.
    rewrite <- Hm1, <- Hm1'.
    case (rtxq d2); [| intros ? ?]; cbn [fst]; exact Hs. }
  cbv zeta in H.
  destruct (sdu_rx_ctrl_locked rtx jiffies clone (RLITE_BUF_PCI_CTRL rb)
                               (flow_dtp flow)) as [[d evs] qrbs].
  cbn [fst] in *. apply sndq_inv_qcount. cbn [cfg with_dtp flow_dtp].
  destruct H as [H1 [H2 H3]]. rewrite H2, H3. auto.
Qed.

Lemma sdu_write_locked_sndq (self_addr jiffies : Z) (clone : option Z)
    (flow : flow_entry) (rb : rlite_buf) :
  0 <= w_max_cwq_len (cfg flow) < 2 ^ 31 ->
  sndq_inv flow ->
  sndq_inv (fst (fst (sdu_write_locked self_addr jiffies clone flow rb))).
Proof.
  intros HW Hinv.
  pose proof (snd_inact_rearm_frame jiffies flow) as Hf. cbv zeta in Hf.
  destruct Hf as [Hc [_ [_ [_ [Hs [_ [Hq [Hql [Hcl [Hmc Hmr]]]]]]]]]].
  apply snd_fields_eq in Hs. destruct Hs as [_ [_ [_ [_ [Hcwq _]]]]].
  assert (Hinv1 : sndq_inv (snd_inact_rearm jiffies flow)).
  { unfold sndq_inv in *. cbv zeta in *.
    rewrite Hc, Hcwq, Hq, Hql, Hcl, Hmc, Hmr. exact Hinv. }
  rewrite <- Hc in HW. clear Hc Hcwq Hq Hql Hcl Hmc Hmr Hinv.
  unfold sdu_write_locked. cbv zeta.
  set (flow1 := snd_inact_rearm jiffies flow) in *. clearbody flow1.
  destruct (sdu_write_blocked flow1) eqn:Hb; [exact Hinv1 |].
  destruct (rlite_buf_pci_push rb) as [rb1 |]; [| exact Hinv1].
  unfold sdu_write_blocked in Hb.
  apply Bool.orb_false_iff in Hb. destruct Hb as [Hb1 Hb2].
  destruct Hinv1 as [H1 [H2 [H3 [H4 [H5 [H6 H7]]]]]].
  unfold sdu_write_send. cbv zeta.
  cbn [cfg with_stats flow_dtp with_dtp].
  destruct (dtcp_present (cfg flow1)); cbn [negb];
    [| unfold sndq_inv; dtp_cbn; auto 10].
  destruct (is_win (fc_type (cfg flow1))) eqn:Ew.
  - cbn [seqnum RLITE_BUF_PCI with_pci pcic base dt_pci].
    cbn [snd_rwe with_set_drf with_next_seq_num_to_send].
    destruct (next_seq_num_to_send (flow_dtp flow1) >? snd_rwe (flow_dtp flow1))
      eqn:Egt.
    + cbn [andb] in *.
      rewrite Z.geb_leb in Hb1. apply Z.leb_gt in Hb1.
      unfold sndq_inv. dtp_cbn. try rewrite Ew. rewrite length_app, Nat.add_1_r.
      rewrite H1, u32_small by lia.
      rewrite H3 in Hb1. try rewrite Ew in Hb1. rewrite H1 in Hb1.
      repeat split; try lia; try assumption.
      destruct (rtx_control (cfg flow1)) eqn:Er.
      * cbn [andb] in Hb2. rewrite Z.geb_leb in Hb2. apply Z.leb_gt in Hb2.
        rewrite H4, H2 in Hb2. lia.
      * rewrite (H7 eq_refl). cbn [length]. lia.
    + cbn [andb].
      destruct (rtx_control (cfg flow1)) eqn:Er.
      * cbn [andb] in Hb2. rewrite Z.geb_leb in Hb2. apply Z.leb_gt in Hb2.
        rewrite H4, H2 in Hb2.
        match goal with
        | |- context [rlite_rtxq_push ?j ?c ?d ?r] =>
            pose proof (rlite_rtxq_push_counts j c d r) as Hp;
            destruct (rlite_rtxq_push j c d r) as [d2 ret]
        end.
        cbv zeta in Hp. dtp_cbn.
        destruct Hp as [Ha [Hb [Hc [Hd He]]]].
        assert (Hd2 : sndq_inv (with_dtp d2 flow1)).
        { unfold sndq_inv. cbn [cfg with_dtp flow_dtp]. cbv zeta.
          try rewrite Ew; try rewrite Er; rewrite Ha, Hb, Hc, Hd.
          destruct clone.
          - destruct He as [He1 He2]. rewrite He1, He2, H2.
            rewrite u32_small by lia.
            repeat split; try lia; try assumption; try discriminate.
          - rewrite He. dtp_cbn. try rewrite Ew in *; try rewrite Er in *.
            repeat split; try lia; try assumption. }
        destruct (negb (ret =? 0)); cbn [fst]; exact Hd2.
      * unfold sndq_inv. dtp_cbn. try rewrite Ew in *; try rewrite Er in *. auto 10.
  - destruct (rtx_control (cfg flow1)) eqn:Er; cbn [andb].
    + cbn [andb] in Hb2. rewrite Z.geb_leb in Hb2. apply Z.leb_gt in Hb2.
      rewrite H4, H2 in Hb2.
      match goal with
      | |- context [rlite_rtxq_push ?j ?c ?d ?r] =>
          pose proof (rlite_rtxq_push_counts j c d r) as Hp;
          destruct (rlite_rtxq_push j c d r) as [d2 ret]
      end.
      cbv zeta in Hp. dtp_cbn.
      destruct Hp as [Ha [Hb [Hc [Hd He]]]].
      assert (Hd2 : sndq_inv (with_dtp d2 flow1)).
      { unfold sndq_inv. cbn [cfg with_dtp flow_dtp]. cbv zeta.
        try rewrite Ew; try rewrite Er; rewrite Ha, Hb, Hc, Hd.
        destruct clone.
        - destruct He as [He1 He2]. rewrite He1, He2, H2.
          rewrite u32_small by lia.
          repeat split; try lia; try assumption; try discriminate.
        - rewrite He. dtp_cbn. try rewrite Ew in *; try rewrite Er in *.
          repeat split; try lia; try assumption. }
      destruct (negb (ret =? 0)); cbn [fst]; exact Hd2.
    + unfold sndq_inv. dtp_cbn. try rewrite Ew in *; try rewrite Er in *. auto 10.
Qed.

Lemma rtx_scan_qfields (jiffies : Z) (clone : nat -> option Z) (start : nat) :
  forall (fuel cur k : nat) (d d' : dtp) (rrbq rrbq' : list rlite_buf),
    rtx_scan fuel jiffies clone start cur k d rrbq = Some (d', rrbq') ->
    sndq_fields d' = sndq_fields d.
Proof.
  induction fuel as [| fuel IH]; intros cur k d d' rrbq rrbq' H;
    cbn [rtx_scan] in H; [discriminate |].
  destruct (nth_error (rtxq d) cur) as [rb |].
  - destruct (jiffies >=? rtx_jiffies rb).
    + cbv zeta in H. destruct (Nat.eqb _ start).
      * injection H as <- _. reflexivity.
      * apply IH in H. rewrite H. reflexivity.
    + cbv zeta in H. injection H as <- _.
      destruct (negb _); reflexivity.
  - apply IH in H. exact H.
Qed.

Lemma rtx_tmr_cb_sndq (fuel : nat) (jiffies : Z) (clone : nat -> option Z)
    (self_addr : Z) (flow flow' : flow_entry) (evs : list event) :
  rtx_tmr_cb fuel jiffies clone self_addr flow = Some (flow', evs) ->
  sndq_inv flow -> sndq_inv flow'.
Proof.
  intros H Hinv.
  pose proof (rtx_tmr_cb_frame _ _ _ _ _ _ _ H) as [Hc [_ [Hs [_ Hq]]]].
  assert (Hf : sndq_fields (flow_dtp flow') = sndq_fields (flow_dtp flow)).
  { revert H. unfold rtx_tmr_cb. cbv zeta.
    cbn [rtx_tmr_next with_rtx_tmr rtxq].
    destruct (rtx_tmr_next (flow_dtp flow)) as [a |].
    - destruct (index_of a (rtxq (flow_dtp flow))) as [st |]; [| discriminate].
      destruct (rtx_scan _ _ _ _ _ _ _ _) as [[d rrbq] |] eqn:E;
        [| discriminate].
      intros H. injection H as <- _.
      apply rtx_scan_qfields in E. cbn [flow_dtp with_dtp]. rewrite E.
      reflexivity.
    - intros H. injection H as <- _. reflexivity. }
  apply snd_fields_eq in Hs. destruct Hs as [_ [_ [_ [_ [Hcwq _]]]]].
  assert (Hlen : length (rtxq (flow_dtp flow')) = length (rtxq (flow_dtp flow))).
  { rewrite <- (length_map rb_seq), Hq. apply length_map. }
  unfold sndq_fields in Hf. inversion Hf as [[H1 H2 H3 H4]].
  destruct Hinv as [I1 [I2 [I3 [I4 [I5 [I6 I7]]]]]].
  unfold sndq_inv. cbv zeta. rewrite Hc, Hcwq, Hlen, H1, H2, H3, H4.
  repeat split; try assumption.
  intros Hr. specialize (I7 Hr). rewrite I7 in Hlen.
  apply length_zero_iff_nil. exact Hlen.
Qed.

Lemma sdu_write_locked_cfg (self_addr jiffies : Z) (clone : option Z)
    (flow : flow_entry) (rb : rlite_buf) :
  cfg (fst (fst (sdu_write_locked self_addr jiffies clone flow rb))) = cfg flow.
Proof.
  pose proof (snd_inact_rearm_frame jiffies flow) as Hf. cbv zeta in Hf.
  destruct Hf as [Hc _]. unfold sdu_write_locked. cbv zeta.
  destruct (sdu_write_blocked _); [exact Hc |].
  destruct (rlite_buf_pci_push rb) as [rb1 |]; [| exact Hc].
  pose proof (sdu_write_send_cases self_addr jiffies clone
                (snd_inact_rearm jiffies flow) rb1) as Hs.
  cbv zeta in Hs. destruct Hs as [Hs _]. congruence.
Qed.

Lemma sdu_rx_on_flow_cfg (self_addr jiffies : Z) (clone : nat -> option Z)
    (alloc : option rlite_buf) (up : rlite_buf -> Z) (flow : flow_entry)
    (rb : rlite_buf) :
  cfg (fst (fst (sdu_rx_on_flow self_addr jiffies clone alloc up flow rb)))
  = cfg flow.
Proof.
  unfold sdu_rx_on_flow. destruct (negb _).
  - unfold sdu_rx_ctrl. destruct (negb _); [reflexivity |].
    destruct (sdu_rx_ctrl_locked _ _ _ _ _) as [[d evs] qrbs]. reflexivity.
  - apply (sdu_rx_data_frame self_addr jiffies alloc up flow rb).
Qed.

Lemma flow_step_cfg (self_addr : Z) (flow flow' : flow_entry) (op : flow_op) :
  flow_step self_addr flow op = Some flow' -> cfg flow' = cfg flow.
Proof.
  intros Hstep.
  destruct op as [j c rb | j c a rb | a rb | | | fuel j c]; cbn in Hstep.
  - injection Hstep as <-. apply sdu_write_locked_cfg.
  - injection Hstep as <-. apply sdu_rx_on_flow_cfg.
  - injection Hstep as <-. apply (sdu_rx_consumed_frame self_addr a flow rb).
  - injection Hstep as <-. reflexivity.
  - injection Hstep as <-. reflexivity.
  - destruct (rtx_tmr_cb fuel j c self_addr flow) as [[f evs] |] eqn:E;
      [| discriminate].
    injection Hstep as <-. apply (rtx_tmr_cb_frame _ _ _ _ _ _ _ E).
Qed.

Lemma flow_run_cfg (self_addr : Z) (ops : list flow_op) :
  forall (flow flow' : flow_entry),
    flow_run self_addr flow ops = Some flow' -> cfg flow' = cfg flow.
Proof.
  induction ops as [| op ops IH]; intros flow flow' Hrun;
    cbn [flow_run] in Hrun.
  - injection Hrun as <-. reflexivity.
  - destruct (flow_step self_addr flow op) as [flow1 |] eqn:E; [| discriminate].
    rewrite (IH _ _ Hrun). exact (flow_step_cfg _ _ _ _ E).
Qed.

(** Every operation keeps the bookkeeping of the queues of the sender. *)
Lemma flow_step_sndq (self_addr : Z) (flow flow' : flow_entry) (op : flow_op) :
  0 <= w_max_cwq_len (cfg flow) < 2 ^ 31 ->
  sndq_inv flow ->
  flow_step self_addr flow op = Some flow' ->
  sndq_inv flow'.
Proof.
  intros HW Hinv Hstep.
  destruct op as [j c rb | j c a rb | a rb | | | fuel j c]; cbn in Hstep.
  - injection Hstep as <-. apply sdu_write_locked_sndq; assumption.
  - injection Hstep as <-.
    unfold sdu_rx_on_flow. destruct (negb _).
    + apply sdu_rx_ctrl_sndq; [lia | exact Hinv].
    + eapply sndq_inv_frame;
        [apply sdu_rx_data_frame | apply sdu_rx_data_qframe | exact Hinv].
  - injection Hstep as <-.
    eapply sndq_inv_frame;
      [apply sdu_rx_consumed_frame | apply sdu_rx_consumed_qframe | exact Hinv].
  - injection Hstep as <-. exact Hinv.
  - injection Hstep as <-. exact Hinv.
  - destruct (rtx_tmr_cb fuel j c self_addr flow) as [[f evs] |] eqn:E;
      [| discriminate].
    injection Hstep as <-. exact (rtx_tmr_cb_sndq _ _ _ _ _ _ _ E Hinv).
Qed.

Lemma flow_run_sndq (self_addr : Z) (ops : list flow_op) :
  forall (flow flow' : flow_entry),
    0 <= w_max_cwq_len (cfg flow) < 2 ^ 31 ->
    sndq_inv flow ->
    flow_run self_addr flow ops = Some flow' ->
    sndq_inv flow'.
Proof.
  induction ops as [| op ops IH]; intros flow flow' HW Hinv Hrun;
    cbn [flow_run] in Hrun.
  - injection Hrun as <-. exact Hinv.
  - destruct (flow_step self_addr flow op) as [flow1 |] eqn:E; [| discriminate].
    pose proof (flow_step_sndq _ _ _ _ HW Hinv E) as Hinv1.
    rewrite <- (flow_step_cfg _ _ _ _ E) in HW.
    exact (IH flow1 flow' HW Hinv1 Hrun).
Qed.

Lemma fresh_flow_sndq (msecs_to_jiffies : Z -> Z) (dif_mpl : option Z)
    (c : flow_config) (raddr rcep lcep : Z) (upper : bool) :
  0 <= w_max_cwq_len c ->
  sndq_inv (fresh_flow msecs_to_jiffies dif_mpl c raddr rcep lcep upper).
Proof.
  intros HW.
  unfold sndq_inv, fresh_flow, rlite_normal_flow_init, blank_flow, blank_dtp.
  cbn [cfg flow_dtp with_cfg with_dtp w_max_cwq_len fc_type rtx_control cwq
       cwq_len rtxq rtxq_len max_cwq_len max_rtxq_len length].
  repeat split; try reflexivity; lia.
Qed.

Lemma reachable_sndq (self_addr : Z) (flow : flow_entry) :
  reachable self_addr flow ->
  0 <= w_max_cwq_len (cfg flow) < 2 ^ 31 ->
  sndq_inv flow.
Proof.
  intros [m [dif [c [ra [rc [lc [up [ops [_ Hrun]]]]]]]]] HW.
  pose proof (flow_run_cfg _ _ _ _ Hrun) as Hc. rewrite Hc in HW.
  eapply flow_run_sndq; [exact HW | | exact Hrun].
  apply fresh_flow_sndq. apply HW.
Qed.

(** X25.  The queues of the sender are bounded.  On every flow that a run
    of operations produces from a new flow whose configured [max_cwq_len]
    is below 2^31, the counters [cwq_len] and [rtxq_len] are the lengths
    of [cwq] and [rtxq]; [cwq] holds at most [max_cwq_len] buffers; [rtxq]
    is empty without retransmission control, and [rtxq] and [cwq] together
    hold at most 64 + [max_cwq_len] buffers. *)
Theorem snd_queues_bounded
    (self_addr : Z) (flow : flow_entry)
    (Hreach : reachable self_addr flow)
    (Hcfg : 0 <= w_max_cwq_len (cfg flow) < 2 ^ 31) :
  let d := flow_dtp flow in
  cwq_len d = Z.of_nat (length (cwq d))
  /\ rtxq_len d = Z.of_nat (length (rtxq d))
  /\ Z.of_nat (length (cwq d)) <= w_max_cwq_len (cfg flow)
  /\ Z.of_nat (length (rtxq d)) + Z.of_nat (length (cwq d))
     <= 64 + w_max_cwq_len (cfg flow)
  /\ (rtx_control (cfg flow) = false -> rtxq d = []).
Proof.
  pose proof (reachable_sndq self_addr flow Hreach Hcfg) as Hinv.
  unfold sndq_inv in Hinv. cbv zeta in *. tauto.
Qed.

(** The flow of the example (credit 2, a queue of 4) on which five SDUs
    were written: three are in [rtxq], two in [cwq]. *)
Lemma snd_queues_bounded_witness :
  let flow := ex_write ex_sent 4 in
  let d := flow_dtp flow in
  reachable 1 flow
  /\ w_max_cwq_len (cfg flow) = 4
  /\ cwq_len d = 2 /\ rtxq_len d = 3
  /\ cwq_len d = Z.of_nat (length (cwq d))
  /\ rtxq_len d = Z.of_nat (length (rtxq d))
  /\ Z.of_nat (length (cwq d)) <= w_max_cwq_len (cfg flow)
  /\ Z.of_nat (length (rtxq d)) + Z.of_nat (length (cwq d))
     <= 64 + w_max_cwq_len (cfg flow)
  /\ (rtx_control (cfg flow) = false -> rtxq d = []).
Proof.
  intros flow d.
  assert (H : reachable 1 flow).
  { exists (fun m => m), None, ex_cfg_win, 2, 20, 10, false, (ex_write_ops 5 0).
    split; vm_compute; reflexivity. }
  assert (Hc : 0 <= w_max_cwq_len (cfg flow) < 2 ^ 31)
    by (vm_compute; split; [discriminate | reflexivity]).
  split; [exact H |]. split; [vm_compute; reflexivity |].
  split; [vm_compute; reflexivity |]. split; [vm_compute; reflexivity |].
  exact (snd_queues_bounded 1 flow H Hc).
Defined.
